(* ===== verification/_CoqProject ===== *)
-Q . S2P
Prelude.v
Document.v
Rjson.v
RjsonProps.v
RjsonTyping.v
Json.v
Wjson.v
WjsonProps.v
JsonRoundtrip.v
Wdb.v
WdbProps.v
Rdb.v
RdbProps.v
DbRoundtrip.v
Https.v
HttpsProps.v
HttpsAnswers.v
HttpsLife.v
HttpsDemo.v
AfsChild.v
AfsChildProps.v
AfsProc.v
AfsProcProps.v
AfsProto.v
Afs.v
AfsProps.v
AfsLife.v
AfsCalls.v
AfsSave.v
AfsDemo.v
AfsCopy.v
Bot.v
