(* ===== verification/Prelude.v ===== *)
(** * Sociobot: a verification development of its C code

    Sociobot ([src/src]) is a bot in C89 made of small modules without a
    framework: readers and writers of two text formats, an HTTPS client on top of
    libcurl and an asynchronous file system made of worker processes.  All of
    them are driven by one event loop: a module hands out descriptors to poll
    ([*_pollfds]), is updated with the result ([*_update]), and reports events
    ([*_evs]).  This library models the modules function by function and proves
    what makes them correct; where the code does something else than it means to,
    a theorem says what it does.

    ** Method

    A C function becomes a function in the monad [CM S] of this file: it takes
    the state [S] of its module (and of the outside world) and ends with a value
    and a new state ([Ret]), with [SOB_PANIC] ([Panic], [src/src/panic.c], with the
    file, the line and the message it prints), or in undefined behaviour ([Undef]:
    an access outside an array, a NULL or dangling pointer, signed overflow, the
    wrong member of a union).  [wp m Q s] says that [m] returns from [s] in a
    state that satisfies [Q]; so a theorem that a call returns excludes panics,
    undefined behaviour and endless loops.  [pwp] is partial correctness and is
    used only in lemmas.  A [char] is an integer in
    [Z] (the target's [char] is signed), [int] counters are checked for overflow
    where the code does not bound them, buffers are lists written at an index
    inside their length.  A [double] is a [spec_float] of the Standard Library.

    Loops over data are structural.  Loops whose end depends on the outside -
    retries after a signal, libcurl's message queue, [rjson_next] calling itself
    again for the delayed character, the chunks of a copied file - take fuel, and
    running out of it is [Undef]; the theorems show how much is enough: one unit more than there are
    interruptions or messages left (a measure given by the laws below), two for
    the delayed character, one more than the source of a copy fills buffers.

    Code outside [src/src] is a parameter: libcurl and the clock are the record
    [curl_env] with the laws [CurlLaws]; the kernel is [os_env] for a worker and
    [os_penv] for its parent, with the laws [WriteLaws], [ParentLaws] and
    [ChanLaws]; [pow] is an argument of the number readers.  The laws are documented behaviour
    (signals interrupt a call finitely often, a new descriptor is not -1, [write]
    returns at most what it was given, a byte written to a socket is in the stream
    exactly when [write] says so); concrete environments that satisfy
    them ([sim_env], [disk_env], [kernel_env], [link_env], [mach_env]) are used in the
    witnesses.

    ** Files

    - [Prelude]: characters, the monad and its rules (hint database [cm], tactic
      [wp_step]), buffers, decimal and floating-point printing as by [printf].
    - [Document]: the abstract documents of the two formats and their texts.
    - JSON reader, [src/src/rjson.c].  [Rjson]: [rjson_ctx] with the union [sd],
      [rjson_next] with its states, the demo program.  [RjsonProps]: the
      invariant [wf] and safety of every call.  [RjsonTyping]: the rules of token streams,
      the re-announced tokens included, and that the reader obeys them on any input.  [Json]: reading a document.
    - JSON writer, [src/src/wjson.c].  [Wjson]: [wjson_ctx] and every call.
      [WjsonProps]: refinement of an abstract writer, layout of documents.
      [JsonRoundtrip]: reader after writer, and cases that fail.
    - Database writer, [src/src/wdb.c].  [Wdb], [WdbProps]: every call appends
      its text or restores the length.
    - Database reader, [src/src/rdb.c].  [Rdb], [RdbProps]: states and safety.
      [DbRoundtrip]: reader after writer, and keys and strings that do not
      survive.
    - HTTPS client, [src/src/https.c].  [Https]: [https_mod], the callbacks
      libcurl makes while it runs (a tree of callbacks, [curl_run]), [https_update],
      requests, stop.  Handles are null, live or freed; a call that hands a freed
      handle to libcurl is undefined.  [HttpsProps]: the descriptor table as a finite map, the
      invariant [hinv].  [HttpsAnswers]: what an update makes of libcurl's
      answers.  [HttpsLife]: sequences of calls, events, defects.
      [HttpsDemo]: the demo program.
    - Asynchronous file system, [src/src/afs.c].  [AfsChild]: the worker process
      and its commands; [AfsChildProps]: which system calls a command makes.
      [AfsProc]: the parent's record of a worker ([proc_]); [AfsProcProps]: its
      invariant [pwf] and what an update reports.  [AfsProto]: both sides as a
      transition system over the shared memory and the socket pair, in which a
      command is executed in several steps, the worker may die at any moment,
      the parent may store into the memory of a busy worker, and [poll] reports a
      hang-up when the worker is gone.  [Afs]: the
      context with its list of workers and the interface in [src/src/afs.h];
      [AfsProps]: the invariant [awf] and a lemma for every call; [AfsLife]:
      reachable states, events, descriptors, defects; [AfsCalls]: single calls
      on all their branches, and where machine integers wrap around.  [AfsSave]:
      client, worker and update together save a file.  [AfsDemo]: the demo
      program, and a machine with a file system on which it and its workers run;
      [AfsCopy]: on that machine it copies any file.
    - [Bot]: event types, the stubs of the Telegram module, the main program
      ([src/src/ev.c], [src/src/tg.c], [src/src/main.c]).

    The components meet in three places.  The formats: [Document] gives the
    abstract syntax that the writers produce and the readers consume.  The
    worker: [AfsProto] composes [AfsChild] and [AfsProc], [AfsSave] a call of the
    client with the worker that executes it; [AfsProps] uses [AfsProc] only
    through the lemmas of [AfsProcProps], which hold whatever the worker writes
    into the shared memory.  The outside: every client theorem is proved
    against a class of laws, except those on the demo program of the file system
    ([AfsCopy]), which run on one machine and under one schedule of the workers.

    ** What the theorems show

    - Readers: on any input a call returns, stays inside its buffers and keeps
      the invariant, and documents are read as exactly their tokens; the tokens
      of the JSON reader are well typed on any input, as it announces them.
    - Writers: a call appends exactly the text of its token or reports an error;
      the database writer then restores its length, the JSON writer stays in
      bounds.
    - Round trips: what a writer wrote, its reader reads back, for the documents
      that a predicate admits; documents for which this fails are named in separate
      theorems.
    - HTTPS client: any sequence of calls that uses no handle after the cleanup is
      safe against any libcurl that obeys its contract; the events of an update in
      each state, and from libcurl's answers; one request at a time; the demo
      program, when its resources can be had, ends well or is waiting for its request.
    - File system: a worker's commands make the right system calls in the right
      order; commands are executed at most once and reported exactly once, with the
      worker's result unless the worker was found gone; a worker that is alive
      answers; the context is safe in every reachable state, an update reports
      exactly what its workers' updates stand for, descriptors are new, a command
      that waited for its worker is sent; a file is reported as saved only when
      it is; the demo program, when every worker runs while it waits, copies any file
      chunk by chunk and leaves nothing open.
    - Defects: a stop that never ends, a second stop that frees twice, an exit that
      is reported as a failure, flags that are not those of [poll], a freed
      worker that is alive, a NULL pointer, a length that wraps around, unsynced
      directories, values that a reader refuses or a writer spoils.

    ** Not modelled

    [src/src/tgdb.c] is unfinished and not a C program: it uses undeclared types,
    enumerators and functions and defines few of its operations.  [src/lib] is
    third-party code.  Sizes of objects that exist in memory are natural numbers
    and do not wrap around; a length that a caller may choose freely does
    ([size_add]), and so do positions ([size_succ]).  What programs print, other
    than panics, is left out, and so are the panics behind a [switch] over all
    enumerators, which no value of the type reaches; leaked memory is not
    tracked. *)

From stdpp Require Import base list numbers strings option.
From Stdlib Require Import SpecFloat Lia.

(** ** Characters

    A C [char] of the target (x86-64, musl) is a signed 8-bit integer; it is
    kept as its value in [Z].  The abbreviations below are the character
    constants of the source. *)
Abbreviation char := Z (only parsing).
Abbreviation ch_nul := 0%Z (only parsing).
Abbreviation ch_bs := 8%Z (only parsing).
Abbreviation ch_tab := 9%Z (only parsing).
Abbreviation ch_lf := 10%Z (only parsing).
Abbreviation ch_ff := 12%Z (only parsing).
Abbreviation ch_cr := 13%Z (only parsing).
Abbreviation ch_sp := 32%Z (only parsing).
Abbreviation ch_quote := 34%Z (only parsing).
Abbreviation ch_plus := 43%Z (only parsing).
Abbreviation ch_comma := 44%Z (only parsing).
Abbreviation ch_minus := 45%Z (only parsing).
Abbreviation ch_dot := 46%Z (only parsing).
Abbreviation ch_slash := 47%Z (only parsing).
Abbreviation ch_0 := 48%Z (only parsing).
Abbreviation ch_9 := 57%Z (only parsing).
Abbreviation ch_colon := 58%Z (only parsing).
Abbreviation ch_lt := 60%Z (only parsing).
Abbreviation ch_gt := 62%Z (only parsing).
Abbreviation ch_A := 65%Z (only parsing).
Abbreviation ch_E := 69%Z (only parsing).
Abbreviation ch_Z := 90%Z (only parsing).
Abbreviation ch_lbrack := 91%Z (only parsing).
Abbreviation ch_bslash := 92%Z (only parsing).
Abbreviation ch_rbrack := 93%Z (only parsing).
Abbreviation ch_under := 95%Z (only parsing).
Abbreviation ch_a := 97%Z (only parsing).
Abbreviation ch_b := 98%Z (only parsing).
Abbreviation ch_e := 101%Z (only parsing).
Abbreviation ch_f := 102%Z (only parsing).
Abbreviation ch_n := 110%Z (only parsing).
Abbreviation ch_r := 114%Z (only parsing).
Abbreviation ch_t := 116%Z (only parsing).
Abbreviation ch_u := 117%Z (only parsing).
Abbreviation ch_z := 122%Z (only parsing).
Abbreviation ch_lbrace := 123%Z (only parsing).
Abbreviation ch_rbrace := 125%Z (only parsing).

(** Range of a signed [char]. *)
Definition is_char (ch : char) : bool := ((-128 <=? ch) && (ch <=? 127))%Z.

(** A C string literal, without its terminating NUL. *)
Definition lit (s : string) : list char :=
  map (fun a => Z.of_N (Ascii.N_of_ascii a)) (String.list_ascii_of_string s).

(** The C string stored in a buffer: the bytes before the first NUL, [None]
    when the buffer holds no NUL (reading it as a string leaves the buffer). *)
Fixpoint cstr (buf : list char) : option (list char) :=
  match buf with
  | [] => None
  | ch :: buf => if (ch =? ch_nul)%Z then Some [] else (fun s => ch :: s) <$> cstr buf
  end.

(** ** Machine integers *)
Definition INT_MAX : Z := 2147483647.
Definition INT_MIN : Z := -2147483648.
Definition in_int (z : Z) : bool := ((INT_MIN <=? z) && (z <=? INT_MAX))%Z.

(** [x + 1] on a [size_t]. *)
Definition size_succ (x : Z) : Z := ((x + 1) mod 2 ^ 64)%Z.
Definition size_add (x y : Z) : Z := ((x + y) mod 2 ^ 64)%Z.

(** ** Doubles

    [double] is IEEE binary64 as specified by the Standard Library's
    [SpecFloat]: multiplication and addition round to nearest even. *)
Definition double : Type := spec_float.
Definition dmul : double -> double -> double := SFmul 53 1024.
Definition dadd : double -> double -> double := SFadd 53 1024.
Definition d_of_int (z : Z) : double := binary_normalize 53 1024 z 0 false.

(** ** Outcomes and state

    A call returns, reports a bug and exits ([SOB_PANIC]), or runs into
    undefined behaviour (an access outside an object, a read of the wrong
    union member, a signed overflow, a NULL dereference).  A report has the file
    and line of the call and the message with its arguments filled in; what
    [sob_panic] makes of it is [panic_stderr] and [panic_status] below. *)
Record panic_report := { pr_file : list char; pr_line : Z; pr_msg : list char }.

Inductive outcome (A : Type) : Type :=
| Ret (a : A)
| Panic (r : panic_report)
| Undef.
Arguments Ret {A} a.
Arguments Panic {A} r.
Arguments Undef {A}.

(** A C function on a context [S] that returns an [A]. *)
Definition CM (S A : Type) : Type := S -> outcome (A * S).

#[export] Instance cm_ret S : MRet (CM S) := fun A a s => Ret (a, s).
#[export] Instance cm_bind S : MBind (CM S) := fun A B k m s =>
  match m s with
  | Ret (a, s') => k a s'
  | Panic r => Panic r
  | Undef => Undef
  end.

Definition getc {S} : CM S S := fun s => Ret (s, s).
Definition modc {S} (f : S -> S) : CM S unit := fun s => Ret (tt, f s).
Definition sob_panic {S A} (file : list char) (line : Z) (msg : list char) : CM S A :=
  fun _ => Panic {| pr_file := file; pr_line := line; pr_msg := msg |}.
Definition undef {S A} : CM S A := fun _ => Undef.
Definition reads {S A} (f : S -> A) : CM S A := fun s => Ret (f s, s).
Definition assertc {S} (b : bool) (file : list char) (line : Z) (msg : list char) : CM S unit :=
  if b then mret tt else sob_panic file line msg.

(** A signed [int] result: leaving its range is undefined. *)
Definition int_chk {S} (z : Z) : CM S Z := if in_int z then mret z else undef.

(** [buf[i] = ch] on an array: writing outside it is undefined. *)
Definition buf_set {S} (buf : list char) (i : nat) (ch : char) : CM S (list char) :=
  if decide (i < length buf) then mret (<[i := ch]> buf) else undef.

(** The result and the final state of a call, when it returns. *)
Definition ret_of {A} (o : outcome A) : option A :=
  match o with Ret a => Some a | _ => None end.

(** ** Weakest preconditions

    [wp m Q s]: the call [m] on [s] returns, and its result and final context
    satisfy [Q]; a panic or undefined behaviour falsifies it. *)
Definition wp {S A} (m : CM S A) (Q : A -> S -> Prop) (s : S) : Prop :=
  match m s with
  | Ret (a, s') => Q a s'
  | _ => False
  end.

Create HintDb cm discriminated.
Create Rewrite HintDb cm.

Section wp_rules.
Context {S : Type}.
Implicit Types (s : S).

Lemma wp_ret {A} (a : A) Q s : wp (mret a) Q s <-> Q a s.
Proof. done. Qed.

Lemma wp_bind {A B} (m : CM S A) (k : A -> CM S B) Q s :
  wp (m ≫= k) Q s <-> wp m (fun a s' => wp (k a) Q s') s.
Proof. unfold wp, mbind, cm_bind. by destruct (m s) as [[]| |]. Qed.

Lemma wp_mono {A} (m : CM S A) (P Q : A -> S -> Prop) s :
  wp m P s -> (forall a s', P a s' -> Q a s') -> wp m Q s.
Proof. unfold wp. destruct (m s) as [[]| |]; eauto. Qed.

Lemma wp_conj {A} (m : CM S A) (P Q : A -> S -> Prop) s :
  wp m P s -> wp m Q s -> wp m (fun a s' => P a s' /\ Q a s') s.
Proof. unfold wp. destruct (m s) as [[a s']| |]; auto. Qed.

Lemma wp_getc Q s : wp getc Q s <-> Q s s.
Proof. done. Qed.

Lemma wp_modc f Q s : wp (modc f) Q s <-> Q tt (f s).
Proof. done. Qed.

Lemma wp_reads {A} (f : S -> A) Q s : wp (reads f) Q s <-> Q (f s) s.
Proof. done. Qed.

Lemma wp_assertc b f l t Q s : wp (assertc b f l t) Q s <-> b = true /\ Q tt s.
Proof. destruct b; unfold wp; cbn; [tauto|by split; [|intros []]]. Qed.

Lemma wp_int_chk z Q s : wp (int_chk z) Q s <-> in_int z = true /\ Q z s.
Proof. unfold int_chk. destruct (in_int z); unfold wp; cbn; [tauto|by split; [|intros []]]. Qed.

Lemma wp_buf_set buf i ch Q s :
  wp (buf_set buf i ch) Q s <-> i < length buf /\ Q (<[i := ch]> buf) s.
Proof. unfold buf_set. case_decide; unfold wp; cbn; tauto. Qed.

(** From [wp] back to the run. *)
Lemma wp_Ret {A} (m : CM S A) Q s :
  wp m Q s -> exists a s', m s = Ret (a, s') /\ Q a s'.
Proof. unfold wp. destruct (m s) as [[]| |]; naive_solver. Qed.

Lemma wp_run {A} (m : CM S A) Q s a s' : m s = Ret (a, s') -> Q a s' -> wp m Q s.
Proof. unfold wp. by intros ->. Qed.

Lemma bind_Ret {A B} (m : CM S A) (k : A -> CM S B) s a s' :
  m s = Ret (a, s') -> (m ≫= k) s = k a s'.
Proof. unfold mbind, cm_bind. by intros ->. Qed.
End wp_rules.

Lemma wp_if {S A} (b : bool) (m1 m2 : CM S A) Q s :
  (b = true -> wp m1 Q s) -> (b = false -> wp m2 Q s) ->
  wp (if b then m1 else m2) Q s.
Proof. destruct b; auto. Qed.

#[export] Hint Rewrite @wp_bind @wp_ret @wp_getc @wp_modc @wp_reads @wp_assertc
  @wp_int_chk @wp_buf_set : cm.

(** *** Partial correctness

    [pwp m Q s]: if the call returns, its result and final context satisfy [Q]. *)
Definition pwp {S A} (m : CM S A) (Q : A -> S -> Prop) (s : S) : Prop :=
  match m s with
  | Ret (a, s') => Q a s'
  | _ => True
  end.

Section pwp_rules.
Context {S : Type}.
Implicit Types (s : S).

Lemma pwp_ret {A} (a : A) Q s : pwp (mret a) Q s <-> Q a s.
Proof. done. Qed.

Lemma pwp_bind {A B} (m : CM S A) (k : A -> CM S B) Q s :
  pwp (m ≫= k) Q s <-> pwp m (fun a s' => pwp (k a) Q s') s.
Proof. unfold pwp, mbind, cm_bind. by destruct (m s) as [[]| |]. Qed.

Lemma pwp_mono {A} (m : CM S A) (P Q : A -> S -> Prop) s :
  pwp m P s -> (forall a s', P a s' -> Q a s') -> pwp m Q s.
Proof. unfold pwp. destruct (m s) as [[]| |]; eauto. Qed.

Lemma pwp_getc Q s : pwp getc Q s <-> Q s s.
Proof. done. Qed.

Lemma pwp_modc f Q s : pwp (modc f) Q s <-> Q tt (f s).
Proof. done. Qed.

Lemma pwp_reads {A} (f : S -> A) Q s : pwp (reads f) Q s <-> Q (f s) s.
Proof. done. Qed.

Lemma pwp_panic {A} f l t Q s : pwp (sob_panic f l t : CM S A) Q s <-> True.
Proof. done. Qed.

Lemma pwp_undef {A} Q s : pwp (undef : CM S A) Q s <-> True.
Proof. done. Qed.

Lemma pwp_assertc b f l t Q s : pwp (assertc b f l t) Q s <-> (b = true -> Q tt s).
Proof. destruct b; unfold pwp; cbn; [tauto|by split]. Qed.

Lemma pwp_run {A} (m : CM S A) Q s a s' : pwp m Q s -> m s = Ret (a, s') -> Q a s'.
Proof. unfold pwp. by intros ? H; rewrite H in *. Qed.
End pwp_rules.

Lemma pwp_if {S A} (b : bool) (m1 m2 : CM S A) Q s :
  (b = true -> pwp m1 Q s) -> (b = false -> pwp m2 Q s) ->
  pwp (if b then m1 else m2) Q s.
Proof. destruct b; auto. Qed.

#[export] Hint Rewrite @pwp_bind @pwp_ret @pwp_getc @pwp_modc @pwp_reads @pwp_panic @pwp_undef
  @pwp_assertc : cm.

(** One step of symbolic execution of a [wp] goal. *)
Ltac wp_step := autorewrite with cm; cbv beta.

(** Turn boolean comparisons in the context into arithmetic facts. *)
Ltac bool_facts :=
  repeat match goal with
  | H : (_ && _) = true |- _ => apply andb_true_iff in H as [? ?]
  | H : (_ || _) = false |- _ => apply orb_false_iff in H as [? ?]
  | H : negb _ = true |- _ => apply negb_true_iff in H
  | H : negb _ = false |- _ => apply negb_false_iff in H
  | H : (_ =? _)%Z = true |- _ => apply Z.eqb_eq in H
  | H : (_ =? _)%Z = false |- _ => apply Z.eqb_neq in H
  | H : (_ <=? _)%Z = true |- _ => apply Z.leb_le in H
  | H : (_ <=? _)%Z = false |- _ => apply Z.leb_gt in H
  | H : (_ <? _)%Z = true |- _ => apply Z.ltb_lt in H
  | H : (_ <? _)%Z = false |- _ => apply Z.ltb_ge in H
  end.

(** ** Lists and buffers *)
Lemma take_insert_snoc {A} (l : list A) n x :
  n < length l -> take (S n) (<[n := x]> l) = take n l ++ [x].
Proof.
  intros Hn. erewrite take_S_r by (by apply list_lookup_insert_eq).
  by rewrite take_insert_ge.
Qed.

Lemma cstr_app_nul s rest :
  Forall (fun ch => ch <> ch_nul) s -> cstr (s ++ ch_nul :: rest) = Some s.
Proof.
  induction 1 as [|ch s Hch _ IH]; [done|]. cbn.
  apply Z.eqb_neq in Hch as ->. by rewrite IH.
Qed.

Lemma cstr_take_nul buf n :
  buf !! n = Some ch_nul -> Forall (fun ch => ch <> ch_nul) (take n buf) ->
  cstr buf = Some (take n buf).
Proof.
  intros Hn Hf. rewrite <- (take_drop_middle buf n ch_nul Hn) at 1.
  by apply cstr_app_nul.
Qed.

(** A buffer whose last byte is NUL always holds a C string. *)
Lemma cstr_is_Some buf i : buf !! i = Some ch_nul -> is_Some (cstr buf).
Proof.
  revert i. induction buf as [|ch buf IH]; intros i Hi; [done|]. cbn.
  destruct (Z.eqb_spec ch ch_nul); [eauto|].
  destruct i as [|i]; [by simplify_eq/=|].
  destruct (IH i Hi) as [s ->]. by eexists.
Qed.

(** [t] written over a buffer from position [i] on. *)
Definition splice (buf : list char) (i : nat) (t : list char) : list char :=
  take i buf ++ t ++ drop (i + length t) buf.

Lemma splice_nil buf i : splice buf i [] = buf.
Proof. unfold splice. cbn. by rewrite Nat.add_0_r, take_drop. Qed.

Lemma splice_app buf i t1 t2 : i <= length buf ->
  splice (splice buf i t1) (i + length t1) t2 = splice buf i (t1 ++ t2).
Proof.
  intros Hi. unfold splice. assert (length (take i buf) = i) as Hl by (rewrite length_take; lia).
  rewrite length_app. rewrite take_app, take_ge by lia. rewrite Hl.
  replace (i + length t1 - i) with (length t1) by lia. rewrite take_app_length.
  rewrite drop_app, (drop_ge (take i buf)) by lia. rewrite Hl. cbn [app].
  rewrite drop_app, (drop_ge t1) by lia. cbn [app]. rewrite drop_drop, <- !app_assoc.
  do 4 f_equal. lia.
Qed.

Lemma splice_length buf i t : i + length t <= length buf -> length (splice buf i t) = length buf.
Proof. intros. unfold splice. rewrite !length_app, length_take, length_drop. lia. Qed.

Lemma splice_insert buf i ch : i < length buf -> <[i := ch]> buf = splice buf i [ch].
Proof.
  intros Hi. unfold splice. cbn. by rewrite insert_take_drop, Nat.add_1_r by done.
Qed.

Lemma splice_drop buf i t : i <= length buf -> drop (i + length t) (splice buf i t) = drop (i + length t) buf.
Proof.
  intros Hi. unfold splice. rewrite app_assoc. apply drop_app_length'.
  rewrite length_app, length_take. lia.
Qed.

Definition no_nul (s : list char) : Prop := Forall (fun ch => ch <> ch_nul) s.

Lemma cstr_app s rest tail : no_nul s -> cstr rest = Some tail -> cstr (s ++ rest) = Some (s ++ tail).
Proof.
  induction 1 as [|ch s Hch _ IH]; intros Hr; [done|]. cbn. apply Z.eqb_neq in Hch as ->.
  by rewrite IH.
Qed.

(** The stack held by the first [n] entries of an array. *)
Lemma take_pred_snoc {A} (l : list A) n xs x :
  take n l = xs ++ [x] -> n <= length l ->
  n <> 0 /\ l !! (n - 1) = Some x /\ take (n - 1) l = xs.
Proof.
  intros Ht Hn. assert (length (take n l) = S (length xs)) as Hlen.
  { rewrite Ht, length_app; cbn; lia. }
  rewrite length_take in Hlen. assert (n = S (length xs)) as -> by lia.
  replace (S (length xs) - 1) with (length xs) by lia. repeat split; [lia| |].
  - rewrite <- (lookup_take_lt l (S (length xs))) by lia. rewrite Ht.
    by rewrite lookup_app_r, Nat.sub_diag by lia.
  - apply (f_equal (take (length xs))) in Ht.
    rewrite take_take in Ht. replace (length xs `min` S (length xs)) with (length xs) in Ht by lia.
    by rewrite Ht, take_app_length.
Qed.

(** ** Decimal printing, as by [printf("%li")] and [printf("%lli")] *)
Fixpoint dec_digits (fuel : nat) (n : Z) (acc : list char) : list char :=
  match fuel with
  | O => acc
  | S fuel =>
      let acc := (ch_0 + n mod 10)%Z :: acc in
      if (n <? 10)%Z then acc else dec_digits fuel (n / 10)%Z acc
  end.

Definition print_nat (n : Z) : list char := dec_digits (S (Z.to_nat (Z.log2 n))) n [].

Definition print_int (z : Z) : list char :=
  if (z <? 0)%Z then ch_minus :: print_nat (- z) else print_nat z.

(** What [sob_panic] prints on [stderr] before [exit(-1)], and the status the
    parent process sees. *)
Definition panic_stderr (r : panic_report) : list char :=
  lit "PANIC (BUG!) @ " ++ pr_file r ++ ch_colon :: print_int (pr_line r) ++ lit " : " ++ pr_msg r ++ [ch_lf].
Definition panic_status : Z := ((-1) mod 256)%Z.

(** The number a list of digits denotes. *)
Definition digits_val (ds : list char) : Z :=
  foldl (fun a d => a * 10 + (d - ch_0))%Z 0%Z ds.

Definition is_dec (ch : char) : Prop := (ch_0 <= ch <= ch_9)%Z.

Lemma dec_digits_spec fuel n acc : (0 <= n < 10 ^ Z.of_nat fuel)%Z -> fuel <> 0 ->
  exists ds, dec_digits fuel n acc = ds ++ acc /\ Forall is_dec ds /\ digits_val ds = n /\
    length ds <= fuel /\ exists d ds', ds = d :: ds' /\ (0 < n -> d <> ch_0)%Z.
Proof.
  unfold is_dec. revert n acc. induction fuel as [|fuel IH]; intros n acc Hn Hf; [done|].
  cbn [dec_digits]. pose proof (Z.mod_pos_bound n 10 ltac:(lia)) as Hm.
  destruct (Z.ltb_spec n 10) as [Hlt|Hge].
  - exists [(ch_0 + n mod 10)%Z]. rewrite Z.mod_small by lia. unfold digits_val. cbn.
    split_and!; [done|apply Forall_singleton; lia|lia|lia|]. eexists _, _; split; [done|lia].
  - assert (0 <= n / 10 < 10 ^ Z.of_nat fuel)%Z as Hd.
    { split; [apply Z.div_pos; lia|]. apply Z.div_lt_upper_bound; [lia|].
      rewrite <- Z.pow_succ_r by lia. rewrite <- Nat2Z.inj_succ. apply Hn. }
    assert (fuel <> 0) as Hf'.
    { intros ->. change (10 ^ Z.of_nat 1)%Z with 10%Z in Hn. lia. }
    destruct (IH (n / 10)%Z ((ch_0 + n mod 10)%Z :: acc) Hd Hf')
      as (ds & -> & Hds & Hv & Hl & d & ds' & -> & Hnz).
    exists ((d :: ds') ++ [(ch_0 + n mod 10)%Z]). rewrite <- app_assoc. split_and!; [done| | | |].
    + apply Forall_app. split; [done|]. apply Forall_singleton; lia.
    + unfold digits_val in *. rewrite foldl_app, Hv. cbn [foldl].
      pose proof (Z.div_mod n 10 ltac:(lia)). lia.
    + rewrite length_app; cbn; cbn in Hl; lia.
    + exists d, (ds' ++ [(ch_0 + n mod 10)%Z]). split; [done|]. intros _. apply Hnz.
      apply Z.div_str_pos; lia.
Qed.

Lemma print_nat_spec n : (0 <= n)%Z ->
  Forall is_dec (print_nat n) /\ digits_val (print_nat n) = n /\
  length (print_nat n) <= S (Z.to_nat (Z.log2 n)) /\
  exists d ds, print_nat n = d :: ds /\ (0 < n -> d <> ch_0)%Z.
Proof.
  intros Hn. unfold print_nat.
  destruct (dec_digits_spec (S (Z.to_nat (Z.log2 n))) n []) as (ds & -> & H1 & H2 & H3 & H4).
  - split; [done|]. rewrite Nat2Z.inj_succ, Z2Nat.id by apply Z.log2_nonneg.
    destruct (Z.eq_dec n 0%Z) as [->|]; [reflexivity|].
    apply Z.lt_le_trans with (2 ^ Z.succ (Z.log2 n))%Z; [apply Z.log2_spec; lia|].
    apply Z.pow_le_mono_l. lia.
  - done.
  - by rewrite app_nil_r.
Qed.

Lemma print_nat_length n k : (0 <= n < 2 ^ Z.of_nat k)%Z -> 0 < k -> length (print_nat n) <= k.
Proof.
  intros Hn Hk. destruct (print_nat_spec n) as (_ & _ & Hl & _); [lia|].
  destruct (Z.eq_dec n 0%Z) as [->|]; [cbn in *; lia|].
  assert (Z.log2 n < Z.of_nat k)%Z by (apply Z.log2_lt_pow2; lia).
  pose proof (Z.log2_nonneg n). lia.
Qed.

(** A number below [10^k] has at most [k] digits. *)
Lemma dec_digits_length fuel n acc k : (0 <= n < 10 ^ Z.of_nat k)%Z -> 0 < k ->
  length (dec_digits fuel n acc) <= k + length acc.
Proof.
  revert n acc k. induction fuel as [|fuel IH]; intros n acc k Hn Hk; cbn [dec_digits]; [lia|].
  destruct (Z.ltb_spec n 10) as [Hlt|Hge]; [cbn; lia|].
  destruct k as [|k]; [lia|]. rewrite Nat2Z.inj_succ, Z.pow_succ_r in Hn by lia.
  assert (k <> 0) by (intros ->; change (10 ^ Z.of_nat 0)%Z with 1%Z in Hn; lia).
  etransitivity; [apply (IH _ _ k)|cbn; lia]; [|lia].
  split; [apply Z.div_pos; lia|apply Z.div_lt_upper_bound; lia].
Qed.

Lemma print_nat_length10 n k : (0 <= n < 10 ^ Z.of_nat k)%Z -> 0 < k -> length (print_nat n) <= k.
Proof. intros. unfold print_nat. rewrite (dec_digits_length _ _ _ k) by done. cbn. lia. Qed.

(** *** [printf("%f")]

    Six digits after the point, of the exact value rounded to nearest even. *)
Definition div_half_even (a b : Z) : Z :=
  let q := (a / b)%Z in
  let r2 := (2 * (a mod b))%Z in
  if (r2 <? b)%Z then q
  else if (b <? r2)%Z then (q + 1)%Z
  else if Z.even q then q else (q + 1)%Z.

Definition millionths (m : positive) (e : Z) : Z :=
  if (0 <=? e)%Z then (Z.pos m * 2 ^ e * 10 ^ 6)%Z
  else div_half_even (Z.pos m * 10 ^ 6) (2 ^ (- e)).

Definition pad6 (n : Z) : list char :=
  let ds := print_nat n in replicate (6 - length ds) ch_0 ++ ds.

Definition print_fixed6 (n : Z) : list char :=
  print_nat (n / 10 ^ 6) ++ ch_dot :: pad6 (n mod 10 ^ 6).

Definition print_double (d : double) : list char :=
  match d with
  | S754_zero s => (if s then [ch_minus] else []) ++ print_fixed6 0
  | S754_infinity s => (if s then [ch_minus] else []) ++ lit "inf"
  | S754_nan => lit "nan"
  | S754_finite s m e => (if s then [ch_minus] else []) ++ print_fixed6 (millionths m e)
  end.

(** Printed numbers hold no NUL and fit the buffers they are printed to. *)
Lemma dec_no_nul s : Forall is_dec s -> no_nul s.
Proof. intros H. eapply List.Forall_impl; [|exact H]. unfold is_dec. cbn. lia. Qed.

Lemma print_nat_no_nul n : (0 <= n)%Z -> no_nul (print_nat n).
Proof. intros Hn. apply dec_no_nul. by destruct (print_nat_spec n Hn). Qed.

Lemma print_int_no_nul z : no_nul (print_int z).
Proof.
  unfold print_int. destruct (Z.ltb_spec z 0); [constructor; [done|]|]; apply print_nat_no_nul; lia.
Qed.

Lemma print_int_length z : (- 2 ^ 63 <= z < 2 ^ 63)%Z -> length (print_int z) < 50.
Proof.
  intros Hz. assert (forall n, (0 <= n <= 2 ^ 63)%Z -> length (print_nat n) <= 20) as Hp.
  { intros n Hn. apply print_nat_length10; lia. }
  unfold print_int. destruct (Z.ltb_spec z 0); cbn [length];
    match goal with |- context [print_nat ?n] => specialize (Hp n ltac:(lia)) end; lia.
Qed.

Lemma print_fixed6_no_nul n : (0 <= n)%Z -> no_nul (print_fixed6 n).
Proof.
  intros Hn. unfold print_fixed6, pad6. apply Forall_app; split.
  { apply print_nat_no_nul, Z.div_pos; lia. }
  constructor; [done|]. apply Forall_app; split.
  { apply Forall_replicate. done. }
  apply print_nat_no_nul, Z.mod_pos_bound. lia.
Qed.

Lemma div_half_even_nonneg a b : (0 <= a)%Z -> (0 < b)%Z -> (0 <= div_half_even a b)%Z.
Proof.
  intros Ha Hb. unfold div_half_even. pose proof (Z.div_pos a b Ha Hb).
  repeat match goal with |- context [if ?x then _ else _] => destruct x end; lia.
Qed.

Lemma print_double_no_nul d : no_nul (print_double d).
Proof.
  assert (forall s : bool, no_nul (if s then [ch_minus] else [])) as Hs.
  { intros []; repeat constructor; done. }
  destruct d as [s|s| |s m e]; cbn [print_double]; try (apply Forall_app; split; [apply Hs|]).
  - by apply print_fixed6_no_nul.
  - repeat constructor; done.
  - repeat constructor; done.
  - apply print_fixed6_no_nul. unfold millionths. destruct (Z.leb_spec 0 e).
    + pose proof (Z.pow_nonneg 2 e ltac:(lia)). lia.
    + apply div_half_even_nonneg; [lia|]. apply Z.pow_pos_nonneg; lia.
Qed.
