(* ===== verification/Document.v ===== *)
(** * JSON documents

    Documents as values and their compact text, shared by the theorems on the
    reader and on the writer. *)

From stdpp Require Import base list numbers strings option.
From S2P Require Import Prelude.

Set Warnings "-register-all".

(** ** Documents *)
Inductive json :=
| JNull
| JBool (b : bool)
| JInt (z : Z)
| JStr (s : list char)
| JArr (vs : list json)
| JObj (kvs : list (list char * json)).

(** Induction through the lists. *)
Fixpoint json_ind' (P : json -> Prop)
    (Hnull : P JNull) (Hbool : forall b, P (JBool b)) (Hint : forall z, P (JInt z))
    (Hstr : forall s, P (JStr s)) (Harr : forall vs, Forall P vs -> P (JArr vs))
    (Hobj : forall kvs, Forall (fun kv => P kv.2) kvs -> P (JObj kvs)) (v : json) {struct v} : P v :=
  let rec := json_ind' P Hnull Hbool Hint Hstr Harr Hobj in
  match v with
  | JNull => Hnull
  | JBool b => Hbool b
  | JInt z => Hint z
  | JStr s => Hstr s
  | JArr vs => Harr vs ((fix go vs := match vs return Forall P vs with
      | [] => Forall_nil_2 _
      | v :: vs => Forall_cons_2 _ _ _ (rec v) (go vs)
      end) vs)
  | JObj kvs => Hobj kvs ((fix go kvs := match kvs return Forall (fun kv => P kv.2) kvs with
      | [] => Forall_nil_2 _
      | kv :: kvs => Forall_cons_2 _ _ _ (rec kv.2) (go kvs)
      end) kvs)
  end.

(** ** Text *)

(** The JSON escape of a character inside a string. *)
Definition esc (ch : char) : list char :=
  if (ch =? ch_bs)%Z then [ch_bslash; ch_b]
  else if (ch =? ch_ff)%Z then [ch_bslash; ch_f]
  else if (ch =? ch_lf)%Z then [ch_bslash; ch_n]
  else if (ch =? ch_cr)%Z then [ch_bslash; ch_r]
  else if (ch =? ch_tab)%Z then [ch_bslash; ch_t]
  else if (ch =? ch_quote)%Z then [ch_bslash; ch_quote]
  else if (ch =? ch_bslash)%Z then [ch_bslash; ch_bslash]
  else [ch].

Definition render_str (s : list char) : list char :=
  ch_quote :: (s ≫= esc) ++ [ch_quote].

Definition commas (l : list (list char)) : list char :=
  match l with
  | [] => []
  | x :: l => x ++ (l ≫= fun y => ch_comma :: y)
  end.

Fixpoint render (v : json) : list char :=
  match v with
  | JNull => lit "null"
  | JBool true => lit "true"
  | JBool false => lit "false"
  | JInt z => print_int z
  | JStr s => render_str s
  | JArr vs => ch_lbrack :: commas (map render vs) ++ [ch_rbrack]
  | JObj kvs => ch_lbrace ::
      commas (map (fun kv => render_str kv.1 ++ ch_colon :: render kv.2) kvs) ++ [ch_rbrace]
  end.

(** ** Size and characters *)

(** Printable ASCII and the characters with a short escape. *)
Definition char_ok (ch : char) : bool :=
  ((32 <=? ch) && (ch <=? 126))%Z || (ch =? ch_bs)%Z || (ch =? ch_tab)%Z || (ch =? ch_lf)%Z
  || (ch =? ch_ff)%Z || (ch =? ch_cr)%Z.

Definition str_ok (n : nat) (s : list char) : bool := forallb char_ok s && bool_decide (length s < n).

Fixpoint depth (v : json) : nat :=
  match v with
  | JArr vs => S (list_max (map depth vs))
  | JObj kvs => S (list_max (map (fun kv => depth kv.2) kvs))
  | _ => 0
  end.
