(* ===== verification/Rjson.v ===== *)
(** * Streaming JSON reader (rjson.h, rjson.c)

    The reader is fed one [char] at a time ([rjson_next]); after each call the
    context tells which token was completed ([cur]).  Definitions follow the
    functions of rjson.c one by one; [double] arithmetic is IEEE binary64 and
    libm's [pow] is a parameter.  The theorems are in [RjsonProps.v]. *)

From stdpp Require Import base list numbers strings option.
From S2P Require Import Prelude.

(** ** Data *)
Definition max_depth_ : nat := 24.

Inductive rjson_ty :=
| rjson_incomplete
| rjson_str | rjson_num | rjson_bool | rjson_null
| rjson_obj_start | rjson_obj_end | rjson_arr_start | rjson_arr_end.

Inductive rjson_next_res := rjson_next_syntax | rjson_next_fin | rjson_next_ok.

Inductive level_ty_ := lvl_none_ | lvl_obj_ | lvl_arr_.

Inductive st_ :=
| st_idle_ | st_want_key_ | st_want_colon_ | st_str_
| st_num_ | st_true_ | st_false_ | st_null_.

(** The enumerators as [int]s, for the messages of panics. *)
Definition level_ty_code (l : level_ty_) : Z :=
  match l with lvl_none_ => 0 | lvl_obj_ => 1 | lvl_arr_ => 2 end.
Definition st_code (s : st_) : Z :=
  match s with
  | st_idle_ => 0 | st_want_key_ => 1 | st_want_colon_ => 2 | st_str_ => 3
  | st_num_ => 4 | st_true_ => 5 | st_false_ => 6 | st_null_ => 7
  end.

Inductive num_part_ty_ :=
| num_part_leading_zero_ | num_part_int_ | num_part_frac_ | num_part_exp_.

#[export] Instance rjson_ty_eq_dec : EqDecision rjson_ty.
Proof. solve_decision. Defined.
#[export] Instance rjson_next_res_eq_dec : EqDecision rjson_next_res.
Proof. solve_decision. Defined.
#[export] Instance level_ty_eq_dec : EqDecision level_ty_.
Proof. solve_decision. Defined.
#[export] Instance st_eq_dec : EqDecision st_.
Proof. solve_decision. Defined.
#[export] Instance num_part_ty_eq_dec : EqDecision num_part_ty_.
Proof. solve_decision. Defined.

(** The members of the union [sd]. *)
Record sd_str := { str_len : nat; is_escape : bool; is_key : bool }.

Record sd_num := {
  num : double; digit_pos : Z; is_neg : bool; exp : Z; part : num_part_ty_
}.

Record sd_special := { word_pos : nat; bool_is_true : option bool }.

(** The union [sd]: the member stored last.  Reading another member is
    undefined; [bool_is_true] is [None] when it was never stored. *)
Inductive sd_ :=
| Sd_none
| Sd_str (s : sd_str)
| Sd_num (n : sd_num)
| Sd_special (w : sd_special).

Record rjson_ctx := {
  str : list char;
  str_mlen : nat;
  lvls : list level_ty_;
  lvls_len : nat;
  sd : sd_;
  st : st_;
  buffered_ch : Z;
  cur : rjson_ty;
  is_val_expected : bool;
  pos : Z
}.

(** Field assignments. *)
Definition with_str v (c : rjson_ctx) : rjson_ctx :=
  {| str := v; str_mlen := str_mlen c; lvls := lvls c; lvls_len := lvls_len c;
     sd := sd c; st := st c; buffered_ch := buffered_ch c; cur := cur c;
     is_val_expected := is_val_expected c; pos := pos c |}.
Definition with_str_mlen v (c : rjson_ctx) : rjson_ctx :=
  {| str := str c; str_mlen := v; lvls := lvls c; lvls_len := lvls_len c; sd := sd c;
     st := st c; buffered_ch := buffered_ch c; cur := cur c;
     is_val_expected := is_val_expected c; pos := pos c |}.
Definition with_lvls v (c : rjson_ctx) : rjson_ctx :=
  {| str := str c; str_mlen := str_mlen c; lvls := v; lvls_len := lvls_len c;
     sd := sd c; st := st c; buffered_ch := buffered_ch c; cur := cur c;
     is_val_expected := is_val_expected c; pos := pos c |}.
Definition with_lvls_len v (c : rjson_ctx) : rjson_ctx :=
  {| str := str c; str_mlen := str_mlen c; lvls := lvls c; lvls_len := v; sd := sd c;
     st := st c; buffered_ch := buffered_ch c; cur := cur c;
     is_val_expected := is_val_expected c; pos := pos c |}.
Definition with_sd v (c : rjson_ctx) : rjson_ctx :=
  {| str := str c; str_mlen := str_mlen c; lvls := lvls c; lvls_len := lvls_len c;
     sd := v; st := st c; buffered_ch := buffered_ch c; cur := cur c;
     is_val_expected := is_val_expected c; pos := pos c |}.
Definition with_st v (c : rjson_ctx) : rjson_ctx :=
  {| str := str c; str_mlen := str_mlen c; lvls := lvls c; lvls_len := lvls_len c;
     sd := sd c; st := v; buffered_ch := buffered_ch c; cur := cur c;
     is_val_expected := is_val_expected c; pos := pos c |}.
Definition with_buffered_ch v (c : rjson_ctx) : rjson_ctx :=
  {| str := str c; str_mlen := str_mlen c; lvls := lvls c; lvls_len := lvls_len c;
     sd := sd c; st := st c; buffered_ch := v; cur := cur c;
     is_val_expected := is_val_expected c; pos := pos c |}.
Definition with_cur v (c : rjson_ctx) : rjson_ctx :=
  {| str := str c; str_mlen := str_mlen c; lvls := lvls c; lvls_len := lvls_len c;
     sd := sd c; st := st c; buffered_ch := buffered_ch c; cur := v;
     is_val_expected := is_val_expected c; pos := pos c |}.
Definition with_is_val_expected v (c : rjson_ctx) : rjson_ctx :=
  {| str := str c; str_mlen := str_mlen c; lvls := lvls c; lvls_len := lvls_len c;
     sd := sd c; st := st c; buffered_ch := buffered_ch c; cur := cur c;
     is_val_expected := v; pos := pos c |}.
Definition with_pos v (c : rjson_ctx) : rjson_ctx :=
  {| str := str c; str_mlen := str_mlen c; lvls := lvls c; lvls_len := lvls_len c;
     sd := sd c; st := st c; buffered_ch := buffered_ch c; cur := cur c;
     is_val_expected := is_val_expected c; pos := v |}.
Definition set_num v (c : sd_num) : sd_num :=
  {| num := v; digit_pos := digit_pos c; is_neg := is_neg c; exp := exp c;
     part := part c |}.
Definition set_digit_pos v (c : sd_num) : sd_num :=
  {| num := num c; digit_pos := v; is_neg := is_neg c; exp := exp c; part := part c |}.
Definition set_is_neg v (c : sd_num) : sd_num :=
  {| num := num c; digit_pos := digit_pos c; is_neg := v; exp := exp c; part := part c |}.
Definition set_exp v (c : sd_num) : sd_num :=
  {| num := num c; digit_pos := digit_pos c; is_neg := is_neg c; exp := v;
     part := part c |}.
Definition set_part v (c : sd_num) : sd_num :=
  {| num := num c; digit_pos := digit_pos c; is_neg := is_neg c; exp := exp c;
     part := v |}.

(** The union members, as the code reads them. *)
Definition sd_str_ : CM rjson_ctx sd_str :=
  c ← getc; match sd c with Sd_str s => mret s | _ => undef end.

Definition sd_num_ : CM rjson_ctx sd_num :=
  c ← getc; match sd c with Sd_num n => mret n | _ => undef end.

Definition sd_special_ : CM rjson_ctx sd_special :=
  c ← getc; match sd c with Sd_special w => mret w | _ => undef end.

(** [c->sd.num.X = v], through an update of the stored member. *)
Definition upd_num (f : sd_num -> sd_num) : CM rjson_ctx unit :=
  n ← sd_num_; modc (with_sd (Sd_num (f n))).

(** What a store to [special.word_pos] alone leaves in [bool_is_true]. *)
Definition old_bool_is_true (s : sd_) : option bool :=
  match s with Sd_special w => bool_is_true w | _ => None end.

(** ** State and levels *)
Definition set_st_ (new : st_) : CM rjson_ctx unit :=
  c ← getc;
  (if bool_decide (st c = new) then mret tt else
     match new with
     | st_str_ =>
         modc (with_sd (Sd_str {| str_len := 0; is_escape := false; is_key := false |}))
     | st_num_ =>
         modc (with_sd (Sd_num {| num := d_of_int 0; digit_pos := 0; is_neg := false;
                                  exp := 0; part := num_part_int_ |}))
     | st_true_ =>
         modc (with_sd (Sd_special {| word_pos := 0; bool_is_true := Some true |}))
     | st_false_ =>
         modc (with_sd (Sd_special {| word_pos := 0; bool_is_true := Some false |}))
     | st_null_ =>
         modc (with_sd (Sd_special
                 {| word_pos := 0; bool_is_true := old_bool_is_true (sd c) |}))
     | st_idle_ | st_want_key_ | st_want_colon_ => mret tt
     end) ;;
  modc (with_st new).

Definition rjson_init (str_out_buf : list char) (mlen : nat) : CM rjson_ctx unit :=
  modc (with_str str_out_buf) ;;
  modc (with_str_mlen mlen) ;;
  modc (with_lvls_len 0) ;;
  modc (with_buffered_ch (-1)%Z) ;;
  modc (with_cur rjson_incomplete) ;;
  set_st_ st_idle_ ;;
  modc (with_is_val_expected true) ;;
  modc (with_pos 0%Z).

Definition add_lvl_ (lvl : level_ty_) : CM rjson_ctx unit :=
  c ← getc;
  if bool_decide (lvls_len c = max_depth_) then sob_panic (lit "rjson.c") 242 (lit "add_lvl_ in rjson: max depth reached")
  else if decide (lvls_len c < length (lvls c)) then
    modc (with_lvls (<[lvls_len c := lvl]> (lvls c))) ;;
    modc (with_lvls_len (S (lvls_len c)))
  else undef.

Definition pop_lvl_ : CM rjson_ctx unit :=
  c ← getc;
  if bool_decide (lvls_len c = 0) then sob_panic (lit "rjson.c") 251 (lit "pop_lvl_: no levels to pop")
  else modc (with_lvls_len (lvls_len c - 1)).

Definition lvl_ : CM rjson_ctx level_ty_ :=
  c ← getc;
  if bool_decide (lvls_len c = 0) then mret lvl_none_
  else match lvls c !! (lvls_len c - 1) with
       | Some l => mret l
       | None => undef
       end.

(** The messages print the value found where they say what was expected. *)
Definition assert_lvl_ (expected : level_ty_) : CM rjson_ctx unit :=
  l ← lvl_;
  assertc (bool_decide (l = expected)) (lit "rjson.c") 267
    (lit "assert_lvl_: expected " ++ print_int (level_ty_code l) ++ lit " but got " ++ print_int (level_ty_code expected)).

Definition assert_st_ (expected : st_) : CM rjson_ctx unit :=
  s ← reads st;
  assertc (bool_decide (s = expected)) (lit "rjson.c") 274
    (lit "assert_st_: expected " ++ print_int (st_code s) ++ lit " but got " ++ print_int (st_code expected)).

Definition assert_is_val_expected_ (expected : bool) : CM rjson_ctx unit :=
  v ← reads is_val_expected;
  s ← reads st;
  assertc (Bool.eqb v expected) (lit "rjson.c") 281
    (lit "assert_is_val_expected_: " ++ print_int (Z.b2z v) ++ lit " != " ++ print_int (Z.b2z expected) ++
     lit " in state " ++ print_int (st_code s)).

(** ** Character classes *)
Definition is_whitespace_ (ch : char) : bool :=
  ((ch =? ch_sp) || (ch =? ch_lf) || (ch =? ch_cr) || (ch =? ch_tab))%Z.

Definition is_digit_ (ch : char) : bool := ((ch_0 <=? ch) && (ch <=? ch_9))%Z.

Definition is_num_start_ (ch : char) : bool := is_digit_ ch || (ch =? ch_minus)%Z.

(** [strchr(word, ch) != NULL]; the terminating NUL of [word] matches too. *)
Definition strchr (word : list char) (ch : char) : bool :=
  existsb (Z.eqb ch) word || (ch =? ch_nul)%Z.

(** ** Strings *)
Inductive add_str_ch_res_ := add_ch_overflow_ | add_ch_ok_.

Definition add_str_ch_ (ch : char) : CM rjson_ctx add_str_ch_res_ :=
  c ← getc;
  s ← sd_str_;
  if bool_decide (str_len s = str_mlen c) then mret add_ch_overflow_
  else
    buf ← buf_set (str c) (str_len s) ch;
    modc (with_str buf) ;;
    modc (with_sd (Sd_str {| str_len := S (str_len s); is_escape := is_escape s;
                             is_key := is_key s |})) ;;
    mret add_ch_ok_.

(** [str_escape_]: the result and the character stored through the pointer. *)
Inductive str_escape_res_ := str_escape_invalid_ | str_escaped_ | str_escape_utf16_.

Definition str_escape_ (ch : char) : str_escape_res_ * char :=
  if (ch =? ch_u)%Z then (str_escape_utf16_, ch)
  else if (ch =? ch_quote)%Z then (str_escaped_, ch_quote)
  else if (ch =? ch_bslash)%Z then (str_escaped_, ch_bslash)
  else if (ch =? ch_slash)%Z then (str_escaped_, ch_slash)
  else if (ch =? ch_b)%Z then (str_escaped_, ch_bs)
  else if (ch =? ch_f)%Z then (str_escaped_, ch_ff)
  else if (ch =? ch_n)%Z then (str_escaped_, ch_lf)
  else if (ch =? ch_r)%Z then (str_escaped_, ch_cr)
  else if (ch =? ch_t)%Z then (str_escaped_, ch_tab)
  else (str_escape_invalid_, ch).

(** The tail of [next_str_]: store the character, report an overflow. *)
Definition next_str_add_ (ch : char) : CM rjson_ctx rjson_next_res :=
  r ← add_str_ch_ ch;
  match r with
  | add_ch_ok_ => mret rjson_next_ok
  | add_ch_overflow_ => mret rjson_next_syntax
  end.

(** The body of [next_str_] on a printable character, [s] being the member
    of the union at its start. *)
Definition next_str_ch_ (s : sd_str) (ch : char) : CM rjson_ctx rjson_next_res :=
  if is_escape s then
    match str_escape_ ch with
    | (str_escaped_, ch') =>
        modc (with_sd (Sd_str {| str_len := str_len s; is_escape := false;
                                 is_key := is_key s |})) ;;
        next_str_add_ ch'
    | (str_escape_utf16_, _) => mret rjson_next_syntax
    | (str_escape_invalid_, _) => mret rjson_next_syntax
    end
  else if (ch =? ch_bslash)%Z then
    modc (with_sd (Sd_str {| str_len := str_len s; is_escape := true;
                             is_key := is_key s |})) ;;
    mret rjson_next_ok
  else if (ch =? ch_quote)%Z then
    modc (with_cur rjson_str) ;;
    modc (with_is_val_expected false) ;;
    (if is_key s then set_st_ st_want_colon_ else set_st_ st_idle_) ;;
    next_str_add_ ch_nul
  else next_str_add_ ch.

Definition next_str_ (ch : char) : CM rjson_ctx rjson_next_res :=
  assert_st_ st_str_ ;;
  s ← sd_str_;
  (if is_key s then assert_lvl_ lvl_obj_ else mret tt) ;;
  modc (with_cur rjson_incomplete) ;;
  if ((ch <=? 31) || (127 <=? ch))%Z then mret rjson_next_syntax
  else next_str_ch_ s ch.

(** ** Literals *)
Definition next_word_ (ch : char) (word : list char) (ty : rjson_ty)
    : CM rjson_ctx rjson_next_res :=
  w ← sd_special_;
  match (word ++ [ch_nul]) !! word_pos w with
  | None => undef
  | Some expected =>
      if negb (ch =? expected)%Z then mret rjson_next_syntax
      else
        (if bool_decide (word_pos w = length word - 1) then
           modc (with_cur ty) ;;
           modc (with_is_val_expected false) ;;
           set_st_ st_idle_
         else
           modc (with_sd (Sd_special {| word_pos := S (word_pos w);
                                        bool_is_true := bool_is_true w |}))) ;;
        mret rjson_next_ok
  end.

Definition next_bool_ (ch : char) (word : list char) : CM rjson_ctx rjson_next_res :=
  assert_is_val_expected_ true ;;
  next_word_ ch word rjson_bool.

Definition next_true_ (ch : char) : CM rjson_ctx rjson_next_res :=
  assert_st_ st_true_ ;; next_bool_ ch (lit "true").

Definition next_false_ (ch : char) : CM rjson_ctx rjson_next_res :=
  assert_st_ st_false_ ;; next_bool_ ch (lit "false").

Definition next_null_ (ch : char) : CM rjson_ctx rjson_next_res :=
  assert_st_ st_null_ ;;
  assert_is_val_expected_ true ;;
  next_word_ ch (lit "null") rjson_null.

(** ** Numbers *)
Section numbers.
Context (pow : double -> double -> double).

Definition sign_ (n : sd_num) : Z := if is_neg n then (-1)%Z else 1%Z.

(** [digit_pos++]. *)
Definition digit_pos_incr_ : CM rjson_ctx unit :=
  n ← sd_num_; d ← int_chk (digit_pos n + 1)%Z; upd_num (set_digit_pos d).

(** End of a number at a separator [ch], which is kept for the next call. *)
Definition next_num_end_ (ch : char) : CM rjson_ctx rjson_next_res :=
  n ← sd_num_;
  if (0 <? digit_pos n)%Z then
    (if bool_decide (part n = num_part_exp_) then
       upd_num (set_num (dmul (num n) (pow (d_of_int 10) (d_of_int (exp n)))))
     else mret tt) ;;
    modc (with_cur rjson_num) ;;
    b ← reads buffered_ch;
    assertc (b =? -1)%Z (lit "rjson.c") 554 (lit "buffered_ch should've been consumed before num") ;;
    modc (with_buffered_ch ch) ;;
    modc (with_is_val_expected false) ;;
    set_st_ st_idle_ ;;
    mret rjson_next_ok
  else mret rjson_next_syntax.

Definition next_num_int_ (ch : char) : CM rjson_ctx rjson_next_res :=
  n ← sd_num_;
  if (ch =? ch_minus)%Z then
    if (digit_pos n =? 0)%Z then upd_num (set_is_neg true) ;; mret rjson_next_ok
    else mret rjson_next_syntax
  else if (ch =? ch_dot)%Z then
    if (0 <? digit_pos n)%Z then
      upd_num (set_digit_pos 0%Z) ;; upd_num (set_part num_part_frac_) ;;
      mret rjson_next_ok
    else mret rjson_next_syntax
  else if ((ch =? ch_e) || (ch =? ch_E))%Z then
    if (0 <? digit_pos n)%Z then
      upd_num (set_digit_pos 0%Z) ;; upd_num (set_part num_part_exp_) ;;
      mret rjson_next_ok
    else mret rjson_next_syntax
  else if is_digit_ ch then
    upd_num (set_num (dmul (num n) (d_of_int 10))) ;;
    n' ← sd_num_;
    upd_num (set_num (dadd (num n') (d_of_int ((ch - ch_0) * sign_ n)))) ;;
    digit_pos_incr_ ;;
    mret rjson_next_ok
  else mret rjson_next_syntax.

Definition next_num_frac_ (ch : char) : CM rjson_ctx rjson_next_res :=
  n ← sd_num_;
  if ((ch =? ch_e) || (ch =? ch_E))%Z then
    if (0 <? digit_pos n)%Z then
      upd_num (set_digit_pos 0%Z) ;;
      upd_num (set_is_neg false) ;;
      upd_num (set_exp 0%Z) ;;
      upd_num (set_part num_part_exp_) ;;
      mret rjson_next_ok
    else mret rjson_next_syntax
  else if is_digit_ ch then
    e ← int_chk (digit_pos n + 1)%Z;
    upd_num (set_num (dadd (num n)
      (dmul (dmul (d_of_int (ch - ch_0)) (pow (d_of_int 10) (d_of_int (- e))))
            (d_of_int (sign_ n))))) ;;
    digit_pos_incr_ ;;
    mret rjson_next_ok
  else mret rjson_next_syntax.

Definition next_num_exp_ (ch : char) : CM rjson_ctx rjson_next_res :=
  n ← sd_num_;
  if (ch =? ch_plus)%Z then
    if (digit_pos n =? 0)%Z then upd_num (set_is_neg false) ;; mret rjson_next_ok
    else mret rjson_next_syntax
  else if (ch =? ch_minus)%Z then
    if (digit_pos n =? 0)%Z then upd_num (set_is_neg true) ;; mret rjson_next_ok
    else mret rjson_next_syntax
  else if is_digit_ ch then
    e ← int_chk (exp n * 10)%Z;
    e' ← int_chk (e + (ch - ch_0) * sign_ n)%Z;
    upd_num (set_exp e') ;;
    digit_pos_incr_ ;;
    mret rjson_next_ok
  else mret rjson_next_syntax.

Definition next_num_ (ch : char) : CM rjson_ctx rjson_next_res :=
  assert_st_ st_num_ ;;
  assert_is_val_expected_ true ;;
  if is_whitespace_ ch || (ch =? ch_rbrace)%Z || (ch =? ch_rbrack)%Z || (ch =? ch_comma)%Z
  then next_num_end_ ch
  else
    n ← sd_num_;
    if bool_decide (part n = num_part_int_) && (ch =? ch_0)%Z && (digit_pos n =? 0)%Z
    then upd_num (set_part num_part_leading_zero_) ;; mret rjson_next_ok
    else
      match part n with
      | num_part_leading_zero_ =>
          if (ch =? ch_dot)%Z then
            upd_num (set_part num_part_frac_) ;; mret rjson_next_ok
          else mret rjson_next_syntax
      | num_part_int_ => next_num_int_ ch
      | num_part_frac_ => next_num_frac_ ch
      | num_part_exp_ => next_num_exp_ ch
      end.

(** ** Structure *)
Definition next_idle_val_ (ch : char) : option (CM rjson_ctx rjson_next_res) :=
  if strchr (lit "true") ch then Some (set_st_ st_true_ ;; next_true_ ch)
  else if strchr (lit "false") ch then Some (set_st_ st_false_ ;; next_false_ ch)
  else if strchr (lit "null") ch then Some (set_st_ st_null_ ;; next_null_ ch)
  else if is_num_start_ ch then Some (set_st_ st_num_ ;; next_num_ ch)
  else None.

Definition next_idle_switch_ (ch : char) : CM rjson_ctx rjson_next_res :=
  c ← getc;
  l ← lvl_;
  if (ch =? ch_lbrace)%Z then
    if is_val_expected c then
      modc (with_is_val_expected true) ;;
      add_lvl_ lvl_obj_ ;;
      set_st_ st_want_key_ ;;
      modc (with_cur rjson_obj_start) ;;
      mret rjson_next_ok
    else mret rjson_next_syntax
  else if (ch =? ch_lbrack)%Z then
    if is_val_expected c then
      add_lvl_ lvl_arr_ ;;
      set_st_ st_idle_ ;;
      modc (with_cur rjson_arr_start) ;;
      modc (with_is_val_expected true) ;;
      mret rjson_next_ok
    else mret rjson_next_syntax
  else if (ch =? ch_rbrace)%Z then
    if bool_decide (l = lvl_obj_) then
      if negb (is_val_expected c) then
        pop_lvl_ ;;
        set_st_ st_idle_ ;;
        modc (with_cur rjson_obj_end) ;;
        l' ← lvl_;
        mret (if bool_decide (l' = lvl_none_) then rjson_next_fin else rjson_next_ok)
      else mret rjson_next_syntax
    else mret rjson_next_syntax
  else if (ch =? ch_rbrack)%Z then
    if bool_decide (l = lvl_arr_) then
      if negb (is_val_expected c) then
        pop_lvl_ ;;
        set_st_ st_idle_ ;;
        modc (with_cur rjson_arr_end) ;;
        mret rjson_next_ok
      else mret rjson_next_syntax
    else mret rjson_next_syntax
  else if (ch =? ch_quote)%Z then
    if is_val_expected c then
      set_st_ st_str_ ;;
      modc (with_cur rjson_incomplete) ;;
      modc (with_is_val_expected false) ;;
      mret rjson_next_ok
    else mret rjson_next_syntax
  else if (ch =? ch_comma)%Z then
    if negb (is_val_expected c) then
      modc (with_is_val_expected true) ;;
      if bool_decide (l = lvl_obj_) then
        set_st_ st_want_key_ ;;
        modc (with_cur rjson_incomplete) ;;
        mret rjson_next_ok
      else if bool_decide (l = lvl_arr_) then
        modc (with_cur rjson_incomplete) ;;
        mret rjson_next_ok
      else mret rjson_next_syntax
    else mret rjson_next_syntax
  else mret rjson_next_syntax.

Definition next_idle_ (ch : char) : CM rjson_ctx rjson_next_res :=
  assert_st_ st_idle_ ;;
  modc (with_cur rjson_incomplete) ;;
  if is_whitespace_ ch then mret rjson_next_ok
  else
    l ← lvl_;
    if bool_decide (l = lvl_none_) && negb (ch =? ch_lbrace)%Z then mret rjson_next_syntax
    else
      v ← reads is_val_expected;
      match (if (v : bool) then next_idle_val_ ch else None) with
      | Some m => m
      | None => next_idle_switch_ ch
      end.

Definition next_want_key_ (ch : char) : CM rjson_ctx rjson_next_res :=
  assert_st_ st_want_key_ ;;
  assert_lvl_ lvl_obj_ ;;
  assert_is_val_expected_ true ;;
  if is_whitespace_ ch then mret rjson_next_ok
  else if (ch =? ch_quote)%Z then
    set_st_ st_str_ ;;
    s ← sd_str_;
    modc (with_sd (Sd_str {| str_len := str_len s; is_escape := is_escape s;
                             is_key := true |})) ;;
    modc (with_cur rjson_incomplete) ;;
    mret rjson_next_ok
  else if (ch =? ch_rbrace)%Z then
    set_st_ st_idle_ ;;
    pop_lvl_ ;;
    modc (with_cur rjson_obj_end) ;;
    modc (with_is_val_expected false) ;;
    l ← lvl_;
    mret (if bool_decide (l = lvl_none_) then rjson_next_fin else rjson_next_ok)
  else mret rjson_next_syntax.

Definition next_want_colon_ (ch : char) : CM rjson_ctx rjson_next_res :=
  assert_st_ st_want_colon_ ;;
  assert_lvl_ lvl_obj_ ;;
  assert_is_val_expected_ false ;;
  if is_whitespace_ ch then mret rjson_next_ok
  else if (ch =? ch_colon)%Z then
    set_st_ st_idle_ ;;
    modc (with_cur rjson_incomplete) ;;
    modc (with_is_val_expected true) ;;
    mret rjson_next_ok
  else mret rjson_next_syntax.

(** The [switch (c->st)] of [rjson_next]. *)
Definition next_st_ (ch : char) : CM rjson_ctx rjson_next_res :=
  s ← reads st;
  match s with
  | st_idle_ => next_idle_ ch
  | st_want_key_ => next_want_key_ ch
  | st_want_colon_ => next_want_colon_ ch
  | st_str_ => next_str_ ch
  | st_num_ => next_num_ ch
  | st_true_ => next_true_ ch
  | st_false_ => next_false_ ch
  | st_null_ => next_null_ ch
  end.

(** The body of [rjson_next]; [again] is its recursive call. *)
Definition rjson_next_body (again : char -> CM rjson_ctx rjson_next_res) (ch0 : char)
    : CM rjson_ctx rjson_next_res :=
  b ← reads buffered_ch;
  let processed_buffered := negb (b =? -1)%Z in
  let ch := if processed_buffered then b else ch0 in
  (if processed_buffered then modc (with_buffered_ch ch0) else mret tt) ;;
  if (ch =? ch_nul)%Z then
    l ← lvl_;
    mret (if bool_decide (l = lvl_none_) then rjson_next_fin else rjson_next_syntax)
  else
    r ← next_st_ ch;
    b' ← reads buffered_ch;
    (if processed_buffered || (b' =? -1)%Z then
       if bool_decide (r = rjson_next_syntax) then mret tt
       else modc (fun c => with_pos (size_succ (pos c)) c)
     else mret tt) ;;
    if negb (b' =? -1)%Z then
      k ← reads cur;
      if bool_decide (r = rjson_next_ok) && bool_decide (k = rjson_incomplete) then
        modc (with_buffered_ch (-1)%Z) ;;
        again b'
      else if bool_decide (r = rjson_next_ok) && (b' =? ch_nul)%Z then
        l ← lvl_;
        mret (if bool_decide (l = lvl_none_) then r else rjson_next_syntax)
      else mret r
    else mret r.

(** [rjson_next], with a bound on its recursive calls: running out of fuel is
    [undef].  The safety theorem of RjsonProps.v shows that the second call
    never recurses, so that two calls are enough. *)
Fixpoint rjson_next_ (fuel : nat) (ch0 : char) : CM rjson_ctx rjson_next_res :=
  match fuel with
  | O => undef
  | S fuel => rjson_next_body (rjson_next_ fuel) ch0
  end.

Definition rjson_next : char -> CM rjson_ctx rjson_next_res := rjson_next_ 2.

(** ** Accessors *)
Definition rjson_pos : CM rjson_ctx Z := reads pos.

Definition rjson_cur_ty : CM rjson_ctx rjson_ty := reads cur.

(** The C string a caller reads through [rjson_cur_str]. *)
Definition rjson_cur_str : CM rjson_ctx (list char) :=
  c ← getc; match cstr (str c) with Some s => mret s | None => undef end.

Definition rjson_cur_num : CM rjson_ctx double := n ← sd_num_; mret (num n).

Definition rjson_cur_is_true : CM rjson_ctx bool :=
  w ← sd_special_; match bool_is_true w with Some b => mret b | None => undef end.

(** ** The driver loop of the demo program *)

(** One line the demo prints for a completed token. *)
Inductive rjson_event :=
| Ev_str (s : list char) | Ev_num (d : double) | Ev_bool (b : bool) | Ev_null
| Ev_obj_start | Ev_obj_end | Ev_arr_start | Ev_arr_end.

(** How the loop ends: an error and its position, [rjson_next_fin], or the
    end of the input. *)
Inductive rjson_end := End_syntax (pos : Z) | End_fin | End_input.

Definition cur_event : CM rjson_ctx (list rjson_event) :=
  t ← rjson_cur_ty;
  match t with
  | rjson_incomplete => mret []
  | rjson_str => s ← rjson_cur_str; mret [Ev_str s]
  | rjson_num => d ← rjson_cur_num; mret [Ev_num d]
  | rjson_bool => b ← rjson_cur_is_true; mret [Ev_bool b]
  | rjson_null => mret [Ev_null]
  | rjson_obj_start => mret [Ev_obj_start]
  | rjson_obj_end => mret [Ev_obj_end]
  | rjson_arr_start => mret [Ev_arr_start]
  | rjson_arr_end => mret [Ev_arr_end]
  end.

Definition app_events (evs : list rjson_event) (r : list rjson_event * rjson_end)
    : list rjson_event * rjson_end := (evs ++ r.1, r.2).

Fixpoint rjson_demo_loop (input : list char) : CM rjson_ctx (list rjson_event * rjson_end) :=
  match input with
  | [] => mret ([], End_input)
  | ch :: input =>
      nres ← rjson_next ch;
      match nres with
      | rjson_next_syntax => p ← rjson_pos; mret ([], End_syntax p)
      | rjson_next_fin => evs ← cur_event; mret (evs, End_fin)
      | rjson_next_ok =>
          evs ← cur_event;
          r ← rjson_demo_loop input;
          mret (app_events evs r)
      end
  end.

(** The demo: the string and its NUL are fed to a fresh context. *)
Definition rjson_demo (buf : list char) (input : list char)
    : CM rjson_ctx (list rjson_event * rjson_end) :=
  rjson_init buf (length buf) ;; rjson_demo_loop (input ++ [ch_nul]).
End numbers.
