(* ===== verification/RjsonProps.v ===== *)
(** * Properties of the JSON reader

    The well-formedness invariant of the reader's context, its preservation by
    every call (no panic and no undefined behaviour short of the nesting and
    exponent limits), and the equivalence of the reader, which delays the
    character after a number by one call, with a reader that does not. *)

From stdpp Require Import base list numbers strings option.
From S2P Require Import Prelude Rjson.

(** ** Invariant *)

(** The innermost open level. *)
Definition top (c : rjson_ctx) : level_ty_ :=
  if bool_decide (lvls_len c = 0) then lvl_none_
  else default lvl_none_ (lvls c !! (lvls_len c - 1)).

(** What each state of the machine relies on. *)
Definition wf_st (c : rjson_ctx) : Prop :=
  match st c with
  | st_idle_ => True
  | st_want_key_ => top c = lvl_obj_ /\ is_val_expected c = true
  | st_want_colon_ => top c = lvl_obj_ /\ is_val_expected c = false
  | st_str_ => exists s, sd c = Sd_str s /\ str_len s <= str_mlen c /\
                 (is_key s = true -> top c = lvl_obj_)
  | st_num_ => is_val_expected c = true /\ cur c = rjson_incomplete /\
      exists n, sd c = Sd_num n /\ (0 <= digit_pos n <= INT_MAX)%Z /\ in_int (exp n) = true
  | st_true_ => is_val_expected c = true /\ cur c = rjson_incomplete /\
      exists i, i < 4 /\ sd c = Sd_special {| word_pos := i; bool_is_true := Some true |}
  | st_false_ => is_val_expected c = true /\ cur c = rjson_incomplete /\
      exists i, i < 5 /\ sd c = Sd_special {| word_pos := i; bool_is_true := Some false |}
  | st_null_ => is_val_expected c = true /\ cur c = rjson_incomplete /\
      exists i b, i < 4 /\ sd c = Sd_special {| word_pos := i; bool_is_true := b |}
  end.

Record wf (c : rjson_ctx) : Prop := {
  wf_lvls : length (lvls c) = max_depth_;
  wf_lvls_len : lvls_len c <= max_depth_;
  wf_str : length (str c) = str_mlen c;
  wf_buffered : buffered_ch c <> (-1)%Z -> st c = st_idle_ /\ is_val_expected c = false;
  wf_state : wf_st c
}.

(** The token announced by [cur] can be read through its accessor. *)
Definition cur_ok (c : rjson_ctx) : Prop :=
  match cur c with
  | rjson_str => is_Some (cstr (str c))
  | rjson_num => exists n, sd c = Sd_num n
  | rjson_bool => exists i b, sd c = Sd_special {| word_pos := i; bool_is_true := Some b |}
  | _ => True
  end.

(** The limits of the machine: 24 levels, and [int] counters in a number. *)
Definition within_limits (c : rjson_ctx) : Prop :=
  lvls_len c < max_depth_ /\
  forall n, st c = st_num_ -> sd c = Sd_num n -> (digit_pos n < INT_MAX)%Z /\ (Z.abs (exp n) <= 214748363)%Z.

(** Result of a call: the invariant, and a readable token unless it failed. *)
Definition post (r : rjson_next_res) (c : rjson_ctx) : Prop :=
  wf c /\ (r <> rjson_next_syntax -> cur_ok c).

Create HintDb rjson discriminated.

(** ** Levels *)
Lemma lvl_run c : length (lvls c) = max_depth_ -> lvls_len c <= max_depth_ ->
  lvl_ c = Ret (top c, c).
Proof.
  intros Hl Hn. unfold lvl_, top, mbind, cm_bind, getc. case_bool_decide; [done|].
  destruct (lookup_lt_is_Some_2 (lvls c) (lvls_len c - 1)) as [l ->]; [lia|done].
Qed.

Lemma wp_lvl c Q : length (lvls c) = max_depth_ -> lvls_len c <= max_depth_ ->
  wp lvl_ Q c <-> Q (top c) c.
Proof. intros. unfold wp. by rewrite lvl_run. Qed.

Lemma top_same c c' :
  lvls c = lvls c' -> lvls_len c = lvls_len c' -> top c = top c'.
Proof. unfold top. by intros -> ->. Qed.

(** ** Each handler preserves the invariant *)
Ltac wf_simpl := cbn [str str_mlen lvls lvls_len sd st buffered_ch cur is_val_expected pos
  with_str with_str_mlen with_lvls with_lvls_len with_sd with_st with_buffered_ch with_cur
  with_is_val_expected with_pos] in *.

(** The union member a change of state initialises. *)
Definition sd_init (new : st_) (old : sd_) : sd_ :=
  match new with
  | st_str_ => Sd_str {| str_len := 0; is_escape := false; is_key := false |}
  | st_num_ => Sd_num {| num := d_of_int 0; digit_pos := 0; is_neg := false;
                         exp := 0; part := num_part_int_ |}
  | st_true_ => Sd_special {| word_pos := 0; bool_is_true := Some true |}
  | st_false_ => Sd_special {| word_pos := 0; bool_is_true := Some false |}
  | st_null_ => Sd_special {| word_pos := 0; bool_is_true := old_bool_is_true old |}
  | _ => old
  end.

Lemma set_st_run new c :
  set_st_ new c =
    Ret (tt, with_st new (if bool_decide (st c = new) then c
                          else with_sd (sd_init new (sd c)) c)).
Proof.
  destruct c. unfold set_st_, mbind, cm_bind, getc; cbn. case_bool_decide; [done|].
  by destruct new.
Qed.

Lemma wp_set_st new c Q : st c <> new ->
  wp (set_st_ new) Q c <-> Q tt (with_st new (with_sd (sd_init new (sd c)) c)).
Proof. intros. unfold wp. rewrite set_st_run. by rewrite bool_decide_eq_false_2. Qed.

Lemma wp_set_idle c Q : wp (set_st_ st_idle_) Q c <-> Q tt (with_st st_idle_ c).
Proof. unfold wp. rewrite set_st_run. by destruct c, (bool_decide _). Qed.

Lemma wp_set_want_key c Q : wp (set_st_ st_want_key_) Q c <-> Q tt (with_st st_want_key_ c).
Proof. unfold wp. rewrite set_st_run. by destruct c, (bool_decide _). Qed.

Lemma wp_set_want_colon c Q :
  wp (set_st_ st_want_colon_) Q c <-> Q tt (with_st st_want_colon_ c).
Proof. unfold wp. rewrite set_st_run. by destruct c, (bool_decide _). Qed.

#[export] Hint Rewrite wp_set_idle wp_set_want_key wp_set_want_colon : cm.

Lemma wp_add_str_ch ch c s Q :
  sd c = Sd_str s -> length (str c) = str_mlen c -> str_len s <= str_mlen c ->
  (str_len s = str_mlen c -> Q add_ch_overflow_ c) ->
  (str_len s < str_mlen c -> Q add_ch_ok_
     (with_sd (Sd_str {| str_len := S (str_len s); is_escape := is_escape s;
                         is_key := is_key s |})
       (with_str (<[str_len s := ch]> (str c)) c))) ->
  wp (add_str_ch_ ch) Q c.
Proof.
  intros Hsd Hlen Hle Hov Hok. unfold add_str_ch_, sd_str_.
  wp_step. rewrite Hsd. wp_step. case_bool_decide; wp_step; [by auto|].
  split; [lia|]. wf_simpl. apply Hok; lia.
Qed.


(** Close a goal [post r c']: the fields of [c'] are explicit. *)
Ltac wf_leaf :=
  split; [split; wf_simpl; try done; try lia; unfold wf_st; wf_simpl; try done
         |unfold cur_ok; wf_simpl; try done].

(** The invariant of a state in which nothing is buffered. *)
Lemma wf_unbuffered c : wf c -> st c <> st_idle_ -> buffered_ch c = (-1)%Z.
Proof.
  intros Hwf Hst. destruct (decide (buffered_ch c = (-1)%Z)) as [|n]; [done|].
  by destruct (wf_buffered c Hwf n).
Qed.

Lemma next_str_add_wp ch c s :
  sd c = Sd_str s -> is_escape s = false -> wf c -> cur c = rjson_incomplete -> st c = st_str_ ->
  wp (next_str_add_ ch) post c.
Proof.
  intros Hsd He [Hl Hn Hs Hb Hst] Hcur Hc. unfold wf_st in Hst. rewrite Hc, Hsd in Hst.
  destruct Hst as (s' & [= <-] & Hle & Hkey).
  unfold next_str_add_. wp_step. eapply wp_add_str_ch; [done..| |]; intros Hlt; wp_step.
  - wf_leaf. rewrite Hc. eauto.
  - wf_leaf; [by rewrite length_insert|rewrite Hc|by rewrite Hcur].
    eexists; split; [done|]. cbn. split; [lia|done].
Qed.

Lemma next_str_end_wp c s :
  sd c = Sd_str s -> length (lvls c) = max_depth_ -> lvls_len c <= max_depth_ ->
  length (str c) = str_mlen c -> str_len s <= str_mlen c -> buffered_ch c = (-1)%Z ->
  cur c = rjson_str -> is_val_expected c = false ->
  (st c = st_idle_ \/ st c = st_want_colon_ /\ top c = lvl_obj_) ->
  wp (next_str_add_ ch_nul) post c.
Proof.
  intros Hsd Hl Hn Hs Hle Hb Hcur Hv Hst.
  unfold next_str_add_. wp_step. eapply wp_add_str_ch; [done..| |]; intros Hlt; wp_step.
  - wf_leaf. destruct Hst as [->|[-> ?]]; done.
  - wf_leaf; [by rewrite length_insert|by destruct Hst as [->|[-> ?]]|].
    intros _. rewrite Hcur. eapply cstr_is_Some, list_lookup_insert_eq. lia.
Qed.

Lemma next_str_wp ch c : wf c -> st c = st_str_ -> wp (next_str_ ch) post c.
Proof.
  intros Hwf Hc. pose proof Hwf as [Hl Hn Hs Hb Hst]. unfold wf_st in Hst. rewrite Hc in Hst.
  destruct Hst as (s & Hsd & Hle & Hkey).
  assert (buffered_ch c = (-1)%Z) as Hbuf by (apply wf_unbuffered; congruence).
  assert (forall Q, Q tt c -> wp (if is_key s then assert_lvl_ lvl_obj_ else mret tt) Q c) as Ha.
  { intros Q HQ. destruct (is_key s) eqn:Hk; [|done]. unfold assert_lvl_. wp_step.
    rewrite wp_lvl by done. wp_step. by rewrite Hkey. }
  unfold next_str_, next_str_ch_, assert_st_, sd_str_. wp_step. rewrite Hc, Hsd. split; [done|]. wp_step.
  apply Ha. wp_step.
  assert (forall s', str_len s' = str_len s -> is_key s' = is_key s ->
            wf (with_sd (Sd_str s') (with_cur rjson_incomplete c))) as Hwf'.
  { intros s' E1 E2. split; wf_simpl; try done. unfold wf_st; wf_simpl. rewrite Hc.
    exists s'. rewrite E1, E2. eauto. }
  apply wp_if; intros Hch; [wp_step; wf_leaf; rewrite Hc; eauto|].
  apply wp_if; intros He.
  - destruct (str_escape_ ch) as [[] ch'] eqn:E; wp_step; try (wf_leaf; rewrite Hc; by eauto).
    by eapply next_str_add_wp; [done|done|apply Hwf'| |].
  - apply wp_if; intros Hbs; [wp_step; split; [by apply Hwf'|done]|].
    apply wp_if; intros Hq.
    + wp_step. apply wp_if; intros Hk; wp_step;
        (eapply next_str_end_wp; wf_simpl; [done..|]); [right; split; [done|by apply Hkey]|by left].
    + eapply next_str_add_wp; [done|done| |done|done].
      split; wf_simpl; try done. unfold wf_st; wf_simpl. rewrite Hc. eauto.
Qed.

(** *** Literals *)
Lemma next_word_wp ch word ty w c :
  sd c = Sd_special w -> word_pos w < length word -> st c <> st_idle_ -> wf c ->
  ty = rjson_null \/ ty = rjson_bool /\ is_Some (bool_is_true w) ->
  (S (word_pos w) < length word ->
     wf (with_sd (Sd_special {| word_pos := S (word_pos w);
                                bool_is_true := bool_is_true w |}) c)) ->
  cur c = rjson_incomplete ->
  wp (next_word_ ch word ty) post c.
Proof.
  intros Hsd Hw Hc Hwf Hty Hnext Hcur. pose proof (wf_unbuffered c Hwf Hc) as Hb.
  unfold next_word_, sd_special_. wp_step. rewrite Hsd. wp_step.
  destruct (lookup_lt_is_Some_2 (word ++ [ch_nul]) (word_pos w)) as [x ->].
  { rewrite length_app; lia. }
  apply wp_if; intros Hch; wp_step.
  { split; [done|]. intros _. unfold cur_ok. by rewrite Hcur. }
  apply wp_if; intros Hend; wp_step.
  - destruct Hwf. wf_leaf. intros _. destruct Hty as [->|[-> [b Hbt]]]; [done|].
    rewrite Hsd. destruct w as [i bt]; cbn in Hbt; subst. eauto.
  - split; [|by unfold cur_ok; wf_simpl; rewrite Hcur].
    apply Hnext. apply bool_decide_eq_false in Hend. lia.
Qed.

Lemma next_bool_wp ch c v : wf c ->
  st c = (if v : bool then st_true_ else st_false_) ->
  wp (if v then next_true_ ch else next_false_ ch) post c.
Proof.
  intros Hwf Hc. pose proof Hwf as [Hl Hn Hs Hb Hst]. unfold wf_st in Hst.
  destruct v; rewrite Hc in Hst; destruct Hst as (Hv & Hcur & i & Hi & Hsd);
    unfold next_true_, next_false_, next_bool_, assert_st_, assert_is_val_expected_;
    wp_step; rewrite Hc, Hv; split; [done| |done|]; (split; [done|]);
    (eapply next_word_wp; [done|cbn; lia|congruence|done|right; split; [done|by eexists]| |done]);
    cbn; intros Hi'; split; wf_simpl; try done; unfold wf_st; wf_simpl; rewrite Hc;
    (split_and!; [done..|]); (eexists; split; [|done]; lia).
Qed.

Lemma next_null_wp ch c : wf c -> st c = st_null_ ->
  wp (next_null_ ch) post c.
Proof.
  intros Hwf Hc. pose proof Hwf as [Hl Hn Hs Hb Hst]. unfold wf_st in Hst.
  rewrite Hc in Hst. destruct Hst as (Hv & Hcur & i & b & Hi & Hsd).
  unfold next_null_, assert_st_, assert_is_val_expected_. wp_step. rewrite Hc, Hv.
  do 2 (split; [done|]). eapply next_word_wp; [done|cbn; lia|congruence|done|by left| |done].
  cbn; intros Hi'; split; wf_simpl; try done; unfold wf_st; wf_simpl; rewrite Hc.
  split_and!; [done..|]. eexists _, _; split; [|done]; lia.
Qed.

(** *** Numbers

    The digit handlers only change the number stored in the union, so they run
    on contexts of the form [with_sd (Sd_num n) c]. *)
Lemma with_sd_id c s : sd c = s -> c = with_sd s c.
Proof. destruct c. by intros <-. Qed.

Lemma wp_sd_num n c Q :
  wp sd_num_ Q (with_sd (Sd_num n) c) <-> Q n (with_sd (Sd_num n) c).
Proof. done. Qed.

Lemma wp_upd_num f n c Q :
  wp (upd_num f) Q (with_sd (Sd_num n) c) <-> Q tt (with_sd (Sd_num (f n)) c).
Proof. done. Qed.

#[export] Hint Rewrite wp_sd_num wp_upd_num : cm.

(** A context in which a number is being read, whatever the number. *)
Definition in_num (c : rjson_ctx) : Prop :=
  wf c /\ st c = st_num_ /\ cur c = rjson_incomplete.

Definition num_limits (n : sd_num) : Prop :=
  (0 <= digit_pos n < INT_MAX)%Z /\ (Z.abs (exp n) <= 214748363)%Z.

Lemma num_post c n r :
  in_num c -> (0 <= digit_pos n <= INT_MAX)%Z -> in_int (exp n) = true ->
  post r (with_sd (Sd_num n) c).
Proof.
  intros ([Hl Hn Hs Hb Hst] & Hc & Hcur) Hd He. unfold wf_st in Hst. rewrite Hc in Hst.
  destruct Hst as (Hv & _). wf_leaf; [rewrite Hc; by eauto 8|by rewrite Hcur].
Qed.

(** The arithmetic side conditions of the digit handlers. *)
Ltac num_side := unfold num_limits, in_int, INT_MIN, INT_MAX in *; cbn;
  try (apply andb_true_iff; split; apply Z.leb_le); lia.

Lemma wp_digit_pos_incr n c Q :
  (0 <= digit_pos n < INT_MAX)%Z ->
  wp digit_pos_incr_ Q (with_sd (Sd_num n) c) <->
  Q tt (with_sd (Sd_num (set_digit_pos (digit_pos n + 1)%Z n)) c).
Proof.
  intros Hn. unfold digit_pos_incr_. wp_step.
  split; [by intros [_ ?]|]. intros ?. split; [num_side|done].
Qed.

Ltac num_go :=
  repeat (wp_step; try rewrite wp_digit_pos_incr by num_side);
  try (apply num_post; [done|num_side|num_side]).

Lemma sign_bound n d : (0 <= d <= 9)%Z -> (-9 <= d * sign_ n <= 9)%Z.
Proof. unfold sign_. destruct (is_neg n); lia. Qed.

Lemma is_digit_bound ch : is_digit_ ch = true -> (0 <= ch - ch_0 <= 9)%Z.
Proof. unfold is_digit_. intros. bool_facts. lia. Qed.

Lemma next_num_int_wp n ch c :
  in_num c -> num_limits n -> wp (next_num_int_ ch) post (with_sd (Sd_num n) c).
Proof.
  intros Hc Hn. unfold next_num_int_. num_go.
  repeat (apply wp_if; intros ?); num_go.
Qed.

Lemma next_num_exp_wp n ch c :
  in_num c -> num_limits n -> wp (next_num_exp_ ch) post (with_sd (Sd_num n) c).
Proof.
  intros Hc Hn. unfold next_num_exp_. num_go.
  repeat (apply wp_if; intros ?); num_go.
  pose proof (sign_bound n (ch - ch_0)%Z (is_digit_bound ch ltac:(done))).
  split; [num_side|]. split; [num_side|]. num_go.
Qed.

(** ** Frame: what the handlers leave alone *)
Definition map_st (f : rjson_ctx -> rjson_ctx) {A} (o : outcome (A * rjson_ctx))
    : outcome (A * rjson_ctx) :=
  match o with Ret (a, c) => Ret (a, f c) | Panic t => Panic t | Undef => Undef end.

(** A change of [pos], and of [buffered_ch] too when [b] holds. *)
Definition upd (b : bool) (y p : Z) (c : rjson_ctx) : rjson_ctx :=
  if b then with_buffered_ch y (with_pos p c) else with_pos p c.

(** [m] neither reads nor writes [pos] (nor [buffered_ch], when [b] holds). *)
Definition frame (b : bool) {A} (m : CM rjson_ctx A) : Prop :=
  forall y p c, m (upd b y p c) = map_st (upd b y p) (m c).

Lemma frame_ret b {A} (a : A) : frame b (mret a).
Proof. done. Qed.
Lemma frame_panic b {A} f l t : frame b (sob_panic f l t : CM rjson_ctx A).
Proof. done. Qed.
Lemma frame_undef b {A} : frame b (@undef rjson_ctx A).
Proof. done. Qed.

Lemma frame_bind b {A B} (m : CM rjson_ctx A) (k : A -> CM rjson_ctx B) :
  frame b m -> (forall a, frame b (k a)) -> frame b (m ≫= k).
Proof.
  intros Hm Hk y p c. unfold mbind, cm_bind. rewrite Hm.
  destruct (m c) as [[a c']| |]; cbn; [apply Hk|done|done].
Qed.

Lemma frame_modc b f :
  (forall y p c, f (upd b y p c) = upd b y p (f c)) -> frame b (modc f).
Proof. intros Hf y p c. unfold modc. cbn. by rewrite Hf. Qed.

Lemma frame_reads b {A} (f : rjson_ctx -> A) :
  (forall y p c, f (upd b y p c) = f c) -> frame b (reads f).
Proof. intros Hf y p c. unfold reads. cbn. by rewrite Hf. Qed.

Lemma frame_getc b {A} (k : rjson_ctx -> CM rjson_ctx A) :
  (forall y p c, k (upd b y p c) = k c) -> (forall c, frame b (k c)) ->
  frame b (getc ≫= k).
Proof. intros H1 H2 y p c. unfold mbind, cm_bind, getc. rewrite H1. apply H2. Qed.

Lemma frame_assertc b x f l t : frame b (assertc x f l t).
Proof. by destruct x. Qed.
Lemma frame_int_chk b z : frame b (int_chk z).
Proof. unfold int_chk. by destruct (in_int z). Qed.
Lemma frame_buf_set b buf i ch : frame b (buf_set buf i ch).
Proof. unfold buf_set. by case_decide. Qed.

#[export] Hint Resolve frame_ret frame_panic frame_undef frame_assertc frame_int_chk
  frame_buf_set : rjson.

Ltac upd_refl :=
  intros; first [reflexivity|by match goal with |- context [upd ?b _ _ _] => destruct b end].

Ltac frame_tac :=
  repeat (cbv zeta; lazymatch goal with
    | |- frame _ (mret _) => apply frame_ret
    | |- frame _ (sob_panic _ _ _) => apply frame_panic
    | |- frame _ undef => apply frame_undef
    | |- frame _ (getc ≫= _) => apply frame_getc; [upd_refl|intros ?]
    | |- frame _ (_ ≫= _) => apply frame_bind; [|intros ?]
    | |- frame _ (modc _) => apply frame_modc; upd_refl
    | |- frame _ (reads _) => apply frame_reads; upd_refl
    | |- frame _ (match ?x with _ => _ end) => destruct x
    | |- frame _ _ => solve [auto with rjson nocore]
    end).

Lemma frame_sd_str b : frame b sd_str_.
Proof. unfold sd_str_. frame_tac. Qed.
Lemma frame_sd_num b : frame b sd_num_.
Proof. unfold sd_num_. frame_tac. Qed.
Lemma frame_sd_special b : frame b sd_special_.
Proof. unfold sd_special_. frame_tac. Qed.
Lemma frame_lvl b : frame b lvl_.
Proof. unfold lvl_. frame_tac. Qed.
Lemma frame_set_st b new : frame b (set_st_ new).
Proof. unfold set_st_. frame_tac. Qed.
#[export] Hint Resolve frame_sd_str frame_sd_num frame_sd_special frame_lvl frame_set_st : rjson.

Lemma frame_upd_num b f : frame b (upd_num f).
Proof. unfold upd_num. frame_tac. Qed.
Lemma frame_add_lvl b l : frame b (add_lvl_ l).
Proof. unfold add_lvl_. frame_tac. Qed.
Lemma frame_pop_lvl b : frame b pop_lvl_.
Proof. unfold pop_lvl_. frame_tac. Qed.
Lemma frame_asserts b l s v :
  frame b (assert_lvl_ l) /\ frame b (assert_st_ s) /\ frame b (assert_is_val_expected_ v).
Proof. unfold assert_lvl_, assert_st_, assert_is_val_expected_. repeat split; frame_tac. Qed.
Lemma frame_assert_lvl b l : frame b (assert_lvl_ l).
Proof. by apply (frame_asserts b l st_idle_ true). Qed.
Lemma frame_assert_st b s : frame b (assert_st_ s).
Proof. by apply (frame_asserts b lvl_none_ s true). Qed.
Lemma frame_assert_val b v : frame b (assert_is_val_expected_ v).
Proof. by apply (frame_asserts b lvl_none_ st_idle_ v). Qed.
#[export] Hint Resolve frame_upd_num frame_add_lvl frame_pop_lvl frame_assert_lvl
  frame_assert_st frame_assert_val : rjson.

Lemma frame_next_str b ch : frame b (next_str_ ch).
Proof.
  assert (forall ch, frame b (add_str_ch_ ch)) as Ha by (intros; unfold add_str_ch_; frame_tac).
  assert (forall ch, frame b (next_str_add_ ch)) as Hn by (intros; unfold next_str_add_; frame_tac).
  unfold next_str_, next_str_ch_. frame_tac.
Qed.

Lemma frame_next_word b ch w ty : frame b (next_word_ ch w ty).
Proof. unfold next_word_. frame_tac. Qed.
Lemma frame_next_true b ch : frame b (next_true_ ch).
Proof. unfold next_true_, next_bool_. pose proof frame_next_word. frame_tac. Qed.
Lemma frame_next_false b ch : frame b (next_false_ ch).
Proof. unfold next_false_, next_bool_. pose proof frame_next_word. frame_tac. Qed.
Lemma frame_next_null b ch : frame b (next_null_ ch).
Proof. unfold next_null_. pose proof frame_next_word. frame_tac. Qed.
Lemma frame_next_want_key b ch : frame b (next_want_key_ ch).
Proof. unfold next_want_key_. frame_tac. Qed.
Lemma frame_next_want_colon b ch : frame b (next_want_colon_ ch).
Proof. unfold next_want_colon_. frame_tac. Qed.
Lemma frame_next_idle_switch b ch : frame b (next_idle_switch_ ch).
Proof. unfold next_idle_switch_. frame_tac. Qed.
#[export] Hint Resolve frame_next_str frame_next_true frame_next_false frame_next_null
  frame_next_want_key frame_next_want_colon frame_next_idle_switch : rjson.

Section with_pow.
Context (pow : double -> double -> double).

Lemma next_num_frac_wp n ch c :
  in_num c -> num_limits n -> wp (next_num_frac_ pow ch) post (with_sd (Sd_num n) c).
Proof.
  intros Hc Hn. unfold next_num_frac_. num_go.
  repeat (apply wp_if; intros ?); num_go. split; [num_side|]. num_go.
Qed.

Lemma next_num_end_wp n ch c :
  in_num c -> num_limits n -> wp (next_num_end_ pow ch) post (with_sd (Sd_num n) c).
Proof.
  intros Hc Hn. pose proof Hc as (Hwf & Hst & Hcur).
  assert (buffered_ch c = (-1)%Z) as Hb by (apply wf_unbuffered; congruence).
  unfold next_num_end_. num_go. apply wp_if; intros Hpos; num_go.
  destruct Hwf. apply wp_if; intros _; num_go; wf_simpl; rewrite Hb;
    (split; [done|]); wf_leaf; eauto.
Qed.

Lemma next_num_wp n ch c :
  in_num c -> num_limits n -> wp (next_num_ pow ch) post (with_sd (Sd_num n) c).
Proof.
  intros Hc Hn. pose proof Hc as (Hwf & Hst & Hcur).
  assert (is_val_expected c = true) as Hv.
  { destruct Hwf as [_ _ _ _ Hs]. unfold wf_st in Hs. rewrite Hst in Hs. by destruct Hs. }
  unfold next_num_, assert_st_, assert_is_val_expected_. num_go. wf_simpl. rewrite Hst, Hv.
  do 2 (split; [done|]). apply wp_if; intros _; [by apply next_num_end_wp|].
  num_go. apply wp_if; intros _; [by num_go|].
  destruct (part n); auto using next_num_int_wp, next_num_frac_wp, next_num_exp_wp.
  apply wp_if; intros _; num_go.
Qed.

(** *** Structure *)
(** The characters that end a number. *)
Definition num_sep (ch : char) : bool :=
  is_whitespace_ ch || (ch =? ch_rbrace)%Z || (ch =? ch_rbrack)%Z || (ch =? ch_comma)%Z.

Lemma num_start_not_sep ch : is_num_start_ ch = true -> num_sep ch = false.
Proof. unfold num_sep, is_num_start_, is_digit_, is_whitespace_. lia. Qed.

Lemma frame_next_num b ch : num_sep ch = false -> frame b (next_num_ pow ch).
Proof.
  intros Hch. unfold next_num_. fold (num_sep ch). rewrite Hch.
  unfold next_num_int_, next_num_frac_, next_num_exp_, digit_pos_incr_. frame_tac.
Qed.

Lemma frame_next_idle b ch : frame b (next_idle_ pow ch).
Proof.
  unfold next_idle_. do 2 (apply frame_bind; [by frame_tac|intros []]). destruct (is_whitespace_ ch).
  { by frame_tac. }
  apply frame_bind; [by frame_tac|intros l]. destruct (bool_decide _ && _); [by frame_tac|].
  apply frame_bind; [by frame_tac|intros []]; [|by frame_tac]. unfold next_idle_val_.
  assert (is_num_start_ ch = true -> frame b (next_num_ pow ch)).
  { intros. by apply frame_next_num, num_start_not_sep. }
  repeat (case_match; simplify_eq; try by frame_tac).
  apply frame_bind; [by frame_tac|intros []]; auto.
Qed.

Lemma frame_next_num_pos ch : frame false (next_num_ pow ch).
Proof.
  destruct (num_sep ch) eqn:Hch; [|by apply frame_next_num].
  unfold next_num_. fold (num_sep ch). rewrite Hch. unfold next_num_end_. frame_tac.
Qed.

(** Every step ignores [pos]; every step but the end of a number ignores
    [buffered_ch]. *)
Lemma frame_next_st b ch y p c : b = false \/ st c <> st_num_ ->
  next_st_ pow ch (upd b y p c) = map_st (upd b y p) (next_st_ pow ch c).
Proof.
  intros Hst. unfold next_st_, mbind, cm_bind, reads.
  replace (st (upd b y p c)) with (st c) by (by destruct b). destruct (st c) eqn:Hc.
  - by apply frame_next_idle.
  - by apply frame_next_want_key.
  - by apply frame_next_want_colon.
  - by apply frame_next_str.
  - destruct Hst as [-> |]; [|done]. by apply frame_next_num_pos.
  - by apply frame_next_true.
  - by apply frame_next_false.
  - by apply frame_next_null.
Qed.

Lemma top_nonnil c l : top c = l -> l <> lvl_none_ -> lvls_len c <> 0.
Proof. unfold top. intros Ht Hl H0. rewrite bool_decide_eq_true_2 in Ht by done. congruence. Qed.

Lemma wp_add_lvl l c Q :
  length (lvls c) = max_depth_ -> lvls_len c < max_depth_ ->
  Q tt (with_lvls_len (S (lvls_len c)) (with_lvls (<[lvls_len c := l]> (lvls c)) c)) ->
  wp (add_lvl_ l) Q c.
Proof.
  intros Hl Hn HQ. unfold add_lvl_. wp_step.
  rewrite bool_decide_eq_false_2 by lia. rewrite decide_True by lia. by wp_step.
Qed.

Lemma wp_pop_lvl c Q :
  lvls_len c <> 0 -> Q tt (with_lvls_len (lvls_len c - 1) c) -> wp pop_lvl_ Q c.
Proof.
  intros Hn HQ. unfold pop_lvl_. wp_step. rewrite bool_decide_eq_false_2 by done. by wp_step.
Qed.

Lemma top_add l n ls c :
  lvls_len c = S n -> lvls c = <[n := l]> ls -> n < length ls -> top c = l.
Proof.
  intros Hn Hl Hlt. unfold top. rewrite Hn, Hl. cbn. rewrite Nat.sub_0_r.
  by rewrite list_lookup_insert_eq.
Qed.

(** What an idle step that completes no token leaves behind. *)
Definition idle_quiet (c : rjson_ctx) (r : rjson_next_res) (c' : rjson_ctx) : Prop :=
  r = rjson_next_ok /\ cur c' = rjson_incomplete /\ (st c' = st_idle_ \/ st c' = st_want_key_) /\
  lvls_len c' = lvls_len c /\ sd c' = sd c.

Definition idle_post (c : rjson_ctx) (r : rjson_next_res) (c' : rjson_ctx) : Prop :=
  post r c' /\
  (is_val_expected c = false ->
   idle_quiet c r c' \/ (st c' = st_idle_ /\ is_val_expected c' = false /\
                        ~ (r = rjson_next_ok /\ cur c' = rjson_incomplete))).

Lemma idle_post_val c r c' : is_val_expected c = true -> post r c' -> idle_post c r c'.
Proof. intros Hv Hp. split; [done|congruence]. Qed.

Lemma idle_post_syntax c : wf c -> st c = st_idle_ -> cur c = rjson_incomplete ->
  idle_post c rjson_next_syntax c.
Proof. intros Hwf Hst Hcur. split; [by split|]. intros Hv. right. by split_and!; [..|intros []]. Qed.

Lemma next_idle_switch_wp ch c :
  wf c -> st c = st_idle_ -> cur c = rjson_incomplete -> buffered_ch c = (-1)%Z ->
  lvls_len c < max_depth_ -> (top c = lvl_none_ -> ch = ch_lbrace) ->
  wp (next_idle_switch_ ch) (idle_post c) c.
Proof.
  intros Hwf Hst Hcur Hb Hlim Htop. pose proof (idle_post_syntax c Hwf Hst Hcur) as Hsyn.
  pose proof Hwf as [Hl Hn Hs _ _]. unfold next_idle_switch_. wp_step. rewrite wp_lvl by done.
  repeat (apply wp_if; intros ?); bool_facts; wp_step; try done;
    repeat match goal with H : bool_decide _ = true |- _ => apply bool_decide_eq_true in H end;
    repeat match goal with H : bool_decide _ = false |- _ => apply bool_decide_eq_false in H end.
  - apply wp_add_lvl; [done..|]. wp_step. wf_simpl. apply idle_post_val; [done|].
    wf_leaf; [by rewrite length_insert|]. split; [by eapply top_add; [done..|lia]|done].
  - apply wp_add_lvl; [done..|]. wp_step. wf_simpl. apply idle_post_val; [done|].
    wf_leaf. by rewrite length_insert.
  - apply wp_pop_lvl; [by eapply top_nonnil|]. wp_step. rewrite wp_lvl by (wf_simpl; lia). wp_step.
    split; [wf_leaf|]. intros _. right. wf_simpl. by split_and!; [..|intros []].
  - apply wp_pop_lvl; [by eapply top_nonnil|]. wp_step.
    split; [wf_leaf|]. intros _. right. wf_simpl. by split_and!; [..|intros []].
  - rewrite wp_set_st by congruence. wp_step. apply idle_post_val; [done|].
    wf_leaf. eexists; split; [done|]. cbn. split; [lia|done].
  - split; [wf_leaf|]. intros _. left. unfold idle_quiet. wf_simpl. by split_and!; auto.
  - split; [wf_leaf; by rewrite Hst|]. intros _. left. unfold idle_quiet. wf_simpl. by split_and!; auto.
  - destruct (top c); try done. rewrite Htop in * by done. done.
Qed.

Lemma next_idle_val_wp ch c m :
  wf c -> st c = st_idle_ -> cur c = rjson_incomplete -> buffered_ch c = (-1)%Z ->
  is_val_expected c = true -> next_idle_val_ pow ch = Some m -> wp m post c.
Proof.
  intros [Hl Hn Hs _ _] Hst Hcur Hb Hv. unfold next_idle_val_.
  repeat case_match; intros [= <-]; wp_step; rewrite wp_set_st by congruence.
  - apply (next_bool_wp ch _ true); [|done]. split; wf_simpl; try done.
    unfold wf_st; wf_simpl. split_and!; [done..|]. exists 0. split; [lia|done].
  - apply (next_bool_wp ch _ false); [|done]. split; wf_simpl; try done.
    unfold wf_st; wf_simpl. split_and!; [done..|]. exists 0. split; [lia|done].
  - apply next_null_wp; [|done]. split; wf_simpl; try done.
    unfold wf_st; wf_simpl. split_and!; [done..|]. eexists 0, _. split; [lia|done].
  - change (with_st st_num_ ?x) with (with_sd (sd_init st_num_ (sd c)) (with_st st_num_ x)).
    apply next_num_wp; [|by num_side]. split; [|done]. split; wf_simpl; try done.
    unfold wf_st; wf_simpl. split_and!; [done..|]. eexists; split; [done|]. by num_side.
Qed.

Lemma next_idle_wp ch c :
  wf c -> st c = st_idle_ -> buffered_ch c = (-1)%Z -> lvls_len c < max_depth_ ->
  wp (next_idle_ pow ch) (idle_post c) c.
Proof.
  intros Hwf Hst Hb Hlim. pose proof Hwf as [Hl Hn Hs _ _].
  assert (wf (with_cur rjson_incomplete c)) as Hwf'.
  { split; wf_simpl; try done. unfold wf_st; wf_simpl. by rewrite Hst. }
  unfold next_idle_, assert_st_. wp_step. rewrite Hst. split; [done|].
  apply wp_if; intros Hw; wp_step.
  { split; [by split|]. intros _. left. unfold idle_quiet. wf_simpl. by split_and!; auto. }
  rewrite wp_lvl by done. apply wp_if; intros Ht; wp_step.
  { apply (idle_post_syntax (with_cur rjson_incomplete c)); done. }
  assert (wp (next_idle_switch_ ch) (idle_post c) (with_cur rjson_incomplete c)) as Hsw.
  { apply (next_idle_switch_wp ch (with_cur rjson_incomplete c)); try done.
    intros Htop. change (top (with_cur rjson_incomplete c)) with (top c) in *.
    rewrite Htop, bool_decide_eq_true_2 in Ht by done. cbn in Ht. by bool_facts. }
  wf_simpl. destruct (is_val_expected c) eqn:Hv; [|done].
  destruct (next_idle_val_ pow ch) as [m|] eqn:Hm; [|done].
  eapply wp_mono; [by eapply (next_idle_val_wp ch)|]. intros. by apply idle_post_val.
Qed.

Lemma next_want_key_wp ch c :
  wf c -> cur_ok c -> st c = st_want_key_ -> wp (next_want_key_ ch) post c.
Proof.
  intros Hwf Hcur Hc. assert (buffered_ch c = (-1)%Z) as Hb by (apply wf_unbuffered; congruence).
  pose proof Hwf as [Hl Hn Hs _ Hst]. unfold wf_st in Hst. rewrite Hc in Hst.
  destruct Hst as [Ht Hv].
  unfold next_want_key_, assert_st_, assert_lvl_, assert_is_val_expected_, sd_str_.
  wp_step. rewrite Hc. split; [done|]. rewrite wp_lvl by done. wp_step. rewrite Ht, Hv.
  do 2 (split; [done|]). repeat (apply wp_if; intros _); wp_step; try by split.
  - rewrite wp_set_st by congruence. wp_step. wf_leaf. eexists; split; [done|]. cbn.
    split; [lia|done].
  - apply wp_pop_lvl; [by eapply top_nonnil|]. wp_step. rewrite wp_lvl by (wf_simpl; lia).
    wp_step. wf_leaf.
Qed.

Lemma next_want_colon_wp ch c :
  wf c -> cur_ok c -> st c = st_want_colon_ -> wp (next_want_colon_ ch) post c.
Proof.
  intros Hwf Hcur Hc. assert (buffered_ch c = (-1)%Z) as Hb by (apply wf_unbuffered; congruence).
  pose proof Hwf as [Hl Hn Hs _ Hst]. unfold wf_st in Hst. rewrite Hc in Hst.
  destruct Hst as [Ht Hv].
  unfold next_want_colon_, assert_st_, assert_lvl_, assert_is_val_expected_.
  wp_step. rewrite Hc. split; [done|]. rewrite wp_lvl by done. wp_step. rewrite Ht, Hv.
  do 2 (split; [done|]). repeat (apply wp_if; intros _); wp_step; try by split.
Qed.

(** One step of the machine, nothing being buffered before it. *)
Lemma next_st_wp ch c :
  wf c -> cur_ok c -> within_limits c -> buffered_ch c = (-1)%Z ->
  wp (next_st_ pow ch) post c.
Proof.
  intros Hwf Hcur [Hlim Hnum] Hb. pose proof Hwf as [_ _ _ _ Hst]. unfold wf_st in Hst.
  unfold next_st_. wp_step. destruct (st c) eqn:Hc.
  - eapply wp_mono; [by apply next_idle_wp|]. by intros ? ? [? _].
  - by apply next_want_key_wp.
  - by apply next_want_colon_wp.
  - by apply next_str_wp.
  - destruct Hst as (Hv & Hinc & n & Hsd & Hd & He). rewrite (with_sd_id c _ Hsd).
    specialize (Hnum n eq_refl Hsd). apply next_num_wp; [by split|]. unfold num_limits. lia.
  - by apply (next_bool_wp ch c true).
  - by apply (next_bool_wp ch c false).
  - by apply next_null_wp.
Qed.

(** A framed call keeps the buffered character. *)
Lemma frame_buffered {A} (m : CM rjson_ctx A) c a c' :
  (forall y p, m (upd true y p c) = map_st (upd true y p) (m c)) ->
  m c = Ret (a, c') -> buffered_ch c' = buffered_ch c.
Proof.
  intros Hf Hrun. specialize (Hf (buffered_ch c) (pos c)).
  replace (upd true (buffered_ch c) (pos c) c) with c in Hf by (by destruct c).
  rewrite Hrun in Hf. cbn in Hf. injection Hf as Hf. by rewrite Hf.
Qed.

(** The end of a number: the separator is buffered, the number announced. *)
Definition num_ended (ch : char) (r : rjson_next_res) (c' : rjson_ctx) : Prop :=
  r = rjson_next_ok /\ cur c' = rjson_num /\ buffered_ch c' = ch /\
  st c' = st_idle_ /\ is_val_expected c' = false.

Lemma next_num_end_buffered ch c r c' :
  next_num_end_ pow ch c = Ret (r, c') ->
  buffered_ch c' = buffered_ch c \/ num_ended ch r c'.
Proof.
  unfold next_num_end_, upd_num, sd_num_, reads, getc, modc, assertc, mbind, cm_bind, mret, cm_ret.
  destruct (sd c) as [| |n|] eqn:Hsd; try done. cbn.
  destruct (0 <? digit_pos n)%Z; [|intros [= <- <-]; by left]. unfold sob_panic.
  destruct (bool_decide _); cbn; rewrite ?Hsd; cbn; (destruct (buffered_ch c =? -1)%Z; [|done]);
    cbn; rewrite set_st_run; intros [= <- <-]; right; destruct (bool_decide _); done.
Qed.

(** A step either keeps the buffer, or ends a number. *)
Lemma next_st_buffered ch c r c' :
  next_st_ pow ch c = Ret (r, c') ->
  buffered_ch c' = buffered_ch c \/ num_ended ch r c'.
Proof.
  intros Hrun. destruct (decide (st c = st_num_)) as [Hc|Hc].
  2:{ left. eapply (frame_buffered (next_st_ pow ch)); [|done]. intros; apply frame_next_st; by right. }
  unfold next_st_, mbind, cm_bind, reads in Hrun. rewrite Hc in Hrun.
  destruct (num_sep ch) eqn:Hsep.
  2:{ left. by eapply frame_buffered; [intros; apply frame_next_num|]. }
  unfold next_num_ in Hrun. fold (num_sep ch) in Hrun. rewrite Hsep in Hrun. revert Hrun.
  unfold assert_st_, assert_is_val_expected_, mbind, cm_bind, reads, assertc.
  rewrite Hc, bool_decide_eq_true_2 by done. cbn. destruct (Bool.eqb _ _); [|done]. cbn.
  apply next_num_end_buffered.
Qed.

Lemma post_with_pos r c p : post r c -> post r (with_pos p c).
Proof. intros [[] Hcur]. split; [split; done|done]. Qed.

Lemma post_weaken r c : post r c -> forall r', r <> rjson_next_syntax \/ r' = rjson_next_syntax ->
  post r' c.
Proof. intros [Hwf Hcur] r' [Hr| ->]; split; auto. Qed.

(** The bookkeeping of [pos] changes nothing else. *)
Lemma wp_pos_upd (b1 b2 : bool) (Q : unit -> rjson_ctx -> Prop) c :
  (forall p, Q tt (with_pos p c)) -> Q tt c ->
  wp (if b1 then if b2 then mret tt else modc (fun c => with_pos (size_succ (pos c)) c)
      else mret tt) Q c.
Proof. intros H1 H2. destruct b1, b2; by wp_step. Qed.

Lemma wp_pos_upd_all (b1 b2 : bool) (Q : unit -> rjson_ctx -> Prop) c :
  (forall p, Q tt (with_pos p c)) ->
  wp (if b1 then if b2 then mret tt else modc (fun c => with_pos (size_succ (pos c)) c)
      else mret tt) Q c.
Proof.
  intros HQ. apply wp_pos_upd; [done|].
  replace c with (with_pos (pos c) c) by (by destruct c). apply HQ.
Qed.

(** [rjson_next] with an empty buffer, and one call to spare. *)
Lemma rjson_next_unbuffered_wp fuel ch c :
  wf c -> cur_ok c -> within_limits c -> buffered_ch c = (-1)%Z ->
  wp (rjson_next_ pow (S fuel) ch) post c.
Proof.
  intros Hwf Hcur Hlim Hb. pose proof Hwf as [Hl Hn _ _ _].
  change (rjson_next_ pow (S fuel) ch) with (rjson_next_body pow (rjson_next_ pow fuel) ch).
  unfold rjson_next_body. wp_step.
  rewrite Hb. change (negb (-1 =? -1)%Z) with false. cbv iota zeta. wp_step.
  apply wp_if; intros Hnul.
  { wp_step. rewrite wp_lvl by done. wp_step. by split. }
  wp_step. pose proof (next_st_wp ch c Hwf Hcur Hlim Hb) as Hs.
  apply wp_Ret in Hs as (r & c' & Hrun & Hp). eapply wp_run; [exact Hrun|].
  pose proof (next_st_buffered ch c r c' Hrun) as Hbuf. wp_step.
  pose proof Hp as [[Hl' Hn' _ _ _] _].
  apply wp_pos_upd; [intros p|]; (apply wp_if; intros Hb'; [|wp_step; auto using post_with_pos]);
    bool_facts; (destruct Hbuf as [?|(-> & Hnum & _)]; [congruence|]); wp_step; wf_simpl;
    rewrite Hnum, (bool_decide_eq_false_2 (rjson_num = rjson_incomplete)), andb_false_r by done;
    (apply wp_if; intros _); wp_step; rewrite ?wp_lvl by done; wp_step;
    repeat case_match; eauto using post_weaken, post_with_pos.
Qed.

(** A buffered character is processed first, by an idle machine that expects no
    value; the new character waits meanwhile. *)
Lemma next_st_after_num ch c : wf c -> lvls_len c < max_depth_ -> buffered_ch c <> (-1)%Z ->
  exists r c0, next_st_ pow (buffered_ch c) (with_buffered_ch ch c) = Ret (r, with_buffered_ch ch c0) /\
    idle_post (with_buffered_ch (-1)%Z c) r (with_buffered_ch (-1)%Z c0).
Proof.
  intros Hwf Hlv Hb. pose proof Hwf as [Hl Hn Hs Hbuf Hst]. destruct (Hbuf Hb) as [Hidle Hval].
  assert (wf (with_buffered_ch (-1)%Z c)) as Hwf1.
  { split; wf_simpl; try done. }
  pose proof (next_idle_wp (buffered_ch c) (with_buffered_ch (-1)%Z c) Hwf1 Hidle eq_refl Hlv) as Hs1.
  apply wp_Ret in Hs1 as (r & c' & Hrun & Hp).
  pose proof (fun y => frame_next_idle true (buffered_ch c) y (pos c) c) as Hf0.
  assert (forall y, upd true y (pos c) c = with_buffered_ch y c) as Hu by (by destruct c).
  setoid_rewrite Hu in Hf0. pose proof (Hf0 (-1)%Z) as Hf. rewrite Hrun in Hf. exists r.
  unfold next_st_, mbind, cm_bind, reads; cbn [st with_buffered_ch]. rewrite Hidle, Hf0.
  destruct (next_idle_ pow (buffered_ch c) c) as [[r0 c0]| |]; [|done..].
  cbn in Hf. injection Hf as -> ->. by exists (with_pos (pos c) c0).
Qed.

(** The full call. *)
Lemma rjson_next_fuel_wp fuel ch c :
  wf c -> cur_ok c -> within_limits c -> wp (rjson_next_ pow (S (S fuel)) ch) post c.
Proof.
  intros Hwf Hcur Hlim. destruct (decide (buffered_ch c = (-1)%Z)) as [Hb|Hb].
  { by apply rjson_next_unbuffered_wp. }
  pose proof Hwf as [Hl Hn Hs Hbuf Hst]. destruct (Hbuf Hb) as [Hidle Hval].
  pose proof (rjson_next_unbuffered_wp fuel ch) as Hagain.
  change (rjson_next_ pow (S (S fuel)) ch) with
    (rjson_next_body pow (rjson_next_ pow (S fuel)) ch). unfold rjson_next_body. wp_step.
  rewrite (proj2 (Z.eqb_neq _ _) Hb). cbn [negb orb]. wp_step.
  apply wp_if; intros Hnul.
  { wp_step. rewrite wp_lvl by done. wp_step. split; [|done].
    split; wf_simpl; done. }
  wp_step. destruct Hlim as [Hlv Hnum].
  destruct (next_st_after_num ch c Hwf Hlv Hb) as (r & c0 & Hrun' & Hp & Hq). specialize (Hq Hval).
  eapply wp_run; [exact Hrun'|]. wp_step. wf_simpl. destruct Hp as [[Hl' Hn' Hs' _ Hst'] Hcur']. wf_simpl.
  apply (wp_pos_upd_all true). intros p. clear Hrun'.
  apply wp_if; intros Hch; bool_facts.
  2:{ subst ch. wp_step. apply post_with_pos. by split; [split|]. }
  wp_step. wf_simpl. destruct Hq as [(-> & Hinc & Hst2 & Hlen & Hsd)|(Hst2 & Hv2 & Hne)]; wf_simpl.
  - rewrite !bool_decide_eq_true_2 by done. cbn [andb]. wp_step. apply Hagain; [| | |done].
    + by split.
    + unfold cur_ok; wf_simpl. by rewrite Hinc.
    + split; wf_simpl; [lia|]. intros n Hn2. destruct Hst2; congruence.
  - assert (post r (with_pos p (with_buffered_ch ch c0))) as Hp.
    { apply post_with_pos. split; [|done]. split; wf_simpl; done. }
    apply wp_if; intros Hr1; bool_facts.
    { exfalso. apply Hne. split; by eapply bool_decide_eq_true. }
    apply wp_if; intros _; wp_step; [|done]. rewrite wp_lvl by done. wp_step.
    destruct (bool_decide (top _ = _)); [done|]. eapply post_weaken; [done|by right].
Qed.

(** The demo's reading of the token completed by a successful call. *)
Lemma cur_event_safe c : cur_ok c -> exists evs, cur_event c = Ret (evs, c).
Proof.
  unfold cur_ok, cur_event, rjson_cur_ty, rjson_cur_str, rjson_cur_num, rjson_cur_is_true,
    sd_num_, sd_special_, reads, getc, mbind, cm_bind, mret, cm_ret.
  destruct (cur c); eauto.
  - intros [s ->]. eauto.
  - intros [n ->]. eauto.
  - intros (i & b & ->). eauto.
Qed.

(** ** The reader without the delay

    [reads_as c s evs]: from [c], with nothing buffered, feeding [s] one
    character at a time to the machine and processing the separator after a
    number at once emits [evs] and completes the document. *)
Inductive reads_as : rjson_ctx -> list char -> list rjson_event -> Prop :=
| ra_fin ch rest c c1 evs :
    next_st_ pow ch c = Ret (rjson_next_fin, c1) -> buffered_ch c1 = (-1)%Z ->
    cur_event c1 = Ret (evs, c1) -> reads_as c (ch :: rest) evs
| ra_ok ch rest c c1 evs1 evs2 :
    next_st_ pow ch c = Ret (rjson_next_ok, c1) -> buffered_ch c1 = (-1)%Z ->
    cur_event c1 = Ret (evs1, c1) -> reads_as c1 rest evs2 ->
    reads_as c (ch :: rest) (evs1 ++ evs2)
| ra_num ch rest c c1 evs1 evs2 :
    next_st_ pow ch c = Ret (rjson_next_ok, c1) -> buffered_ch c1 <> (-1)%Z ->
    cur_event c1 = Ret (evs1, c1) ->
    reads_as (with_buffered_ch (-1)%Z c1) (ch :: rest) evs2 ->
    reads_as c (ch :: rest) (evs1 ++ evs2).

(** Reading a token does not look at [pos] or [buffered_ch]. *)
Lemma frame_cur_event b : frame b cur_event.
Proof.
  unfold cur_event, rjson_cur_ty, rjson_cur_str, rjson_cur_num, rjson_cur_is_true. frame_tac.
Qed.

Lemma cur_event_upd b y p c evs :
  cur_event c = Ret (evs, c) -> cur_event (upd b y p c) = Ret (evs, upd b y p c).
Proof. intros H. by rewrite frame_cur_event, H. Qed.

(** A step from an idle state that expects no value. *)
Lemma next_idle_noval ch c r c1 :
  st c = st_idle_ -> is_val_expected c = false -> next_st_ pow ch c = Ret (r, c1) ->
  cur c1 = rjson_incomplete \/ (st c1 = st_idle_ /\ is_val_expected c1 = false).
Proof.
  intros Hst Hv.
  apply (pwp_run _ (fun _ c1 =>
    cur c1 = rjson_incomplete \/ (st c1 = st_idle_ /\ is_val_expected c1 = false))).
  unfold next_st_, next_idle_, next_idle_switch_, assert_st_. wp_step.
  rewrite Hst. cbv iota. wp_step. intros _.
  assert (forall c (Q : level_ty_ -> rjson_ctx -> Prop), (forall l, Q l c) -> pwp lvl_ Q c) as Hl.
  { intros c2 Q HQ. unfold lvl_. wp_step. apply pwp_if; intros _; [by wp_step|].
    destruct (_ !! _); by wp_step. }
  assert (forall c (Q : unit -> rjson_ctx -> Prop),
    Q tt (with_lvls_len (lvls_len c - 1) c) -> pwp pop_lvl_ Q c) as Hp.
  { intros c2 Q HQ. unfold pop_lvl_. wp_step. by apply pwp_if; intros _; wp_step. }
  assert (forall c (Q : unit -> rjson_ctx -> Prop) s, (s = st_idle_ \/ s = st_want_key_) ->
    Q tt (with_st s c) -> pwp (set_st_ s) Q c) as Hset.
  { intros c2 Q s [-> | ->] HQ; unfold pwp; rewrite set_st_run;
      by destruct (bool_decide _), c2. }
  apply pwp_if; intros _; wp_step; [by left|]. apply Hl; intros l.
  apply pwp_if; intros _; wp_step; [by left|]. cbn [is_val_expected with_cur]. rewrite Hv. wp_step.
  apply Hl; intros l2. cbn [is_val_expected with_cur]. rewrite Hv. cbn [negb].
  repeat (apply pwp_if; intros _); wp_step; try (left; done).
  - apply Hp. wp_step. apply Hset; [by left|]. wp_step. apply Hl; intros l3. wp_step. by right.
  - apply Hp. wp_step. apply Hset; [by left|]. wp_step. by right.
  - apply Hset; [by right|]. wp_step. by left.
Qed.

(** [rjson_next] on an empty buffer, for a step that completes. *)
Lemma rjson_next_plain ch c p r c1 :
  buffered_ch c = (-1)%Z -> ch <> ch_nul -> next_st_ pow ch c = Ret (r, c1) ->
  r <> rjson_next_syntax ->
  exists p', forall fuel, rjson_next_ pow (S fuel) ch (with_pos p c) = Ret (r, with_pos p' c1).
Proof.
  intros Hb Hch Hrun Hr. exists (if (buffered_ch c1 =? -1)%Z then size_succ p else p).
  intros fuel. pose proof (next_st_buffered ch c r c1 Hrun) as Hbuf.
  pose proof (frame_next_st false ch 0%Z p c (or_introl eq_refl)) as Hf. rewrite Hrun in Hf. cbn in Hf.
  change (rjson_next_ pow (S fuel) ch) with (rjson_next_body pow (rjson_next_ pow fuel) ch).
  unfold rjson_next_body, mbind, cm_bind, reads. cbn [buffered_ch with_pos]. rewrite Hb. cbn.
  rewrite (proj2 (Z.eqb_neq _ _) Hch). rewrite Hf. cbn [buffered_ch with_pos].
  destruct Hbuf as [Hb1|(-> & Hcur & Hb1 & _)].
  - rewrite Hb1, Hb. cbn. by rewrite bool_decide_eq_false_2 by done.
  - rewrite Hb1. destruct (Z.eqb_spec ch (-1)%Z) as [->|Hne]; cbn; [done|].
    rewrite Hcur, (bool_decide_eq_false_2 (rjson_num = rjson_incomplete)), andb_false_r by done.
    by rewrite (proj2 (Z.eqb_neq _ _) Hch), andb_false_r.
Qed.

(** [rjson_next] with [b] buffered and [y] fed, for a step on [b] that completes. *)
Lemma rjson_next_pending fuel y b c p r c1 :
  st c = st_idle_ -> b <> (-1)%Z -> b <> ch_nul -> y <> (-1)%Z ->
  next_st_ pow b c = Ret (r, c1) -> r <> rjson_next_syntax ->
  (r = rjson_next_ok -> y <> ch_nul) ->
  exists p', rjson_next_ pow (S fuel) y (upd true b p c) =
    if bool_decide (r = rjson_next_ok) && bool_decide (cur c1 = rjson_incomplete)
    then rjson_next_ pow fuel y (upd true (-1)%Z p' c1)
    else Ret (r, upd true y p' c1).
Proof.
  intros Hst Hb Hb0 Hy Hrun Hr Hnul.
  assert (st c <> st_num_) as Hst' by congruence.
  pose proof (frame_next_st true b y p c (or_intror Hst')) as Hf. rewrite Hrun in Hf. cbn in Hf.
  exists (size_succ p).
  change (rjson_next_ pow (S fuel) y) with (rjson_next_body pow (rjson_next_ pow fuel) y).
  unfold rjson_next_body, mbind, cm_bind, reads, modc. cbn [buffered_ch with_pos with_buffered_ch upd].
  rewrite (proj2 (Z.eqb_neq _ _) Hb). cbn. rewrite (proj2 (Z.eqb_neq _ _) Hb0).
  change (with_buffered_ch y (with_buffered_ch b (with_pos p c)))
    with (with_buffered_ch y (with_pos p c)). rewrite Hf.
  cbn [buffered_ch with_buffered_ch cur]. rewrite bool_decide_eq_false_2 by done. cbn.
  rewrite (proj2 (Z.eqb_neq _ _) Hy). cbn.
  destruct (bool_decide (r = rjson_next_ok)) eqn:Er; cbn; [|done].
  apply bool_decide_eq_true in Er. destruct (bool_decide (cur c1 = rjson_incomplete)); [done|].
  by rewrite (proj2 (Z.eqb_neq _ _) (Hnul Er)).
Qed.

Lemma with_pos_upd p q b y c : with_pos p (upd b y q c) = upd b y p c.
Proof. by destruct b. Qed.

(** How a [reads_as] derivation starts: a step that does not fail. *)
Lemma reads_as_inv c s evs :
  reads_as c s evs -> exists ch rest r c1,
    s = ch :: rest /\ next_st_ pow ch c = Ret (r, c1) /\ r <> rjson_next_syntax.
Proof. intros []; by repeat eexists. Qed.

(** The body of the demo loop on one character, its call being known. *)
Lemma demo_loop_step ch rest c r c1 evs :
  rjson_next pow ch c = Ret (r, c1) -> r <> rjson_next_syntax -> cur_event c1 = Ret (evs, c1) ->
  rjson_demo_loop pow (ch :: rest) c =
    if bool_decide (r = rjson_next_fin) then Ret ((evs, End_fin), c1)
    else match rjson_demo_loop pow rest c1 with
         | Ret (x, c2) => Ret (app_events evs x, c2)
         | Panic t => Panic t
         | Undef => Undef
         end.
Proof.
  intros Hn Hr He. cbn [rjson_demo_loop]. unfold mbind, cm_bind. rewrite Hn.
  destruct r; [done| |]; by rewrite He.
Qed.

Lemma upd_buffered_same p c : upd true (buffered_ch c) p c = with_pos p c.
Proof. by destruct c. Qed.

Lemma demo_loop_first ch rest c c' :
  rjson_next pow ch c = rjson_next pow ch c' ->
  rjson_demo_loop pow (ch :: rest) c = rjson_demo_loop pow (ch :: rest) c'.
Proof. intros H. cbn [rjson_demo_loop]. unfold mbind, cm_bind. by rewrite H. Qed.

(** The buffered character of an idle reader is processed, quietly or not. *)
Lemma lag_step_ok ch rest c c1 evs1 evs2 p :
  next_st_ pow ch c = Ret (rjson_next_ok, c1) -> buffered_ch c1 = (-1)%Z ->
  cur_event c1 = Ret (evs1, c1) -> reads_as c1 rest evs2 ->
  st c = st_idle_ -> is_val_expected c = false -> (0 < ch)%Z -> Forall (fun ch => 0 < ch)%Z rest ->
  (forall p, exists c', rjson_demo_loop pow (rest ++ [ch_nul]) (with_pos p c1) = Ret ((evs2, End_fin), c')) ->
  (st c1 = st_idle_ -> is_val_expected c1 = false -> forall p b s', rest = b :: s' ->
   exists c', rjson_demo_loop pow (s' ++ [ch_nul]) (upd true b p c1) = Ret ((evs2, End_fin), c')) ->
  exists c', rjson_demo_loop pow (rest ++ [ch_nul]) (upd true ch p c) =
    Ret ((evs1 ++ evs2, End_fin), c').
Proof.
  intros Hrun Hb1 Hev Hrest Hst Hv Hch Hs IHA IHB.
  destruct (reads_as_inv _ _ _ Hrest) as (y & rest' & r2 & c2 & -> & Hrun2 & Hr2).
  apply Forall_cons_iff in Hs as [Hy Hs]. cbn [app] in *.
  destruct (rjson_next_pending 1 y ch c p rjson_next_ok c1) as [p' Hp]; try done; try lia.
  rewrite (bool_decide_eq_true_2 (rjson_next_ok = rjson_next_ok)) in Hp by done. cbn [andb] in Hp.
  destruct (bool_decide (cur c1 = rjson_incomplete)) eqn:Hcur.
  - apply bool_decide_eq_true in Hcur.
    assert (evs1 = []) as ->.
    { revert Hev. unfold cur_event, rjson_cur_ty, reads, mbind, cm_bind. rewrite Hcur. by intros [= <-]. }
    rewrite <- Hb1, upd_buffered_same in Hp.
    destruct (rjson_next_plain y c1 p' r2 c2) as [p2 Hp2]; try done; try lia.
    destruct (IHA p') as [c' Hc']. exists c'. cbn [app]. rewrite <- Hc'. apply demo_loop_first.
    unfold rjson_next. by rewrite Hp, !Hp2.
  - apply bool_decide_eq_false in Hcur.
    destruct (next_idle_noval ch c rjson_next_ok c1) as [?|[Hst1 Hv1]]; try done.
    destruct (IHB Hst1 Hv1 p' y rest' eq_refl) as [c' Hc']. exists c'.
    erewrite demo_loop_step; [|exact Hp|done|by apply cur_event_upd].
    by rewrite bool_decide_eq_false_2, Hc' by done.
Qed.

(** The real reader, with nothing buffered or with the first character still
    buffered, follows the reader without the delay. *)
Lemma lag_equiv c s evs :
  reads_as c s evs -> buffered_ch c = (-1)%Z -> Forall (fun ch => 0 < ch)%Z s ->
  (forall p, exists c', rjson_demo_loop pow (s ++ [ch_nul]) (with_pos p c) = Ret ((evs, End_fin), c')) /\
  (st c = st_idle_ -> is_val_expected c = false -> forall p b s', s = b :: s' ->
   exists c', rjson_demo_loop pow (s' ++ [ch_nul]) (upd true b p c) = Ret ((evs, End_fin), c')).
Proof.
  induction 1 as [ch rest c c1 evs Hrun Hb1 Hev|ch rest c c1 evs1 evs2 Hrun Hb1 Hev Hrest IH
                 |ch rest c c1 evs1 evs2 Hrun Hb1 Hev Hrest IH]; intros Hb Hs;
    apply Forall_cons_iff in Hs as [Hch Hs']; cbn [app].
  - split.
    + intros p. destruct (rjson_next_plain ch c p rjson_next_fin c1) as [p' Hp]; try done; try lia.
      erewrite demo_loop_step; [|exact (Hp 1)|done|by apply (cur_event_upd false 0%Z)].
      rewrite bool_decide_eq_true_2 by done. eauto.
    + intros Hst Hv p b s' [= <- <-].
      assert (exists y l, rest ++ [ch_nul] = y :: l /\ (0 <= y)%Z) as (y & l & -> & Hy).
      { destruct rest as [|y l]; cbn; eexists _, _; (split; [done|]); [lia|].
        apply Forall_cons_iff in Hs' as [? _]. lia. }
      destruct (rjson_next_pending 1 y ch c p rjson_next_fin c1) as [p' Hp]; try done; try lia.
      rewrite bool_decide_eq_false_2 in Hp by done. cbn [andb] in Hp.
      erewrite demo_loop_step; [|exact Hp|done|by apply cur_event_upd].
      rewrite bool_decide_eq_true_2 by done. eauto.
  - destruct (IH Hb1 Hs') as [IHA IHB]. split.
    + intros p. destruct (rjson_next_plain ch c p rjson_next_ok c1) as [p' Hp]; try done; try lia.
      destruct (IHA p') as [c' Hc']. exists c'.
      erewrite demo_loop_step; [|exact (Hp 1)|done|by apply (cur_event_upd false 0%Z)].
      by rewrite bool_decide_eq_false_2, Hc' by done.
    + intros Hst Hv p b s' [= <- <-]. by eapply lag_step_ok.
  - destruct (next_st_buffered _ _ _ _ Hrun) as [?|(_ & Hcur & Hbc & Hst1 & Hv1)]; [congruence|].
    split.
    + intros p. destruct (rjson_next_plain ch c p rjson_next_ok c1) as [p' Hp]; try done; try lia.
      destruct (IH eq_refl) as [_ IHB]; [by constructor|].
      destruct (IHB Hst1 Hv1 p' ch rest eq_refl) as [c' Hc'].
      change (upd true ch p' (with_buffered_ch (-1)%Z c1)) with (upd true ch p' c1) in Hc'.
      rewrite <- Hbc, upd_buffered_same in Hc'.
      exists c'. erewrite demo_loop_step; [|exact (Hp 1)|done|by apply (cur_event_upd false 0%Z)].
      by rewrite bool_decide_eq_false_2, Hc' by done.
    + intros Hst Hv. exfalso. apply Hb1.
      rewrite <- Hb. eapply (frame_buffered (next_st_ pow ch)); [|done].
      intros. apply frame_next_st. right. congruence.
Qed.
End with_pow.

(** ** Initialisation *)

(** The context [rjson_init] produces from whatever memory held before. *)
Definition fresh (buf : list char) (c0 : rjson_ctx) : rjson_ctx :=
  {| str := buf; str_mlen := length buf; lvls := lvls c0; lvls_len := 0; sd := sd c0;
     st := st_idle_; buffered_ch := (-1)%Z; cur := rjson_incomplete;
     is_val_expected := true; pos := 0%Z |}.

Lemma rjson_init_run buf c0 : rjson_init buf (length buf) c0 = Ret (tt, fresh buf c0).
Proof.
  unfold rjson_init, modc, mbind, cm_bind. rewrite set_st_run.
  by destruct (bool_decide _).
Qed.

Lemma fresh_wf buf c0 : length (lvls c0) = max_depth_ -> wf (fresh buf c0) /\ cur_ok (fresh buf c0).
Proof. intros Hl. split; [|done]. split; cbn; try done. unfold max_depth_; lia. Qed.

(** ** Theorems *)

(** C1. Safety of the JSON reader: on every well-formed context that is below
    its limits (fewer than 24 open levels, counters of the number being read
    below the [int] range), [rjson_next] on any character returns - no
    [SOB_PANIC], no out-of-bounds access, no read of a wrong union member, no
    unbounded recursion - to a well-formed context, and unless it reports a
    syntax error the token it announces can be read through its accessor. *)
Theorem rjson_next_safe pow ch c :
  wf c -> cur_ok c -> within_limits c ->
  exists r c', rjson_next pow ch c = Ret (r, c') /\ wf c' /\
    (r <> rjson_next_syntax -> cur_ok c' /\ exists evs, cur_event c' = Ret (evs, c')).
Proof.
  intros Hwf Hcur Hlim. pose proof (rjson_next_fuel_wp pow 0 ch c Hwf Hcur Hlim) as H.
  apply wp_Ret in H as (r & c' & Hrun & Hwf' & Hc'). exists r, c'.
  split_and!; [done|done|]. intros Hr. split; [auto|]. by apply cur_event_safe, Hc'.
Qed.

(** A context as found on the stack, and the one [rjson_init] makes of it. *)
Definition stack_ctx : rjson_ctx :=
  {| str := []; str_mlen := 0; lvls := replicate 24 lvl_arr_; lvls_len := 77; sd := Sd_none;
     st := st_num_; buffered_ch := 5%Z; cur := rjson_null; is_val_expected := false;
     pos := 3%Z |}.

Definition fresh16 : rjson_ctx := fresh (replicate 16 7%Z) stack_ctx.

Lemma rjson_next_safe_witness :
  exists r c', rjson_next (fun x _ => x) ch_lbrace fresh16 = Ret (r, c') /\ wf c' /\
    (r <> rjson_next_syntax -> cur_ok c' /\ exists evs, cur_event c' = Ret (evs, c')).
Proof.
  apply (rjson_next_safe (fun x _ => x) ch_lbrace fresh16).
  - by apply fresh_wf.
  - by apply fresh_wf.
  - split; [cbn; unfold max_depth_; lia|done].
Defined.

(** Initialisation of the JSON reader: from any memory contents
    [rjson_init] returns a context that satisfies the invariant of the reader
    and is below its limits, so that the first character can be fed. *)
Theorem rjson_init_wf buf c0 : length (lvls c0) = max_depth_ ->
  exists c, rjson_init buf (length buf) c0 = Ret (tt, c) /\
    wf c /\ cur_ok c /\ within_limits c /\ pos c = 0%Z /\ cur c = rjson_incomplete.
Proof.
  intros Hl. destruct (fresh_wf buf c0 Hl). exists (fresh buf c0).
  split_and!; [apply rjson_init_run|done..| |done|done].
  split; [cbn; unfold max_depth_; lia|done].
Qed.

Lemma rjson_init_wf_witness :
  exists c, rjson_init [7%Z; 8%Z] 2 stack_ctx = Ret (tt, c) /\
    wf c /\ cur_ok c /\ within_limits c /\ pos c = 0%Z /\ cur c = rjson_incomplete.
Proof. apply (rjson_init_wf [7%Z; 8%Z] stack_ctx). reflexivity. Defined.

(** C30. The one-character delay is not seen on complete texts: for every text that
    the reader which handles the separator after a number at once reads to its end
    ([reads_as]), the real reader, driven by the demo loop over the text and its
    NUL, reports the same events in the same order and ends with
    [rjson_next_fin].  Nothing is said of texts that end too early or are refused,
    on which the delayed reader may drop the last event. *)
Theorem rjson_delay_refines pow buf c0 s evs :
  reads_as pow (fresh buf c0) s evs -> Forall (fun ch => 0 < ch)%Z s ->
  exists c', rjson_demo pow buf s c0 = Ret ((evs, End_fin), c').
Proof.
  intros Hr Hs. unfold rjson_demo, mbind, cm_bind. rewrite rjson_init_run.
  destruct (lag_equiv pow _ s evs Hr eq_refl Hs) as [Ha _]. apply (Ha 0%Z).
Qed.

(** One step of a [reads_as] derivation on a concrete context. *)
Ltac ra_step :=
  first [ eapply ra_ok; [vm_compute; reflexivity|reflexivity|vm_compute; reflexivity|]
        | eapply ra_num; [vm_compute; reflexivity|discriminate|vm_compute; reflexivity|]
        | eapply ra_fin; [vm_compute; reflexivity|reflexivity|vm_compute; reflexivity] ].

(** The text of a one-member object whose value is the number 1. *)
Definition obj_a_1 : list char := [123; 34; 97; 34; 58; 49; 125]%Z.

Lemma rjson_delay_refines_witness :
  exists c', rjson_demo (fun x _ => x) (replicate 16 7%Z) obj_a_1 stack_ctx =
    Ret (([Ev_obj_start; Ev_str [97%Z]; Ev_num (d_of_int 1); Ev_obj_end], End_fin), c').
Proof.
  apply (rjson_delay_refines (fun x _ => x) (replicate 16 7%Z) stack_ctx obj_a_1).
  - change [Ev_obj_start; Ev_str [97%Z]; Ev_num (d_of_int 1); Ev_obj_end]
      with ([Ev_obj_start] ++ [] ++ [] ++ [Ev_str [97%Z]] ++ [] ++ [] ++
            [Ev_num (d_of_int 1)] ++ [Ev_obj_end]).
    repeat ra_step.
  - repeat constructor; lia.
Defined.
