(* ===== verification/RjsonTyping.v ===== *)
(** * The token stream of the JSON reader is well typed

    A type discipline for token streams - keys and values alternate in an object,
    every end closes the innermost start of its own kind - and the proof that the
    reader, fed any characters at all, reports only tokens that obey it. *)

From stdpp Require Import base list numbers strings option.
From S2P Require Import Prelude Rjson RjsonProps.

(** ** Types *)

(** What an open level expects next. *)
Inductive slot :=
| slot_key (** an object: a key, or its end *)
| slot_val (** an object: the value of a key *)
| slot_elem (** an array: an element, or its end *).

(** The levels, innermost first; nothing was read yet, or the object is open, or,
    when no level is left, complete. *)
Inductive tstate := T_start | T_in (l : list slot).

(** A value where one is expected. *)
Definition put_value (l : list slot) : option (list slot) :=
  match l with
  | slot_val :: l => Some (slot_key :: l)
  | slot_elem :: l => Some (slot_elem :: l)
  | _ => None
  end.

(** The typing rules; no token is always allowed. *)
Definition tok_step (s : tstate) (t : rjson_ty) : option tstate :=
  match t, s with
  | rjson_incomplete, _ => Some s
  | rjson_obj_start, T_start => Some (T_in [slot_key])
  | _, T_start => None
  | rjson_str, T_in (slot_key :: l) => Some (T_in (slot_val :: l))
  | (rjson_str | rjson_num | rjson_bool | rjson_null), T_in l => T_in <$> put_value l
  | rjson_obj_start, T_in l => T_in ∘ cons slot_key <$> put_value l
  | rjson_arr_start, T_in l => T_in ∘ cons slot_elem <$> put_value l
  | rjson_obj_end, T_in (slot_key :: l) => Some (T_in l)
  | rjson_arr_end, T_in (slot_elem :: l) => Some (T_in l)
  | _, _ => None
  end.

(** ** The type of a context *)
Definition open_lvls (c : rjson_ctx) : list level_ty_ := reverse (take (lvls_len c) (lvls c)).

Definition slot_of (l : level_ty_) : slot := if decide (l = lvl_obj_) then slot_key else slot_elem.

(** The innermost object has a key whose value was not reported yet. *)
Definition pending (c : rjson_ctx) : bool :=
  match st c with
  | st_idle_ => is_val_expected c
  | st_want_key_ => false
  | st_str_ => match sd c with Sd_str s => negb (is_key s) | _ => true end
  | _ => true
  end.

Definition top_slot (c : rjson_ctx) (l : level_ty_) : slot :=
  if decide (l = lvl_obj_) then if pending c then slot_val else slot_key else slot_elem.

Definition type_of (c : rjson_ctx) : tstate :=
  match open_lvls c with
  | [] => if is_val_expected c then T_start else T_in []
  | l :: ls => T_in (top_slot c l :: (slot_of <$> ls))
  end.

(** The open levels are objects and arrays, and there is one whenever the machine
    is not idle. *)
Definition inside (c : rjson_ctx) : Prop := (lvl_none_ ∉ open_lvls c) /\ (st c <> st_idle_ -> open_lvls c <> []).

(** A call that did not fail took a step of the types with the token it
    announces, and the end of the text is the end of the object. *)
Definition tpost (s : tstate) (r : rjson_next_res) (c : rjson_ctx) : Prop :=
  r <> rjson_next_syntax ->
  inside c /\ tok_step s (cur c) = Some (type_of c) /\ (r = rjson_next_fin -> type_of c = T_in []).

Lemma tpost_syntax s c : tpost s rjson_next_syntax c.
Proof. by intros ?. Qed.

(** No token. *)
Lemma tpost_quiet s c : inside c -> cur c = rjson_incomplete -> type_of c = s -> tpost s rjson_next_ok c.
Proof. intros Hi Hc <- _. rewrite Hc. done. Qed.

Lemma open_top c : wf c -> top c = match open_lvls c with [] => lvl_none_ | l :: _ => l end.
Proof.
  intros [Hl Hn _ _ _]. unfold top, open_lvls. destruct (lvls_len c) as [|n] eqn:Hlen; [done|].
  rewrite bool_decide_eq_false_2 by done. replace (S n - 1) with n by lia.
  destruct (lookup_lt_is_Some_2 (lvls c) n) as [l Hlk]; [lia|]. rewrite Hlk. cbn.
  by rewrite (take_S_r _ _ _ Hlk), reverse_app.
Qed.

(** A value was completed: the machine is idle and expects no value. *)
Lemma value_typed_step c c' t : inside c -> open_lvls c <> [] -> open_lvls c' = open_lvls c -> pending c = true ->
  st c' = st_idle_ -> is_val_expected c' = false -> cur c' = t ->
  t = rjson_str \/ t = rjson_num \/ t = rjson_bool \/ t = rjson_null ->
  tpost (type_of c) rjson_next_ok c'.
Proof.
  intros [Hin _] Hne Ho Hp Hst He Hc Ht _. split; [by rewrite <- Ho in Hin; split|]. split; [|done]. rewrite Hc.
  unfold type_of, top_slot, pending at 2. rewrite Ho, Hst, He, Hp. destruct (open_lvls c) as [|l ls]; [done|].
  destruct (decide (l = lvl_obj_)); destruct Ht as [->|[->|[->| ->]]]; done.
Qed.

(** Nothing the type depends on has changed. *)
Lemma type_same c c' : open_lvls c' = open_lvls c -> is_val_expected c' = is_val_expected c -> pending c' = pending c ->
  type_of c' = type_of c.
Proof. intros Ho He Hp. unfold type_of, top_slot. by rewrite Ho, He, Hp. Qed.

Lemma quiet_step c c' : inside c -> open_lvls c' = open_lvls c -> is_val_expected c' = is_val_expected c -> st c' = st c ->
  pending c' = pending c -> cur c' = rjson_incomplete -> tpost (type_of c) rjson_next_ok c'.
Proof.
  intros Hi Ho He Hs Hp Hc. apply tpost_quiet; [|done|by apply type_same]. unfold inside. by rewrite Ho, Hs.
Qed.

(** ** Partial correctness of the pieces *)
Lemma pwp_lvl c Q : wf c -> pwp lvl_ Q c <-> Q (top c) c.
Proof. intros [Hl Hn _ _ _]. unfold pwp. by rewrite lvl_run. Qed.

Lemma pwp_set_st new c Q : pwp (set_st_ new) Q c <->
  Q tt (with_st new (if bool_decide (st c = new) then c else with_sd (sd_init new (sd c)) c)).
Proof. unfold pwp. by rewrite set_st_run. Qed.

Lemma pwp_set_idle c Q : pwp (set_st_ st_idle_) Q c <-> Q tt (with_st st_idle_ c).
Proof. rewrite pwp_set_st. by destruct c, (bool_decide _). Qed.
Lemma pwp_set_want_key c Q : pwp (set_st_ st_want_key_) Q c <-> Q tt (with_st st_want_key_ c).
Proof. rewrite pwp_set_st. by destruct c, (bool_decide _). Qed.
Lemma pwp_set_want_colon c Q : pwp (set_st_ st_want_colon_) Q c <-> Q tt (with_st st_want_colon_ c).
Proof. rewrite pwp_set_st. by destruct c, (bool_decide _). Qed.

Lemma pwp_assert_st s c Q : (st c = s -> Q tt c) -> pwp (assert_st_ s) Q c.
Proof. intros H. unfold assert_st_. wp_step. intros Hs%bool_decide_eq_true_1. auto. Qed.

Lemma pwp_assert_lvl l c Q : wf c -> (top c = l -> Q tt c) -> pwp (assert_lvl_ l) Q c.
Proof. intros Hwf H. unfold assert_lvl_. wp_step. rewrite pwp_lvl by done. wp_step. intros Hl%bool_decide_eq_true_1. auto. Qed.

Lemma pwp_assert_val v c Q : (is_val_expected c = v -> Q tt c) -> pwp (assert_is_val_expected_ v) Q c.
Proof. intros H. unfold assert_is_val_expected_. wp_step. intros Hs%Bool.eqb_prop. auto. Qed.

Lemma pwp_sd_str s c Q : sd c = Sd_str s -> pwp sd_str_ Q c <-> Q s c.
Proof. intros H. unfold sd_str_. wp_step. by rewrite H. Qed.

(** A character is added to the string: only the union member changes. *)
Lemma pwp_str_add ch s c Q : sd c = Sd_str s -> Q rjson_next_syntax c ->
  (forall buf n, Q rjson_next_ok (with_sd (Sd_str {| str_len := n; is_escape := is_escape s; is_key := is_key s |}) (with_str buf c))) ->
  pwp (next_str_add_ ch) Q c.
Proof.
  intros Hs H1 H2. unfold next_str_add_, add_str_ch_. wp_step. rewrite (pwp_sd_str s) by done.
  destruct (bool_decide _); wp_step; [done|]. unfold buf_set. destruct (decide _); wp_step; [|done]. apply H2.
Qed.

#[local] Hint Rewrite pwp_set_idle pwp_set_want_key pwp_set_want_colon : cm.

(** ** Strings *)
Lemma next_str_typed ch c : wf c -> st c = st_str_ -> inside c -> pwp (next_str_ ch) (tpost (type_of c)) c.
Proof.
  intros Hwf Hst Hi. pose proof (wf_state c Hwf) as Hs. unfold wf_st in Hs. rewrite Hst in Hs.
  destruct Hs as (s & Hsd & Hlen & Hkey).
  assert (open_lvls c <> []) as Hne by (apply Hi; congruence).
  assert (pending c = negb (is_key s)) as Hp by (unfold pending; by rewrite Hst, Hsd).
  unfold next_str_. wp_step. apply pwp_assert_st. intros _. wp_step. rewrite (pwp_sd_str s) by done. wp_step.
  assert (forall Q, Q tt c -> pwp (if is_key s then assert_lvl_ lvl_obj_ else mret tt) Q c) as Hlvl.
  { intros Q HQ. destruct (is_key s); wp_step; [by apply pwp_assert_lvl|done]. }
  apply Hlvl. wp_step. destruct (_ || _); wp_step; [apply tpost_syntax|]. unfold next_str_ch_.
  set (c1 := with_cur rjson_incomplete c).
  assert (forall s', is_key s' = is_key s -> tpost (type_of c) rjson_next_ok (with_sd (Sd_str s') c1)) as Hq.
  { intros s' Hk. apply quiet_step; try done. rewrite Hp. unfold pending. cbn. by rewrite Hst, Hk. }
  assert (forall ch s', is_key s' = is_key s -> pwp (next_str_add_ ch) (tpost (type_of c)) (with_sd (Sd_str s') c1)) as Hadd.
  { intros ch' s' Hk. apply (pwp_str_add _ s'); [done|apply tpost_syntax|]. intros buf n.
    apply quiet_step; try done. rewrite Hp. unfold pending. cbn. by rewrite Hst, Hk. }
  destruct (is_escape s).
  { destruct (str_escape_ ch) as [[] ch']; wp_step; try apply tpost_syntax. by apply Hadd. }
  destruct (_ =? _)%Z; wp_step; [by apply Hq|].
  destruct (_ =? _)%Z; wp_step.
  2:{ specialize (Hadd ch s eq_refl). rewrite <- (with_sd_id c1 (Sd_str s)) in Hadd; done. }
  destruct (is_key s) eqn:Hk; wp_step.
  - apply (pwp_str_add _ s); [done|apply tpost_syntax|]. intros buf n _. split; [split; [apply Hi|done]|]. split; [|done].
    pose proof (open_top c Hwf) as Ht. rewrite Hkey in Ht by done. unfold type_of, top_slot. rewrite Hp.
    change (open_lvls (with_sd _ _)) with (open_lvls c). destruct (open_lvls c) as [|l ls]; [done|]. subst l. done.
  - apply (pwp_str_add _ s); [done|apply tpost_syntax|]. intros buf n.
    eapply value_typed_step; [exact Hi|exact Hne|done|by rewrite Hp|done|done|reflexivity|auto].
Qed.

(** ** Literals and numbers *)

(** The machine reads a literal or a number. *)
Definition in_value (c : rjson_ctx) : Prop :=
  (st c = st_num_ \/ st c = st_true_ \/ st c = st_false_ \/ st c = st_null_) /\ cur c = rjson_incomplete /\ open_lvls c <> [] /\
  inside c.

Lemma in_value_pending c : in_value c -> pending c = true.
Proof. intros ([H|[H|[H|H]]] & _); unfold pending; by rewrite H. Qed.

(** Only the union member changed. *)
Lemma in_value_quiet c v : in_value c -> tpost (type_of c) rjson_next_ok (with_sd v c).
Proof.
  intros Hv. pose proof (in_value_pending (with_sd v c) Hv) as Hp. pose proof Hv as (_ & Hc & Hne & Hi).
  apply quiet_step; try done. by rewrite Hp, in_value_pending.
Qed.

Lemma next_word_typed ch word ty c : in_value c -> ty = rjson_bool \/ ty = rjson_null ->
  pwp (next_word_ ch word ty) (tpost (type_of c)) c.
Proof.
  intros Hv Hty. pose proof (in_value_pending c Hv) as Hp. pose proof Hv as (_ & Hc & Hne & Hi).
  unfold next_word_, sd_special_. wp_step. destruct (sd c) as [| | |w]; wp_step; try done.
  destruct ((word ++ [ch_nul]) !! _); wp_step; [|done]. destruct (negb _); wp_step; [apply tpost_syntax|].
  destruct (bool_decide _); wp_step; [|by apply in_value_quiet].
  eapply value_typed_step; [exact Hi|exact Hne|done|done|done|done|reflexivity|tauto].
Qed.

Lemma pwp_sd_num c Q : (forall n, sd c = Sd_num n -> Q n c) -> pwp sd_num_ Q c.
Proof. intros H. unfold sd_num_. wp_step. destruct (sd c); wp_step; auto. Qed.

Lemma pwp_upd_num f c Q : (forall v, Q tt (with_sd v c)) -> pwp (upd_num f) Q c.
Proof. intros H. unfold upd_num. wp_step. apply pwp_sd_num. intros n _. wp_step. apply H. Qed.

Lemma pwp_int_chk {S} z (c : S) Q : Q z c -> pwp (int_chk z) Q c.
Proof. intros H. unfold int_chk. by destruct (in_int z). Qed.

(** A number goes on or fails: every step only changes the union member. *)
Ltac num_run Hv :=
  repeat (wp_step; match goal with
  | |- tpost _ rjson_next_syntax _ => apply tpost_syntax
  | |- tpost (type_of ?c) rjson_next_ok _ => exact (in_value_quiet c _ Hv)
  | |- pwp sd_num_ _ _ => apply pwp_sd_num; intros ? _
  | |- pwp (upd_num _) _ _ => apply pwp_upd_num; intros ?
  | |- pwp (int_chk _) _ _ => apply pwp_int_chk
  | |- pwp (if ?b then _ else _) _ _ => destruct b
  | |- pwp digit_pos_incr_ _ _ => unfold digit_pos_incr_
  end).

Section with_pow.
Context (pow : double -> double -> double).

Lemma next_num_typed ch c : in_value c -> pwp (next_num_ pow ch) (tpost (type_of c)) c.
Proof.
  intros Hv. pose proof Hv as (_ & Hc & Hne & Hi). unfold next_num_. wp_step. apply pwp_assert_st. intros _. wp_step.
  apply pwp_assert_val. intros _. wp_step. destruct (is_whitespace_ ch || _ || _ || _).
  - unfold next_num_end_. wp_step. apply pwp_sd_num. intros n _. destruct (_ <? _)%Z; wp_step; [|apply tpost_syntax].
    assert (forall v f l t, pwp (modc (with_cur rjson_num) ;; b ← reads buffered_ch; assertc (b =? -1)%Z f l t ;;
      modc (with_buffered_ch ch) ;; modc (with_is_val_expected false) ;; set_st_ st_idle_ ;; mret rjson_next_ok)
      (tpost (type_of c)) (with_sd v c)) as Hend.
    { intros v f l t. wp_step. intros _. eapply value_typed_step; [exact Hi|exact Hne|done|by apply in_value_pending|done|done|reflexivity|auto]. }
    destruct (bool_decide _); [apply pwp_upd_num; intros v|]; wp_step.
    + specialize (Hend v [] 0%Z []). autorewrite with cm in Hend. exact Hend.
    + specialize (Hend (sd c) [] 0%Z []). rewrite <- with_sd_id in Hend by done. autorewrite with cm in Hend. exact Hend.
  - wp_step. apply pwp_sd_num. intros n _. destruct (_ && _ && _); [by num_run Hv|].
    destruct (part n); unfold next_num_int_, next_num_frac_, next_num_exp_; by num_run Hv.
Qed.

(** ** Structure *)

Lemma pwp_pop_lvl c Q : (lvls_len c <> 0 -> Q tt (with_lvls_len (lvls_len c - 1) c)) -> pwp pop_lvl_ Q c.
Proof. intros H. unfold pop_lvl_. wp_step. case_bool_decide; [done|wp_step; auto]. Qed.

Lemma pwp_add_lvl l c Q : (forall ls, open_lvls (with_lvls_len (S (lvls_len c)) (with_lvls ls c)) = l :: open_lvls c ->
    Q tt (with_lvls_len (S (lvls_len c)) (with_lvls ls c))) -> pwp (add_lvl_ l) Q c.
Proof.
  intros H. unfold add_lvl_. wp_step. destruct (bool_decide _); [done|]. destruct (decide _) as [Hlt|]; [|done]. wp_step.
  apply H. unfold open_lvls. wf_simpl. rewrite (take_S_r _ _ l) by (by rewrite list_lookup_insert_eq).
  rewrite take_insert_ge by lia. by rewrite reverse_snoc.
Qed.

Lemma open_pop c : wf c -> lvls_len c <> 0 -> exists l, open_lvls c = l :: open_lvls (with_lvls_len (lvls_len c - 1) c).
Proof.
  intros [Hl Hn _ _ _] Hne. unfold open_lvls. wf_simpl. destruct (lvls_len c) as [|n]; [done|]. replace (S n - 1) with n by lia.
  destruct (lookup_lt_is_Some_2 (lvls c) n) as [l Hlk]; [lia|]. exists l. by rewrite (take_S_r _ _ _ Hlk), reverse_app.
Qed.

(** A level is opened where a value is expected. *)
Lemma open_step c c' t l : inside c -> pending c = true -> st c = st_idle_ -> (open_lvls c <> [] \/ t = rjson_obj_start) ->
  (t = rjson_obj_start /\ l = lvl_obj_ /\ st c' = st_want_key_) \/ (t = rjson_arr_start /\ l = lvl_arr_ /\ st c' = st_idle_) ->
  open_lvls c' = l :: open_lvls c -> cur c' = t -> tpost (type_of c) rjson_next_ok c'.
Proof.
  intros [Hin _] Hp Hst Hne Ht Ho Hc _. assert (is_val_expected c = true) as He by (unfold pending in Hp; by rewrite Hst in Hp).
  split; [split; rewrite Ho; [|done]; rewrite not_elem_of_cons; split; [|done]; by destruct Ht as [(_ & -> & _)|(_ & -> & _)]|].
  split; [|done]. rewrite Hc. unfold type_of. rewrite Ho. unfold top_slot. rewrite Hp, He.
  destruct Ht as [(-> & -> & Hs)|(-> & -> & Hs)]; unfold pending; rewrite Hs; destruct (open_lvls c) as [|l ls]; rewrite ?fmap_cons.
  - done.
  - change (slot_of l) with (if decide (l = lvl_obj_) then slot_key else slot_elem). by destruct (decide (l = lvl_obj_)).
  - by destruct Hne.
  - change (slot_of l) with (if decide (l = lvl_obj_) then slot_key else slot_elem). by destruct (decide (l = lvl_obj_)).
Qed.

(** The innermost level is closed where no value is pending. *)
Lemma close_step c c' t l ls r : inside c -> pending c = false -> open_lvls c = l :: ls -> open_lvls c' = ls ->
  (t = rjson_obj_end /\ l = lvl_obj_) \/ (t = rjson_arr_end /\ l = lvl_arr_) ->
  st c' = st_idle_ -> is_val_expected c' = false -> cur c' = t -> (r = rjson_next_fin -> ls = []) -> tpost (type_of c) r c'.
Proof.
  intros [Hin _] Hp Ho Ho' Ht Hst He Hc Hfin _. rewrite Ho, not_elem_of_cons in Hin.
  split; [split; [rewrite Ho'; apply Hin|by rewrite Hst]|]. split.
  - rewrite Hc. unfold type_of. rewrite Ho, Ho'. unfold top_slot. rewrite Hp. unfold pending. rewrite Hst, He.
    destruct Ht as [[-> ->]|[-> ->]]; cbn; by destruct ls.
  - intros ->. unfold type_of. by rewrite Ho', Hfin, He.
Qed.

Lemma top_none c : wf c -> inside c -> top c = lvl_none_ <-> open_lvls c = [].
Proof.
  intros Hwf [Hin _]. rewrite (open_top c Hwf). destruct (open_lvls c) as [|l ls]; [done|]. rewrite not_elem_of_cons in Hin.
  split; [|done]. intros ->. by destruct Hin.
Qed.

(** [pop_lvl_] and what is left. *)
Lemma pwp_pop c l Q : wf c -> inside c -> top c = l -> l <> lvl_none_ ->
  (forall ls, open_lvls c = l :: ls -> open_lvls (with_lvls_len (lvls_len c - 1) c) = ls ->
     Q tt (with_lvls_len (lvls_len c - 1) c)) -> pwp pop_lvl_ Q c.
Proof.
  intros Hwf Hi Ht Hl HQ. apply pwp_pop_lvl. intros Hne. destruct (open_pop c Hwf Hne) as [l' Ho].
  rewrite (open_top c Hwf), Ho in Ht. subst l'. by eapply HQ.
Qed.

(** The level that is left, as the code asks for it. *)
Lemma pwp_lvl_left c c' ls Q : wf c -> inside c -> open_lvls c' = ls -> lvls c' = lvls c -> lvls_len c' <= lvls_len c ->
  (forall l, l = lvl_none_ <-> ls = [] -> Q l c') -> lvl_none_ ∉ ls -> pwp lvl_ Q c'.
Proof.
  intros [Hl Hn _ _ _] Hi Ho Hls Hle HQ Hnone. unfold pwp. rewrite lvl_run by (rewrite ?Hls; lia). apply HQ.
  revert Hnone. rewrite <- Ho. unfold top, open_lvls. destruct (lvls_len c') as [|n] eqn:Hlen; [done|].
  rewrite bool_decide_eq_false_2 by done. replace (S n - 1) with n by lia.
  destruct (lookup_lt_is_Some_2 (lvls c') n) as [l Hlk]; [rewrite Hls; lia|]. rewrite Hlk, (take_S_r _ _ _ Hlk), reverse_snoc.
  rewrite not_elem_of_cons. cbn. intros [? _]. by split; [intros ->|].
Qed.

Lemma next_idle_switch_typed ch c : wf c -> st c = st_idle_ -> cur c = rjson_incomplete -> inside c ->
  open_lvls c <> [] \/ ch = ch_lbrace -> pwp (next_idle_switch_ ch) (tpost (type_of c)) c.
Proof.
  intros Hwf Hst Hcur Hi Hopen. assert (pending c = is_val_expected c) as Hp by (unfold pending; by rewrite Hst).
  unfold next_idle_switch_. wp_step. rewrite pwp_lvl by done.
  destruct (Z.eqb_spec ch ch_lbrace) as [->|Hn1].
  { destruct (is_val_expected c) eqn:He; wp_step; [|apply tpost_syntax]. apply pwp_add_lvl. intros ls Ho. wp_step.
    eapply (open_step c _ rjson_obj_start lvl_obj_); [done|done|done|by right|left; done|exact Ho|done]. }
  assert (open_lvls c <> []) as Hne by (by destruct Hopen).
  destruct (_ =? _)%Z.
  { destruct (is_val_expected c) eqn:He; wp_step; [|apply tpost_syntax]. apply pwp_add_lvl. intros ls Ho. wp_step.
    eapply (open_step c _ rjson_arr_start lvl_arr_); [done|done|done|by left|right; done|exact Ho|done]. }
  destruct (_ =? _)%Z.
  { case_bool_decide as Ht; wp_step; [|apply tpost_syntax]. destruct (is_val_expected c) eqn:He; cbn [negb]; wp_step; [apply tpost_syntax|].
    apply (pwp_pop c lvl_obj_); [done..|]. intros ls Ho Ho'. wp_step.
    eapply pwp_lvl_left; [done|done|exact Ho'|done|cbn; lia| |].
    2:{ destruct Hi as [Hi _]. rewrite Ho, not_elem_of_cons in Hi. apply Hi. }
    intros l Hl. wp_step. eapply (close_step c _ rjson_obj_end lvl_obj_); [done|done|exact Ho|exact Ho'|by left|done|done|done|].
    case_bool_decide; [|done]. intros _. by apply Hl. }
  destruct (_ =? _)%Z.
  { case_bool_decide as Ht; wp_step; [|apply tpost_syntax]. destruct (is_val_expected c) eqn:He; cbn [negb]; wp_step; [apply tpost_syntax|].
    apply (pwp_pop c lvl_arr_); [done..|]. intros ls Ho Ho'. wp_step.
    eapply (close_step c _ rjson_arr_end lvl_arr_); [done|done|exact Ho|exact Ho'|by right|done|done|done|done]. }
  destruct (_ =? _)%Z.
  { destruct (is_val_expected c) eqn:He; wp_step; [|apply tpost_syntax]. rewrite pwp_set_st, bool_decide_eq_false_2 by congruence. wp_step.
    apply tpost_quiet; [by split; [apply Hi|]|done|]. unfold type_of. change (open_lvls (with_is_val_expected _ _)) with (open_lvls c).
    destruct (open_lvls c); [done|]. unfold top_slot. rewrite Hp. done. }
  destruct (_ =? _)%Z; [|wp_step; apply tpost_syntax].
  destruct (is_val_expected c) eqn:He; cbn [negb]; wp_step; [apply tpost_syntax|]. pose proof (open_top c Hwf) as Htop.
  case_bool_decide as Ht; wp_step; [|case_bool_decide as Ht'; wp_step; [|apply tpost_syntax]].
  all: apply tpost_quiet; [by split; [apply Hi|]|done|]; unfold type_of;
    match goal with |- context [open_lvls (with_cur ?a ?b)] => change (open_lvls (with_cur a b)) with (open_lvls c) end;
    destruct (open_lvls c); [done|]; unfold top_slot; rewrite Hp; subst; first [by rewrite Ht'|by rewrite Ht].
Qed.

(** A literal or number starts. *)
Lemma next_idle_val_typed ch c m : wf c -> st c = st_idle_ -> cur c = rjson_incomplete -> is_val_expected c = true -> inside c ->
  open_lvls c <> [] -> next_idle_val_ pow ch = Some m -> pwp m (tpost (type_of c)) c.
Proof.
  intros Hwf Hst Hcur He Hi Hne. assert (pending c = true) as Hp by (unfold pending; by rewrite Hst).
  assert (forall new, new = st_num_ \/ new = st_true_ \/ new = st_false_ \/ new = st_null_ ->
    let c1 := with_st new (with_sd (sd_init new (sd c)) c) in in_value c1 /\ type_of c1 = type_of c) as Hstart.
  { intros new Hnew c1. assert (in_value c1) as Hv by (split; [done|]; split; [done|]; split; [done|]; by split; [apply Hi|]).
    split; [done|]. apply type_same; [done|done|]. by rewrite Hp, in_value_pending. }
  unfold next_idle_val_. intros Hm.
  assert (forall new (k : CM rjson_ctx rjson_next_res), new = st_num_ \/ new = st_true_ \/ new = st_false_ \/ new = st_null_ ->
    (forall c1, in_value c1 -> pwp k (tpost (type_of c1)) c1) -> pwp (set_st_ new ;; k) (tpost (type_of c)) c) as Hgo.
  { intros new k Hnew Hk. wp_step. rewrite pwp_set_st, bool_decide_eq_false_2 by (rewrite Hst; by destruct Hnew as [->|[->|[->| ->]]]).
    destruct (Hstart new Hnew) as [Hv <-]. by apply Hk. }
  assert (forall ch word c1, in_value c1 -> pwp (next_bool_ ch word) (tpost (type_of c1)) c1) as Hbool.
  { intros ch' word c1 Hv. unfold next_bool_. wp_step. apply pwp_assert_val. intros _. apply next_word_typed; auto. }
  destruct (strchr (lit "true") ch); [|destruct (strchr (lit "false") ch); [|destruct (strchr (lit "null") ch); [|destruct (is_num_start_ ch); [|done]]]];
    injection Hm as <-; apply Hgo; auto; intros c1 Hv; unfold next_true_, next_false_, next_null_; wp_step.
  - apply pwp_assert_st. intros _. auto.
  - apply pwp_assert_st. intros _. auto.
  - apply pwp_assert_st. intros _. wp_step. apply pwp_assert_val. intros _. apply next_word_typed; auto.
  - by apply next_num_typed.
Qed.

Lemma next_idle_typed ch c : wf c -> st c = st_idle_ -> inside c -> pwp (next_idle_ pow ch) (tpost (type_of c)) c.
Proof.
  intros Hwf Hst Hi. unfold next_idle_. wp_step. apply pwp_assert_st. intros _. wp_step. set (c1 := with_cur rjson_incomplete c).
  assert (wf c1) as Hwf1.
  { destruct Hwf as [H1 H2 H3 H4 H5]. split; try done. unfold wf_st. cbn [c1 st with_cur]. by rewrite Hst. }
  destruct (is_whitespace_ ch); wp_step; [by apply (quiet_step c)|]. rewrite pwp_lvl by done.
  destruct (bool_decide (top c1 = lvl_none_) && negb (ch =? ch_lbrace)%Z) eqn:Hguard; wp_step; [apply tpost_syntax|].
  assert (open_lvls c1 <> [] \/ ch = ch_lbrace) as Hopen.
  { apply andb_false_iff in Hguard as [Hg|Hg]; bool_facts; [|by right]. left. rewrite <- (top_none c1) by done. eapply bool_decide_eq_false_1, Hg. }
  change (type_of c) with (type_of c1). destruct (is_val_expected c1) eqn:He; [|by apply next_idle_switch_typed].
  destruct (next_idle_val_ pow ch) as [m|] eqn:Hm; [|by apply next_idle_switch_typed].
  apply (next_idle_val_typed ch c1 m); try done. destruct Hopen as [?| ->]; [done|]. done.
Qed.

Lemma next_want_key_typed ch c : wf c -> st c = st_want_key_ -> inside c ->
  cur c = rjson_incomplete \/ is_whitespace_ ch = false -> pwp (next_want_key_ ch) (tpost (type_of c)) c.
Proof.
  intros Hwf Hst Hi Hw. assert (pending c = false) as Hp by (unfold pending; by rewrite Hst).
  unfold next_want_key_. wp_step. apply pwp_assert_st. intros _. wp_step. apply (pwp_assert_lvl _ _ _ Hwf). intros Ht. wp_step.
  apply pwp_assert_val. intros He. destruct (is_whitespace_ ch); wp_step; [destruct Hw; [|done]; by apply quiet_step|].
  assert (open_lvls c <> []) as Hne by (by apply Hi; rewrite Hst).
  destruct (_ =? _)%Z; wp_step.
  { rewrite pwp_set_st, bool_decide_eq_false_2 by congruence. wp_step.
    rewrite (pwp_sd_str {| str_len := 0; is_escape := false; is_key := false |}) by done. wp_step.
    apply tpost_quiet; [by split; [apply Hi|]|done|]. by apply type_same. }
  destruct (_ =? _)%Z; wp_step; [|apply tpost_syntax].
  assert (wf (with_st st_idle_ c)) as Hwf1.
  { destruct Hwf as [H1 H2 H3 H4 H5]. split; try done. intros Hb. destruct (H4 Hb). congruence. }
  apply (pwp_pop _ lvl_obj_); [done|by split; [apply Hi|]|done|done|]. intros ls Ho Ho'. wp_step.
  eapply (pwp_lvl_left (with_st st_idle_ c)); [done|by split; [apply Hi|]|exact Ho'|done|cbn; lia| |].
  2:{ destruct Hi as [Hi _]. change (open_lvls c) with (open_lvls (with_st st_idle_ c)) in Hi. rewrite Ho, not_elem_of_cons in Hi. apply Hi. }
  intros l Hl. wp_step. eapply (close_step c _ rjson_obj_end lvl_obj_); [done|done|exact Ho|exact Ho'|by left|done|done|done|].
  case_bool_decide; [|done]. intros _. by apply Hl.
Qed.

Lemma next_want_colon_typed ch c : wf c -> st c = st_want_colon_ -> inside c ->
  cur c = rjson_incomplete \/ is_whitespace_ ch = false -> pwp (next_want_colon_ ch) (tpost (type_of c)) c.
Proof.
  intros Hwf Hst Hi Hw. assert (open_lvls c <> []) as Hne by (by apply Hi; rewrite Hst).
  unfold next_want_colon_. wp_step. apply pwp_assert_st. intros _. wp_step. apply (pwp_assert_lvl _ _ _ Hwf). intros Ht. wp_step.
  apply pwp_assert_val. intros He. destruct (is_whitespace_ ch); wp_step; [destruct Hw; [|done]; by apply quiet_step|].
  destruct (_ =? _)%Z; wp_step; [|apply tpost_syntax].
  apply tpost_quiet; [by split; [apply Hi|]|done|]. unfold type_of. change (open_lvls (with_is_val_expected _ _)) with (open_lvls c).
  destruct (open_lvls c); [done|]. unfold top_slot, pending. cbn. by rewrite Hst.
Qed.

(** The previous token is announced again: white space before a key or a colon
    leaves [cur] as it was. *)
Definition stutters (ch : char) (c : rjson_ctx) : bool :=
  (bool_decide (st c = st_want_key_) || bool_decide (st c = st_want_colon_)) && is_whitespace_ ch.

Lemma next_st_typed ch c : wf c -> inside c -> cur c = rjson_incomplete \/ stutters ch c = false ->
  pwp (next_st_ pow ch) (tpost (type_of c)) c.
Proof.
  intros Hwf Hi Hs. pose proof (wf_state c Hwf) as Hst. unfold wf_st in Hst. unfold next_st_. wp_step.
  unfold stutters in Hs. destruct (st c) eqn:Hc; cbn [bool_decide orb andb] in Hs.
  - by apply next_idle_typed.
  - by apply next_want_key_typed.
  - by apply next_want_colon_typed.
  - by apply next_str_typed.
  - destruct Hst as (_ & Hcur & _). apply next_num_typed. split; [auto|]. split; [done|]. split; [|done]. apply Hi. congruence.
  - destruct Hst as (_ & Hcur & _). unfold next_true_, next_bool_. wp_step. apply pwp_assert_st. intros _. wp_step.
    apply pwp_assert_val. intros _. apply next_word_typed; [|auto]. split; [auto|]. split; [done|]. split; [|done]. apply Hi. congruence.
  - destruct Hst as (_ & Hcur & _). unfold next_false_, next_bool_. wp_step. apply pwp_assert_st. intros _. wp_step.
    apply pwp_assert_val. intros _. apply next_word_typed; [|auto]. split; [auto|]. split; [done|]. split; [|done]. apply Hi. congruence.
  - destruct Hst as (_ & Hcur & _). unfold next_null_. wp_step. apply pwp_assert_st. intros _. wp_step.
    apply pwp_assert_val. intros _. apply next_word_typed; [|auto]. split; [auto|]. split; [done|]. split; [|done]. apply Hi. congruence.
Qed.

(** ** What is announced where *)

(** Before a key the last token is the start of the object or none, before a
    colon it is the key or none. *)
Definition before_ok (c : rjson_ctx) : Prop :=
  (st c = st_want_key_ -> cur c = rjson_obj_start \/ cur c = rjson_incomplete) /\
  (st c = st_want_colon_ -> cur c = rjson_str \/ cur c = rjson_incomplete).

(** A token that white space does not announce, except again. *)
Definition opens (t : rjson_ty) : bool := bool_decide (t = rjson_obj_start) || bool_decide (t = rjson_str).

Definition apost (ch : char) (r : rjson_next_res) (c : rjson_ctx) : Prop :=
  r <> rjson_next_syntax -> before_ok c /\ (is_whitespace_ ch = true -> opens (cur c) = false).

Lemma apost_syntax ch c : apost ch rjson_next_syntax c.
Proof. by intros ?. Qed.

Lemma apost_calm ch r c : st c <> st_want_key_ -> st c <> st_want_colon_ -> opens (cur c) = false -> apost ch r c.
Proof. by intros H1 H2 H3 _. Qed.

Lemma pwp_lvl_any c Q : (forall l, Q l c) -> pwp lvl_ Q c.
Proof. intros H. unfold lvl_. wp_step. apply pwp_if; intros _; [by wp_step|]. destruct (_ !! _); by wp_step. Qed.

Lemma pwp_pop_any c Q : Q tt (with_lvls_len (lvls_len c - 1) c) -> pwp pop_lvl_ Q c.
Proof. intros H. unfold pop_lvl_. wp_step. by apply pwp_if; intros _; wp_step. Qed.

(** Symbolic execution of one branch after another. *)
Ltac apost_run :=
  repeat first
  [ progress (autorewrite with cm; cbv beta)
  | apply apost_syntax
  | match goal with
    | |- pwp (assert_st_ _) _ _ => apply pwp_assert_st; intros ?
    | |- pwp lvl_ _ _ => apply pwp_lvl_any; intros ?
    | |- pwp pop_lvl_ _ _ => apply pwp_pop_any
    | |- pwp (set_st_ _) _ _ => rewrite pwp_set_st
    | |- pwp sd_num_ _ _ => apply pwp_sd_num; intros ? _
    | |- pwp (upd_num _) _ _ => apply pwp_upd_num; intros ?
    | |- pwp (int_chk _) _ _ => apply pwp_int_chk
    | |- pwp digit_pos_incr_ _ _ => unfold digit_pos_incr_
    | |- pwp (add_lvl_ _) _ _ => apply pwp_add_lvl; intros ? _
    | |- pwp (assert_is_val_expected_ _) _ _ => apply pwp_assert_val; intros ?
    | |- pwp (if ?b then _ else _) _ _ => destruct b
    | |- True => exact I
    | |- _ -> _ => intros ?
    end ].

Lemma next_num_calm ch c : st c = st_num_ -> cur c = rjson_incomplete -> pwp (next_num_ pow ch) (apost ch) c.
Proof.
  intros Hst Hc.
  assert (forall v, apost ch rjson_next_ok (with_sd v c)) as Hq by (intros v; apply apost_calm; cbn; rewrite ?Hst, ?Hc; done).
  unfold next_num_. apost_run; try apply Hq.
  - unfold next_num_end_. apost_run; by apply apost_calm.
  - unfold next_num_int_, next_num_frac_, next_num_exp_. destruct (part _); apost_run; apply Hq.
Qed.

Lemma next_word_calm ch word ty c : st c <> st_want_key_ -> st c <> st_want_colon_ -> cur c = rjson_incomplete ->
  ty = rjson_bool \/ ty = rjson_null -> pwp (next_word_ ch word ty) (apost ch) c.
Proof.
  intros H1 H2 Hc Hty. unfold next_word_, sd_special_. wp_step. destruct (sd c) as [| | |w]; wp_step; try done.
  destruct ((word ++ [ch_nul]) !! _); wp_step; [|done]. apost_run; apply apost_calm; cbn; rewrite ?Hc; try done.
  by destruct Hty as [->| ->].
Qed.

Lemma next_literal_calm ch c : cur c = rjson_incomplete ->
  (st c = st_true_ -> pwp (next_true_ ch) (apost ch) c) /\ (st c = st_false_ -> pwp (next_false_ ch) (apost ch) c) /\
  (st c = st_null_ -> pwp (next_null_ ch) (apost ch) c) /\ (st c = st_num_ -> pwp (next_num_ pow ch) (apost ch) c).
Proof.
  intros Hc. unfold next_true_, next_false_, next_null_, next_bool_.
  split_and!; intros Hst; [apost_run; apply next_word_calm; rewrite ?Hst; auto..|by apply next_num_calm].
Qed.

Lemma next_idle_calm ch c : pwp (next_idle_ pow ch) (apost ch) c.
Proof.
  unfold next_idle_. wp_step. apply pwp_assert_st. intros Hst. wp_step. set (c1 := with_cur rjson_incomplete c).
  destruct (is_whitespace_ ch) eqn:Hw; wp_step; [by apply apost_calm; cbn; rewrite ?Hst|].
  apply pwp_lvl_any. intros l. apply pwp_if; intros _; wp_step; [apply apost_syntax|].
  assert (pwp (next_idle_switch_ ch) (apost ch) c1) as Hsw.
  { unfold next_idle_switch_. apost_run; unfold c1; rewrite ?Hst; cbn; try (by apply apost_calm; cbn; rewrite ?Hst);
      intros _; rewrite Hw; split; try done; split; cbn; auto; by rewrite ?Hst. }
  destruct (is_val_expected c1); [|done]. destruct (next_idle_val_ pow ch) as [m|] eqn:Hm; [|done].
  unfold next_idle_val_ in Hm.
  destruct (strchr (lit "true") ch); [|destruct (strchr (lit "false") ch); [|destruct (strchr (lit "null") ch); [|destruct (is_num_start_ ch); [|done]]]];
    injection Hm as <-; wp_step; rewrite pwp_set_st; apply (next_literal_calm ch); by destruct (bool_decide _).
Qed.

Lemma next_str_calm ch c : pwp (next_str_ ch) (apost ch) c.
Proof.
  unfold next_str_. wp_step. apply pwp_assert_st. intros Hst. wp_step. unfold sd_str_ at 1. wp_step.
  destruct (sd c) as [|s| |] eqn:Hsd; wp_step; try done.
  assert (forall Q, Q tt c -> pwp (if is_key s then assert_lvl_ lvl_obj_ else mret tt) Q c) as Hlvl.
  { intros Q HQ. destruct (is_key s); wp_step; [|done]. unfold assert_lvl_. wp_step. apply pwp_lvl_any. intros l. by wp_step. }
  apply Hlvl. wp_step. destruct (_ || _); wp_step; [apply apost_syntax|]. unfold next_str_ch_.
  assert (forall ch' s' c', st c' = st_str_ -> cur c' = rjson_incomplete -> sd c' = Sd_str s' -> pwp (next_str_add_ ch') (apost ch) c') as Hadd.
  { intros ch' s' c' H1 H2 H3. apply (pwp_str_add _ s'); [done|apply apost_syntax|]. intros buf n. apply apost_calm; cbn; by rewrite ?H1, ?H2. }
  destruct (is_escape s).
  { destruct (str_escape_ ch) as [[] ch']; wp_step; try apply apost_syntax; by eapply Hadd. }
  destruct (_ =? _)%Z; wp_step; [by apply apost_calm; cbn; rewrite ?Hst|].
  destruct (Z.eqb_spec ch ch_quote) as [->|]; wp_step; [|by eapply Hadd].
  destruct (is_key s); wp_step; (apply (pwp_str_add _ s); [done|apply apost_syntax|]; intros buf n _; split; [split; cbn; auto; by intros|done]).
Qed.

Lemma next_want_calm ch c : before_ok c -> cur c = rjson_incomplete \/ stutters ch c = false ->
  (st c = st_want_key_ -> pwp (next_want_key_ ch) (apost ch) c) /\ (st c = st_want_colon_ -> pwp (next_want_colon_ ch) (apost ch) c).
Proof.
  intros Hb Hs. unfold stutters in Hs.
  assert (forall r, st c = st_want_key_ \/ st c = st_want_colon_ -> is_whitespace_ ch = true -> apost ch r c) as Hq.
  { intros r Hst Hw _. split; [done|]. intros _. rewrite Hw, andb_true_r in Hs.
    destruct Hs as [->|Hs]; [done|]. exfalso. by destruct Hst as [Hst|Hst]; rewrite Hst in Hs. }
  split; intros Hst; [unfold next_want_key_|unfold next_want_colon_]; unfold assert_lvl_; wp_step; apply pwp_assert_st; intros _;
    wp_step; apply pwp_lvl_any; intros l; wp_step; intros _; apply pwp_assert_val; intros _;
    destruct (is_whitespace_ ch) eqn:Hw; wp_step; try (by apply Hq; auto); unfold sd_str_; apost_run; try (by apply apost_calm).
  rewrite bool_decide_eq_false_2 by (by rewrite Hst). cbn. wp_step. by apply apost_calm.
Qed.

Lemma next_st_calm ch c : wf c -> before_ok c -> cur c = rjson_incomplete \/ stutters ch c = false ->
  pwp (next_st_ pow ch) (apost ch) c.
Proof.
  intros Hwf Hb Hs. pose proof (wf_state c Hwf) as Hst. unfold wf_st in Hst. unfold next_st_. wp_step.
  destruct (st c) eqn:Hc; try (destruct Hst as (_ & Hcur & _); by apply next_literal_calm).
  - apply next_idle_calm.
  - by apply next_want_calm.
  - by apply next_want_calm.
  - apply next_str_calm.
Qed.

(** A separator after a number announces at most the end of a level. *)
Lemma next_idle_noval_calm ch c r c1 : st c = st_idle_ -> is_val_expected c = false -> next_st_ pow ch c = Ret (r, c1) ->
  r <> rjson_next_syntax -> before_ok c1 /\ opens (cur c1) = false.
Proof.
  intros Hst Hv. revert r c1. change (forall r c1, next_st_ pow ch c = Ret (r, c1) -> (fun r c1 => r <> rjson_next_syntax ->
    before_ok c1 /\ opens (cur c1) = false) r c1). intros r c1 Hrun. eapply pwp_run; [|exact Hrun]. clear r c1 Hrun.
  unfold next_st_. wp_step. rewrite Hst. unfold next_idle_. wp_step. apply pwp_assert_st. intros _. wp_step.
  destruct (is_whitespace_ ch); wp_step; [intros _; split; [split; cbn; by rewrite Hst|done]|].
  apply pwp_lvl_any. intros l. apply pwp_if; intros _; wp_step; [done|]. cbn [is_val_expected with_cur]. rewrite Hv.
  unfold next_idle_switch_. wp_step. cbn [is_val_expected with_cur]. rewrite Hv. cbn [negb]. apost_run; try done.
  all: split; [split; cbn; auto; rewrite ?Hst; by auto|done].
Qed.

(** ** The whole call *)
Lemma tpost_frame s r c c' : open_lvls c' = open_lvls c -> st c' = st c -> is_val_expected c' = is_val_expected c ->
  sd c' = sd c -> cur c' = cur c -> tpost s r c -> tpost s r c'.
Proof.
  intros Ho Hs He Hd Hc Hp Hr. destruct (Hp Hr) as ([Hi1 Hi2] & Ht & Hf).
  assert (type_of c' = type_of c) as -> by (apply type_same; [done|done|]; unfold pending; by rewrite Hs, He, Hd).
  split; [unfold inside; by rewrite Ho, Hs|]. by rewrite Hc.
Qed.

Lemma pwp_pos_upd (b1 b2 : bool) (Q : unit -> rjson_ctx -> Prop) c : (forall p, Q tt (with_pos p c)) ->
  pwp (if b1 then if b2 then mret tt else modc (fun c => with_pos (size_succ (pos c)) c) else mret tt) Q c.
Proof.
  intros H. assert (Q tt c) by (replace c with (with_pos (pos c) c) by (by destruct c); apply H). destruct b1, b2; by wp_step.
Qed.

(** What a call on a character other than NUL does to the type. *)
Definition next_typed (ch : char) (c : rjson_ctx) (r : rjson_next_res) (c' : rjson_ctx) : Prop :=
  tpost (type_of c) r c' /\ apost ch r c' /\ buffered_ch c' <> ch_nul.

Lemma rjson_next_unbuffered_typed fuel ch c : wf c -> inside c -> before_ok c -> cur c = rjson_incomplete \/ stutters ch c = false ->
  buffered_ch c = (-1)%Z -> ch <> ch_nul -> pwp (rjson_next_ pow (S fuel) ch) (next_typed ch c) c.
Proof.
  intros Hwf Hi Hbo Hs Hb Hch. change (rjson_next_ pow (S fuel) ch) with (rjson_next_body pow (rjson_next_ pow fuel) ch).
  unfold rjson_next_body. wp_step. rewrite Hb. change (negb (-1 =? -1)%Z) with false. cbv iota zeta. wp_step.
  rewrite (proj2 (Z.eqb_neq _ _) Hch). wp_step. pose proof (next_st_typed ch c Hwf Hi Hs) as Hty.
  pose proof (next_st_calm ch c Hwf Hbo Hs) as Hap. unfold pwp in Hty, Hap |- * at 1.
  destruct (next_st_ pow ch c) as [[r c']| |] eqn:Hrun; [|done..]. pose proof (next_st_buffered pow ch c r c' Hrun) as Hbuf.
  wp_step. apply pwp_pos_upd. intros p. assert (tpost (type_of c) r (with_pos p c')) as Hty' by (by eapply tpost_frame; [..|exact Hty]).
  destruct (Z.eqb_spec (buffered_ch c') (-1)) as [Hb'|Hb']; cbn [negb].
  { wp_step. split; [done|]. split; [exact Hap|]. cbn. by rewrite Hb'. }
  destruct Hbuf as [?|(-> & Hnum & Hbc & _)]; [congruence|]. wp_step. wf_simpl. rewrite Hnum, Hbc.
  rewrite (bool_decide_eq_false_2 (rjson_num = rjson_incomplete)), andb_false_r by done.
  rewrite (proj2 (Z.eqb_neq _ _) Hch), andb_false_r. wp_step. split; [done|]. split; [exact Hap|]. cbn. by rewrite Hbc.
Qed.

Lemma rjson_next_typed_pwp ch c : wf c -> inside c -> before_ok c -> lvls_len c < max_depth_ -> buffered_ch c <> ch_nul ->
  cur c = rjson_incomplete \/ stutters ch c = false -> ch <> ch_nul -> pwp (rjson_next pow ch) (next_typed ch c) c.
Proof.
  intros Hwf Hi Hbo Hlv Hnb Hs Hch. destruct (decide (buffered_ch c = (-1)%Z)) as [Hb|Hb].
  { by apply rjson_next_unbuffered_typed. }
  destruct (wf_buffered c Hwf Hb) as [Hidle Hval]. destruct (next_st_after_num pow ch c Hwf Hlv Hb) as (r & c0 & Hrun & [[Hwf0 _] _]).
  unfold rjson_next. change (rjson_next_ pow 2 ch) with (rjson_next_body pow (rjson_next_ pow 1) ch). unfold rjson_next_body. wp_step.
  rewrite (proj2 (Z.eqb_neq _ _) Hb). cbn [negb orb]. wp_step. rewrite (proj2 (Z.eqb_neq _ _) Hnb). wp_step.
  assert (tpost (type_of c) r c0) as Hty.
  { assert (wf (with_buffered_ch ch c)) as Hwf1 by (destruct Hwf; split; by wf_simpl).
    pose proof (next_st_typed (buffered_ch c) (with_buffered_ch ch c) Hwf1 Hi) as Hty. unfold pwp in Hty. rewrite Hrun in Hty.
    apply (tpost_frame _ _ (with_buffered_ch ch c0)); [done..|]. apply Hty. right. unfold stutters. wf_simpl. by rewrite Hidle. }
  pose proof (next_idle_noval_calm (buffered_ch c) (with_buffered_ch ch c) r _ Hidle Hval Hrun) as Hap.
  unfold pwp at 1. rewrite Hrun. wp_step. wf_simpl. apply (pwp_pos_upd true). intros p. wf_simpl.
  assert (next_typed ch c r (with_pos p (with_buffered_ch ch c0))) as Hdone.
  { split; [by apply (tpost_frame _ _ c0)|]. split; [|done]. intros Hr. destruct (Hap Hr) as [H1 H2]. by split. }
  destruct (Z.eqb_spec ch (-1)); cbn [negb]; wp_step; [done|]. wf_simpl.
  destruct (bool_decide (r = rjson_next_ok) && bool_decide (cur c0 = rjson_incomplete)) eqn:Hq.
  2:{ rewrite (proj2 (Z.eqb_neq _ _) Hch), andb_false_r. by wp_step. }
  bool_facts. assert (r = rjson_next_ok) as -> by (by eapply bool_decide_eq_true_1). assert (cur c0 = rjson_incomplete) as Hinc by (by eapply bool_decide_eq_true_1).
  wp_step. destruct (Hty ltac:(done)) as (Hi0 & Ht0 & _). rewrite Hinc in Ht0. cbn in Ht0. injection Ht0 as Ht0.
  set (c1 := with_buffered_ch (-1)%Z _). assert (type_of c1 = type_of c) as Hc1 by (by rewrite Ht0).
  eapply pwp_mono; [apply (rjson_next_unbuffered_typed 0 ch c1); [|done|apply Hap; done|by left|done|done]|].
  - destruct Hwf0 as [H1 H2 H3 H4 H5]. by split.
  - intros r' c' (H1 & H2 & H3). by rewrite Hc1 in H1.
Qed.

(** White space before a key or a colon changes nothing but the position. *)
Lemma rjson_next_stutters ch c : wf c -> stutters ch c = true ->
  pwp (rjson_next pow ch) (fun r c' => r = rjson_next_ok /\ exists p, c' = with_pos p c) c.
Proof.
  intros Hwf Hs. unfold stutters in Hs. apply andb_true_iff in Hs as [Hst Hw].
  assert (st c = st_want_key_ \/ st c = st_want_colon_) as Hst' by (apply orb_true_iff in Hst as [?|?]; [left|right]; by eapply bool_decide_eq_true_1).
  assert (buffered_ch c = (-1)%Z) as Hb by (apply wf_unbuffered; [done|]; by destruct Hst' as [-> | ->]).
  unfold rjson_next. change (rjson_next_ pow 2 ch) with (rjson_next_body pow (rjson_next_ pow 1) ch). unfold rjson_next_body. wp_step.
  rewrite Hb. change (negb (-1 =? -1)%Z) with false. cbv iota zeta. wp_step.
  rewrite (proj2 (Z.eqb_neq ch ch_nul)) by (by intros ->). wp_step.
  assert (pwp (next_st_ pow ch) (fun r c' => r = rjson_next_ok /\ c' = c) c) as Hn.
  { unfold next_st_. wp_step. destruct Hst' as [-> | ->]; unfold next_want_key_, next_want_colon_; wp_step;
      apply pwp_assert_st; intros _; wp_step; apply (pwp_assert_lvl _ _ _ Hwf); intros _; wp_step; apply pwp_assert_val; intros _;
      rewrite Hw; by wp_step. }
  eapply pwp_mono; [exact Hn|]. intros r c' [-> ->]. wp_step. apply pwp_pos_upd. intros p.
  rewrite Hb. change (negb (-1 =? -1)%Z) with false. wp_step. split; [done|by exists p].
Qed.
End with_pow.

(** ** Claims *)

(** The calls for a text, fed until it ends, a call fails or the reader reports
    the end: for every call that did not fail, its character and the token
    [rjson_cur_ty] then gives. *)
Fixpoint feed (pow : double -> double -> double) (s : list char) : CM rjson_ctx (list (char * rjson_ty) * rjson_next_res) :=
  match s with
  | [] => mret ([], rjson_next_ok)
  | ch :: s =>
      r ← rjson_next pow ch;
      match r with
      | rjson_next_syntax => mret ([], rjson_next_syntax)
      | _ =>
          t ← rjson_cur_ty;
          if decide (r = rjson_next_fin) then mret ([(ch, t)], r)
          else rest ← feed pow s; mret ((ch, t) :: rest.1, rest.2)
      end
  end.

(** The typing rules for all that is announced: the start of an object or a
    string announced by a white space character is the last token once more and
    changes nothing; everything else is a token of its own. *)
Definition ann_step (s : tstate * rjson_ty) (a : char * rjson_ty) : option (tstate * rjson_ty) :=
  if is_whitespace_ a.1 && opens a.2 then if decide (a.2 = s.2) then Some s else None
  else (fun s' => (s', a.2)) <$> tok_step s.1 a.2.

Fixpoint ann_run (s : tstate * rjson_ty) (l : list (char * rjson_ty)) : option (tstate * rjson_ty) :=
  match l with
  | [] => Some s
  | a :: l => s ← ann_step s a; ann_run s l
  end.

(** The text keeps the reader below its limits. *)
Fixpoint limited (pow : double -> double -> double) (s : list char) (c : rjson_ctx) : Prop :=
  match s with
  | [] => True
  | ch :: s => within_limits c /\ forall r c', rjson_next pow ch c = Ret (r, c') -> limited pow s c'
  end.

Lemma feed_step pow ch c : wf c -> inside c -> before_ok c -> lvls_len c < max_depth_ -> buffered_ch c <> ch_nul -> ch <> ch_nul ->
  forall r c', rjson_next pow ch c = Ret (r, c') -> r <> rjson_next_syntax ->
  (inside c' /\ before_ok c' /\ buffered_ch c' <> ch_nul) /\
  ann_step (type_of c, cur c) (ch, cur c') = Some (type_of c', cur c') /\ (r = rjson_next_fin -> type_of c' = T_in []).
Proof.
  intros Hwf Hi Hbo Hlv Hb Hch r c' Hrun Hr. unfold ann_step. cbn [fst snd]. destruct (stutters ch c) eqn:Hs.
  - destruct (pwp_run _ _ _ _ _ (rjson_next_stutters pow ch c Hwf Hs) Hrun) as [-> [p ->]]. split; [done|]. split; [|done].
    apply andb_true_iff in Hs as [Hst Hw]. rewrite Hw. cbn [andb cur with_pos]. rewrite decide_True by done.
    destruct (opens (cur c)) eqn:Ho; [done|]. destruct Hbo as [Hk Hc].
    assert (cur c = rjson_incomplete) as ->; [|done].
    apply orb_true_iff in Hst as [Hst%bool_decide_eq_true_1|Hst%bool_decide_eq_true_1];
      [destruct (Hk Hst) as [H|]|destruct (Hc Hst) as [H|]]; try done; by rewrite H in Ho.
  - destruct (pwp_run _ _ _ _ _ (rjson_next_typed_pwp pow ch c Hwf Hi Hbo Hlv Hb (or_intror Hs) Hch) Hrun) as (Ht & Ha & Hb').
    destruct (Ht Hr) as (Hi' & Hstep & Hf), (Ha Hr) as [Hbo' Hw]. split; [done|]. split; [|done]. rewrite Hstep.
    destruct (is_whitespace_ ch); [|done]. by rewrite Hw.
Qed.

Lemma feed_typed pow s : forall c, wf c -> cur_ok c -> inside c -> before_ok c -> buffered_ch c <> ch_nul -> ch_nul ∉ s -> limited pow s c ->
  exists l r c' a, feed pow s c = Ret ((l, r), c') /\ ann_run (type_of c, cur c) l = Some a /\ (r = rjson_next_fin -> a.1 = T_in []).
Proof.
  induction s as [|ch s IH]; intros c Hwf Hcur Hi Hbo Hb Hnul Hlim; cbn [feed].
  { by exists [], rjson_next_ok, c, (type_of c, cur c). }
  apply not_elem_of_cons in Hnul as [Hch Hnul]. destruct Hlim as [Hlim Hrest].
  destruct (wp_Ret _ _ _ (rjson_next_fuel_wp pow 0 ch c Hwf Hcur Hlim)) as (r & c1 & Hrun & Hwf1 & Hcur1).
  pose proof (feed_step pow ch c Hwf Hi Hbo (proj1 Hlim) Hb ltac:(done) r c1 Hrun) as Hstep.
  unfold mbind, cm_bind, rjson_cur_ty, reads. cbn [fst snd]. unfold rjson_next in *. rewrite Hrun. destruct r.
  - by exists [], rjson_next_syntax, c1, (type_of c, cur c).
  - destruct (Hstep ltac:(done)) as (_ & Ht & Hf). rewrite decide_True by done. eexists _, rjson_next_fin, c1, _.
    split; [done|]. cbn [ann_run]. rewrite Ht. split; [done|]. exact Hf.
  - destruct (Hstep ltac:(done)) as ((Hi1 & Hb1 & Hn1) & Ht & _). rewrite decide_False by done.
    destruct (IH c1 Hwf1 (Hcur1 ltac:(done)) Hi1 Hb1 Hn1 Hnul (Hrest _ _ Hrun)) as (l & r & c' & a & -> & Ha & Hr).
    eexists _, r, c', a. split; [done|]. cbn [ann_run]. by rewrite Ht.
Qed.

(** C12. Typing of the token stream: whatever text without NUL the reader is fed
    from its initial state, below its limits, the calls return, and all the
    tokens they announce - character by character, up to the end of the text, the
    first error or the end of the object - obey the rules: the first starts an
    object, a key and a value alternate inside an object, an end closes the
    innermost start of its own kind; a start of an object or a string that is
    announced at white space is the very token announced just before, once more,
    and does not count.  When the reader reports the end, every level is closed. *)
Theorem rjson_tokens_typed pow buf c0 s : length (lvls c0) = max_depth_ -> ch_nul ∉ s ->
  limited pow s (fresh buf c0) ->
  exists l r c' a, (rjson_init buf (length buf) ;; feed pow s) c0 = Ret ((l, r), c') /\
    ann_run (T_start, rjson_incomplete) l = Some a /\ (r = rjson_next_fin -> a.1 = T_in []).
Proof.
  intros Hl Hnul Hlim. destruct (fresh_wf buf c0 Hl) as [Hwf Hcur].
  destruct (feed_typed pow s (fresh buf c0) Hwf Hcur) as (l & r & c' & a & Hf & Ht & Hfin);
    [by split; [apply not_elem_of_nil|]|by split|done|done|done|].
  exists l, r, c', a. by rewrite (bind_Ret _ _ _ _ _ (rjson_init_run buf c0)).
Qed.

(** White space in all places: [{ "a" : 1} ]. *)
Definition spaced : list char := [123; 32; 34; 97; 34; 32; 58; 32; 49; 125; 32]%Z.

Lemma rjson_tokens_typed_witness :
  exists l r c' a, (rjson_init (replicate 16 7%Z) 16 ;; feed (fun x _ => x) spaced) stack_ctx = Ret ((l, r), c') /\
    ann_run (T_start, rjson_incomplete) l = Some a /\ (r = rjson_next_fin -> a.1 = T_in []).
Proof.
  apply (rjson_tokens_typed (fun x _ => x) (replicate 16 7%Z) stack_ctx spaced); [done| |].
  { intros H. repeat (apply elem_of_cons in H as [H|H]; [done|]). by apply not_elem_of_nil in H. }
  unfold spaced.
  repeat (split; [split; [vm_compute; lia|intros n H1 H2; first [discriminate H1|injection H2 as <-; vm_compute; split; [done|by intros]]]
    |intros r c' H; vm_compute in H; injection H as <- <-]).
  done.
Defined.

(** What is announced there: the start of the object and the key twice each. *)
Example spaced_tokens :
  (fun x => (filter (fun a => a.2 <> rjson_incomplete) x.1.1, x.1.2)) <$>
    ret_of ((rjson_init (replicate 16 7%Z) 16 ;; feed (fun x _ => x) spaced) stack_ctx) =
  Some ([(123, rjson_obj_start); (32, rjson_obj_start); (34, rjson_str); (32, rjson_str); (125, rjson_num); (32, rjson_obj_end)]%Z,
    rjson_next_fin).
Proof. vm_compute. reflexivity. Qed.
