(* ===== verification/Json.v ===== *)
(** * JSON documents and the reader

    The token stream a document denotes, and the theorem that the reader of
    rjson.c turns the text of a document into that stream. *)

From stdpp Require Import base list numbers strings option.
From S2P Require Import Prelude Document Rjson RjsonProps.

Set Warnings "-register-all".

(** ** Tokens *)

(** The double the reader computes for the digits of an integer. *)
Definition read_digits (sign : Z) (a : double) (ds : list char) : double :=
  foldl (fun a d => dadd (dmul a (d_of_int 10)) (d_of_int ((d - ch_0) * sign))) a ds.

Definition int_double (z : Z) : double :=
  read_digits (if z <? 0 then -1 else 1)%Z (d_of_int 0) (print_nat (Z.abs z)).

Fixpoint events (v : json) : list rjson_event :=
  match v with
  | JNull => [Ev_null]
  | JBool b => [Ev_bool b]
  | JInt z => [Ev_num (int_double z)]
  | JStr s => [Ev_str s]
  | JArr vs => Ev_arr_start :: (vs ≫= events) ++ [Ev_arr_end]
  | JObj kvs => Ev_obj_start :: (kvs ≫= fun kv => Ev_str kv.1 :: events kv.2) ++ [Ev_obj_end]
  end.

(** ** The documents the reader accepts *)

(** [n] is the size of the string buffer: strings must fit with their NUL,
    integers are nonzero [long long]s and arrays are not empty. *)
Fixpoint json_ok (n : nat) (v : json) : bool :=
  match v with
  | JNull | JBool _ => true
  | JInt z => negb (z =? 0)%Z && (- 2 ^ 63 <=? z)%Z && (z <? 2 ^ 63)%Z
  | JStr s => str_ok n s
  | JArr vs => match vs with [] => false | _ => true end && forallb (json_ok n) vs
  | JObj kvs => forallb (fun kv => str_ok n kv.1 && json_ok n kv.2) kvs
  end.

(** ** Reading a document *)

(** The parts of a context no token changes: the levels and the buffer. *)
Definition stack_is (n : nat) (stk : list level_ty_) (c : rjson_ctx) : Prop :=
  buffered_ch c = (-1)%Z /\ length (lvls c) = max_depth_ /\ length stk <= max_depth_ /\
  lvls_len c = length stk /\ take (length stk) (lvls c) = stk /\
  length (str c) = n /\ str_mlen c = n.

(** Between tokens, with [stk] the open levels (outermost first). *)
Definition idle_at (n : nat) (stk : list level_ty_) (v : bool) (c : rjson_ctx) : Prop :=
  stack_is n stk c /\ st c = st_idle_ /\ is_val_expected c = v.

Lemma stack_is_with n stk c c' :
  stack_is n stk c -> buffered_ch c' = buffered_ch c -> lvls c' = lvls c ->
  lvls_len c' = lvls_len c -> length (str c') = length (str c) -> str_mlen c' = str_mlen c ->
  stack_is n stk c'.
Proof. unfold stack_is. intros H -> -> -> -> ->. done. Qed.

Lemma stack_is_top n stk l c : stack_is n (stk ++ [l]) c -> top c = l.
Proof.
  intros (_ & Hl & Hs & Hn & Ht & _). rewrite length_app in *. cbn in *. unfold top. rewrite Hn.
  rewrite bool_decide_eq_false_2 by lia. replace (length stk + 1 - 1) with (length stk) by lia.
  rewrite <- (lookup_take_lt (lvls c) (length stk + 1)) by lia. rewrite Ht.
  by rewrite lookup_app_r, Nat.sub_diag by lia.
Qed.

Lemma stack_is_top_nil n c : stack_is n [] c -> top c = lvl_none_.
Proof. intros (_ & _ & _ & Hn & _). unfold top. by rewrite Hn. Qed.

Lemma stack_is_lens n stk c : stack_is n stk c ->
  length (lvls c) = max_depth_ /\ lvls_len c <= max_depth_.
Proof. intros (_ & Hl & Hs & Hn & _). rewrite Hn. done. Qed.

Lemma wp_lvl_at n stk c Q : stack_is n stk c -> wp lvl_ Q c <-> Q (top c) c.
Proof. intros H. destruct (stack_is_lens _ _ _ H). by apply wp_lvl. Qed.

Lemma stack_is_push n stk l c c' :
  stack_is n stk c -> length stk < max_depth_ ->
  buffered_ch c' = (-1)%Z -> lvls c' = <[lvls_len c := l]> (lvls c) ->
  lvls_len c' = S (lvls_len c) -> str c' = str c -> str_mlen c' = str_mlen c ->
  stack_is n (stk ++ [l]) c'.
Proof.
  intros (Hb & Hl & Hs & Hn & Ht & Hstr & Hm) Hlt Hb' Hl' Hn' Hs' Hm'.
  unfold stack_is. rewrite Hb', Hl', Hn', Hs', Hm', Hn, length_insert, length_app. cbn.
  split_and!; try done; try lia. replace (length stk + 1) with (S (length stk)) by lia.
  rewrite take_insert_snoc by lia. by rewrite Ht.
Qed.

Lemma stack_is_pop n stk l c c' :
  stack_is n (stk ++ [l]) c -> buffered_ch c' = (-1)%Z -> lvls c' = lvls c ->
  lvls_len c' = lvls_len c - 1 -> str c' = str c -> str_mlen c' = str_mlen c ->
  stack_is n stk c'.
Proof.
  intros (Hb & Hl & Hs & Hn & Ht & Hstr & Hm) Hb' Hl' Hn' Hs' Hm'.
  rewrite length_app in *. cbn in *.
  unfold stack_is. rewrite Hb', Hl', Hn', Hs', Hm', Hn. split_and!; try done; try lia.
  destruct (take_pred_snoc (lvls c) (length stk + 1) stk l Ht) as (_ & _ & Ht'); [lia|].
  by replace (length stk) with (length stk + 1 - 1) by lia.
Qed.

Section reading.
Context (pow : double -> double -> double).

(** A completed step extends a derivation. *)
Lemma ra_ok_wp ch rest c evs1 evs2 :
  wp (next_st_ pow ch) (fun r c1 => r = rjson_next_ok /\ buffered_ch c1 = (-1)%Z /\
    cur_event c1 = Ret (evs1, c1) /\ reads_as pow c1 rest evs2) c ->
  reads_as pow c (ch :: rest) (evs1 ++ evs2).
Proof. intros H. apply wp_Ret in H as (r & c1 & Hrun & -> & ? & ? & ?). by eapply ra_ok. Qed.

Lemma ra_fin_wp ch rest c evs :
  wp (next_st_ pow ch) (fun r c1 => r = rjson_next_fin /\ buffered_ch c1 = (-1)%Z /\
    cur_event c1 = Ret (evs, c1)) c ->
  reads_as pow c (ch :: rest) evs.
Proof. intros H. apply wp_Ret in H as (r & c1 & Hrun & -> & ? & ?). by eapply ra_fin. Qed.

(** A step that completes no token: [P] holds afterwards. *)
Lemma ra_quiet ch rest c evs (P : rjson_ctx -> Prop) :
  wp (next_st_ pow ch) (fun r c1 => r = rjson_next_ok /\ buffered_ch c1 = (-1)%Z /\
    cur c1 = rjson_incomplete /\ P c1) c ->
  (forall c1, P c1 -> reads_as pow c1 rest evs) ->
  reads_as pow c (ch :: rest) evs.
Proof.
  intros H HP. change evs with ([] ++ evs). apply ra_ok_wp. eapply wp_mono; [done|].
  intros r c1 (-> & Hb & Hcur & HPc). split_and!; auto.
  unfold cur_event, rjson_cur_ty, reads, mbind, cm_bind. by rewrite Hcur.
Qed.

(** A step that completes a token. *)
Lemma ra_token ch rest c evs1 evs2 (P : rjson_ctx -> Prop) :
  wp (next_st_ pow ch) (fun r c1 => r = rjson_next_ok /\ buffered_ch c1 = (-1)%Z /\
    cur_event c1 = Ret (evs1, c1) /\ P c1) c ->
  (forall c1, P c1 -> reads_as pow c1 rest evs2) ->
  reads_as pow c (ch :: rest) (evs1 ++ evs2).
Proof.
  intros H HP. apply ra_ok_wp. eapply wp_mono; [done|]. intros r c1 (-> & Hb & He & HPc). auto.
Qed.

(** *** Punctuation *)
Lemma idle_noval_skip ch c Q : st c = st_idle_ ->
  is_whitespace_ ch = false -> next_idle_val_ pow ch = None -> (top c = lvl_none_ -> ch = ch_lbrace) ->
  length (lvls c) = max_depth_ -> lvls_len c <= max_depth_ ->
  wp (next_idle_switch_ ch) Q (with_cur rjson_incomplete c) -> wp (next_st_ pow ch) Q c.
Proof.
  intros Hst Hw Hv Ht Hl Hn HQ. unfold next_st_. wp_step. rewrite Hst.
  unfold next_idle_, assert_st_. wp_step. rewrite Hst. split; [done|]. rewrite Hw. wp_step.
  rewrite wp_lvl by done. apply wp_if; intros Hb; bool_facts.
  { exfalso. apply bool_decide_eq_true in H. apply H0, Ht, H. }
  wp_step. rewrite Hv. by destruct (is_val_expected _).
Qed.

(** The level operations below the depth limit. *)
Lemma wp_add_lvl_run l c Q : length (lvls c) = max_depth_ -> lvls_len c < max_depth_ ->
  wp (add_lvl_ l) Q c <->
  Q tt (with_lvls_len (S (lvls_len c)) (with_lvls (<[lvls_len c := l]> (lvls c)) c)).
Proof.
  intros Hl Hn. unfold add_lvl_. wp_step. rewrite bool_decide_eq_false_2 by lia.
  destruct (decide _); [by wp_step|lia].
Qed.

Lemma wp_pop_lvl_run c Q : lvls_len c <> 0 ->
  wp pop_lvl_ Q c <-> Q tt (with_lvls_len (lvls_len c - 1) c).
Proof. intros Hn. unfold pop_lvl_. wp_step. by rewrite bool_decide_eq_false_2. Qed.

(** Run a step on a punctuation character from the idle state. *)
Ltac idle_punct Hs Hst Hv :=
  let Hl := fresh in let Hn := fresh in
  destruct (stack_is_lens _ _ _ Hs) as [Hl Hn];
  apply idle_noval_skip; [done..|try done; congruence|done|done|];
  unfold next_idle_switch_; wp_step;
  rewrite wp_lvl by done; cbn [Z.eqb Pos.eqb is_val_expected with_cur]; rewrite Hv; cbn [negb];
  try change (top (with_cur rjson_incomplete ?c)) with (top c); wp_step.

Lemma step_lbrack n stk c :
  idle_at n stk true c -> top c <> lvl_none_ -> length stk < max_depth_ ->
  wp (next_st_ pow ch_lbrack) (fun r c1 => r = rjson_next_ok /\ buffered_ch c1 = (-1)%Z /\
    cur_event c1 = Ret ([Ev_arr_start], c1) /\ idle_at n (stk ++ [lvl_arr_]) true c1) c.
Proof.
  intros (Hs & Hst & Hv) Hne Hlt. pose proof Hs as (Hb & Hl & _ & Hn & _).
  idle_punct Hs Hst Hv. rewrite wp_add_lvl_run by (wf_simpl; lia). wp_step. split_and!; [done..|].
  split_and!; [|done..]. eapply stack_is_push; [exact Hs|done..].
Qed.

(** Expecting a key, or the end of the object. *)
Definition key_at (n : nat) (stk : list level_ty_) (c : rjson_ctx) : Prop :=
  stack_is n (stk ++ [lvl_obj_]) c /\ st c = st_want_key_ /\ is_val_expected c = true.

Definition colon_at (n : nat) (stk : list level_ty_) (c : rjson_ctx) : Prop :=
  stack_is n (stk ++ [lvl_obj_]) c /\ st c = st_want_colon_ /\ is_val_expected c = false.

Lemma step_lbrace n stk c :
  idle_at n stk true c -> length stk < max_depth_ ->
  wp (next_st_ pow ch_lbrace) (fun r c1 => r = rjson_next_ok /\ buffered_ch c1 = (-1)%Z /\
    cur_event c1 = Ret ([Ev_obj_start], c1) /\ key_at n stk c1) c.
Proof.
  intros (Hs & Hst & Hv) Hlt. pose proof Hs as (Hb & Hl & _ & Hn & _).
  idle_punct Hs Hst Hv. rewrite wp_add_lvl_run by (wf_simpl; lia). wp_step. split_and!; [done..|].
  split_and!; [|done..]. eapply stack_is_push; [exact Hs|done..].
Qed.

Lemma step_rbrack n stk c :
  idle_at n (stk ++ [lvl_arr_]) false c ->
  wp (next_st_ pow ch_rbrack) (fun r c1 => r = rjson_next_ok /\ buffered_ch c1 = (-1)%Z /\
    cur_event c1 = Ret ([Ev_arr_end], c1) /\ idle_at n stk false c1) c.
Proof.
  intros (Hs & Hst & Hv). pose proof Hs as (Hb & Hl & _ & Hn & _).
  pose proof (stack_is_top _ _ _ _ Hs) as Htop. rewrite length_app in Hn; cbn in Hn.
  idle_punct Hs Hst Hv. rewrite Htop, bool_decide_eq_true_2 by done. wp_step.
  rewrite wp_pop_lvl_run by (wf_simpl; lia). wp_step. split_and!; [done..|].
  split_and!; [|done..]. eapply stack_is_pop; [exact Hs|done..].
Qed.

(** The end of an object: the document is complete when nothing else is open. *)
Definition obj_end_res (stk : list level_ty_) : rjson_next_res :=
  match stk with [] => rjson_next_fin | _ => rjson_next_ok end.

Definition no_none (stk : list level_ty_) : Prop := Forall (fun l => l <> lvl_none_) stk.

Lemma obj_end_top n stk c : stack_is n stk c -> no_none stk ->
  (if bool_decide (top c = lvl_none_) then rjson_next_fin else rjson_next_ok) = obj_end_res stk.
Proof.
  intros Hs Hnn. destruct stk as [|l stk'] using rev_ind.
  - by rewrite (stack_is_top_nil _ _ Hs).
  - clear IHstk'. rewrite (stack_is_top _ _ _ _ Hs). apply Forall_app in Hnn as [_ Hnn].
    rewrite Forall_singleton in Hnn. rewrite bool_decide_eq_false_2 by exact Hnn. by destruct stk'.
Qed.

Lemma step_rbrace n stk c :
  idle_at n (stk ++ [lvl_obj_]) false c -> no_none stk ->
  wp (next_st_ pow ch_rbrace) (fun r c1 => r = obj_end_res stk /\ buffered_ch c1 = (-1)%Z /\
    cur_event c1 = Ret ([Ev_obj_end], c1) /\ idle_at n stk false c1) c.
Proof.
  intros (Hs & Hst & Hv) Hnn. pose proof Hs as (Hb & Hl & _ & Hn & _).
  pose proof (stack_is_top _ _ _ _ Hs) as Htop. rewrite length_app in Hn; cbn in Hn.
  idle_punct Hs Hst Hv. rewrite Htop, bool_decide_eq_true_2 by done. wp_step.
  rewrite wp_pop_lvl_run by (wf_simpl; lia). wp_step.
  rewrite wp_lvl by (wf_simpl; unfold max_depth_ in *; lia). wp_step.
  match goal with |- context [top ?x] => assert (stack_is n stk x) as Hs' end.
  { eapply stack_is_pop; [exact Hs|done..]. }
  split_and!; [by eapply obj_end_top|done..|]. split; [exact Hs'|by split].
Qed.

Lemma step_empty_obj n stk c :
  key_at n stk c -> no_none stk ->
  wp (next_st_ pow ch_rbrace) (fun r c1 => r = obj_end_res stk /\ buffered_ch c1 = (-1)%Z /\
    cur_event c1 = Ret ([Ev_obj_end], c1) /\ idle_at n stk false c1) c.
Proof.
  intros (Hs & Hst & Hv) Hnn. pose proof Hs as (Hb & Hl & _ & Hn & _).
  pose proof (stack_is_top _ _ _ _ Hs) as Htop. rewrite length_app in Hn; cbn in Hn.
  destruct (stack_is_lens _ _ _ Hs) as [_ Hle].
  unfold next_st_. wp_step. rewrite Hst.
  unfold next_want_key_, assert_st_, assert_lvl_, assert_is_val_expected_. wp_step.
  rewrite Hst. split; [done|]. rewrite wp_lvl by done. wp_step. rewrite Htop. split; [done|].
  rewrite Hv. split; [done|]. cbn. wp_step.
  rewrite wp_pop_lvl_run by (wf_simpl; lia). wp_step.
  rewrite wp_lvl by (wf_simpl; unfold max_depth_ in *; lia). wp_step.
  match goal with |- context [top ?x] => assert (stack_is n stk x) as Hs' end.
  { eapply stack_is_pop; [exact Hs|done..]. }
  split_and!; [by eapply obj_end_top|done..|]. split; [exact Hs'|by split].
Qed.

Lemma step_comma_arr n stk c :
  idle_at n (stk ++ [lvl_arr_]) false c ->
  wp (next_st_ pow ch_comma) (fun r c1 => r = rjson_next_ok /\ buffered_ch c1 = (-1)%Z /\
    cur c1 = rjson_incomplete /\ idle_at n (stk ++ [lvl_arr_]) true c1) c.
Proof.
  intros (Hs & Hst & Hv). pose proof Hs as (Hb & Hl & _ & Hn & _).
  pose proof (stack_is_top _ _ _ _ Hs) as Htop.
  idle_punct Hs Hst Hv. rewrite Htop. rewrite bool_decide_eq_false_2 by done.
  rewrite bool_decide_eq_true_2 by done. wp_step. done.
Qed.

Lemma step_comma_obj n stk c :
  idle_at n (stk ++ [lvl_obj_]) false c ->
  wp (next_st_ pow ch_comma) (fun r c1 => r = rjson_next_ok /\ buffered_ch c1 = (-1)%Z /\
    cur c1 = rjson_incomplete /\ key_at n stk c1) c.
Proof.
  intros (Hs & Hst & Hv). pose proof Hs as (Hb & Hl & _ & Hn & _).
  pose proof (stack_is_top _ _ _ _ Hs) as Htop.
  idle_punct Hs Hst Hv. rewrite Htop. rewrite bool_decide_eq_true_2 by done. wp_step. done.
Qed.

Lemma step_colon n stk c :
  colon_at n stk c ->
  wp (next_st_ pow ch_colon) (fun r c1 => r = rjson_next_ok /\ buffered_ch c1 = (-1)%Z /\
    cur c1 = rjson_incomplete /\ idle_at n (stk ++ [lvl_obj_]) true c1) c.
Proof.
  intros (Hs & Hst & Hv). pose proof Hs as (Hb & _).
  pose proof (stack_is_top _ _ _ _ Hs) as Htop. destruct (stack_is_lens _ _ _ Hs) as [Hl Hle].
  unfold next_st_. wp_step. rewrite Hst.
  unfold next_want_colon_, assert_st_, assert_lvl_, assert_is_val_expected_. wp_step.
  rewrite Hst. split; [done|]. rewrite wp_lvl by done. wp_step. rewrite Htop. split; [done|].
  rewrite Hv. split; [done|]. cbn. wp_step.
  done.
Qed.
(** *** Strings *)

(** Inside a string of which [acc] has been read. *)
Record in_str (n : nat) (stk : list level_ty_) (key e : bool) (acc : list char) (c : rjson_ctx)
    : Prop := {
  is_stack : stack_is n stk c;
  is_st : st c = st_str_;
  is_sd : sd c = Sd_str {| str_len := length acc; is_escape := e; is_key := key |};
  is_acc : take (length acc) (str c) = acc;
  is_top : key = true -> top c = lvl_obj_
}.

Lemma step_quote_val n stk c :
  idle_at n stk true c -> top c <> lvl_none_ ->
  wp (next_st_ pow ch_quote) (fun r c1 => r = rjson_next_ok /\ buffered_ch c1 = (-1)%Z /\
    cur c1 = rjson_incomplete /\ in_str n stk false false [] c1) c.
Proof.
  intros (Hs & Hst & Hv) Hne. pose proof Hs as (Hb & _). idle_punct Hs Hst Hv.
  rewrite wp_set_st by (wf_simpl; congruence). wp_step. done.
Qed.

Lemma step_quote_key n stk c :
  key_at n stk c ->
  wp (next_st_ pow ch_quote) (fun r c1 => r = rjson_next_ok /\ buffered_ch c1 = (-1)%Z /\
    cur c1 = rjson_incomplete /\ in_str n (stk ++ [lvl_obj_]) true false [] c1) c.
Proof.
  intros (Hs & Hst & Hv). pose proof Hs as (Hb & _).
  pose proof (stack_is_top _ _ _ _ Hs) as Htop. destruct (stack_is_lens _ _ _ Hs) as [Hl Hle].
  unfold next_st_. wp_step. rewrite Hst.
  unfold next_want_key_, assert_st_, assert_lvl_, assert_is_val_expected_. wp_step.
  rewrite Hst. split; [done|]. rewrite wp_lvl by done. wp_step. rewrite Htop. split; [done|].
  rewrite Hv. split; [done|]. cbn. wp_step. rewrite wp_set_st by congruence.
  unfold sd_str_. wp_step. cbn. wp_step. done.
Qed.

(** The character handler inside a string, its checks passed. *)
Lemma in_str_next n stk key e acc c ch Q :
  in_str n stk key e acc c -> (32 <= ch <= 126)%Z ->
  wp (next_str_ch_ {| str_len := length acc; is_escape := e; is_key := key |} ch) Q
    (with_cur rjson_incomplete c) ->
  wp (next_st_ pow ch) Q c.
Proof.
  intros [Hs Hst Hsd Hacc Htop] Hch HQ. destruct (stack_is_lens _ _ _ Hs) as [Hl Hle].
  unfold next_st_. wp_step. rewrite Hst. unfold next_str_, assert_st_, sd_str_. wp_step.
  rewrite Hst, Hsd. split; [done|]. wp_step.
  assert (forall Q, Q tt c -> wp (if key then assert_lvl_ lvl_obj_ else mret tt) Q c) as Ha.
  { intros Q' HQ'. destruct key; [|done]. unfold assert_lvl_. wp_step.
    rewrite wp_lvl by done. wp_step. by rewrite Htop. }
  apply Ha. wp_step. rewrite (proj2 (Z.leb_gt ch 31)), (proj2 (Z.leb_gt 127 ch)) by lia. exact HQ.
Qed.

Lemma wp_next_str_add n stk (acc : list char) e key c ch Q :
  stack_is n stk c -> sd c = Sd_str {| str_len := length acc; is_escape := e; is_key := key |} ->
  length acc < n ->
  wp (next_str_add_ ch) Q c <->
  Q rjson_next_ok
    (with_sd (Sd_str {| str_len := S (length acc); is_escape := e; is_key := key |})
      (with_str (<[length acc := ch]> (str c)) c)).
Proof.
  intros (_ & _ & _ & _ & _ & Hlen & Hm) Hsd Hlt. unfold next_str_add_, add_str_ch_, sd_str_.
  wp_step. rewrite Hsd. wp_step. cbn [str_len is_escape is_key].
  rewrite bool_decide_eq_false_2 by lia. wp_step. split; [by intros [_ ?]|].
  intros HQ. split; [lia|exact HQ].
Qed.

(** One more character stored. *)
Lemma in_str_snoc n stk key acc ch c c' :
  in_str n stk key false acc c -> length acc < n ->
  stack_is n stk c' -> st c' = st_str_ -> lvls c' = lvls c -> lvls_len c' = lvls_len c ->
  sd c' = Sd_str {| str_len := S (length acc); is_escape := false; is_key := key |} ->
  str c' = <[length acc := ch]> (str c) ->
  in_str n stk key false (acc ++ [ch]) c'.
Proof.
  intros [Hs Hst Hsd Hacc Htop] Hlt Hs' Hst' El En Hsd' Hstr.
  pose proof Hs as (_ & _ & _ & _ & _ & Hlen & _).
  split; rewrite ?length_app, ?Nat.add_1_r; cbn; try done.
  - rewrite Hstr, take_insert_snoc by lia. by rewrite Hacc.
  - intros Hk. rewrite <- (Htop Hk). by apply top_same.
Qed.

Lemma str_char_step n stk key acc c ch :
  in_str n stk key false acc c -> length acc < n -> (32 <= ch <= 126)%Z ->
  ch <> ch_quote -> ch <> ch_bslash ->
  wp (next_st_ pow ch) (fun r c1 => r = rjson_next_ok /\ buffered_ch c1 = (-1)%Z /\
    cur c1 = rjson_incomplete /\ in_str n stk key false (acc ++ [ch]) c1) c.
Proof.
  intros Hin Hlt Hch Hq Hbs. eapply in_str_next; [done..|]. pose proof Hin as [Hs Hst Hsd _ _].
  unfold next_str_ch_. cbn [is_escape str_len is_key].
  rewrite (proj2 (Z.eqb_neq _ _) Hq), (proj2 (Z.eqb_neq _ _) Hbs).
  rewrite wp_next_str_add by done. pose proof Hs as (Hb & _). split_and!; [done..|].
  eapply in_str_snoc; try done. eapply stack_is_with; try done; cbn. apply length_insert.
Qed.

Lemma str_bslash_step n stk key acc c :
  in_str n stk key false acc c ->
  wp (next_st_ pow ch_bslash) (fun r c1 => r = rjson_next_ok /\ buffered_ch c1 = (-1)%Z /\
    cur c1 = rjson_incomplete /\ in_str n stk key true acc c1) c.
Proof.
  intros Hin. eapply in_str_next; [done|lia|]. destruct Hin as [Hs Hst Hsd Hacc Htop].
  pose proof Hs as (Hb & _). unfold next_str_ch_. cbn. wp_step. done.
Qed.

Lemma str_escaped_step n stk key acc c ch ch' :
  in_str n stk key true acc c -> length acc < n -> (32 <= ch <= 126)%Z ->
  str_escape_ ch = (str_escaped_, ch') ->
  wp (next_st_ pow ch) (fun r c1 => r = rjson_next_ok /\ buffered_ch c1 = (-1)%Z /\
    cur c1 = rjson_incomplete /\ in_str n stk key false (acc ++ [ch']) c1) c.
Proof.
  intros Hin Hlt Hch He. eapply in_str_next; [done..|]. pose proof Hin as [Hs Hst Hsd Hacc Htop].
  pose proof Hs as (Hb & _). unfold next_str_ch_. cbn [is_escape str_len is_key]. rewrite He. wp_step.
  rewrite wp_next_str_add by done. split_and!; [done..|].
  eapply (in_str_snoc _ _ _ _ _
    (with_sd (Sd_str {| str_len := length acc; is_escape := false; is_key := key |})
      (with_cur rjson_incomplete c))); try done.
  eapply stack_is_with; try done; cbn. apply length_insert.
Qed.

(** A character and its escape. *)
Lemma read_esc n stk key acc c ch rest evs :
  in_str n stk key false acc c -> length acc < n -> char_ok ch = true ->
  (forall c1, in_str n stk key false (acc ++ [ch]) c1 -> reads_as pow c1 rest evs) ->
  reads_as pow c (esc ch ++ rest) evs.
Proof.
  intros Hin Hlt Hok Hrest.
  assert (forall x, (32 <= x <= 126)%Z -> str_escape_ x = (str_escaped_, ch) ->
    reads_as pow c ([ch_bslash; x] ++ rest) evs) as Hesc.
  { intros x Hx Hxe. eapply ra_quiet; [by apply str_bslash_step|]. intros c1 H1.
    eapply ra_quiet; [by eapply str_escaped_step|]. exact Hrest. }
  unfold esc.
  repeat match goal with |- context [(?a =? ?b)%Z] =>
    destruct (Z.eqb_spec a b) as [->|?]; [apply Hesc; [lia|reflexivity]|] end.
  unfold char_ok in Hok. eapply ra_quiet; [eapply str_char_step; try done|exact Hrest].
  repeat (apply orb_true_iff in Hok as [Hok|Hok]); bool_facts; try lia; done.
Qed.

Lemma read_chars s n stk key acc c rest evs :
  in_str n stk key false acc c -> length acc + length s <= n -> forallb char_ok s = true ->
  (forall c1, in_str n stk key false (acc ++ s) c1 -> reads_as pow c1 rest evs) ->
  reads_as pow c ((s ≫= esc) ++ rest) evs.
Proof.
  revert acc c. induction s as [|ch s IH]; intros acc c Hin Hlen Hok Hrest; cbn in *.
  - apply Hrest. by rewrite app_nil_r.
  - bool_facts. rewrite <- app_assoc. eapply read_esc; [done|lia|done|]. intros c1 H1.
    eapply IH; [done|rewrite length_app; cbn; lia|done|]. intros c2 H2. apply Hrest.
    by rewrite <- app_assoc in H2.
Qed.

Lemma str_close_step n stk key acc c :
  in_str n stk key false acc c -> length acc < n -> Forall (fun ch => ch <> ch_nul) acc ->
  wp (next_st_ pow ch_quote) (fun r c1 => r = rjson_next_ok /\ buffered_ch c1 = (-1)%Z /\
    cur_event c1 = Ret ([Ev_str acc], c1) /\ stack_is n stk c1 /\
    st c1 = (if key then st_want_colon_ else st_idle_) /\ is_val_expected c1 = false) c.
Proof.
  intros Hin Hlt Hnul. eapply in_str_next; [done|lia|]. destruct Hin as [Hs Hst Hsd Hacc Htop].
  pose proof Hs as (Hb & _ & _ & _ & _ & Hlen & _). unfold next_str_ch_. cbn. wp_step.
  assert (cstr (<[length acc := ch_nul]> (str c)) = Some acc) as Hc.
  { rewrite (cstr_take_nul _ (length acc)); rewrite ?take_insert_ge, ?Hacc by lia; [done| |done].
    apply list_lookup_insert_eq. lia. }
  destruct key; wp_step; rewrite wp_next_str_add by done; (split_and!; [done|done| | |done|done]);
    try (eapply stack_is_with; try done; apply length_insert);
    unfold cur_event, rjson_cur_ty, rjson_cur_str, reads, getc, mbind, cm_bind; cbn; by rewrite Hc.
Qed.

Lemma char_ok_nonnul s : forallb char_ok s = true -> Forall (fun ch => ch <> ch_nul) s.
Proof.
  induction s as [|ch s IH]; cbn; intros H; bool_facts; constructor; [|by auto].
  by intros ->.
Qed.

(** A whole string, after its opening quote. *)
Lemma read_str_tail s n stk key c rest evs :
  in_str n stk key false [] c -> str_ok n s = true ->
  (forall c1, stack_is n stk c1 -> st c1 = (if key then st_want_colon_ else st_idle_) ->
     is_val_expected c1 = false -> reads_as pow c1 rest evs) ->
  reads_as pow c ((s ≫= esc) ++ ch_quote :: rest) (Ev_str s :: evs).
Proof.
  intros Hin Hok Hrest. unfold str_ok in Hok. apply andb_true_iff in Hok as [Hch Hlen].
  apply bool_decide_eq_true in Hlen. eapply read_chars; [done|cbn; lia|done|].
  intros c1 H1. cbn in H1. change (Ev_str s :: evs) with ([Ev_str s] ++ evs).
  eapply ra_token; [eapply str_close_step; [done|done|by apply char_ok_nonnul]|].
  intros c2 (H2 & H3 & H4). by apply Hrest.
Qed.

(** *** Literals and numbers

    From the idle state the first character of a literal or a number is handled
    as in the state it selects. *)
Lemma reads_as_same ch rest c c0 evs :
  next_st_ pow ch c = next_st_ pow ch c0 ->
  reads_as pow c0 (ch :: rest) evs -> reads_as pow c (ch :: rest) evs.
Proof.
  intros Heq H. inversion H; subst; [eapply ra_fin|eapply ra_ok|eapply ra_num]; by rewrite ?Heq.
Qed.

(** Where [next_idle_] goes for the first character of a literal or number. *)
Definition enter (s : st_) (c : rjson_ctx) : rjson_ctx :=
  with_st s (with_sd (sd_init s (sd c)) (with_cur rjson_incomplete c)).

Definition next_of (s : st_) (ch : char) : CM rjson_ctx rjson_next_res :=
  match s with
  | st_true_ => next_true_ ch
  | st_false_ => next_false_ ch
  | st_null_ => next_null_ ch
  | _ => next_num_ pow ch
  end.

Lemma idle_enter n stk s ch c :
  idle_at n stk true c -> top c <> lvl_none_ -> is_whitespace_ ch = false ->
  (s = st_num_ \/ s = st_true_ \/ s = st_false_ \/ s = st_null_) ->
  next_idle_val_ pow ch = Some (set_st_ s ;; next_of s ch) ->
  next_st_ pow ch c = next_st_ pow ch (enter s c).
Proof.
  intros (Hs & Hst & Hv) Ht Hw Hsel Hval. destruct (stack_is_lens _ _ _ Hs) as [Hl Hn].
  unfold next_st_, next_idle_, assert_st_, reads, modc, mbind, cm_bind. rewrite Hst.
  rewrite bool_decide_eq_true_2 by done. cbn. rewrite Hw, lvl_run by done.
  change (top (with_cur rjson_incomplete c)) with (top c).
  rewrite bool_decide_eq_false_2 by done. cbn. rewrite Hv, Hval.
  unfold mbind, cm_bind. rewrite set_st_run. cbn [st with_cur]. rewrite Hst.
  rewrite bool_decide_eq_false_2 by (destruct Hsel as [->|[->|[->| ->]]]; done).
  by destruct Hsel as [->|[->|[->| ->]]].
Qed.

(** The three literals: state, text, token and event. *)
Inductive literal : st_ -> list char -> rjson_ty -> rjson_event -> option bool -> Prop :=
| literal_true : literal st_true_ (lit "true") rjson_bool (Ev_bool true) (Some true)
| literal_false : literal st_false_ (lit "false") rjson_bool (Ev_bool false) (Some false)
| literal_null b : literal st_null_ (lit "null") rjson_null Ev_null b.

Definition in_word n stk s i b (c : rjson_ctx) : Prop :=
  stack_is n stk c /\ st c = s /\ is_val_expected c = true /\ cur c = rjson_incomplete /\
  sd c = Sd_special {| word_pos := i; bool_is_true := b |}.

Lemma in_word_next n stk s word ty ev i b c ch Q :
  literal s word ty ev b -> in_word n stk s i b c ->
  wp (next_word_ ch word ty) Q c -> wp (next_st_ pow ch) Q c.
Proof.
  intros Hlit (Hs & Hst & Hv & _ & Hsd) HQ. unfold next_st_. wp_step. rewrite Hst.
  destruct Hlit; unfold next_true_, next_false_, next_null_, next_bool_, assert_st_,
    assert_is_val_expected_; wp_step; rewrite Hst, Hv; repeat (split; [done|]); exact HQ.
Qed.

Lemma word_step n stk s word ty ev i b c ch :
  literal s word ty ev b -> in_word n stk s i b c -> word !! i = Some ch -> S i < length word ->
  wp (next_st_ pow ch) (fun r c1 => r = rjson_next_ok /\ buffered_ch c1 = (-1)%Z /\
    cur c1 = rjson_incomplete /\ in_word n stk s (S i) b c1) c.
Proof.
  intros Hlit Hin Hi Hlt. eapply in_word_next; [done..|].
  destruct Hin as (Hs & Hst & Hv & Hcur & Hsd). pose proof Hs as (Hb & _).
  unfold next_word_, sd_special_. wp_step. rewrite Hsd. wp_step. cbn [word_pos bool_is_true].
  rewrite (lookup_app_l_Some _ _ _ _ Hi), Z.eqb_refl. cbn [negb]. wp_step.
  rewrite bool_decide_eq_false_2 by lia. wp_step. done.
Qed.

Lemma word_end_step n stk s word ty ev i b c ch :
  literal s word ty ev b -> in_word n stk s i b c -> word !! i = Some ch -> S i = length word ->
  wp (next_st_ pow ch) (fun r c1 => r = rjson_next_ok /\ buffered_ch c1 = (-1)%Z /\
    cur_event c1 = Ret ([ev], c1) /\ idle_at n stk false c1) c.
Proof.
  intros Hlit Hin Hi Hlt. eapply in_word_next; [done..|].
  destruct Hin as (Hs & Hst & Hv & Hcur & Hsd). pose proof Hs as (Hb & _).
  unfold next_word_, sd_special_. wp_step. rewrite Hsd. wp_step. cbn [word_pos bool_is_true].
  rewrite (lookup_app_l_Some _ _ _ _ Hi), Z.eqb_refl. cbn [negb]. wp_step.
  rewrite bool_decide_eq_true_2 by lia. wp_step. split_and!; [done|done| |done].
  unfold cur_event, rjson_cur_ty, rjson_cur_is_true, sd_special_, reads, getc, mbind, cm_bind.
  destruct Hlit; cbn; by rewrite ?Hsd.
Qed.

Lemma read_word_tail ws n stk s word pre ty ev b c rest evs :
  literal s word ty ev b -> word = pre ++ ws -> ws <> [] -> in_word n stk s (length pre) b c ->
  (forall c1, idle_at n stk false c1 -> reads_as pow c1 rest evs) ->
  reads_as pow c (ws ++ rest) (ev :: evs).
Proof.
  revert pre c. induction ws as [|ch ws IH]; intros pre c Hlit -> Hne Hin Hrest; [done|].
  assert ((pre ++ ch :: ws) !! length pre = Some ch) as Hi
    by (by rewrite lookup_app_r, Nat.sub_diag by lia).
  destruct ws as [|ch' ws]; cbn [app].
  - change (ev :: evs) with ([ev] ++ evs). eapply ra_token; [|exact Hrest].
    eapply word_end_step; [done..|]. rewrite length_app; cbn; lia.
  - eapply ra_quiet; [eapply word_step; [done..|]; rewrite length_app; cbn; lia|].
    intros c1 H1. eapply (IH (pre ++ [ch])); [done|by rewrite <- app_assoc|done| |done].
    rewrite length_app, Nat.add_1_r. exact H1.
Qed.

Lemma read_literal n stk s word ty ev b c rest evs :
  literal s word ty ev b -> idle_at n stk true c -> top c <> lvl_none_ ->
  sd_init s (sd c) = Sd_special {| word_pos := 0; bool_is_true := b |} ->
  (forall c1, idle_at n stk false c1 -> reads_as pow c1 rest evs) ->
  reads_as pow c (word ++ rest) (ev :: evs).
Proof.
  intros Hlit Hidle Ht Hsd Hrest.
  assert (in_word n stk s (length (@nil char)) b (enter s c)) as Hin.
  { destruct Hidle as (Hs & _ & Hv). split; [exact Hs|]. by repeat (split; [done|]). }
  assert (reads_as pow (enter s c) (word ++ rest) (ev :: evs)) as Hr
    by (eapply (read_word_tail word _ _ _ _ []); [done|done|by destruct Hlit|done|done]).
  destruct Hlit; (eapply reads_as_same; [|exact Hr]); (eapply idle_enter; [done|done|done|tauto|done]).
Qed.

(** Inside the integer part of a number, after [k] digits. *)
Definition in_digits n stk (neg : bool) (a : double) (k : Z) (c : rjson_ctx) : Prop :=
  stack_is n stk c /\ st c = st_num_ /\ is_val_expected c = true /\ cur c = rjson_incomplete /\
  sd c = Sd_num {| num := a; digit_pos := k; is_neg := neg; exp := 0; part := num_part_int_ |}.

Definition is_sep (ch : char) : Prop := ch = ch_comma \/ ch = ch_rbrack \/ ch = ch_rbrace.

Lemma in_digits_next n stk neg a k c ch Q :
  in_digits n stk neg a k c -> is_whitespace_ ch = false -> ~ is_sep ch ->
  (ch = ch_0 -> k <> 0)%Z -> wp (next_num_int_ ch) Q c -> wp (next_st_ pow ch) Q c.
Proof.
  intros (Hs & Hst & Hv & _ & Hsd) Hw Hsep Hz HQ. unfold next_st_. wp_step. rewrite Hst.
  unfold next_num_, assert_st_, assert_is_val_expected_. wp_step. rewrite Hst, Hv.
  do 2 (split; [done|]). rewrite Hw. unfold is_sep in Hsep.
  rewrite (proj2 (Z.eqb_neq ch ch_rbrace)), (proj2 (Z.eqb_neq ch ch_rbrack)),
    (proj2 (Z.eqb_neq ch ch_comma)) by tauto. cbn [orb].
  unfold sd_num_. wp_step. rewrite Hsd. wp_step. cbn [part digit_pos].
  rewrite bool_decide_eq_true_2 by done. cbn [andb].
  destruct (Z.eqb_spec ch ch_0) as [E|]; [|exact HQ].
  rewrite (proj2 (Z.eqb_neq k 0)) by auto. exact HQ.
Qed.

Lemma dec_digit_step n stk neg a k c ch :
  in_digits n stk neg a k c -> is_dec ch -> (ch = ch_0 -> k <> 0)%Z -> (0 <= k < INT_MAX)%Z ->
  wp (next_st_ pow ch) (fun r c1 => r = rjson_next_ok /\ buffered_ch c1 = (-1)%Z /\
    cur c1 = rjson_incomplete /\
    in_digits n stk neg (read_digits (if neg then -1 else 1)%Z a [ch]) (k + 1) c1) c.
Proof.
  intros Hin Hd Hz Hk. unfold is_dec in Hd. eapply in_digits_next; [done|..|done|].
  { unfold is_whitespace_. repeat (apply orb_false_iff; split); apply Z.eqb_neq; lia. }
  { unfold is_sep. lia. }
  destruct Hin as (Hs & Hst & Hv & Hcur & Hsd). pose proof Hs as (Hb & _).
  rewrite (with_sd_id c _ Hsd). unfold next_num_int_. wp_step.
  rewrite !(proj2 (Z.eqb_neq ch _)) by lia. cbn [orb].
  replace (is_digit_ ch) with true
    by (symmetry; unfold is_digit_; apply andb_true_iff; split; apply Z.leb_le; lia).
  wp_step. rewrite wp_digit_pos_incr by (cbn; lia). wp_step. by destruct neg.
Qed.

Lemma minus_step n stk c :
  in_digits n stk false (d_of_int 0) 0 c ->
  wp (next_st_ pow ch_minus) (fun r c1 => r = rjson_next_ok /\ buffered_ch c1 = (-1)%Z /\
    cur c1 = rjson_incomplete /\ in_digits n stk true (d_of_int 0) 0 c1) c.
Proof.
  intros Hin. eapply in_digits_next; [done|done|unfold is_sep; lia|lia|].
  destruct Hin as (Hs & Hst & Hv & Hcur & Hsd). pose proof Hs as (Hb & _).
  rewrite (with_sd_id c _ Hsd). unfold next_num_int_. wp_step. cbn. wp_step. done.
Qed.

Lemma read_digits_tail ds n stk neg a k c rest evs :
  in_digits n stk neg a k c -> Forall is_dec ds -> (0 < k)%Z -> (k + Z.of_nat (length ds) < INT_MAX)%Z ->
  (forall c1, in_digits n stk neg (read_digits (if neg then -1 else 1)%Z a ds)
     (k + Z.of_nat (length ds)) c1 -> reads_as pow c1 rest evs) ->
  reads_as pow c (ds ++ rest) evs.
Proof.
  revert a k c. induction ds as [|d ds IH]; intros a k c Hin Hds Hk Hmax Hrest; cbn in *.
  - apply Hrest. by rewrite Z.add_0_r.
  - apply Forall_cons_iff in Hds as [Hd Hds].
    eapply ra_quiet; [eapply dec_digit_step; [done|done|lia|lia]|]. intros c1 H1.
    eapply IH; [done|done|lia|lia|]. intros c2 H2. apply Hrest.
    by replace (k + Z.of_nat (S (length ds)))%Z with (k + 1 + Z.of_nat (length ds))%Z by lia.
Qed.

(** The separator after a number ends it and is then handled on its own. *)
Lemma read_num_end n stk neg a k c ch rest evs :
  in_digits n stk neg a k c -> (0 < k)%Z -> is_sep ch ->
  (forall c1, idle_at n stk false c1 -> reads_as pow c1 (ch :: rest) evs) ->
  reads_as pow c (ch :: rest) (Ev_num a :: evs).
Proof.
  intros (Hs & Hst & Hv & Hcur & Hsd) Hk Hsep Hrest. pose proof Hs as (Hb & _).
  assert (wp (next_st_ pow ch) (fun r c1 => r = rjson_next_ok /\ buffered_ch c1 <> (-1)%Z /\
    cur_event c1 = Ret ([Ev_num a], c1) /\ idle_at n stk false (with_buffered_ch (-1)%Z c1)) c) as Hw.
  { unfold next_st_. wp_step. rewrite Hst. unfold next_num_, assert_st_, assert_is_val_expected_.
    wp_step. rewrite Hst, Hv. do 2 (split; [done|]).
    replace (is_whitespace_ ch || (ch =? ch_rbrace)%Z || (ch =? ch_rbrack)%Z || (ch =? ch_comma)%Z)
      with true by (by destruct Hsep as [->|[->| ->]]).
    rewrite (with_sd_id c _ Hsd). unfold next_num_end_. wp_step. cbn [digit_pos part].
    rewrite (proj2 (Z.ltb_lt 0 k)) by done. rewrite bool_decide_eq_false_2 by done. wp_step.
    split; [cbn; by rewrite Hb|]. split_and!; [done| |done|].
    - cbn. destruct Hsep as [->|[->| ->]]; lia.
    - split; [|done]. eapply stack_is_with; [exact Hs|done..]. }
  apply wp_Ret in Hw as (r & c1 & Hrun & -> & Hb1 & He & Hid).
  change (Ev_num a :: evs) with ([Ev_num a] ++ evs). eapply ra_num; [done..|]. by apply Hrest.
Qed.

Lemma num_enter n stk c d rest evs :
  idle_at n stk true c -> top c <> lvl_none_ -> is_dec d \/ d = ch_minus ->
  (forall c1, in_digits n stk false (d_of_int 0) 0 c1 -> reads_as pow c1 (d :: rest) evs) ->
  reads_as pow c (d :: rest) evs.
Proof.
  intros Hidle Ht Hd Hrest. unfold is_dec in Hd. eapply reads_as_same.
  - eapply (idle_enter _ _ st_num_); [done|done| |tauto|].
    { unfold is_whitespace_. repeat (apply orb_false_iff; split); apply Z.eqb_neq; lia. }
    unfold next_idle_val_, strchr, lit. cbn [map String.list_ascii_of_string existsb].
    rewrite !(proj2 (Z.eqb_neq d _)) by (cbn; lia). cbn [orb].
    replace (is_num_start_ d) with true; [done|]. symmetry. unfold is_num_start_, is_digit_.
    destruct Hd as [Hd| ->]; [|done]. apply orb_true_iff. left.
    apply andb_true_iff; split; apply Z.leb_le; lia.
  - apply Hrest. destruct Hidle as (Hs & _ & Hv). split; [exact Hs|]. done.
Qed.

Lemma idle_top n stk v c : idle_at n stk v c -> no_none stk -> stk <> [] -> top c <> lvl_none_.
Proof.
  intros (Hs & _) Hnn Hne. destruct (exists_last Hne) as (stk' & l & ->).
  rewrite (stack_is_top _ _ _ _ Hs). apply Forall_app in Hnn as [_ Hnn].
  by rewrite Forall_singleton in Hnn.
Qed.

Lemma read_nat_digits n stk neg c m ch rest evs :
  in_digits n stk neg (d_of_int 0) 0 c -> (0 < m <= 2 ^ 63)%Z -> is_sep ch ->
  (forall c1, idle_at n stk false c1 -> reads_as pow c1 (ch :: rest) evs) ->
  reads_as pow c (print_nat m ++ ch :: rest)
    (Ev_num (read_digits (if neg then -1 else 1)%Z (d_of_int 0) (print_nat m)) :: evs).
Proof.
  intros Hin Hm Hsep Hrest.
  destruct (print_nat_spec m) as (Hd & _ & _ & d & ds & E & Hnz); [lia|].
  assert (length (print_nat m) <= 64) as Hlen by (apply print_nat_length; lia).
  rewrite E in *. apply Forall_cons_iff in Hd as [Hd Hds]. cbn [app length] in *.
  eapply ra_quiet; [eapply dec_digit_step; [done|done|lia|unfold INT_MAX; lia]|].
  intros c1 H1. eapply (read_digits_tail ds); [done|done|lia|unfold INT_MAX; lia|].
  intros c2 H2. eapply read_num_end; [exact H2|lia|done|done].
Qed.

Lemma read_int n stk c z ch rest evs :
  idle_at n stk true c -> top c <> lvl_none_ -> z <> 0%Z -> (Z.abs z <= 2 ^ 63)%Z -> is_sep ch ->
  (forall c1, idle_at n stk false c1 -> reads_as pow c1 (ch :: rest) evs) ->
  reads_as pow c (print_int z ++ ch :: rest) (Ev_num (int_double z) :: evs).
Proof.
  intros Hid Ht Hz Hmax Hsep Hrest. unfold print_int, int_double.
  destruct (Z.ltb_spec z 0); cbn [app].
  - eapply num_enter; [done..|by right|]. intros c1 H1.
    eapply ra_quiet; [by apply minus_step|]. intros c2 H2. rewrite Z.abs_neq by lia.
    eapply (read_nat_digits _ _ true); [exact H2|lia|done|done].
  - rewrite Z.abs_eq by lia.
    destruct (print_nat_spec z) as (Hd & _ & _ & d & ds & E & _); [lia|].
    rewrite E in Hd. apply Forall_cons_iff in Hd as [Hd _].
    assert (forall c1, in_digits n stk false (d_of_int 0) 0 c1 ->
      reads_as pow c1 (print_nat z ++ ch :: rest)
        (Ev_num (read_digits 1 (d_of_int 0) (print_nat z)) :: evs)) as Hk.
    { intros c1 H1. eapply (read_nat_digits _ _ false); [done|lia|done|done]. }
    rewrite E in *. cbn [app] in *. eapply num_enter; [done..|by left|done].
Qed.

(** [v], wherever the grammar allows a value, up to the separator after it. *)
Definition val_reads (v : json) : Prop :=
  forall n stk c ch rest evs,
    json_ok n v = true -> no_none stk -> stk <> [] -> length stk + depth v <= max_depth_ ->
    idle_at n stk true c -> is_sep ch ->
    (forall c1, idle_at n stk false c1 -> reads_as pow c1 (ch :: rest) evs) ->
    reads_as pow c (render v ++ ch :: rest) (events v ++ evs).

(** The elements of an array, up to its closing bracket. *)
Lemma read_elems vs v n stk c rest evs :
  val_reads v -> Forall val_reads vs -> forallb (json_ok n) (v :: vs) = true -> no_none stk ->
  S (length stk + list_max (map depth (v :: vs))) <= max_depth_ ->
  idle_at n (stk ++ [lvl_arr_]) true c ->
  (forall c1, idle_at n (stk ++ [lvl_arr_]) false c1 -> reads_as pow c1 (ch_rbrack :: rest) evs) ->
  reads_as pow c (commas (map render (v :: vs)) ++ ch_rbrack :: rest)
    (((v :: vs) ≫= events) ++ evs).
Proof.
  intros Hv Hvs Hok Hnn Hd Hid Hrest.
  assert (no_none (stk ++ [lvl_arr_])) as Hnn' by (apply Forall_app; split; [done|by repeat constructor]).
  revert v c Hv Hok Hd Hid. induction Hvs as [|v' vs Hv' Hvs IH]; intros v c Hv Hok Hd Hid;
    cbn in Hok, Hd |- *; apply andb_true_iff in Hok as [Hok1 Hok2]; rewrite <- !app_assoc; cbn [app].
  - eapply Hv; [done|done|by destruct stk|rewrite length_app; cbn; lia|done|unfold is_sep; tauto|done].
  - eapply Hv; [done|done|by destruct stk|rewrite length_app; cbn; lia|done|unfold is_sep; tauto|].
    intros c1 H1. eapply ra_quiet; [by apply step_comma_arr|]. intros c2 H2.
    specialize (IH v' c2 Hv' Hok2). cbn in IH. rewrite <- !app_assoc in *. apply IH; [lia|done].
Qed.

(** One member of an object. *)
Lemma read_member k v n stk c ch rest evs :
  val_reads v -> str_ok n k = true -> json_ok n v = true -> no_none stk ->
  S (length stk + depth v) <= max_depth_ -> key_at n stk c -> is_sep ch ->
  (forall c1, idle_at n (stk ++ [lvl_obj_]) false c1 -> reads_as pow c1 (ch :: rest) evs) ->
  reads_as pow c (render_str k ++ ch_colon :: render v ++ ch :: rest) (Ev_str k :: events v ++ evs).
Proof.
  intros Hv Hk Hok Hnn Hd Hkey Hsep Hrest. unfold render_str. cbn [app].
  eapply ra_quiet; [by apply step_quote_key|]. intros c1 H1. rewrite <- app_assoc. cbn [app].
  eapply read_str_tail; [exact H1|done|]. intros c2 Hs2 Hst2 Hv2.
  assert (colon_at n stk c2) as Hc2 by (by split).
  eapply ra_quiet; [by apply step_colon|]. intros c3 H3.
  apply (Hv n (stk ++ [lvl_obj_])); [done| |by destruct stk|rewrite length_app; cbn; lia|done|done|done].
  apply Forall_app; split; [done|by repeat constructor].
Qed.

#[local] Arguments render_str : simpl never.

Lemma read_members kvs kv n stk c rest evs :
  val_reads kv.2 -> Forall (fun kv => val_reads kv.2) kvs ->
  forallb (fun kv => str_ok n kv.1 && json_ok n kv.2) (kv :: kvs) = true -> no_none stk ->
  S (length stk + list_max (map (fun kv => depth kv.2) (kv :: kvs))) <= max_depth_ ->
  key_at n stk c ->
  (forall c1, idle_at n (stk ++ [lvl_obj_]) false c1 -> reads_as pow c1 (ch_rbrace :: rest) evs) ->
  reads_as pow c
    (commas (map (fun kv => render_str kv.1 ++ ch_colon :: render kv.2) (kv :: kvs)) ++ ch_rbrace :: rest)
    (((kv :: kvs) ≫= fun kv => Ev_str kv.1 :: events kv.2) ++ evs).
Proof.
  intros Hv Hvs Hok Hnn Hd Hid Hrest.
  revert kv c Hv Hok Hd Hid. induction Hvs as [|kv' kvs Hv' Hvs IH]; intros kv c Hv Hok Hd Hid;
    cbn in Hok, Hd |- *; apply andb_true_iff in Hok as [Hok1 Hok2];
    apply andb_true_iff in Hok1 as [Hk Hok1]; rewrite <- !app_assoc; cbn [app].
  - eapply read_member; [done..|lia|done|unfold is_sep; tauto|done].
  - rewrite <- !app_assoc. cbn [app].
    eapply read_member; [done..|lia|done|unfold is_sep; tauto|]. intros c1 H1.
    eapply ra_quiet; [by apply step_comma_obj|]. intros c2 H2.
    specialize (IH kv' c2 Hv' Hok2). cbn in IH. rewrite <- !app_assoc in *. cbn [app] in *.
    rewrite <- ?app_assoc in *. apply IH; [lia|done].
Qed.

(** Where the closing brace of an object may come. *)
Definition obj_close_at n stk c : Prop :=
  idle_at n (stk ++ [lvl_obj_]) false c \/ key_at n stk c.

Lemma step_close n stk c : obj_close_at n stk c -> no_none stk ->
  wp (next_st_ pow ch_rbrace) (fun r c1 => r = obj_end_res stk /\ buffered_ch c1 = (-1)%Z /\
    cur_event c1 = Ret ([Ev_obj_end], c1) /\ idle_at n stk false c1) c.
Proof. intros [H|H] Hnn; [by apply step_rbrace|by apply step_empty_obj]. Qed.

Lemma read_obj kvs n stk c rest evs :
  Forall (fun kv => val_reads kv.2) kvs -> json_ok n (JObj kvs) = true -> no_none stk ->
  length stk + depth (JObj kvs) <= max_depth_ -> idle_at n stk true c ->
  (forall c1, obj_close_at n stk c1 -> reads_as pow c1 (ch_rbrace :: rest) (Ev_obj_end :: evs)) ->
  reads_as pow c (render (JObj kvs) ++ rest) (events (JObj kvs) ++ evs).
Proof.
  intros Hkvs Hok Hnn Hd Hid Hclose. cbn [render events app] in *. rewrite <- !app_assoc. cbn [app].
  change (Ev_obj_start :: ?x) with ([Ev_obj_start] ++ x).
  eapply ra_token; [apply (step_lbrace n stk); [done|cbn in Hd; lia]|]. intros c1 H1.
  destruct Hkvs as [|kv kvs Hkv Hkvs].
  - apply Hclose. by right.
  - eapply read_members; [done|done|exact Hok|done|cbn in *; lia|done|]. intros c2 H2.
    apply Hclose. by left.
Qed.

Lemma read_val v : val_reads v.
Proof.
  induction v as [|b|z|s|vs IH|kvs IH] using json_ind';
    intros n stk c ch rest evs Hok Hnn Hne Hd Hid Hsep Hrest; pose proof (idle_top _ _ _ _ Hid Hnn Hne) as Ht.
  - eapply read_literal; [apply literal_null|done..].
  - destruct b; [eapply read_literal; [apply literal_true|done..]
                |eapply read_literal; [apply literal_false|done..]].
  - cbn [json_ok] in Hok. bool_facts. eapply read_int; [done..|lia|done|done].
  - cbn [render events]. unfold render_str. cbn [app]. rewrite <- app_assoc. cbn [app].
    eapply ra_quiet; [by apply step_quote_val|]. intros c1 H1.
    eapply read_str_tail; [exact H1|done|]. intros c2 Hs2 Hst2 Hv2. apply Hrest. by split.
  - cbn [json_ok] in Hok. apply andb_true_iff in Hok as [Hnil Hok]. destruct vs as [|v vs]; [done|].
    apply Forall_cons_iff in IH as [IHv IHvs].
    cbn [render events]. cbn [app]. rewrite <- !app_assoc. cbn [app].
    change (Ev_arr_start :: ?x) with ([Ev_arr_start] ++ x).
    eapply ra_token; [apply (step_lbrack n stk); [done|done|cbn in Hd; lia]|]. intros c1 H1.
    eapply read_elems; [done..|cbn in *; lia|done|]. intros c2 H2.
    change (Ev_arr_end :: ?x) with ([Ev_arr_end] ++ x).
    eapply ra_token; [by apply step_rbrack|done].
  - eapply read_obj; [done..|]. intros c1 H1.
    change (Ev_obj_end :: ?x) with ([Ev_obj_end] ++ x).
    eapply ra_token; [|exact Hrest]. eapply wp_mono; [by apply step_close|].
    intros r c2 (-> & H2). split; [|done]. by destruct stk.
Qed.

(** A whole document: an object, whose closing brace completes it. *)
Lemma read_document n kvs c :
  json_ok n (JObj kvs) = true -> depth (JObj kvs) <= max_depth_ -> idle_at n [] true c ->
  reads_as pow c (render (JObj kvs)) (events (JObj kvs)).
Proof.
  intros Hok Hd Hid. rewrite <- (app_nil_r (render _)), <- (app_nil_r (events _)).
  eapply read_obj; [|done|by constructor|done|done|].
  { apply Forall_forall. intros kv _. apply read_val. }
  intros c1 H1. apply ra_fin_wp. eapply wp_mono; [by apply step_close; [|constructor]|].
  intros r c2 (-> & H2). split; [done|]. tauto.
Qed.
End reading.

#[local] Arguments render_str : simpl never.

(** The characters of a rendered document are positive. *)
Lemma render_str_pos n s : str_ok n s = true -> Forall (fun ch => 0 < ch)%Z (render_str s).
Proof.
  unfold str_ok, render_str. intros H. apply andb_true_iff in H as [H _].
  constructor; [lia|]. apply Forall_app; split; [|by repeat constructor; lia].
  induction s as [|ch s IH]; [constructor|]. cbn in *. apply andb_true_iff in H as [Hc H].
  apply Forall_app; split; [|by auto]. unfold esc.
  repeat match goal with |- context [(?a =? ?b)%Z] =>
    destruct (Z.eqb_spec a b) as [->|?]; [repeat constructor; lia|] end.
  repeat constructor. unfold char_ok in Hc. 
  repeat (apply orb_true_iff in Hc as [Hc|Hc]); bool_facts; lia.
Qed.

Lemma commas_Forall (P : char -> Prop) l : P ch_comma -> Forall (Forall P) l -> Forall P (commas l).
Proof.
  intros Hc H. destruct H as [|x l Hx Hl]; [constructor|]. cbn. apply Forall_app; split; [done|].
  induction Hl; cbn; [constructor|]. constructor; [done|]. by apply Forall_app.
Qed.

Lemma render_pos n v : json_ok n v = true -> Forall (fun ch => 0 < ch)%Z (render v).
Proof.
  induction v as [|b|z|s|vs IH|kvs IH] using json_ind'; intros Hok; cbn [render json_ok] in *.
  - repeat constructor; lia.
  - destruct b; repeat constructor; lia.
  - unfold print_int.
    assert (forall m, (0 <= m)%Z -> Forall (fun ch => 0 < ch)%Z (print_nat m)) as Hp.
    { intros m Hm. destruct (print_nat_spec m Hm) as (H & _). eapply List.Forall_impl; [|exact H].
      unfold is_dec. intros x Hx. cbn in Hx. lia. }
    destruct (Z.ltb_spec z 0); [constructor; [lia|]|]; apply Hp; lia.
  - by eapply render_str_pos.
  - apply andb_true_iff in Hok as [_ Hok]. constructor; [lia|].
    apply Forall_app; split; [|by repeat constructor; lia]. apply commas_Forall; [lia|].
    induction IH as [|v vs Hv _ IHvs]; cbn in *; [constructor|]. bool_facts. constructor; auto.
  - constructor; [lia|]. apply Forall_app; split; [|by repeat constructor; lia].
    apply commas_Forall; [lia|].
    induction IH as [|kv kvs Hv _ IHvs]; cbn in *; [constructor|]. bool_facts. constructor; [|by auto].
    apply Forall_app; split; [by eapply render_str_pos|]. constructor; [lia|auto].
Qed.

Lemma fresh_idle buf c0 : length (lvls c0) = max_depth_ -> idle_at (length buf) [] true (fresh buf c0).
Proof. intros Hl. split; [|done]. unfold stack_is; cbn. split_and!; try done. lia. Qed.

(** ** Theorems *)

(** C2. Reading a document: the compact text of every object whose strings fit
    the buffer, whose integers are nonzero, whose arrays are not empty and that
    nests at most 24 levels is read, from any initial memory, as exactly the
    tokens of the document in order, ending with [rjson_next_fin]. *)
Theorem rjson_reads_document pow buf c0 kvs :
  length (lvls c0) = max_depth_ -> json_ok (length buf) (JObj kvs) = true ->
  depth (JObj kvs) <= max_depth_ ->
  exists c', rjson_demo pow buf (render (JObj kvs)) c0 = Ret ((events (JObj kvs), End_fin), c').
Proof.
  intros Hl Hok Hd. unfold rjson_demo, mbind, cm_bind. rewrite rjson_init_run.
  destruct (lag_equiv pow (fresh buf c0) (render (JObj kvs)) (events (JObj kvs))) as [Ha _].
  - eapply read_document; [done..|by apply fresh_idle].
  - done.
  - by eapply render_pos.
  - apply (Ha 0%Z).
Qed.

(** A document with a boolean, a nested array and a string with a newline. *)
Definition sample_doc : list (list char * json) :=
  [(lit "ok", JBool true); (lit "a", JArr [JInt (-12); JObj []]); (lit "s", JStr [120; 10]%Z)].

Lemma rjson_reads_document_witness :
  exists c', rjson_demo (fun x _ => x) (replicate 8 7%Z) (render (JObj sample_doc)) stack_ctx =
    Ret (([Ev_obj_start; Ev_str (lit "ok"); Ev_bool true; Ev_str (lit "a"); Ev_arr_start;
           Ev_num (d_of_int (-12)); Ev_obj_start; Ev_obj_end; Ev_arr_end; Ev_str (lit "s");
           Ev_str [120; 10]%Z; Ev_obj_end], End_fin), c').
Proof.
  apply (rjson_reads_document (fun x _ => x) (replicate 8 7%Z) stack_ctx sample_doc);
    [reflexivity|vm_compute; reflexivity|cbn; unfold max_depth_; lia].
Defined.
