(* ===== verification/Wjson.v ===== *)
(** * JSON writer (wjson.h, wjson.c)

    The writer appends the text of one token per call to a caller-supplied
    buffer, in compact or pretty form.  Definitions follow the functions of
    wjson.c one by one; an argument of type [char *] is the memory it points
    to, read up to its NUL.  The theorems are in [WjsonProps.v]. *)

From stdpp Require Import base list numbers strings option.
From Stdlib Require Import SpecFloat.
From S2P Require Import Prelude.

(** ** Data *)
Definition max_depth_ : nat := 24.
Definition indentation_ : nat := 4.

Inductive wjson_res := wjson_bad_arg | wjson_syntax | wjson_overflow | wjson_ok.

Inductive st_ := st_none_ | st_want_key_ | st_want_val_.

Inductive lvl_ty_ := lvl_none_ | lvl_obj_ | lvl_arr_.

#[export] Instance wjson_res_eq_dec : EqDecision wjson_res.
Proof. solve_decision. Defined.
#[export] Instance wst_eq_dec : EqDecision st_.
Proof. solve_decision. Defined.
#[export] Instance lvl_ty_eq_dec : EqDecision lvl_ty_.
Proof. solve_decision. Defined.

Record wjson_ctx := {
  is_pretty : bool;
  str : list char;
  mlen : nat;
  len : nat;
  lvls : list lvl_ty_;
  lvls_len : nat;
  st : st_;
  need_comma : bool;
  is_first : bool
}.

(** Field assignments. *)
Definition with_is_pretty v (c : wjson_ctx) : wjson_ctx :=
  {| is_pretty := v; str := str c; mlen := mlen c; len := len c; lvls := lvls c;
     lvls_len := lvls_len c; st := st c; need_comma := need_comma c;
     is_first := is_first c |}.
Definition with_str v (c : wjson_ctx) : wjson_ctx :=
  {| is_pretty := is_pretty c; str := v; mlen := mlen c; len := len c; lvls := lvls c;
     lvls_len := lvls_len c; st := st c; need_comma := need_comma c;
     is_first := is_first c |}.
Definition with_mlen v (c : wjson_ctx) : wjson_ctx :=
  {| is_pretty := is_pretty c; str := str c; mlen := v; len := len c; lvls := lvls c;
     lvls_len := lvls_len c; st := st c; need_comma := need_comma c;
     is_first := is_first c |}.
Definition with_len v (c : wjson_ctx) : wjson_ctx :=
  {| is_pretty := is_pretty c; str := str c; mlen := mlen c; len := v; lvls := lvls c;
     lvls_len := lvls_len c; st := st c; need_comma := need_comma c;
     is_first := is_first c |}.
Definition with_lvls v (c : wjson_ctx) : wjson_ctx :=
  {| is_pretty := is_pretty c; str := str c; mlen := mlen c; len := len c; lvls := v;
     lvls_len := lvls_len c; st := st c; need_comma := need_comma c;
     is_first := is_first c |}.
Definition with_lvls_len v (c : wjson_ctx) : wjson_ctx :=
  {| is_pretty := is_pretty c; str := str c; mlen := mlen c; len := len c;
     lvls := lvls c; lvls_len := v; st := st c; need_comma := need_comma c;
     is_first := is_first c |}.
Definition with_st v (c : wjson_ctx) : wjson_ctx :=
  {| is_pretty := is_pretty c; str := str c; mlen := mlen c; len := len c;
     lvls := lvls c; lvls_len := lvls_len c; st := v; need_comma := need_comma c;
     is_first := is_first c |}.
Definition with_need_comma v (c : wjson_ctx) : wjson_ctx :=
  {| is_pretty := is_pretty c; str := str c; mlen := mlen c; len := len c;
     lvls := lvls c; lvls_len := lvls_len c; st := st c; need_comma := v;
     is_first := is_first c |}.
Definition with_is_first v (c : wjson_ctx) : wjson_ctx :=
  {| is_pretty := is_pretty c; str := str c; mlen := mlen c; len := len c;
     lvls := lvls c; lvls_len := lvls_len c; st := st c; need_comma := need_comma c;
     is_first := v |}.
(** [SOB_WJSON_CHECK(m)] followed by [k]: an unsuccessful result is returned. *)
Definition wcheck (m k : CM wjson_ctx wjson_res) : CM wjson_ctx wjson_res :=
  r ← m; if bool_decide (r = wjson_ok) then k else mret r.

Declare Scope wjson_scope.
Delimit Scope wjson_scope with wjson.
Notation "m '>!>' k" := (wcheck m k) (at level 100, k at level 200, right associativity)
  : wjson_scope.
#[local] Open Scope wjson_scope.

(** ** Output *)

(** [c->str[c->len] = ch; c->len++]. *)
Definition put_ (ch : char) : CM wjson_ctx unit :=
  c ← getc;
  buf ← buf_set (str c) (len c) ch;
  modc (with_str buf) ;;
  modc (with_len (S (len c))).

Definition add_ch_ (ch : char) : CM wjson_ctx wjson_res :=
  c ← getc;
  if decide (mlen c < len c + 2) then mret wjson_overflow
  else put_ ch ;; mret wjson_ok.

Definition maybe_comma_ : CM wjson_ctx wjson_res :=
  c ← getc;
  if need_comma c then
    add_ch_ ch_comma >!>
    (if is_pretty c then add_ch_ ch_lf else mret wjson_ok) >!>
    (modc (with_need_comma false) ;; mret wjson_ok)
  else mret wjson_ok.

(** The inner loop of [maybe_indent_]: [n] spaces, already known to fit. *)
Fixpoint put_spaces_ (n : nat) : CM wjson_ctx unit :=
  match n with
  | O => mret tt
  | S n => put_ ch_sp ;; put_spaces_ n
  end.

(** The outer loop of [maybe_indent_], [i] iterations left. *)
Fixpoint indent_loop_ (i : nat) : CM wjson_ctx wjson_res :=
  match i with
  | O => mret wjson_ok
  | S i =>
      c ← getc;
      if decide (mlen c < len c + indentation_ + 1) then mret wjson_overflow
      else put_spaces_ indentation_ ;; indent_loop_ i
  end.

Definition maybe_indent_ : CM wjson_ctx wjson_res :=
  c ← getc;
  if is_pretty c then
    if bool_decide (st c = st_want_val_) then mret wjson_ok
    else indent_loop_ (lvls_len c)
  else mret wjson_ok.

(** ** Levels *)
Definition add_lvl_ (lvl : lvl_ty_) : CM wjson_ctx unit :=
  c ← getc;
  if bool_decide (lvls_len c = max_depth_) then sob_panic (lit "wjson.c") 334 (lit "add_lvl_: max depth reached")
  else if decide (lvls_len c < length (lvls c)) then
    modc (with_lvls (<[lvls_len c := lvl]> (lvls c))) ;;
    modc (with_lvls_len (S (lvls_len c)))
  else undef.

Definition pop_lvl_ : CM wjson_ctx unit :=
  c ← getc;
  if bool_decide (lvls_len c = 0) then sob_panic (lit "wjson.c") 343 (lit "pop_lvl_: no levels to pop")
  else modc (with_lvls_len (lvls_len c - 1)).

Definition lvl_ : CM wjson_ctx lvl_ty_ :=
  c ← getc;
  if bool_decide (lvls_len c = 0) then mret lvl_none_
  else match lvls c !! (lvls_len c - 1) with
       | Some l => mret l
       | None => undef
       end.

(** ** Escapes: whether a backslash is needed, and the character after it *)
Definition escape_ch_ (ch : char) : bool * char :=
  if (ch =? ch_bs)%Z then (true, ch_b)
  else if (ch =? ch_ff)%Z then (true, ch_f)
  else if (ch =? ch_lf)%Z then (true, ch_n)
  else if (ch =? ch_cr)%Z then (true, ch_r)
  else if (ch =? ch_tab)%Z then (true, ch_t)
  else if (ch =? ch_quote)%Z then (true, ch_quote)
  else if (ch =? ch_bslash)%Z then (true, ch_bslash)
  else (false, ch).

(** ** Tokens *)
Definition wjson_init (out_str : list char) (out_str_max_len : nat) (pretty : bool)
    : CM wjson_ctx unit :=
  modc (with_is_pretty pretty) ;;
  modc (with_str out_str) ;;
  modc (with_mlen out_str_max_len) ;;
  modc (with_len 0) ;;
  modc (with_st st_none_) ;;
  modc (with_need_comma false) ;;
  c ← getc;
  (if decide (1 <= mlen c) then
     buf ← buf_set (str c) 0 ch_nul; modc (with_str buf)
   else mret tt) ;;
  c ← getc;
  (if decide (2 <= mlen c) then
     buf ← buf_set (str c) (mlen c - 1) ch_nul; modc (with_str buf)
   else mret tt).

(** What a caller reads through [wjson_out_str]. *)
Definition wjson_out_str : CM wjson_ctx (list char) :=
  c ← getc; match cstr (str c) with Some s => mret s | None => undef end.

(** The start of every token but a closing bracket: comma, line, indentation. *)
Definition token_start_ (k : CM wjson_ctx wjson_res) : CM wjson_ctx wjson_res :=
  maybe_comma_ >!>
  (c ← getc; if is_pretty c && is_first c then add_ch_ ch_lf else mret wjson_ok) >!>
  maybe_indent_ >!>
  k.

(** The loop of [wjson_str] over the characters of its argument. *)
Fixpoint str_loop_ (s : list char) : CM wjson_ctx wjson_res :=
  match s with
  | [] => undef
  | ch :: s =>
      if (ch =? ch_nul)%Z then mret wjson_ok
      else
        (if (escape_ch_ ch).1 then add_ch_ ch_bslash else mret wjson_ok) >!>
        add_ch_ (escape_ch_ ch).2 >!>
        str_loop_ s
  end.

(** The change of state at the end of [wjson_str]. *)
Definition str_end_ : CM wjson_ctx wjson_res :=
  c ← getc;
  match st c with
  | st_want_val_ =>
      modc (with_st st_want_key_) ;; modc (with_need_comma true) ;; mret wjson_ok
  | st_want_key_ =>
      modc (with_need_comma false) ;;
      l ← lvl_;
      if bool_decide (l = lvl_obj_) then
        add_ch_ ch_colon >!>
        (if is_pretty c then add_ch_ ch_sp else mret wjson_ok) >!>
        (modc (with_st st_want_val_) ;; mret wjson_ok)
      else sob_panic (lit "wjson.c") 111 (lit "st_want_key can only be in obj")
  | st_none_ => modc (with_need_comma true) ;; mret wjson_ok
  end.

Definition wjson_str (s : list char) : CM wjson_ctx wjson_res :=
  token_start_ (
    modc (with_is_first false) ;;
    (add_ch_ ch_quote >!>
     str_loop_ s >!>
     add_ch_ ch_quote >!>
     str_end_)).

(** The loop of [add_literal_]. *)
Fixpoint literal_loop_ (s : list char) : CM wjson_ctx wjson_res :=
  match s with
  | [] => undef
  | ch :: s =>
      if (ch =? ch_nul)%Z then mret wjson_ok else add_ch_ ch >!> literal_loop_ s
  end.

Definition add_literal_ (s : list char) : CM wjson_ctx wjson_res :=
  c ← getc;
  if bool_decide (st c = st_want_key_) then mret wjson_syntax
  else
    token_start_ (
      modc (with_is_first false) ;;
      modc (with_need_comma true) ;;
      (literal_loop_ s >!>
       (c' ← getc;
        (if bool_decide (st c' = st_want_val_) then modc (with_st st_want_key_) else mret tt) ;;
        mret wjson_ok))).

(** [snprintf(buf, size, ...)] with [text] the whole output: what [buf] holds. *)
Definition snprintf_buf (size : nat) (text : list char) : list char :=
  take (size - 1) text ++ [ch_nul].

Definition wjson_num_ (size : nat) (text : list char) : CM wjson_ctx wjson_res :=
  c ← getc;
  if bool_decide (st c = st_want_key_) then mret wjson_syntax
  else if decide (size <= length text) then mret wjson_overflow
  else add_literal_ (snprintf_buf size text).

Definition wjson_int (num : Z) : CM wjson_ctx wjson_res := wjson_num_ 50 (print_int num).

Definition wjson_double (num : double) : CM wjson_ctx wjson_res := wjson_num_ 100 (print_double num).

Definition wjson_bool (is_true : bool) : CM wjson_ctx wjson_res :=
  if is_true then add_literal_ (lit "true" ++ [ch_nul]) else add_literal_ (lit "false" ++ [ch_nul]).

Definition wjson_null : CM wjson_ctx wjson_res := add_literal_ (lit "null" ++ [ch_nul]).

Definition wjson_obj_start : CM wjson_ctx wjson_res :=
  c ← getc;
  if bool_decide (st c = st_want_key_) then mret wjson_syntax
  else
    token_start_ (
      add_ch_ ch_lbrace >!>
      (modc (with_st st_want_key_) ;;
       modc (with_is_first true) ;;
       modc (with_need_comma false) ;;
       add_lvl_ lvl_obj_ ;;
       mret wjson_ok)).

(** The line break and indentation before a closing bracket. *)
Definition close_indent_ (k : CM wjson_ctx wjson_res) : CM wjson_ctx wjson_res :=
  (c ← getc;
   if is_pretty c && negb (is_first c) then add_ch_ ch_lf >!> maybe_indent_ else mret wjson_ok) >!>
  k.

Definition wjson_obj_end : CM wjson_ctx wjson_res :=
  l ← lvl_;
  if negb (bool_decide (l = lvl_obj_)) then mret wjson_syntax
  else
    c ← getc;
    if bool_decide (st c = st_want_val_) then mret wjson_syntax
    else
      pop_lvl_ ;;
      close_indent_ (
        modc (with_is_first false) ;;
        modc (with_st st_none_) ;;
        l' ← lvl_;
        (if bool_decide (l' = lvl_obj_) then modc (with_st st_want_key_) else mret tt) ;;
        modc (with_need_comma true) ;;
        (add_ch_ ch_rbrace >!> mret wjson_ok)).

Definition wjson_arr_start : CM wjson_ctx wjson_res :=
  c ← getc;
  if bool_decide (st c = st_want_key_) then mret wjson_syntax
  else
    token_start_ (
      add_ch_ ch_lbrack >!>
      (add_lvl_ lvl_arr_ ;;
       modc (with_need_comma false) ;;
       modc (with_st st_none_) ;;
       modc (with_is_first true) ;;
       mret wjson_ok)).

Definition wjson_arr_end : CM wjson_ctx wjson_res :=
  l ← lvl_;
  if negb (bool_decide (l = lvl_arr_)) then mret wjson_syntax
  else
    pop_lvl_ ;;
    close_indent_ (
      modc (with_is_first false) ;;
      l' ← lvl_;
      (if bool_decide (l' = lvl_obj_) then
         modc (with_st st_want_key_) ;; modc (with_need_comma false)
       else if bool_decide (l' = lvl_arr_) then modc (with_need_comma true)
       else mret tt) ;;
      (add_ch_ ch_rbrack >!> mret wjson_ok)).

(** ** Tokens as data *)
Inductive wop :=
| W_str (s : list char) | W_int (z : Z) | W_double (d : double) | W_bool (b : bool) | W_null
| W_obj_start | W_obj_end | W_arr_start | W_arr_end.

(** The call of the interface a token stands for. *)
Definition run_op (o : wop) : CM wjson_ctx wjson_res :=
  match o with
  | W_str s => wjson_str (s ++ [ch_nul])
  | W_int z => wjson_int z
  | W_double d => wjson_double d
  | W_bool b => wjson_bool b
  | W_null => wjson_null
  | W_obj_start => wjson_obj_start
  | W_obj_end => wjson_obj_end
  | W_arr_start => wjson_arr_start
  | W_arr_end => wjson_arr_end
  end.

(** A caller that stops at the first unsuccessful call, as [SOB_WJSON_CHECK]. *)
Fixpoint run_ops (os : list wop) : CM wjson_ctx wjson_res :=
  match os with
  | [] => mret wjson_ok
  | o :: os => wcheck (run_op o) (run_ops os)
  end.

(** ** The demo program *)
Definition pi_ : double := S754_finite false 7070651414971679 (-51).

Definition wjson_demo_ops : list wop :=
  [W_obj_start; W_str (lit "hello"); W_str (lit "world" ++ [ch_lf]); W_str (lit "a");
   W_obj_start; W_str (lit "b"); W_obj_start; W_obj_end; W_str (lit "d");
   W_arr_start; W_str (lit "first"); W_str (lit "second"); W_str (lit "third");
   W_arr_start; W_str (lit "obj"); W_obj_start; W_str (lit "second"); W_null; W_str (lit "third");
   W_arr_start; W_int 228; W_str (lit "777"); W_double pi_; W_int 420; W_null; W_arr_end;
   W_obj_end; W_arr_end; W_arr_end; W_obj_end; W_obj_end].

(** The result of the calls and the text printed after them, also on an error. *)
Definition wjson_demo (buf : list char) : CM wjson_ctx (wjson_res * list char) :=
  wjson_init buf 1024 true ;;
  r ← run_ops wjson_demo_ops;
  s ← wjson_out_str;
  mret (r, s).
