(* ===== verification/WjsonProps.v ===== *)
(** * Properties of the JSON writer

    An abstract writer, which maps a token to the text it adds and the next
    state, and the refinement of it by the buffer-writing code of wjson.c: a
    token is written exactly when its whole text fits, and the buffer is never
    overrun.  From it the text the writer produces for a whole document. *)

From stdpp Require Import base list numbers strings option.
From S2P Require Import Prelude Document Wjson.

(** ** The abstract writer *)
Record astate := {
  a_pretty : bool;
  a_lvls : list lvl_ty_;
  a_st : st_;
  a_comma : bool;
  a_first : bool
}.

(** The innermost of the open levels (outermost first), and the others. *)
Definition top_of (ls : list lvl_ty_) : lvl_ty_ := default lvl_none_ (ls !! (length ls - 1)).

Definition pop_of (ls : list lvl_ty_) : list lvl_ty_ := take (length ls - 1) ls.

Definition when (b : bool) (t : list char) : list char := if b then t else [].

Definition spaces (k : nat) : list char := replicate (indentation_ * k) ch_sp.

Definition indent_text (a : astate) : list char :=
  when (a_pretty a && negb (bool_decide (a_st a = st_want_val_))) (spaces (length (a_lvls a))).

(** What comes before a token. *)
Definition lead (a : astate) : list char :=
  when (a_comma a) (ch_comma :: when (a_pretty a) [ch_lf]) ++
  when (a_pretty a && a_first a) [ch_lf] ++ indent_text a.

(** What comes before a closing bracket, the level being popped. *)
Definition close_lead (a : astate) : list char :=
  when (a_pretty a && negb (a_first a)) (ch_lf :: spaces (length (a_lvls a) - 1)).

Definition after_val (s : st_) : st_ :=
  match s with st_want_val_ => st_want_key_ | s => s end.

Definition a_literal (a : astate) (t : list char) : option (list char * astate) :=
  if bool_decide (a_st a = st_want_key_) then None
  else Some (lead a ++ t,
    {| a_pretty := a_pretty a; a_lvls := a_lvls a; a_st := after_val (a_st a);
       a_comma := true; a_first := false |}).

Definition a_open (a : astate) (ch : char) (l : lvl_ty_) (s : st_) : option (list char * astate) :=
  if bool_decide (a_st a = st_want_key_) then None
  else Some (lead a ++ [ch],
    {| a_pretty := a_pretty a; a_lvls := a_lvls a ++ [l]; a_st := s;
       a_comma := false; a_first := true |}).

(** The text a token adds and the state after it; [None] is [wjson_syntax]. *)
Definition astep (a : astate) (o : wop) : option (list char * astate) :=
  match o with
  | W_str s =>
      let key := bool_decide (a_st a = st_want_key_) in
      Some (lead a ++ render_str s ++ when key (ch_colon :: when (a_pretty a) [ch_sp]),
        {| a_pretty := a_pretty a; a_lvls := a_lvls a;
           a_st := if key then st_want_val_ else after_val (a_st a);
           a_comma := negb key; a_first := false |})
  | W_int z => a_literal a (print_int z)
  | W_double d => a_literal a (print_double d)
  | W_bool b => a_literal a (if b then lit "true" else lit "false")
  | W_null => a_literal a (lit "null")
  | W_obj_start => a_open a ch_lbrace lvl_obj_ st_want_key_
  | W_arr_start => a_open a ch_lbrack lvl_arr_ st_none_
  | W_obj_end =>
      if bool_decide (top_of (a_lvls a) = lvl_obj_) && negb (bool_decide (a_st a = st_want_val_)) then
        let ls := pop_of (a_lvls a) in
        Some (close_lead a ++ [ch_rbrace],
          {| a_pretty := a_pretty a; a_lvls := ls;
             a_st := if bool_decide (top_of ls = lvl_obj_) then st_want_key_ else st_none_;
             a_comma := true; a_first := false |})
      else None
  | W_arr_end =>
      if bool_decide (top_of (a_lvls a) = lvl_arr_) then
        let ls := pop_of (a_lvls a) in
        let up := top_of ls in
        Some (close_lead a ++ [ch_rbrack],
          {| a_pretty := a_pretty a; a_lvls := ls;
             a_st := if bool_decide (up = lvl_obj_) then st_want_key_ else a_st a;
             a_comma := if bool_decide (up = lvl_obj_) then false
                        else if bool_decide (up = lvl_arr_) then true else a_comma a;
             a_first := false |})
      else None
  end.

(** ** Emission

    [emits m t c c']: the code [m] appends the text [t] and ends in [c'] when
    the text and a NUL fit, and otherwise reports an overflow having written
    only a part that fits. *)
Definition fits (t : list char) (c : wjson_ctx) : Prop := len c + length t + 1 <= mlen c.

Record out_is (t : list char) (c c' : wjson_ctx) : Prop := {
  out_str : str c' = splice (str c) (len c) t;
  out_len : len c' = len c + length t;
  out_mlen : mlen c' = mlen c
}.

Definition broken (c c' : wjson_ctx) : Prop := exists t, fits t c /\ out_is t c c'.

Record buf_ok (c : wjson_ctx) : Prop := {
  bo_len : length (str c) = mlen c;
  bo_room : len c + 1 <= mlen c
}.

Record emits (m : CM wjson_ctx wjson_res) (t : list char) (c c' : wjson_ctx) : Prop := {
  em_ok : fits t c -> m c = Ret (wjson_ok, c') /\ out_is t c c';
  em_over : ~ fits t c -> exists c'', m c = Ret (wjson_overflow, c'') /\ broken c c''
}.

Lemma out_is_nil c c' :
  str c' = str c -> len c' = len c -> mlen c' = mlen c -> out_is [] c c'.
Proof. intros Hs Hl Hm. split; cbn; [by rewrite splice_nil|lia|done]. Qed.

Lemma out_is_app t1 t2 c c1 c2 :
  len c <= length (str c) -> out_is t1 c c1 -> out_is t2 c1 c2 -> out_is (t1 ++ t2) c c2.
Proof.
  intros Hl [S1 L1 M1] [S2 L2 M2]. split.
  - by rewrite S2, S1, L1, splice_app.
  - rewrite L2, L1, length_app. lia.
  - congruence.
Qed.

Lemma buf_ok_out t c c' : buf_ok c -> fits t c -> out_is t c c' -> buf_ok c'.
Proof.
  intros [Hl Hr] Hf [S1 L1 M1]. unfold fits in Hf. split; [|lia].
  rewrite S1, splice_length by lia. congruence.
Qed.

Lemma fits_nil c : buf_ok c -> fits [] c.
Proof. intros [_ H]. unfold fits. cbn. lia. Qed.

(** The rule for [SOB_WJSON_CHECK]. *)
Lemma emits_check m1 m2 t1 t2 c c1 c2 :
  buf_ok c -> emits m1 t1 c c1 -> (buf_ok c1 -> emits m2 t2 c1 c2) ->
  emits (wcheck m1 m2) (t1 ++ t2) c c2.
Proof.
  intros Hb [K1 V1] H2. pose proof Hb as [Hl Hr]. assert (len c <= length (str c)) as Hle by lia.
  split; unfold wcheck, mbind, cm_bind; intros Hf; unfold fits in Hf; rewrite length_app in Hf.
  - assert (fits t1 c) as F1 by (unfold fits; lia). destruct (K1 F1) as [-> O1].
    rewrite bool_decide_eq_true_2 by done. pose proof O1 as [_ L1 M1].
    destruct (H2 (buf_ok_out _ _ _ Hb F1 O1)) as [K2 _].
    destruct K2 as [-> O2]; [unfold fits; lia|]. split; [done|by eapply out_is_app].
  - destruct (decide (len c + length t1 + 1 <= mlen c)) as [F1|F1].
    + destruct (K1 F1) as [-> O1]. destruct (H2 (buf_ok_out _ _ _ Hb F1 O1)) as [_ V2].
      rewrite bool_decide_eq_true_2 by done. pose proof O1 as [S1 L1 M1].
      destruct V2 as (c'' & -> & t' & F' & O'); [unfold fits; lia|]. exists c''. split; [done|].
      exists (t1 ++ t'). split; [unfold fits in *; rewrite length_app; lia|].
      by eapply out_is_app.
    + destruct (V1 F1) as (c'' & -> & Hbr). exists c''. by rewrite bool_decide_eq_false_2.
Qed.

(** Returning, and changing a field that is not the output. *)
Lemma emits_ok c c' (m : CM wjson_ctx wjson_res) :
  buf_ok c -> out_is [] c c' -> m c = Ret (wjson_ok, c') -> emits m [] c c'.
Proof. intros Hb Ho Hm. split; [done|]. intros Hf. by destruct Hf; apply fits_nil. Qed.

Lemma out_is_proper t c c0 c' :
  str c0 = str c -> len c0 = len c -> mlen c0 = mlen c -> out_is t c0 c' -> out_is t c c'.
Proof. intros E1 E2 E3 [S1 L1 M1]. split; congruence. Qed.

Lemma emits_run (m m0 : CM wjson_ctx wjson_res) t c c0 c' :
  str c0 = str c -> len c0 = len c -> mlen c0 = mlen c -> m c = m0 c0 ->
  emits m0 t c0 c' -> emits m t c c'.
Proof.
  intros E1 E2 E3 Em [K V]. unfold fits in *. rewrite E2, E3 in *. split.
  - intros Hf. destruct (K Hf) as [Hr O]. rewrite Em. split; [done|by eapply out_is_proper].
  - intros Hf. destruct (V Hf) as (c'' & Hr & t' & F' & O'). exists c''. rewrite Em. split; [done|].
    exists t'. split; [unfold fits in *; lia|by eapply out_is_proper].
Qed.

(** The context after appending [t]. *)
Definition app_out (t : list char) (c : wjson_ctx) : wjson_ctx :=
  with_len (len c + length t) (with_str (splice (str c) (len c) t) c).

Lemma out_app t c : out_is t c (app_out t c).
Proof. by split. Qed.

Lemma app_out_nil c : app_out [] c = c.
Proof. destruct c. unfold app_out. rewrite splice_nil. cbn. by rewrite Nat.add_0_r. Qed.

Lemma put_run ch c : len c < length (str c) -> put_ ch c = Ret (tt, app_out [ch] c).
Proof.
  intros Hl. unfold put_, buf_set, getc, modc, mbind, cm_bind.
  rewrite decide_True by done. cbn. unfold app_out. rewrite splice_insert by done. cbn. by rewrite Nat.add_1_r.
Qed.

Lemma emits_add_ch ch c : buf_ok c -> emits (add_ch_ ch) [ch] c (app_out [ch] c).
Proof.
  intros Hb. pose proof Hb as [Hl Hr]. split; unfold fits; cbn; intros Hf;
    unfold add_ch_, getc, mbind, cm_bind.
  - rewrite decide_False by lia. rewrite put_run by lia. split; [done|apply out_app].
  - rewrite decide_True by lia. exists c. split; [done|]. exists [].
    split; [by apply fits_nil|by apply out_is_nil].
Qed.

Lemma app_out_app t1 t2 c : len c <= length (str c) ->
  app_out t2 (app_out t1 c) = app_out (t1 ++ t2) c.
Proof.
  intros Hl. unfold app_out. cbn [len str with_len with_str]. rewrite splice_app by done.
  rewrite length_app, Nat.add_assoc. done.
Qed.

Lemma buf_ok_app t c : buf_ok c -> fits t c -> buf_ok (app_out t c).
Proof. intros Hb Hf. eapply buf_ok_out; [done..|apply out_app]. Qed.

Lemma put_spaces_run n c : len c + n <= length (str c) ->
  put_spaces_ n c = Ret (tt, app_out (replicate n ch_sp) c).
Proof.
  revert c. induction n as [|n IH]; intros c Hl; cbn [put_spaces_ replicate].
  - by rewrite app_out_nil.
  - unfold mbind, cm_bind. rewrite put_run by lia. rewrite IH.
    + by rewrite app_out_app by lia.
    + cbn. rewrite splice_length by (cbn; lia). lia.
Qed.

Lemma emits_indent_loop i c : buf_ok c ->
  emits (indent_loop_ i) (spaces i) c (app_out (spaces i) c).
Proof.
  revert c. induction i as [|i IH]; intros c Hb.
  - unfold spaces. rewrite Nat.mul_0_r. cbn. rewrite app_out_nil.
    apply emits_ok; [done|by apply out_is_nil|done].
  - assert (spaces (S i) = replicate indentation_ ch_sp ++ spaces i) as Hs.
    { unfold spaces. rewrite Nat.mul_succ_r, Nat.add_comm. apply replicate_add. }
    pose proof Hb as [Hl Hr]. rewrite Hs. set (t := replicate indentation_ ch_sp) in *.
    assert (length t = indentation_) as Ht by apply length_replicate.
    split; intros Hf; unfold fits in Hf; rewrite length_app, Ht in Hf;
      cbn [indent_loop_]; unfold getc, mbind, cm_bind.
    + rewrite decide_False by lia. rewrite put_spaces_run by lia.
      assert (fits t c) as F by (unfold fits; lia).
      destruct (IH (app_out t c) (buf_ok_app _ _ Hb F)) as [K _]. fold t.
      destruct K as [-> _]; [unfold fits, app_out; cbn [len mlen with_len with_str]; lia|].
      rewrite app_out_app by lia. split; [done|apply out_app].
    + destruct (decide (mlen c < len c + indentation_ + 1)) as [Ho|Ho].
      * exists c. split; [done|]. exists []. split; [by apply fits_nil|by apply out_is_nil].
      * rewrite put_spaces_run by lia. assert (fits t c) as F by (unfold fits; lia). fold t.
        destruct (IH (app_out t c) (buf_ok_app _ _ Hb F)) as [_ V].
        destruct V as (c'' & -> & t' & F' & O'); [unfold fits, app_out; cbn [len mlen with_len with_str]; lia|].
        exists c''. split; [done|]. exists (t ++ t').
        split; [unfold fits, app_out in *; cbn [len mlen with_len with_str] in F'; rewrite length_app; lia|].
        eapply out_is_app; [lia|apply out_app|done].
Qed.

(** ** The abstraction *)
Definition abs (c : wjson_ctx) : astate :=
  {| a_pretty := is_pretty c; a_lvls := take (lvls_len c) (lvls c); a_st := st c;
     a_comma := need_comma c; a_first := is_first c |}.

Record wf (c : wjson_ctx) : Prop := {
  wf_buf : buf_ok c;
  wf_lvls : length (lvls c) = max_depth_;
  wf_lvls_len : lvls_len c <= max_depth_;
  wf_obj : st c <> st_none_ -> top_of (a_lvls (abs c)) = lvl_obj_
}.

Lemma length_abs_lvls c : length (lvls c) = max_depth_ -> lvls_len c <= max_depth_ ->
  length (a_lvls (abs c)) = lvls_len c.
Proof. intros Hl Hn. cbn. rewrite length_take. lia. Qed.

Lemma wlvl_run c : length (lvls c) = max_depth_ -> lvls_len c <= max_depth_ ->
  lvl_ c = Ret (top_of (a_lvls (abs c)), c).
Proof.
  intros Hl Hn. unfold lvl_, top_of, getc, mbind, cm_bind. cbn [abs a_lvls].
  rewrite length_take, Nat.min_l by lia. case_bool_decide as H0; [by rewrite H0|].
  rewrite lookup_take_lt by lia.
  destruct (lookup_lt_is_Some_2 (lvls c) (lvls_len c - 1)) as [l ->]; [lia|done].
Qed.

(** ** The start of a token *)
Lemma emits_maybe_comma c : buf_ok c ->
  let t := when (need_comma c) (ch_comma :: when (is_pretty c) [ch_lf]) in
  emits maybe_comma_ t c (with_need_comma false (app_out t c)).
Proof.
  intros Hb t. subst t. destruct (need_comma c) eqn:Hn; cbn [when].
  - eapply (emits_run _ _ _ _ c); [done..| |].
    { unfold maybe_comma_, getc, mbind, cm_bind. rewrite Hn. reflexivity. }
    change (ch_comma :: ?x) with ([ch_comma] ++ x). rewrite <- app_out_app by (destruct Hb; lia).
    eapply emits_check; [done|by apply emits_add_ch|].
    intros Hb1. rewrite <- (app_nil_r (when _ _)). eapply emits_check; [done| |].
    + instantiate (1 := app_out (when (is_pretty c) [ch_lf]) (app_out [ch_comma] c)).
      destruct (is_pretty c); cbn [when]; [by apply emits_add_ch|].
      rewrite app_out_nil. apply emits_ok; [done|by apply out_is_nil|done].
    + intros Hb2. rewrite app_nil_r. apply emits_ok; [done|by apply out_is_nil|done].
  - rewrite app_out_nil. apply emits_ok; [done|by apply out_is_nil|].
    unfold maybe_comma_, getc, mbind, cm_bind. rewrite Hn. destruct c; cbn in *; by subst.
Qed.

Lemma emits_maybe_indent c : buf_ok c -> length (lvls c) = max_depth_ -> lvls_len c <= max_depth_ ->
  emits maybe_indent_ (indent_text (abs c)) c (app_out (indent_text (abs c)) c).
Proof.
  intros Hb Hl Hn. unfold indent_text. rewrite length_abs_lvls by done. cbn [abs a_pretty a_st].
  assert (forall m, maybe_indent_ c = m c -> forall t, emits m t c (app_out t c) ->
    emits maybe_indent_ t c (app_out t c)) as Hrun.
  { intros m Hm t Ht. by eapply (emits_run _ m _ _ c). }
  destruct (is_pretty c) eqn:Hp; cbn [andb when].
  - destruct (bool_decide (st c = st_want_val_)) eqn:Hs; cbn [negb when].
    + rewrite app_out_nil. apply emits_ok; [done|by apply out_is_nil|].
      unfold maybe_indent_, getc, mbind, cm_bind. by rewrite Hp, Hs.
    + apply (Hrun (indent_loop_ (lvls_len c))); [|by apply emits_indent_loop].
      unfold maybe_indent_, getc, mbind, cm_bind. by rewrite Hp, Hs.
  - rewrite app_out_nil. apply emits_ok; [done|by apply out_is_nil|].
    unfold maybe_indent_, getc, mbind, cm_bind. by rewrite Hp.
Qed.

(** The context once the lead of a token is written. *)
Definition started (c : wjson_ctx) : wjson_ctx := with_need_comma false (app_out (lead (abs c)) c).

Lemma emits_token_start k t c c2 :
  wf c -> (buf_ok (started c) -> emits k t (started c) c2) ->
  emits (token_start_ k) (lead (abs c) ++ t) c c2.
Proof.
  intros [Hb Hl Hn _] Hk. unfold lead. pose proof Hb as [Hlen Hroom].
  set (t1 := when (a_comma (abs c)) _). set (t2 := when (a_pretty (abs c) && a_first (abs c)) _).
  set (t3 := indent_text (abs c)).
  set (c1 := with_need_comma false (app_out t1 c)).
  rewrite <- !app_assoc. eapply emits_check; [done|by apply emits_maybe_comma|]; fold t1 c1.
  intros Hb1. change (buf_ok c1) in Hb1. pose proof Hb1 as [Hlen1 Hroom1]. eapply emits_check; [done| |].
  - instantiate (1 := app_out t2 c1). subst t2. cbn [abs a_pretty a_first].
    eapply (emits_run _ (if is_pretty c && is_first c then add_ch_ ch_lf else mret wjson_ok) _ _ c1);
      [done..|].
    destruct (is_pretty c && is_first c); cbn [when]; [by apply emits_add_ch|].
    rewrite app_out_nil. apply emits_ok; [done|by apply out_is_nil|done].
  - intros Hb2. pose proof Hb2 as [Hlen2 Hroom2]. assert (indent_text (abs (app_out t2 c1)) = t3) as E3 by reflexivity.
    rewrite <- E3. eapply emits_check; [done|by apply emits_maybe_indent|]. rewrite E3.
    assert (started c = app_out t3 (app_out t2 c1)) as <-; [|done].
    unfold started, lead. fold t1 t2 t3. unfold fits in *.
    rewrite (app_out_app t2 t3) by lia.
    change (with_need_comma false (app_out (t1 ++ t2 ++ t3) c) = 
      with_need_comma false (app_out (t2 ++ t3) (app_out t1 c))).
    by rewrite app_out_app by lia.
Qed.

(** ** Characters of strings and literals *)
Lemma esc_escape ch :
  esc ch = when (escape_ch_ ch).1 [ch_bslash] ++ [(escape_ch_ ch).2].
Proof.
  unfold esc, escape_ch_.
  repeat match goal with |- context [(?a =? ?b)%Z] => destruct (a =? b)%Z; [done|] end. done.
Qed.

Lemma emits_when (b : bool) ch c : buf_ok c ->
  emits (if b then add_ch_ ch else mret wjson_ok) (when b [ch]) c (app_out (when b [ch]) c).
Proof.
  intros Hb. destruct b; cbn [when]; [by apply emits_add_ch|]. rewrite app_out_nil.
  apply emits_ok; [done|by apply out_is_nil|done].
Qed.

Lemma emits_str_loop s c : no_nul s -> buf_ok c ->
  emits (str_loop_ (s ++ [ch_nul])) (s ≫= esc) c (app_out (s ≫= esc) c).
Proof.
  intros Hs. revert c. induction Hs as [|ch s Hch Hs IH]; intros c Hb.
  - cbn. rewrite app_out_nil. apply emits_ok; [done|by apply out_is_nil|done].
  - change ((ch :: s) ≫= esc) with (esc ch ++ (s ≫= esc)). rewrite esc_escape, <- app_assoc.
    set (t1 := when (escape_ch_ ch).1 [ch_bslash]). set (t2 := [(escape_ch_ ch).2]).
    pose proof Hb as [Hl Hr].
    apply (emits_run _ (wcheck (if (escape_ch_ ch).1 then add_ch_ ch_bslash else mret wjson_ok)
      (wcheck (add_ch_ (escape_ch_ ch).2) (str_loop_ (s ++ [ch_nul])))) _ _ c); [done..| |].
    { cbn [str_loop_ app]. by rewrite (proj2 (Z.eqb_neq _ _) Hch). }
    rewrite <- app_out_app by lia. eapply emits_check; [done|by apply emits_when|].
    intros Hb1. pose proof Hb1 as [Hl1 Hr1]. rewrite <- app_out_app by (unfold t1; lia).
    eapply emits_check; [done|by apply emits_add_ch|]. intros Hb2. by apply IH.
Qed.

Lemma emits_literal_loop s c : no_nul s -> buf_ok c ->
  emits (literal_loop_ (s ++ [ch_nul])) s c (app_out s c).
Proof.
  intros Hs. revert c. induction Hs as [|ch s Hch Hs IH]; intros c Hb.
  - cbn. rewrite app_out_nil. apply emits_ok; [done|by apply out_is_nil|done].
  - pose proof Hb as [Hl Hr].
    apply (emits_run _ (wcheck (add_ch_ ch) (literal_loop_ (s ++ [ch_nul]))) _ _ c); [done..| |].
    { cbn [literal_loop_ app]. by rewrite (proj2 (Z.eqb_neq _ _) Hch). }
    change (ch :: s) with ([ch] ++ s). rewrite <- app_out_app by lia.
    eapply emits_check; [done|by apply emits_add_ch|]. intros Hb1. by apply IH.
Qed.

(** ** Refinement, token by token *)

(** [o] does what the abstract writer says. *)
Definition refines (m : CM wjson_ctx wjson_res) (r : option (list char * astate)) (c : wjson_ctx) : Prop :=
  match r with
  | None => m c = Ret (wjson_syntax, c)
  | Some (t, a') => exists c', emits m t c c' /\ (fits t c -> abs c' = a' /\ wf c')
  end.

Lemma refines_intro m t a' c c' :
  buf_ok c -> emits m t c c' -> abs c' = a' -> length (lvls c') = max_depth_ ->
  lvls_len c' <= max_depth_ -> (st c' <> st_none_ -> top_of (a_lvls (abs c')) = lvl_obj_) ->
  refines m (Some (t, a')) c.
Proof.
  intros Hb He Ha Hl Hn Ho. exists c'. split; [done|]. intros Hf. split; [done|].
  destruct (em_ok _ _ _ _ He Hf) as [_ Hout]. split; [by eapply buf_ok_out|done..].
Qed.

(** The context a literal or a value string leaves. *)
Definition after_literal (t : list char) (c : wjson_ctx) : wjson_ctx :=
  with_st (after_val (st c)) (with_need_comma true (with_is_first false (app_out t (started c)))).

Lemma refines_literal s c : wf c -> no_nul s ->
  refines (add_literal_ (s ++ [ch_nul])) (a_literal (abs c) s) c.
Proof.
  intros Hwf Hs. pose proof Hwf as [Hb Hl Hn Ho]. unfold a_literal. cbn [abs a_st].
  destruct (bool_decide (st c = st_want_key_)) eqn:Hk.
  { unfold refines, add_literal_, getc, mbind, cm_bind. by rewrite Hk. }
  apply bool_decide_eq_false in Hk. apply (refines_intro _ _ _ _ (after_literal s c)); try done.
  - eapply (emits_run _ _ _ _ c); [done..| |].
    { unfold add_literal_, getc, mbind, cm_bind. rewrite bool_decide_eq_false_2 by done. reflexivity. }
    apply emits_token_start; [done|]. intros Hb1.
    eapply (emits_run _ _ _ _ (with_need_comma true (with_is_first false (started c)))); [done..|].
    rewrite <- (app_nil_r s) at 2. eapply emits_check; [by destruct Hb1; split| |].
    + apply emits_literal_loop; [done|by destruct Hb1; split].
    + intros Hb2. apply emits_ok; [done|by apply out_is_nil|].
      unfold getc, modc, mbind, cm_bind. unfold after_literal. cbn [st with_need_comma with_is_first].
      case_bool_decide as Hv; cbn in Hv |- *; rewrite ?Hv; [done|]. by destruct c as [? ? ? ? ? ? []].
  - intros H. apply Ho. intros Hz. apply H. cbn. by rewrite Hz.
Qed.

Lemma refines_num size s c : wf c -> no_nul s -> length s < size ->
  refines (wjson_num_ size s) (a_literal (abs c) s) c.
Proof.
  intros Hwf Hs Hlen. pose proof (refines_literal s c Hwf Hs) as H. revert H. unfold a_literal.
  cbn [abs a_st]. destruct (bool_decide (st c = st_want_key_)) eqn:Hk; cbn [refines].
  - intros _. unfold wjson_num_, getc, mbind, cm_bind. by rewrite Hk.
  - intros (c' & He & Hf). exists c'. split; [|done]. eapply (emits_run _ _ _ _ c); [done..| |exact He].
    unfold wjson_num_, getc, mbind, cm_bind. rewrite Hk, decide_False by lia. unfold snprintf_buf.
    by rewrite take_ge by lia.
Qed.

(** The context a string leaves: a value, or a key. *)
Definition after_str (t : list char) (c : wjson_ctx) : wjson_ctx :=
  let key := bool_decide (st c = st_want_key_) in
  with_st (if key then st_want_val_ else after_val (st c))
    (with_need_comma (negb key) (with_is_first false (app_out t (started c)))).

Lemma emits_str_end c : buf_ok c -> length (lvls c) = max_depth_ -> lvls_len c <= max_depth_ ->
  (st c = st_want_key_ -> top_of (a_lvls (abs c)) = lvl_obj_) ->
  let key := bool_decide (st c = st_want_key_) in
  let t := when key (ch_colon :: when (is_pretty c) [ch_sp]) in
  emits str_end_ t c
    (with_st (if key then st_want_val_ else after_val (st c)) (with_need_comma (negb key) (app_out t c))).
Proof.
  intros Hb Hl Hn Ho key t. pose proof Hb as [Hlen Hroom]. subst t key.
  destruct (st c) eqn:Hs; cbn [after_val].
  - rewrite bool_decide_eq_false_2 by done. cbn [when negb]. rewrite app_out_nil.
    apply emits_ok; [done|by apply out_is_nil|]. unfold str_end_, getc, modc, mbind, cm_bind.
    rewrite Hs. destruct c; cbn in *; by subst.
  - rewrite bool_decide_eq_true_2 by done. cbn [when negb].
    set (c1 := with_need_comma false c).
    assert (buf_ok c1) as Hb1 by (by split).
    eapply (emits_run _ (wcheck (add_ch_ ch_colon)
      (wcheck (if is_pretty c then add_ch_ ch_sp else mret wjson_ok)
        (modc (with_st st_want_val_) ;; mret wjson_ok))) _ _ c1); [done..| |].
    { unfold str_end_. rewrite (bind_Ret getc _ c c c) by done. rewrite Hs.
      rewrite (bind_Ret _ _ _ tt c1), (bind_Ret _ _ _ _ _ (wlvl_run c1 Hl Hn)) by done.
      change (a_lvls (abs c1)) with (a_lvls (abs c)).
      by rewrite Ho, bool_decide_eq_true_2. }
    change (ch_colon :: ?x) with ([ch_colon] ++ x).
    rewrite <- (app_nil_r (when _ _)), <- app_out_app by lia.
    eapply emits_check; [done|by apply emits_add_ch|]. intros Hb2. 
    assert (buf_ok (app_out [ch_colon] c)) as [Hl2 Hr2] by (by destruct Hb2; split).
    rewrite <- app_out_app by lia.
    eapply emits_check; [done|by apply emits_when|]. intros Hb3. rewrite app_out_nil.
    apply emits_ok; [done|by apply out_is_nil|done].
  - rewrite bool_decide_eq_false_2 by done. cbn [when negb]. rewrite app_out_nil.
    apply emits_ok; [done|by apply out_is_nil|]. unfold str_end_, getc, modc, mbind, cm_bind.
    by rewrite Hs.
Qed.

(** [emits_check] for a first part that only appends. *)
Lemma emits_seq (f : wjson_ctx -> wjson_ctx) m1 m2 t1 t2 c :
  buf_ok c -> emits m1 t1 c (app_out t1 c) ->
  (buf_ok (app_out t1 c) -> emits m2 t2 (app_out t1 c) (f (app_out t2 (app_out t1 c)))) ->
  emits (wcheck m1 m2) (t1 ++ t2) c (f (app_out (t1 ++ t2) c)).
Proof.
  intros Hb H1 H2. pose proof Hb as [Hl Hr]. rewrite <- app_out_app by lia. by eapply emits_check.
Qed.

Lemma refines_str s c : wf c -> no_nul s -> refines (run_op (W_str s)) (astep (abs c) (W_str s)) c.
Proof.
  intros Hwf Hs. pose proof Hwf as [Hb Hl Hn Ho]. cbn [astep run_op abs a_st a_pretty].
  set (key := bool_decide (st c = st_want_key_)).
  set (tk := when key (ch_colon :: when (is_pretty c) [ch_sp])).
  assert (render_str s ++ tk = [ch_quote] ++ (s ≫= esc) ++ [ch_quote] ++ tk) as ->.
  { unfold render_str. cbn. by rewrite <- app_assoc. }
  set (t := [ch_quote] ++ _).
  apply (refines_intro _ _ _ _ (after_str t c)); try done.
  - apply emits_token_start; [done|]. intros Hb1. set (c1 := with_is_first false (started c)).
    assert (buf_ok c1) as Hb1' by (by destruct Hb1; split).
    apply (emits_run _ (wcheck (add_ch_ ch_quote) (wcheck (str_loop_ (s ++ [ch_nul]))
      (wcheck (add_ch_ ch_quote) str_end_))) _ _ c1); [done..|].
    set (f := fun x => with_st (if key then st_want_val_ else after_val (st c))
                         (with_need_comma (negb key) x)).
    change (after_str t c) with (f (app_out t c1)). subst t.
    apply emits_seq; [done|by apply emits_add_ch|]. intros Hb2.
    apply emits_seq; [done|by apply emits_str_loop|]. intros Hb3.
    apply emits_seq; [done|by apply emits_add_ch|]. intros Hb4.
    refine (emits_str_end (app_out _ (app_out _ (app_out _ c1))) Hb4 Hl Hn _).
    intros Hk. apply Ho. intros Hk'. change (st c = st_want_key_) in Hk. congruence.
  - unfold after_str. cbn. intros H. apply Ho. intros Hk. rewrite Hk in H.
    by rewrite bool_decide_eq_false_2 in H.
Qed.

(** ** Brackets *)

(** Opening a level. *)
Lemma add_lvl_run l c : length (lvls c) = max_depth_ -> lvls_len c < max_depth_ ->
  add_lvl_ l c = Ret (tt, with_lvls_len (S (lvls_len c)) (with_lvls (<[lvls_len c := l]> (lvls c)) c)).
Proof.
  intros Hl Hn. unfold add_lvl_, getc, modc, mbind, cm_bind.
  rewrite bool_decide_eq_false_2 by lia. by rewrite decide_True by lia.
Qed.

Lemma top_of_snoc ls l : top_of (ls ++ [l]) = l.
Proof.
  unfold top_of. rewrite length_app. cbn. replace (length ls + 1 - 1) with (length ls) by lia.
  by rewrite lookup_app_r, Nat.sub_diag by lia.
Qed.

Definition opened (ch : char) (l : lvl_ty_) (s : st_) (c : wjson_ctx) : wjson_ctx :=
  with_is_first true (with_need_comma false (with_st s
    (with_lvls_len (S (lvls_len c)) (with_lvls (<[lvls_len c := l]> (lvls c))
      (app_out [ch] (started c)))))).

Lemma refines_open m ch l s c :
  wf c -> lvls_len c < max_depth_ -> (s <> st_none_ -> l = lvl_obj_) ->
  (st c = st_want_key_ -> m c = Ret (wjson_syntax, c)) ->
  (st c <> st_want_key_ -> exists k, m c = token_start_ (wcheck (add_ch_ ch) k) c /\
     k (app_out [ch] (started c)) = Ret (wjson_ok, opened ch l s c)) ->
  refines m (a_open (abs c) ch l s) c.
Proof.
  intros Hwf Hd Hls Hsyn Hrun. pose proof Hwf as [Hb Hl Hn Ho]. unfold a_open. cbn [abs a_st].
  case_bool_decide as Hk; [by apply Hsyn|]. destruct (Hrun Hk) as (k & Hm & Hk').
  assert (take (S (lvls_len c)) (<[lvls_len c := l]> (lvls c)) = take (lvls_len c) (lvls c) ++ [l]) as Ht
    by (apply take_insert_snoc; lia).
  apply (refines_intro _ _ _ _ (opened ch l s c)).
  - done.
  - eapply (emits_run _ _ _ _ c); [done..|exact Hm|]. apply emits_token_start; [done|]. intros Hb1.
    rewrite <- (app_nil_r [ch]). eapply emits_check; [done|by apply emits_add_ch|]. intros Hb2.
    apply emits_ok; [done|by apply out_is_nil|done].
  - unfold abs, opened. cbn. by rewrite Ht.
  - cbn. by rewrite length_insert.
  - cbn. lia.
  - cbn. intros Hs. rewrite Ht, top_of_snoc. auto.
Qed.

Lemma emits_close_indent k t c c2 :
  let ct := when (is_pretty c && negb (is_first c)) (ch_lf :: spaces (lvls_len c)) in
  buf_ok c -> length (lvls c) = max_depth_ -> lvls_len c <= max_depth_ -> st c <> st_want_val_ ->
  (buf_ok (app_out ct c) -> emits k t (app_out ct c) c2) ->
  emits (close_indent_ k) (ct ++ t) c c2.
Proof.
  intros ct Hb Hl Hn Hst Hk. eapply emits_check; [done| |exact Hk]. subst ct.
  eapply (emits_run _ (if is_pretty c && negb (is_first c) then wcheck (add_ch_ ch_lf) maybe_indent_
    else mret wjson_ok) _ _ c); [done..|].
  destruct (is_pretty c && negb (is_first c)) eqn:Hp; cbn [when].
  - change (ch_lf :: ?x) with ([ch_lf] ++ x).
    apply (emits_seq (fun x => x)); [done|by apply emits_add_ch|]. intros Hb1.
    assert (indent_text (abs (app_out [ch_lf] c)) = spaces (lvls_len c)) as <-.
    { unfold indent_text. rewrite length_abs_lvls by done. cbn [abs a_pretty a_st].
      apply andb_true_iff in Hp as [Hp _].
      change (is_pretty (app_out [ch_lf] c)) with (is_pretty c). change (st (app_out [ch_lf] c)) with (st c).
      rewrite Hp, bool_decide_eq_false_2 by done. done. }
    by apply emits_maybe_indent.
  - rewrite app_out_nil. apply emits_ok; [done|by apply out_is_nil|done].
Qed.

Definition popped (c : wjson_ctx) : wjson_ctx := with_lvls_len (lvls_len c - 1) c.

Lemma pop_run c : lvls_len c <> 0 -> pop_lvl_ c = Ret (tt, popped c).
Proof. intros Hn. unfold pop_lvl_, getc, modc, mbind, cm_bind. by rewrite bool_decide_eq_false_2. Qed.

Lemma top_of_pos c : length (lvls c) = max_depth_ -> lvls_len c <= max_depth_ ->
  top_of (a_lvls (abs c)) <> lvl_none_ -> lvls_len c <> 0.
Proof. intros Hl Hn Ht E. apply Ht. unfold top_of. rewrite length_abs_lvls by done. cbn. by rewrite E. Qed.

Lemma abs_popped c : length (lvls c) = max_depth_ -> lvls_len c <= max_depth_ ->
  a_lvls (abs (popped c)) = pop_of (a_lvls (abs c)).
Proof.
  intros Hl Hn. unfold pop_of. rewrite length_abs_lvls by done. cbn. rewrite take_take. f_equal. lia.
Qed.

(** The text before a closing bracket and the context it is written in. *)
Definition closing (c : wjson_ctx) : wjson_ctx := app_out (close_lead (abs c)) (popped c).

(** Closing a level: [g] is the change of state before the bracket is written. *)
Lemma emits_close m k ch c c' :
  wf c -> top_of (a_lvls (abs c)) <> lvl_none_ -> st c <> st_want_val_ ->
  m c = (pop_lvl_ ;; close_indent_ k) c ->
  str c' = str (closing c) -> len c' = len (closing c) -> mlen c' = mlen (closing c) ->
  k (closing c) = wcheck (add_ch_ ch) (mret wjson_ok) c' ->
  emits m (close_lead (abs c) ++ [ch]) c (app_out [ch] c').
Proof.
  intros [Hb Hl Hn Ho] Ht Hst Hm E1 E2 E3 Hk. pose proof (top_of_pos c Hl Hn Ht) as Hne.
  assert (close_lead (abs c) = when (is_pretty (popped c) && negb (is_first (popped c)))
    (ch_lf :: spaces (lvls_len (popped c)))) as Hcl.
  { unfold close_lead. by rewrite length_abs_lvls. }
  eapply (emits_run _ (close_indent_ k) _ _ (popped c)); [done..| |].
  { rewrite Hm. by rewrite (bind_Ret _ _ _ _ _ (pop_run c Hne)). }
  rewrite Hcl. apply emits_close_indent; [by destruct Hb; split|done|cbn; lia|done|]. rewrite <- Hcl.
  intros Hb1. change (buf_ok (closing c)) in Hb1.
  assert (buf_ok c') as Hb2 by (destruct Hb1; split; congruence).
  apply (emits_run _ (wcheck (add_ch_ ch) (mret wjson_ok)) _ _ c'); [done..|].
  rewrite <- (app_nil_r [ch]). eapply emits_check; [done|by apply emits_add_ch|]. intros Hb3.
  apply emits_ok; [done|by apply out_is_nil|done].
Qed.

Lemma refines_obj_end c : wf c -> refines wjson_obj_end (astep (abs c) W_obj_end) c.
Proof.
  intros Hwf. pose proof Hwf as [Hb Hl Hn Ho]. cbn [astep]. change (a_st (abs c)) with (st c).
  pose proof (wlvl_run c Hl Hn) as Hlvl. set (top := top_of (a_lvls (abs c))) in *.
  destruct (bool_decide (top = lvl_obj_)) eqn:Ht; cbn [andb].
  2:{ cbn [refines]. unfold wjson_obj_end. rewrite (bind_Ret _ _ _ _ _ Hlvl), Ht. done. }
  destruct (bool_decide (st c = st_want_val_)) eqn:Hv; cbn [negb].
  { cbn [refines]. unfold wjson_obj_end. rewrite (bind_Ret _ _ _ _ _ Hlvl), Ht. cbn [negb].
    rewrite (bind_Ret getc _ c c c) by done. by rewrite Hv. }
  apply bool_decide_eq_false in Hv.
  assert (top <> lvl_none_) as Htn by (apply bool_decide_eq_true in Ht; congruence).
  set (s' := if bool_decide (top_of (pop_of (a_lvls (abs c))) = lvl_obj_) then st_want_key_ else st_none_).
  set (c' := with_need_comma true (with_st s' (with_is_first false (closing c)))).
  apply (refines_intro _ _ _ _ (app_out [ch_rbrace] c')).
  - done.
  - eapply emits_close; try done.
    + unfold wjson_obj_end. rewrite (bind_Ret _ _ _ _ _ Hlvl), Ht. cbn [negb].
      rewrite (bind_Ret getc _ c c c) by done. rewrite bool_decide_eq_false_2 by done. reflexivity.
    + cbv beta. rewrite (bind_Ret _ _ _ tt (with_is_first false (closing c))) by done.
      rewrite (bind_Ret _ _ _ tt (with_st st_none_ (with_is_first false (closing c)))) by done.
      erewrite (bind_Ret lvl_) by (apply wlvl_run; cbn; [done|lia]).
      change (a_lvls (abs (with_st st_none_ (with_is_first false (closing c)))))
        with (a_lvls (abs (popped c))). rewrite abs_popped by done.
      subst c' s'. by destruct (bool_decide (top_of _ = lvl_obj_)).
  - change (abs (app_out [ch_rbrace] c')) with
      {| a_pretty := is_pretty c; a_lvls := a_lvls (abs (popped c)); a_st := s';
         a_comma := true; a_first := false |}. by rewrite abs_popped.
  - done.
  - cbn. lia.
  - change (a_lvls (abs (app_out [ch_rbrace] c'))) with (a_lvls (abs (popped c))).
    change (st (app_out [ch_rbrace] c')) with s'. rewrite abs_popped by done. subst s'.
    intros H. case_bool_decide; done.
Qed.

Lemma refines_arr_end c : wf c -> refines wjson_arr_end (astep (abs c) W_arr_end) c.
Proof.
  intros Hwf. pose proof Hwf as [Hb Hl Hn Ho]. cbn [astep]. change (a_st (abs c)) with (st c).
  pose proof (wlvl_run c Hl Hn) as Hlvl. set (top := top_of (a_lvls (abs c))) in *.
  destruct (bool_decide (top = lvl_arr_)) eqn:Ht.
  2:{ cbn [refines]. unfold wjson_arr_end. rewrite (bind_Ret _ _ _ _ _ Hlvl), Ht. done. }
  assert (top <> lvl_none_) as Htn by (apply bool_decide_eq_true in Ht; congruence).
  assert (st c = st_none_) as Hv.
  { apply bool_decide_eq_true in Ht. destruct (decide (st c = st_none_)) as [|E]; [done|].
    apply Ho in E. fold top in E. congruence. }
  set (up := top_of (pop_of (a_lvls (abs c)))).
  set (s' := if bool_decide (up = lvl_obj_) then st_want_key_ else st c).
  set (nc := if bool_decide (up = lvl_obj_) then false
             else if bool_decide (up = lvl_arr_) then true else need_comma c).
  set (c' := with_need_comma nc (with_st s' (with_is_first false (closing c)))).
  apply (refines_intro _ _ _ _ (app_out [ch_rbrack] c')).
  - done.
  - eapply emits_close; try done.
    + congruence.
    + unfold wjson_arr_end. rewrite (bind_Ret _ _ _ _ _ Hlvl), Ht. reflexivity.
    + cbv beta. rewrite (bind_Ret _ _ _ tt (with_is_first false (closing c))) by done.
      erewrite (bind_Ret lvl_) by (apply wlvl_run; cbn; [done|lia]).
      change (a_lvls (abs (with_is_first false (closing c)))) with (a_lvls (abs (popped c))).
      rewrite abs_popped by done. fold up. subst c' s' nc.
      destruct (bool_decide (up = lvl_obj_)); [done|]. by destruct (bool_decide (up = lvl_arr_)).
  - change (abs (app_out [ch_rbrack] c')) with
      {| a_pretty := is_pretty c; a_lvls := a_lvls (abs (popped c)); a_st := s';
         a_comma := nc; a_first := false |}. by rewrite abs_popped.
  - done.
  - cbn. lia.
  - change (a_lvls (abs (app_out [ch_rbrack] c'))) with (a_lvls (abs (popped c))).
    change (st (app_out [ch_rbrack] c')) with s'. rewrite abs_popped by done. subst s' up.
    intros H. case_bool_decide; [done|]. by rewrite Hv in H.
Qed.

(** ** Arguments within the ranges of their C types *)
Definition op_ok (o : wop) : Prop :=
  match o with
  | W_str s => no_nul s
  | W_int z => (- 2 ^ 63 <= z < 2 ^ 63)%Z
  | W_double d => length (print_double d) < 100
  | _ => True
  end.

(** Whether a token opens a level. *)
Definition opens (o : wop) : bool :=
  match o with W_obj_start | W_arr_start => true | _ => false end.

Lemma run_op_refines o c :
  wf c -> op_ok o -> (opens o = true -> lvls_len c < max_depth_) ->
  refines (run_op o) (astep (abs c) o) c.
Proof.
  intros Hwf Hok Hd. destruct o as [s|z|d|b| | | | |]; cbn [run_op astep] in *.
  - by apply refines_str.
  - apply refines_num; [done|apply print_int_no_nul|by apply print_int_length].
  - apply refines_num; [done|apply print_double_no_nul|done].
  - destruct b; apply refines_literal; try done; repeat constructor; done.
  - apply refines_literal; try done; repeat constructor; done.
  - eapply refines_open; [done|auto|done| |]; intros Hk; unfold wjson_obj_start;
      rewrite (bind_Ret getc _ c c c) by done.
    + by rewrite bool_decide_eq_true_2.
    + rewrite bool_decide_eq_false_2 by done. eexists; split; [done|].
      destruct Hwf. unfold modc, mbind, cm_bind. rewrite add_lvl_run; [done..|by apply Hd].
  - by apply refines_obj_end.
  - eapply refines_open; [done|auto|done| |]; intros Hk; unfold wjson_arr_start;
      rewrite (bind_Ret getc _ c c c) by done.
    + by rewrite bool_decide_eq_true_2.
    + rewrite bool_decide_eq_false_2 by done. eexists; split; [done|].
      destruct Hwf. unfold modc, mbind, cm_bind. rewrite add_lvl_run; [done..|by apply Hd].
  - by apply refines_arr_end.
Qed.

(** ** Sequences of tokens *)

(** The text of a sequence of tokens, all accepted and nesting below the limit. *)
Fixpoint arun (a : astate) (os : list wop) : option (list char * astate) :=
  match os with
  | [] => Some ([], a)
  | o :: os =>
      if opens o && bool_decide (max_depth_ <= length (a_lvls a)) then None
      else
        r1 ← astep a o;
        r2 ← arun r1.2 os;
        Some (r1.1 ++ r2.1, r2.2)
  end.

Lemma arun_cons a o os t1 a1 t2 a2 :
  (opens o = true -> length (a_lvls a) < max_depth_) -> astep a o = Some (t1, a1) ->
  arun a1 os = Some (t2, a2) -> arun a (o :: os) = Some (t1 ++ t2, a2).
Proof.
  intros Hd H1 H2. cbn. destruct (opens o); cbn [andb].
  - rewrite bool_decide_eq_false_2 by (specialize (Hd eq_refl); lia). rewrite H1. cbn. by rewrite H2.
  - rewrite H1. cbn. by rewrite H2.
Qed.

Lemma arun_app a o1 o2 t1 a1 t2 a2 :
  arun a o1 = Some (t1, a1) -> arun a1 o2 = Some (t2, a2) -> arun a (o1 ++ o2) = Some (t1 ++ t2, a2).
Proof.
  revert a t1. induction o1 as [|o o1 IH]; intros a t1 H1 H2; cbn in *; [by simplify_eq|].
  destruct (opens o && _); [done|]. destruct (astep a o) as [[t a']|]; [|done]. cbn in *.
  destruct (arun a' o1) as [[t' a'']|] eqn:E; [|done]. cbn in H1. simplify_eq.
  rewrite (IH _ _ E H2). cbn. by rewrite app_assoc.
Qed.

Lemma run_ops_emits os c t a' :
  Forall op_ok os -> wf c -> arun (abs c) os = Some (t, a') ->
  exists c', emits (run_ops os) t c c' /\ (fits t c -> abs c' = a' /\ wf c').
Proof.
  intros Hos. revert c t. induction Hos as [|o os Ho Hos IH]; intros c t Hwf Hrun; cbn in Hrun.
  - simplify_eq. exists c. destruct Hwf. split; [|done]. by apply emits_ok; [|apply out_is_nil|].
  - pose proof Hwf as [Hb Hl Hn _].
    destruct (opens o && _) eqn:Hd; [done|]. destruct (astep (abs c) o) as [[t1 a1]|] eqn:Ha; [|done].
    cbn in Hrun. destruct (arun a1 os) as [[t2 a2]|] eqn:Hr; [|done]. cbn in Hrun. simplify_eq.
    pose proof (run_op_refines o c Hwf Ho) as Href. rewrite Ha in Href.
    destruct Href as (c1 & He & Hf1).
    { intros Hop. rewrite Hop in Hd. apply bool_decide_eq_false in Hd.
      rewrite length_take in Hd. cbn in Hd. lia. }
    destruct (decide (len c + length t1 + 1 <= mlen c)) as [F1|F1].
    + destruct (Hf1 F1) as [<- Hwf1]. destruct (IH c1 t2 Hwf1 Hr) as (c2 & He2 & Hf2).
      exists c2. split; [eapply emits_check; [done|exact He|done]|]. intros F. apply Hf2.
      destruct (em_ok _ _ _ _ He F1) as [_ [_ L M]]. unfold fits in *. rewrite length_app in F. lia.
    + exists c1. split.
      * destruct He as [_ V]. split; unfold fits; rewrite length_app; intros F; [lia|].
        destruct (V F1) as (c'' & Hm & Hbr). exists c''. cbn. unfold wcheck, mbind, cm_bind.
        rewrite Hm. by rewrite bool_decide_eq_false_2.
      * unfold fits. rewrite length_app. lia.
Qed.

(** ** Documents *)
Fixpoint ops_of (v : json) : list wop :=
  match v with
  | JNull => [W_null]
  | JBool b => [W_bool b]
  | JInt z => [W_int z]
  | JStr s => [W_str s]
  | JArr vs => W_arr_start :: (vs ≫= ops_of) ++ [W_arr_end]
  | JObj kvs => W_obj_start :: (kvs ≫= fun kv => W_str kv.1 :: ops_of kv.2) ++ [W_obj_end]
  end.

(** The layout of a document: [k] levels are open around it. *)
Definition line (p : bool) (k : nat) : list char := when p (ch_lf :: spaces k).

Definition items (p : bool) (k : nat) (xs : list (list char)) : list char :=
  match xs with
  | [] => []
  | x :: xs => line p (S k) ++ x ++ (xs ≫= fun y => ch_comma :: line p (S k) ++ y) ++ line p k
  end.

Fixpoint layout (p : bool) (k : nat) (v : json) : list char :=
  match v with
  | JArr vs => ch_lbrack :: items p k (map (layout p (S k)) vs) ++ [ch_rbrack]
  | JObj kvs => ch_lbrace ::
      items p k (map (fun kv => render_str kv.1 ++ ch_colon :: when p [ch_sp] ++ layout p (S k) kv.2) kvs)
      ++ [ch_rbrace]
  | _ => render v
  end.

Definition is_arr (v : json) : bool := match v with JArr _ => true | _ => false end.

(** No array is followed by another member of its object. *)
Fixpoint arrs_last (kvs : list (list char * json)) : bool :=
  match kvs with
  | [] | [_] => true
  | kv :: kvs => negb (is_arr kv.2) && arrs_last kvs
  end.

Fixpoint wr_ok (v : json) : bool :=
  match v with
  | JArr vs => forallb wr_ok vs
  | JObj kvs => arrs_last kvs && forallb (fun kv => wr_ok kv.2) kvs
  | _ => true
  end.

(** The state after a value. *)
Definition after_value (v : json) (a : astate) : astate :=
  {| a_pretty := a_pretty a; a_lvls := a_lvls a; a_st := after_val (a_st a);
     a_comma := negb (is_arr v && bool_decide (top_of (a_lvls a) = lvl_obj_)); a_first := false |}.

(** A value may come: inside an object only after a key. *)
Definition val_at (v : json) (a : astate) : Prop :=
  match a_st a with
  | st_want_val_ => top_of (a_lvls a) = lvl_obj_
  | st_none_ => top_of (a_lvls a) = lvl_arr_ \/ top_of (a_lvls a) = lvl_none_ /\ is_arr v = false
  | st_want_key_ => False
  end.

Definition writes (v : json) : Prop := forall a,
  wr_ok v = true -> val_at v a -> length (a_lvls a) + depth v <= max_depth_ ->
  arun a (ops_of v) = Some (lead a ++ layout (a_pretty a) (length (a_lvls a)) v, after_value v a).

(** Between the elements of an array, or the members of an object. *)
Definition between (p : bool) (ls : list lvl_ty_) (s : st_) (first : bool) : astate :=
  {| a_pretty := p; a_lvls := ls; a_st := s; a_comma := negb first; a_first := first |}.

Lemma lead_between p ls s first : s <> st_want_val_ ->
  lead (between p ls s first) = when (negb first) [ch_comma] ++ line p (length ls).
Proof.
  intros Hs. unfold lead, indent_text, line. cbn. rewrite bool_decide_eq_false_2 by done.
  by destruct p, first.
Qed.

Lemma close_between p ls s first :
  close_lead (between p ls s first) = when (negb first) (line p (length ls - 1)).
Proof. unfold close_lead, line. cbn. by destruct p, first. Qed.

(** One element of an array. *)
Lemma arun_elem v p ls first :
  writes v -> wr_ok v = true -> top_of ls = lvl_arr_ -> length ls + depth v <= max_depth_ ->
  arun (between p ls st_none_ first) (ops_of v) =
    Some (when (negb first) [ch_comma] ++ line p (length ls) ++ layout p (length ls) v,
          between p ls st_none_ false).
Proof.
  intros Hv Hok Ht Hd. rewrite (Hv _ Hok); [|by left|done]. rewrite lead_between by done.
  rewrite <- app_assoc. unfold after_value. cbn. rewrite Ht, (bool_decide_eq_false_2 (lvl_arr_ = _)) by done.
  by rewrite andb_false_r.
Qed.

Lemma arun_elems vs p ls :
  Forall writes vs -> forallb wr_ok vs = true -> top_of ls = lvl_arr_ ->
  length ls + list_max (map depth vs) <= max_depth_ ->
  arun (between p ls st_none_ false) (vs ≫= ops_of) =
    Some (map (layout p (length ls)) vs ≫= (fun y => ch_comma :: line p (length ls) ++ y),
          between p ls st_none_ false).
Proof.
  intros Hvs Hok Ht Hd. induction Hvs as [|v vs Hv Hvs IH]; [done|]. cbn in Hok, Hd.
  apply andb_true_iff in Hok as [Hok1 Hok2]. change ((v :: vs) ≫= ops_of) with (ops_of v ++ (vs ≫= ops_of)).
  eapply arun_app; [apply (arun_elem v p ls false); [done..|lia]|]. apply IH; [done|].
  unfold list_max. lia.
Qed.

(** After a key. *)
Definition valued (p : bool) (ls : list lvl_ty_) : astate :=
  {| a_pretty := p; a_lvls := ls; a_st := st_want_val_; a_comma := false; a_first := false |}.

(** Between members, [cm] telling whether a comma would be written. *)
Definition keyed (p : bool) (ls : list lvl_ty_) (cm : bool) : astate :=
  {| a_pretty := p; a_lvls := ls; a_st := st_want_key_; a_comma := cm; a_first := false |}.

Definition member_text (p : bool) (k : nat) (kv : list char * json) : list char :=
  render_str kv.1 ++ ch_colon :: when p [ch_sp] ++ layout p k kv.2.

Lemma arun_member kv p ls first :
  writes kv.2 -> wr_ok kv.2 = true -> top_of ls = lvl_obj_ -> length ls + depth kv.2 <= max_depth_ ->
  arun (between p ls st_want_key_ first) (W_str kv.1 :: ops_of kv.2) =
    Some (when (negb first) [ch_comma] ++ line p (length ls) ++ member_text p (length ls) kv,
          keyed p ls (negb (is_arr kv.2))).
Proof.
  intros Hv Hok Ht Hd. pose proof (Hv (valued p ls) Hok Ht Hd) as Hval.
  replace (lead (valued p ls)) with (@nil char) in Hval by (unfold lead, indent_text; cbn; by destruct p).
  replace (after_value kv.2 (valued p ls)) with (keyed p ls (negb (is_arr kv.2))) in Hval.
  2:{ unfold after_value, keyed. cbn. rewrite Ht, bool_decide_eq_true_2 by done. by rewrite andb_true_r. }
  erewrite arun_cons; [| |reflexivity|exact Hval].
  - rewrite lead_between by done. cbn [between a_pretty a_st].
    rewrite bool_decide_eq_true_2 by done. cbn [when]. f_equal. f_equal.
    unfold member_text. rewrite <- !app_assoc. cbn [app when].
    by rewrite <- ?app_assoc.
  - done.
Qed.

Lemma arun_members kvs p ls :
  Forall (fun kv => writes kv.2) kvs -> arrs_last kvs = true ->
  forallb (fun kv => wr_ok kv.2) kvs = true -> top_of ls = lvl_obj_ ->
  length ls + list_max (map (fun kv => depth kv.2) kvs) <= max_depth_ ->
  exists cm, arun (between p ls st_want_key_ false) (kvs ≫= fun kv => W_str kv.1 :: ops_of kv.2) =
    Some (map (member_text p (length ls)) kvs ≫= (fun y => ch_comma :: line p (length ls) ++ y),
          keyed p ls cm).
Proof.
  intros Hkvs Hlast Hok Ht Hd. induction Hkvs as [|kv kvs Hkv Hkvs IH]; [by exists true|].
  cbn [forallb map list_max foldr] in Hok, Hd. apply andb_true_iff in Hok as [Hok1 Hok2].
  change ((kv :: kvs) ≫= ?f) with (f kv ++ (kvs ≫= f)). cbv beta.
  assert (length ls + depth kv.2 <= max_depth_) as Hd1 by lia.
  pose proof (arun_member kv p ls false Hkv Hok1 Ht Hd1) as H1. cbn [negb when] in H1.
  destruct kvs as [|kv' kvs].
  - eexists. eapply arun_app; [exact H1|done].
  - cbn [arrs_last] in Hlast. apply andb_true_iff in Hlast as [Hna Hlast]. rewrite Hna in H1.
    destruct (IH Hlast Hok2) as (cm & H2); [unfold list_max; cbn in *; lia|]. exists cm.
    eapply arun_app; [exact H1|exact H2].
Qed.

Lemma pop_of_snoc ls l : pop_of (ls ++ [l]) = ls.
Proof.
  unfold pop_of. rewrite length_app. cbn. replace (length ls + 1 - 1) with (length ls) by lia.
  apply take_app_length.
Qed.

Lemma layout_items p k (open close : char) body :
  open :: items p k body ++ [close] =
  [open] ++ match body with
    | [] => [close]
    | x :: xs => (line p (S k) ++ x) ++ (xs ≫= fun y => ch_comma :: line p (S k) ++ y) ++ line p k ++ [close]
    end.
Proof. destruct body; cbn; [done|]. by rewrite <- !app_assoc. Qed.

(** *** Whole values *)
Lemma writes_literal a t v :
  a_st a <> st_want_key_ -> is_arr v = false ->
  forall o, opens o = false -> astep a o = a_literal a t ->
  arun a [o] = Some (lead a ++ t, after_value v a).
Proof.
  intros Hst Hv o Hop Ho. rewrite (arun_cons _ _ _ (lead a ++ t) (after_value v a) [] (after_value v a)).
  - by rewrite app_nil_r.
  - by rewrite Hop.
  - rewrite Ho. unfold a_literal, after_value. rewrite bool_decide_eq_false_2 by done. by rewrite Hv.
  - done.
Qed.

Lemma val_at_not_key v a : val_at v a -> a_st a <> st_want_key_.
Proof. unfold val_at. by destruct (a_st a). Qed.

(** The closing bracket of an array. *)
Lemma arr_end_step a v p ls first :
  a_pretty a = p -> a_lvls a = ls -> val_at v a -> is_arr v = true ->
  astep (between p (ls ++ [lvl_arr_]) st_none_ first) W_arr_end =
    Some (when (negb first) (line p (length ls)) ++ [ch_rbrack], after_value v a).
Proof.
  intros <- <- Hat Hv. cbn [astep]. cbn [between a_lvls a_st a_comma].
  rewrite top_of_snoc, bool_decide_eq_true_2 by done. fold (between (a_pretty a) (a_lvls a ++ [lvl_arr_]) st_none_ first).
  rewrite close_between, length_app. cbn [length]. rewrite Nat.add_sub, pop_of_snoc.
  unfold after_value. rewrite Hv. cbn [andb between a_pretty]. unfold val_at in Hat.
  destruct (a_st a); [|done|].
  - destruct Hat as [->|[_ ?]]; [|congruence].
    by rewrite bool_decide_eq_false_2, bool_decide_eq_true_2 by done.
  - by rewrite Hat, bool_decide_eq_true_2 by done.
Qed.

Lemma obj_end_step a v p ls cm first :
  a_pretty a = p -> a_lvls a = ls -> val_at v a -> is_arr v = false ->
  astep {| a_pretty := p; a_lvls := ls ++ [lvl_obj_]; a_st := st_want_key_; a_comma := cm; a_first := first |}
    W_obj_end =
    Some (when (negb first) (line p (length ls)) ++ [ch_rbrace], after_value v a).
Proof.
  intros <- <- Hat Hv. cbn [astep]. cbn [a_lvls a_st a_comma a_pretty].
  rewrite top_of_snoc, bool_decide_eq_true_2 by done. rewrite bool_decide_eq_false_2 by done. cbn [negb andb].
  rewrite pop_of_snoc. unfold after_value. rewrite Hv. cbn [andb negb].
  assert (close_lead {| a_pretty := a_pretty a; a_lvls := a_lvls a ++ [lvl_obj_]; a_st := st_want_key_;
    a_comma := cm; a_first := first |} = when (negb first) (line (a_pretty a) (length (a_lvls a)))) as ->.
  { unfold close_lead, line. cbn. rewrite length_app. cbn. rewrite Nat.add_sub. by destruct (a_pretty a), first. }
  unfold val_at in Hat. destruct (a_st a); [|done|].
  - destruct Hat as [->|[-> _]]; by rewrite bool_decide_eq_false_2 by done.
  - by rewrite Hat, bool_decide_eq_true_2 by done.
Qed.

Lemma writes_arr vs : Forall writes vs -> writes (JArr vs).
Proof.
  intros Hvs a Hok Hat Hd. cbn [ops_of]. cbn [layout]. rewrite layout_items. cbn [wr_ok] in Hok.
  set (p := a_pretty a). set (ls := a_lvls a) in *.
  assert (length ls < max_depth_) as Hlt by (cbn in Hd; lia).
  assert (length (ls ++ [lvl_arr_]) = S (length ls)) as Hlen by (rewrite length_app; cbn; lia).
  rewrite app_assoc. eapply arun_cons; [done| |].
  { cbn [astep]. unfold a_open. rewrite bool_decide_eq_false_2 by (by eapply val_at_not_key). reflexivity. }
  fold p ls. change {| a_pretty := p; a_lvls := ls ++ [lvl_arr_]; a_st := st_none_; a_comma := false; a_first := true |}
    with (between p (ls ++ [lvl_arr_]) st_none_ true).
  assert (forall first, arun (between p (ls ++ [lvl_arr_]) st_none_ first) [W_arr_end] =
    Some (when (negb first) (line p (length ls)) ++ [ch_rbrack], after_value (JArr vs) a)) as Hend.
  { intros first. rewrite <- (app_nil_r (when _ _ ++ _)). eapply arun_cons; [done| |done].
    by apply arr_end_step. }
  destruct Hvs as [|v vs Hv Hvs]; [apply Hend|].
  cbn in Hok, Hd. apply andb_true_iff in Hok as [Hok1 Hok2]. cbn [map].
  change ((v :: vs) ≫= ops_of) with (ops_of v ++ (vs ≫= ops_of)). rewrite <- app_assoc.
  rewrite <- Hlen. eapply arun_app.
  { apply (arun_elem v p _ true); [done|done|apply top_of_snoc|rewrite Hlen; lia]. }
  eapply arun_app.
  { apply arun_elems; [done|done|apply top_of_snoc|rewrite Hlen; unfold list_max; lia]. }
  apply (Hend false).
Qed.

Lemma writes_obj kvs : Forall (fun kv => writes kv.2) kvs -> writes (JObj kvs).
Proof.
  intros Hkvs a Hok Hat Hd. cbn [ops_of]. cbn [layout]. rewrite layout_items. cbn [wr_ok] in Hok.
  apply andb_true_iff in Hok as [Hlast Hok].
  set (p := a_pretty a). set (ls := a_lvls a) in *.
  assert (length ls < max_depth_) as Hlt by (cbn in Hd; lia).
  assert (length (ls ++ [lvl_obj_]) = S (length ls)) as Hlen by (rewrite length_app; cbn; lia).
  rewrite app_assoc. eapply arun_cons; [done| |].
  { cbn [astep]. unfold a_open. rewrite bool_decide_eq_false_2 by (by eapply val_at_not_key). reflexivity. }
  fold p ls. change {| a_pretty := p; a_lvls := ls ++ [lvl_obj_]; a_st := st_want_key_; a_comma := false; a_first := true |}
    with (between p (ls ++ [lvl_obj_]) st_want_key_ true).
  assert (forall cm first, arun {| a_pretty := p; a_lvls := ls ++ [lvl_obj_]; a_st := st_want_key_;
      a_comma := cm; a_first := first |} [W_obj_end] =
    Some (when (negb first) (line p (length ls)) ++ [ch_rbrace], after_value (JObj kvs) a)) as Hend.
  { intros cm first. rewrite <- (app_nil_r (when _ _ ++ _)). eapply arun_cons; [done| |done].
    by apply obj_end_step. }
  destruct Hkvs as [|kv kvs Hkv Hkvs]; [apply Hend|].
  cbn [forallb map depth list_max foldr] in Hok, Hd. apply andb_true_iff in Hok as [Hok1 Hok2]. cbn [map].
  change ((kv :: kvs) ≫= ?f) with (f kv ++ (kvs ≫= f)). cbv beta. rewrite <- app_assoc.
  rewrite <- Hlen. eapply arun_app.
  { apply (arun_member kv p _ true); [done|done|apply top_of_snoc|rewrite Hlen; lia]. }
  destruct kvs as [|kv' kvs]; [apply (Hend _ false)|].
  cbn [arrs_last] in Hlast. apply andb_true_iff in Hlast as [-> Hlast].
  destruct (arun_members (kv' :: kvs) p (ls ++ [lvl_obj_])) as (cm & Hm); [done..|apply top_of_snoc| |].
  { rewrite Hlen. unfold list_max. cbn in *. lia. }
  eapply arun_app; [exact Hm|apply (Hend cm false)].
Qed.

Lemma writes_all v : writes v.
Proof.
  induction v as [|b|z|s|vs IH|kvs IH] using json_ind'.
  - intros a _ Hat _. eapply writes_literal; [by eapply val_at_not_key|done..].
  - intros a _ Hat _. cbn [ops_of layout render].
    destruct b; (eapply writes_literal; [by eapply val_at_not_key|done..]).
  - intros a _ Hat _. eapply writes_literal; [by eapply val_at_not_key|done..].
  - intros a _ Hat _. cbn [ops_of layout render]. pose proof (val_at_not_key _ _ Hat) as Hk.
    rewrite <- (app_nil_r (lead a ++ _)). eapply arun_cons; [done| |done]. cbn [astep].
    rewrite bool_decide_eq_false_2 by done. cbn [when]. rewrite app_nil_r. done.
  - by apply writes_arr.
  - by apply writes_obj.
Qed.

(** Compact layout is the canonical text. *)
Lemma items_compact k xs : items false k xs = commas xs.
Proof. destruct xs; cbn; [done|]. by rewrite app_nil_r. Qed.

Lemma layout_compact v k : layout false k v = render v.
Proof.
  revert k. induction v as [| | | |vs IH|kvs IH] using json_ind'; intros k; try done.
  - cbn [layout render]. rewrite items_compact. do 3 f_equal.
    induction IH as [|v vs Hv _ IHvs]; cbn; [done|]. by rewrite Hv, IHvs.
  - cbn [layout render]. rewrite items_compact. do 3 f_equal.
    induction IH as [|kv kvs Hv _ IHk]; [done|]. cbn [map when app]. rewrite Hv. f_equal. exact IHk.
Qed.

(** ** Initialisation *)

(** The context [wjson_init] makes of memory [c0]; [lvls_len] and [is_first]
    keep what the memory held. *)
Definition inited (buf : list char) (p : bool) (c0 : wjson_ctx) : wjson_ctx :=
  {| is_pretty := p; str := <[length buf - 1 := ch_nul]> (<[0 := ch_nul]> buf); mlen := length buf;
     len := 0; lvls := lvls c0; lvls_len := lvls_len c0; st := st_none_; need_comma := false;
     is_first := is_first c0 |}.

Lemma wjson_init_run buf p c0 : buf <> [] -> wjson_init buf (length buf) p c0 = Ret (tt, inited buf p c0).
Proof.
  intros Hne. destruct buf as [|x [|y buf]]; [done|done|].
  unfold wjson_init, buf_set, getc, modc, mbind, cm_bind. cbn [mlen str with_is_pretty with_str with_mlen
    with_len with_st with_need_comma length].
  rewrite decide_True by lia. rewrite decide_True by lia. cbn -[insert length].
  rewrite decide_True by (cbn; lia). rewrite decide_True by (rewrite length_insert; cbn; lia). done.
Qed.

Lemma inited_wf buf p c0 : buf <> [] -> length (lvls c0) = max_depth_ -> lvls_len c0 <= max_depth_ ->
  wf (inited buf p c0).
Proof.
  intros Hne Hl Hn. assert (length buf <> 0) by (by destruct buf).
  split; [split; cbn; [by rewrite !length_insert|lia]|done..].
Qed.

Lemma buf_prefix c c' t : len c <= length (str c) -> out_is t c c' ->
  take (len c') (str c') = take (len c) (str c) ++ t.
Proof.
  intros Hl [-> -> _]. unfold splice. rewrite app_assoc.
  apply take_app_length'. rewrite length_app, length_take. lia.
Qed.

(** ** Theorems *)

(** C3. Each call of the JSON writer implements the abstract writer.  A token
    the grammar does not allow is refused with [wjson_syntax] and changes
    nothing.  Otherwise, if the token's whole text and a NUL fit, the call
    returns [wjson_ok], the text follows the bytes already written, the rest of
    the buffer is untouched and the state is the one the abstract writer
    reaches; if they do not fit, the call returns [wjson_overflow], and what
    was written keeps the earlier bytes and stays inside the buffer.  No call
    writes out of bounds or panics below the depth limit. *)
Theorem wjson_token_refines o c :
  wf c -> op_ok o -> (opens o = true -> lvls_len c < max_depth_) ->
  match astep (abs c) o with
  | None => run_op o c = Ret (wjson_syntax, c)
  | Some (t, a') =>
      (len c + length t + 1 <= mlen c /\ exists c', run_op o c = Ret (wjson_ok, c') /\ abs c' = a' /\
         wf c' /\ len c' = len c + length t /\ str c' = splice (str c) (len c) t) \/
      (mlen c < len c + length t + 1 /\ exists c' t', run_op o c = Ret (wjson_overflow, c') /\
         len c' = len c + length t' /\ str c' = splice (str c) (len c) t' /\ buf_ok c')
  end.
Proof.
  intros Hwf Hok Hd. pose proof (run_op_refines o c Hwf Hok Hd) as H.
  destruct (astep (abs c) o) as [[t a']|]; [|done]. destruct H as (c' & He & Hf).
  destruct (decide (len c + length t + 1 <= mlen c)) as [F|F]; [left|right].
  - split; [done|]. exists c'. destruct (em_ok _ _ _ _ He F) as [Hr [? ? ?]]. destruct (Hf F).
    by split_and!.
  - split; [lia|]. destruct (em_over _ _ _ _ He F) as (c'' & Hr & t' & F' & Ho). exists c'', t'.
    pose proof Ho as [? ? ?]. split_and!; [done..|]. eapply buf_ok_out; [apply Hwf|done..].
Qed.

(** Memory in which a writer may be initialised, and the result. *)
Definition memory0 (first : bool) : wjson_ctx :=
  {| is_pretty := true; str := []; mlen := 0; len := 9; lvls := replicate 24 lvl_arr_; lvls_len := 0;
     st := st_want_val_; need_comma := true; is_first := first |}.

Lemma wjson_token_refines_witness :
  let c := inited (replicate 6 7%Z) false (memory0 false) in
  (6 < 7 /\ exists c' t', run_op (W_str (lit "word")) c = Ret (wjson_overflow, c') /\
    len c' = 0 + length t' /\ str c' = splice (str c) 0 t' /\ buf_ok c').
Proof.
  destruct (wjson_token_refines (W_str (lit "word")) (inited (replicate 6 7%Z) false (memory0 false)))
    as [[H _]|[_ H]].
  - apply inited_wf; [discriminate|reflexivity|cbn; unfold max_depth_; lia].
  - repeat constructor; discriminate.
  - discriminate.
  - exfalso. vm_compute in H. lia.
  - split; [lia|exact H].
Defined.

(** C31. Writing a document: from [wjson_init] on memory whose depth and
    first-token flag are zero, the calls for a document whose objects have no
    array before another member append exactly the document's layout - compact
    or indented - when it fits with a NUL, and otherwise some call reports
    [wjson_overflow], with the buffer still in bounds. *)
Theorem wjson_writes_document buf p c0 kvs :
  buf <> [] -> length (lvls c0) = max_depth_ -> lvls_len c0 = 0 -> is_first c0 = false ->
  wr_ok (JObj kvs) = true -> Forall op_ok (ops_of (JObj kvs)) -> depth (JObj kvs) <= max_depth_ ->
  let t := layout p 0 (JObj kvs) in
  exists c1, wjson_init buf (length buf) p c0 = Ret (tt, c1) /\
    ((length t < length buf /\ exists c', run_ops (ops_of (JObj kvs)) c1 = Ret (wjson_ok, c') /\
        take (len c') (str c') = t /\ wf c') \/
     (length buf <= length t /\ exists c', run_ops (ops_of (JObj kvs)) c1 = Ret (wjson_overflow, c') /\
        buf_ok c')).
Proof.
  intros Hne Hl Hn Hf Hok Hops Hd t. exists (inited buf p c0). split; [by apply wjson_init_run|].
  assert (wf (inited buf p c0)) as Hwf by (apply inited_wf; [done|done|lia]).
  pose proof (writes_all (JObj kvs) (abs (inited buf p c0)) Hok) as Hw.
  assert (a_lvls (abs (inited buf p c0)) = []) as Hlv by (cbn; by rewrite Hn).
  assert (lead (abs (inited buf p c0)) = []) as Hlead.
  { unfold lead, indent_text. rewrite Hlv. cbn. rewrite Hf. by destruct p. }
  rewrite Hlv, Hlead in Hw. cbn [length app] in Hw.
  destruct (run_ops_emits _ _ _ _ Hops Hwf (Hw ltac:(right; by rewrite Hlv) Hd)) as (c' & He & Hfit).
  change (a_pretty (abs (inited buf p c0))) with p in *. fold t in He, Hfit.
  destruct (decide (length t < length buf)) as [F|F]; [left|right]; split; try lia.
  - assert (fits t (inited buf p c0)) as F' by (unfold fits; cbn [len mlen inited]; lia).
    destruct (em_ok _ _ _ _ He F') as [Hr Ho]. exists c'. split_and!; [done| |by apply Hfit].
    rewrite (buf_prefix (inited buf p c0) c' t); [done|cbn [len inited]; lia|exact Ho].
  - destruct (em_over _ _ _ _ He) as (c'' & Hr & t' & F' & Ho); [unfold fits; cbn [len mlen inited]; lia|].
    exists c''. split; [done|]. eapply buf_ok_out; [apply Hwf|done..].
Qed.

Lemma wjson_writes_document_witness :
  exists c', run_ops (ops_of (JObj [(lit "a", JInt 5); (lit "b", JArr [JNull])]))
      (inited (replicate 20 7%Z) false (memory0 false)) = Ret (wjson_ok, c') /\
    take (len c') (str c') =
      [123; 34; 97; 34; 58; 53; 44; 34; 98; 34; 58; 91; 110; 117; 108; 108; 93; 125]%Z /\ wf c'.
Proof.
  destruct (wjson_writes_document (replicate 20 7%Z) false (memory0 false)
    [(lit "a", JInt 5); (lit "b", JArr [JNull])]) as (c1 & Hi & H);
    [discriminate|reflexivity|reflexivity|reflexivity|reflexivity| |cbn; unfold max_depth_; lia|].
  - repeat (constructor; try discriminate; try (cbn; lia)).
  - vm_compute in Hi. injection Hi as <-. destruct H as [[_ H]|[H _]]; [exact H|].
    exfalso. vm_compute in H. lia.
Defined.

(** Reading the output: after any successful sequence of tokens the buffer
    is a C string again, namely the text written followed by whatever the
    buffer held from there to the next NUL: [wjson_out_str] never reads outside
    the buffer, and the text is terminated only if the buffer was NUL before. *)
Theorem wjson_out_str_tail os c t a' :
  wf c -> Forall op_ok os -> arun (abs c) os = Some (t, a') -> fits t c -> no_nul t ->
  len c = 0 -> str c !! (mlen c - 1) = Some ch_nul ->
  exists c' tail, run_ops os c = Ret (wjson_ok, c') /\ wjson_out_str c' = Ret (t ++ tail, c') /\
    cstr (drop (length t) (str c)) = Some tail.
Proof.
  intros Hwf Hops Hrun Hf Hnul Hlen Hlast. pose proof Hwf as [[Hl Hr] _ _ _].
  destruct (run_ops_emits os c t a' Hops Hwf Hrun) as (c' & He & _).
  destruct (em_ok _ _ _ _ He Hf) as [Hrun' [S1 _ _]]. unfold fits in Hf. rewrite Hlen in *.
  destruct (cstr_is_Some (drop (length t) (str c)) (mlen c - 1 - length t)) as [tail Ht].
  { rewrite lookup_drop, <- Hlast. f_equal. lia. }
  exists c', tail. split_and!; [done| |done].
  unfold wjson_out_str, getc, mbind, cm_bind. rewrite S1. unfold splice. rewrite take_0. cbn [app Nat.add].
  by rewrite (cstr_app t _ tail).
Qed.

Lemma wjson_out_str_tail_witness :
  exists c' tail, run_ops [W_arr_start; W_arr_end] (inited (replicate 8 7%Z) false (memory0 false)) =
      Ret (wjson_ok, c') /\ wjson_out_str c' = Ret ([91; 93]%Z ++ tail, c') /\
    cstr [7; 7; 7; 7; 7; 0]%Z = Some tail.
Proof.
  eapply (wjson_out_str_tail [W_arr_start; W_arr_end] (inited (replicate 8 7%Z) false (memory0 false)) [91; 93]%Z).
  - apply inited_wf; [discriminate|reflexivity|cbn; unfold max_depth_; lia].
  - repeat constructor.
  - vm_compute. reflexivity.
  - vm_compute. lia.
  - repeat constructor; discriminate.
  - reflexivity.
  - reflexivity.
Defined.
