(* ===== verification/JsonRoundtrip.v ===== *)
(** * The JSON writer and the JSON reader together

    What the writer of wjson.c produces in compact form is read back by the
    reader of rjson.c; and the texts on which the two disagree. *)

From stdpp Require Import base list numbers strings option.
From S2P Require Import Prelude Document Wjson WjsonProps Rjson RjsonProps Json.

(** A document both sides handle: [n] is the size of the reader's buffer. *)
Definition both_ok (n : nat) (v : json) : bool := json_ok n v && wr_ok v.

Lemma str_op_ok n s : str_ok n s = true -> op_ok (W_str s).
Proof. unfold str_ok. intros H. apply andb_true_iff in H as [H _]. by apply char_ok_nonnul. Qed.

Lemma ops_of_ok n v : json_ok n v = true -> Forall op_ok (ops_of v).
Proof.
  induction v as [|b|z|s|vs IH|kvs IH] using json_ind'; intros Hok; cbn [ops_of json_ok] in *.
  - by repeat constructor.
  - by repeat constructor.
  - bool_facts. repeat constructor; cbn; lia.
  - apply Forall_singleton. by eapply str_op_ok.
  - apply andb_true_iff in Hok as [_ Hok]. constructor; [done|].
    apply Forall_app; split; [|by repeat constructor].
    induction IH as [|v vs Hv _ IHvs]; [constructor|]. cbn in Hok |- *. bool_facts.
    apply Forall_app; split; auto.
  - constructor; [done|]. apply Forall_app; split; [|by repeat constructor].
    induction IH as [|kv kvs Hv _ IHvs]; [constructor|]. cbn in Hok |- *. bool_facts.
    constructor; [by eapply str_op_ok|]. apply Forall_app; split; auto.
Qed.

(** C4. Round trip: a document written by the JSON writer in compact form,
    into a buffer it fits, is reported back by the JSON reader as exactly the
    document's tokens, for every document both accept (no zero, no empty array,
    no array before another member, at most 24 levels, strings that fit the
    reader's buffer), the memory of the writer's depth and first-token flag being
    zero before [wjson_init]. *)
Theorem wjson_rjson_roundtrip pow wbuf rbuf (w0 : wjson_ctx) (r0 : rjson_ctx) kvs :
  both_ok (length rbuf) (JObj kvs) = true -> depth (JObj kvs) <= Wjson.max_depth_ ->
  length (render (JObj kvs)) < length wbuf ->
  length (Wjson.lvls w0) = Wjson.max_depth_ -> Wjson.lvls_len w0 = 0 -> is_first w0 = false ->
  length (Rjson.lvls r0) = max_depth_ ->
  exists w1 w2 r1, wjson_init wbuf (length wbuf) false w0 = Ret (tt, w1) /\
    run_ops (ops_of (JObj kvs)) w1 = Ret (wjson_ok, w2) /\
    rjson_demo pow rbuf (take (len w2) (Wjson.str w2)) r0 = Ret ((events (JObj kvs), End_fin), r1).
Proof.
  intros Hok Hd Hfit Hl Hn Hf Hr. unfold both_ok in Hok. apply andb_true_iff in Hok as [Hj Hw].
  assert (wbuf <> []) as Hne by (intros ->; cbn in Hfit; lia).
  assert (WjsonProps.wf (inited wbuf false w0)) as Hwf by (apply inited_wf; [done|done|lia]).
  pose proof (writes_all (JObj kvs) (abs (inited wbuf false w0)) Hw) as Hwr.
  assert (a_lvls (abs (inited wbuf false w0)) = []) as Hlv by (cbn; by rewrite Hn).
  rewrite Hlv in Hwr. specialize (Hwr ltac:(right; by rewrite Hlv) Hd).
  replace (lead (abs (inited wbuf false w0))) with (@nil char) in Hwr by reflexivity.
  change (a_pretty (abs (inited wbuf false w0))) with false in Hwr. rewrite layout_compact in Hwr.
  cbn [app] in Hwr.
  destruct (run_ops_emits _ _ _ _ (ops_of_ok _ _ Hj) Hwf Hwr) as (w2 & He & _).
  destruct (em_ok _ _ _ _ He) as [Hrun Hout]; [unfold fits; cbn [len mlen inited]; lia|].
  assert (take (len w2) (Wjson.str w2) = render (JObj kvs)) as Htext.
  { rewrite (buf_prefix (inited wbuf false w0) w2 (render (JObj kvs))); [done|cbn [len inited]; lia|done]. }
  destruct (lag_equiv pow (fresh rbuf r0) (render (JObj kvs)) (events (JObj kvs))) as [Ha _].
  { eapply read_document; [done..|by apply fresh_idle]. }
  { done. }
  { by eapply render_pos. }
  destruct (Ha 0%Z) as [r1 Hr1]. exists (inited wbuf false w0), w2, r1.
  split_and!; [by apply wjson_init_run|done|]. unfold rjson_demo, mbind, cm_bind.
  by rewrite rjson_init_run, Htext.
Qed.

(** A document with an array as its last member, and one with an array first. *)
Definition arr_last_doc : list (list char * json) :=
  [(lit "ok", JBool true); (lit "s", JStr [120; 10]%Z); (lit "a", JArr [JInt (-12); JObj []])].

Definition arr_first_doc : list (list char * json) := [(lit "a", JArr [JInt 1]); (lit "b", JNull)].

Lemma wjson_rjson_roundtrip_witness :
  exists w1 w2 r1, wjson_init (replicate 64 7%Z) 64 false (memory0 false) = Ret (tt, w1) /\
    run_ops (ops_of (JObj arr_last_doc)) w1 = Ret (wjson_ok, w2) /\
    rjson_demo (fun x _ => x) (replicate 8 7%Z) (take (len w2) (Wjson.str w2)) stack_ctx =
      Ret ((events (JObj arr_last_doc), End_fin), r1).
Proof.
  apply (wjson_rjson_roundtrip (fun x _ => x) (replicate 64 7%Z) (replicate 8 7%Z) (memory0 false) stack_ctx
    arr_last_doc); [reflexivity|cbn; unfold Wjson.max_depth_; lia|vm_compute; lia|reflexivity..].
Defined.

(** ** Where the code does not do what it means to *)

(** What the writer leaves in a NUL-filled buffer, and what the reader reports for a text. *)
Definition written (p : bool) (v : json) : option (list char) :=
  match run_ops (ops_of v) (inited (replicate 99 0%Z) p (memory0 false)) with
  | Ret (wjson_ok, c) => cstr (Wjson.str c)
  | _ => None
  end.

Definition read_back (t : list char) : option (list rjson_event * rjson_end) :=
  fst <$> ret_of (rjson_demo (fun x y => dmul x y) (replicate 16 0%Z) t stack_ctx).

(** After a value the reader refuses a quote. *)
Lemma rjson_refuses_quote pow c : RjsonProps.wf c -> Rjson.st c = Rjson.st_idle_ -> is_val_expected c = false -> buffered_ch c = (-1)%Z ->
  exists c', rjson_next pow ch_quote c = Ret (rjson_next_syntax, c').
Proof.
  intros [Hl Hlen _ _ _] Hst He Hb. cut (wp (rjson_next pow ch_quote) (fun r _ => r = rjson_next_syntax) c).
  { intros H. apply wp_Ret in H as (r & c' & Hr & ->). eauto. }
  assert (wp (next_st_ pow ch_quote) (fun r c' => r = rjson_next_syntax /\ buffered_ch c' = (-1)%Z) c) as Hn.
  { unfold next_st_. wp_step. rewrite Hst. unfold next_idle_, Rjson.assert_st_. wp_step. rewrite Hst. split; [done|].
    change (is_whitespace_ ch_quote) with false. wp_step. rewrite wp_lvl by done.
    destruct (bool_decide _ && _); wp_step; [done|]. wf_simpl. rewrite He.
    unfold next_idle_switch_. wp_step. rewrite wp_lvl by done. wf_simpl. rewrite He. by wp_step. }
  unfold rjson_next. change (rjson_next_ pow 2 ch_quote) with (rjson_next_body pow (rjson_next_ pow 1) ch_quote).
  unfold rjson_next_body. wp_step. rewrite Hb. change (negb (-1 =? -1)%Z) with false. cbv iota zeta. wp_step.
  change (ch_quote =? ch_nul)%Z with false. wp_step. eapply wp_mono; [exact Hn|]. intros r c' [-> Hb']. wp_step. by rewrite Hb'.
Qed.

(** C34. The comma after an array inside an object is not written: whenever the
    writer (compact, with room) closes an array whose parent is an object and
    then writes a key, the quote of the key directly follows the bracket - and
    a reader that has just read a value refuses a quote. *)
Theorem wjson_comma_lost c k pow rc : WjsonProps.wf c -> no_nul k -> is_pretty c = false ->
  top_of (a_lvls (abs c)) = Wjson.lvl_arr_ -> top_of (pop_of (a_lvls (abs c))) = Wjson.lvl_obj_ ->
  fits (ch_rbrack :: render_str k ++ [ch_colon]) c ->
  RjsonProps.wf rc -> Rjson.st rc = Rjson.st_idle_ -> is_val_expected rc = false -> buffered_ch rc = (-1)%Z ->
  (exists c' rest, run_ops [W_arr_end; W_str k] c = Ret (wjson_ok, c') /\ out_is (ch_rbrack :: ch_quote :: rest) c c') /\
  exists rc', rjson_next pow ch_quote rc = Ret (rjson_next_syntax, rc').
Proof.
  intros Hwf Hk Hp Htop Hpop Hf Hr1 Hr2 Hr3 Hr4. split; [|by apply rjson_refuses_quote].
  destruct (run_ops_emits [W_arr_end; W_str k] c (ch_rbrack :: render_str k ++ [ch_colon])
    {| a_pretty := false; a_lvls := pop_of (a_lvls (abs c)); a_st := Wjson.st_want_val_; a_comma := false; a_first := false |})
    as (c' & He & _); [by repeat constructor|done| |].
  { cbn [arun opens andb]. cbn [astep]. rewrite Htop, Hpop, !bool_decide_eq_true_2 by done. cbn.
    unfold close_lead, lead, indent_text. cbn. rewrite Hp. cbn. by rewrite app_nil_r. }
  destruct (em_ok _ _ _ _ He Hf) as [Hrun Hout]. exists c'. eexists. split; [exact Hrun|]. exact Hout.
Qed.

(** The writer inside the array of [{"a":[1]}], and a reader after a value. *)
Definition in_array : wjson_ctx :=
  match run_ops [W_obj_start; W_str (lit "a"); W_arr_start; W_int 1] (inited (replicate 64 0%Z) false (memory0 false)) with
  | Ret (_, c) => c
  | _ => memory0 false
  end.
Definition after_value_ctx : rjson_ctx := with_is_val_expected false fresh16.

Lemma wjson_comma_lost_witness :
  (exists c' rest, run_ops [W_arr_end; W_str (lit "b")] in_array = Ret (wjson_ok, c') /\ out_is (ch_rbrack :: ch_quote :: rest) in_array c') /\
  exists rc', rjson_next (fun x _ => x) ch_quote after_value_ctx = Ret (rjson_next_syntax, rc').
Proof.
  apply (wjson_comma_lost in_array (lit "b") (fun x _ => x) after_value_ctx).
  - split; [split; [reflexivity|vm_compute; lia]|reflexivity|vm_compute; lia|by vm_compute].
  - repeat constructor; discriminate.
  - reflexivity.
  - reflexivity.
  - reflexivity.
  - vm_compute. lia.
  - destruct (fresh_wf (replicate 16 7%Z) stack_ctx) as [[H1 H2 H3 H4 H5] _]; [done|]. by split.
  - reflexivity.
  - reflexivity.
  - reflexivity.
Defined.

Example wjson_comma_lost_text :
  written false (JObj arr_first_doc) = Some (lit "{" ++ [34; 97; 34]%Z ++ lit ":[1]" ++ [34; 98; 34]%Z ++ lit ":null}") /\
  (t ← written false (JObj arr_first_doc); snd <$> read_back t) = Some (End_syntax 8%Z).
Proof. vm_compute. done. Qed.

(** Whitespace after an opening brace or a key repeats the token: the writer's
    own indented output is reported with duplicates. *)
Example rjson_pretty_repeats :
  (t ← written true (JObj [(lit "k", JNull)]); read_back t) =
    Some (replicate 6 Ev_obj_start ++ [Ev_str (lit "k"); Ev_null; Ev_obj_end], End_fin).
Proof. vm_compute. done. Qed.

(** A plain zero and an empty array are refused, a trailing comma is accepted. *)
Example rjson_zero_refused :
  (snd <$> read_back (render (JObj [(lit "k", JInt 0)]))) = Some (End_syntax 6%Z).
Proof. vm_compute. done. Qed.

Example rjson_empty_array_refused :
  (snd <$> read_back (render (JObj [(lit "k", JArr [])]))) = Some (End_syntax 6%Z).
Proof. vm_compute. done. Qed.

Example rjson_trailing_comma_accepted :
  read_back (lit "{" ++ [34; 107; 34]%Z ++ lit ":null,}") =
    Some ([Ev_obj_start; Ev_str (lit "k"); Ev_null; Ev_obj_end], End_fin).
Proof. vm_compute. done. Qed.

(** The sign of the mantissa is taken for the sign of the exponent: the number
    of [-1e3] is -1 times [pow(10, -3)]. *)
Example rjson_exponent_sign :
  read_back (lit "{" ++ [34; 107; 34]%Z ++ lit ":-1e3}") =
    Some ([Ev_obj_start; Ev_str (lit "k");
           Ev_num (dmul (d_of_int (-1)) (dmul (d_of_int 10) (d_of_int (-3)))); Ev_obj_end], End_fin).
Proof. vm_compute. done. Qed.
