(* ===== verification/Wdb.v ===== *)
(** * Database writer (wdb.h, wdb.c)

    The writer of the text format the bot keeps its data in: lines
    "key: value, value", values being strings, multi-line strings, numbers and
    booleans.  Definitions follow the functions of wdb.c one by one; an argument
    of type [const char *] is the memory it points to.  The theorems are in
    [WdbProps.v] and [DbRoundtrip.v]. *)

From stdpp Require Import base list numbers strings option.
From Stdlib Require Import SpecFloat.
From S2P Require Import Prelude.

(** ** Data *)
Inductive wdb_res := wdb_syntax | wdb_overflow | wdb_ok.

#[export] Instance wdb_res_eq_dec : EqDecision wdb_res.
Proof. solve_decision. Defined.

Record wdb_ctx := {
  out : list char;
  mlen : nat;
  len : nat;
  got_key : bool;
  is_first_val : bool
}.

(** Field assignments. *)
Definition with_out v (c : wdb_ctx) : wdb_ctx :=
  {| out := v; mlen := mlen c; len := len c; got_key := got_key c;
     is_first_val := is_first_val c |}.
Definition with_mlen v (c : wdb_ctx) : wdb_ctx :=
  {| out := out c; mlen := v; len := len c; got_key := got_key c;
     is_first_val := is_first_val c |}.
Definition with_len v (c : wdb_ctx) : wdb_ctx :=
  {| out := out c; mlen := mlen c; len := v; got_key := got_key c;
     is_first_val := is_first_val c |}.
Definition with_got_key v (c : wdb_ctx) : wdb_ctx :=
  {| out := out c; mlen := mlen c; len := len c; got_key := v;
     is_first_val := is_first_val c |}.
Definition with_is_first_val v (c : wdb_ctx) : wdb_ctx :=
  {| out := out c; mlen := mlen c; len := len c; got_key := got_key c;
     is_first_val := v |}.

(** ** Checks *)

(** [SOB_WDB_CHECK(m)] followed by [k]. *)
Definition wdb_check (m k : CM wdb_ctx wdb_res) : CM wdb_ctx wdb_res :=
  r ← m; if bool_decide (r = wdb_ok) then k else mret r.

(** [SOB_WDB_CHECK_RESTORE_LEN_(m)] followed by [k]. *)
Definition wdb_check_restore (last_len : nat) (m k : CM wdb_ctx wdb_res) : CM wdb_ctx wdb_res :=
  r ← m;
  if bool_decide (r = wdb_ok) then k else modc (with_len last_len) ;; mret r.

(** [c->len = last_len; return r]. *)
Definition restore_ret (last_len : nat) (r : wdb_res) : CM wdb_ctx wdb_res :=
  modc (with_len last_len) ;; mret r.

Declare Scope wdb_scope.
Delimit Scope wdb_scope with wdb.
Notation "m '>?>' k" := (wdb_check m k) (at level 100, k at level 200, right associativity)
  : wdb_scope.
Notation "m '>[' l ']>' k" := (wdb_check_restore l m k)
  (at level 100, l at level 99, k at level 200, right associativity) : wdb_scope.
#[local] Open Scope wdb_scope.

(** The characters of a C string argument. *)
Definition chars_of (v : list char) : CM wdb_ctx (list char) :=
  match cstr v with Some s => mret s | None => undef end.

(** ** Output *)
Definition add_ch_ (ch : char) : CM wdb_ctx wdb_res :=
  c ← getc;
  if decide (len c < mlen c) then
    buf ← buf_set (out c) (len c) ch;
    modc (with_out buf) ;;
    modc (with_len (S (len c))) ;;
    mret wdb_ok
  else mret wdb_overflow.

(** The loop of [add_literal_]. *)
Fixpoint literal_loop_ (s : list char) : CM wdb_ctx wdb_res :=
  match s with
  | [] => mret wdb_ok
  | ch :: s => add_ch_ ch >?> literal_loop_ s
  end.

Definition add_literal_ (str : list char) : CM wdb_ctx wdb_res :=
  s ← chars_of str; literal_loop_ s.

Definition maybe_arr_ : CM wdb_ctx wdb_res :=
  c ← getc;
  if negb (is_first_val c) then add_literal_ (lit ", " ++ [ch_nul]) else mret wdb_ok.

(** ** Interface *)
Definition wdb_init (out_buf : list char) (out_mlen : nat) : CM wdb_ctx unit :=
  modc (with_out out_buf) ;;
  modc (with_mlen out_mlen) ;;
  modc (with_len 0) ;;
  modc (with_got_key false) ;;
  modc (with_is_first_val false) ;;
  c ← getc;
  if decide (0 < mlen c) then
    buf ← buf_set (out c) 0 ch_nul; modc (with_out buf)
  else mret tt.

(** What a caller reads through [wdb_out_str]. *)
Definition wdb_out_str : CM wdb_ctx (list char) :=
  c ← getc; match cstr (out c) with Some s => mret s | None => undef end.

Definition is_key_ch_ (ch : char) : bool :=
  ((ch_a <=? ch) && (ch <=? ch_z))%Z || ((ch_A <=? ch) && (ch <=? ch_Z))%Z
  || ((ch_0 <=? ch) && (ch <=? ch_9))%Z
  || (ch =? ch_dot)%Z || (ch =? ch_under)%Z || (ch =? ch_minus)%Z.

Definition wdb_key (v : list char) : CM wdb_ctx wdb_res :=
  c ← getc;
  let last_len := len c in
  if negb (got_key c) || negb (is_first_val c) then
    (if got_key c then add_ch_ ch_lf else mret wdb_ok) >[last_len]>
    (s ← chars_of v;
     if negb (forallb is_key_ch_ s) then restore_ret last_len wdb_syntax
     else
       add_literal_ v >[last_len]>
       add_literal_ (lit ": " ++ [ch_nul]) >[last_len]>
       (modc (with_got_key true) ;;
        modc (with_is_first_val true) ;;
        mret wdb_ok))
  else restore_ret last_len wdb_syntax.

(** The guards every value starts with: a key, and the comma of an array. *)
Definition value_start_ (k : nat -> CM wdb_ctx wdb_res) : CM wdb_ctx wdb_res :=
  c ← getc;
  let last_len := len c in
  if negb (got_key c) then mret wdb_syntax
  else
    maybe_arr_ >[last_len]>
    (modc (with_is_first_val false) ;; k last_len).

(** The [switch] of [wdb_str]: [None] for a control character, otherwise
    whether a backslash is written, and the character. *)
Definition str_switch_ (ch : char) : option (bool * char) :=
  if (ch =? ch_quote)%Z then Some (true, ch_quote)
  else if (ch =? ch_lf)%Z then Some (true, ch_n)
  else if (ch =? ch_cr)%Z then Some (true, ch_r)
  else if ((ch <=? 31) || (127 <=? ch))%Z && negb (ch =? ch_tab)%Z then None
  else Some (false, ch).

(** The [switch] of [wdb_long_str]. *)
Definition long_str_switch_ (ch : char) : option (bool * char) :=
  if ((ch =? ch_lt) || (ch =? ch_gt))%Z then Some (true, ch)
  else if (ch =? ch_cr)%Z then Some (true, ch_r)
  else if ((ch <=? 31) || (127 <=? ch))%Z && negb (ch =? ch_tab)%Z && negb (ch =? ch_lf)%Z
  then None
  else Some (false, ch).

(** The loops of [wdb_str] and [wdb_long_str], followed by [k]. *)
Fixpoint str_loop_ (switch : char -> option (bool * char)) (last_len : nat) (s : list char)
    (k : CM wdb_ctx wdb_res) : CM wdb_ctx wdb_res :=
  match s with
  | [] => k
  | ch :: s =>
      match switch ch with
      | None => restore_ret last_len wdb_syntax
      | Some (is_escape, ch') =>
          (if is_escape then add_ch_ ch_bslash else mret wdb_ok) >[last_len]>
          add_ch_ ch' >[last_len]>
          str_loop_ switch last_len s k
      end
  end.

Definition wdb_str (v : list char) : CM wdb_ctx wdb_res :=
  value_start_ (fun last_len =>
    add_ch_ ch_quote >[last_len]>
    (s ← chars_of v;
     str_loop_ str_switch_ last_len s (
       add_ch_ ch_quote >[last_len]>
       mret wdb_ok))).

Definition wdb_long_str (v : list char) : CM wdb_ctx wdb_res :=
  value_start_ (fun last_len =>
    add_literal_ (ch_lt :: ch_lf :: [ch_nul]) >[last_len]>
    (s ← chars_of v;
     str_loop_ long_str_switch_ last_len s (
       add_literal_ (ch_lf :: ch_gt :: [ch_nul]) >[last_len]>
       mret wdb_ok))).

(** [snprintf(buf, size, ...)] with [text] the whole output, then [add_literal_]. *)
Definition formatted_ (size : nat) (text : list char) (last_len : nat) : CM wdb_ctx wdb_res :=
  if decide (size <= length text) then restore_ret last_len wdb_overflow
  else
    add_literal_ (take (size - 1) text ++ [ch_nul]) >[last_len]>
    mret wdb_ok.

Definition wdb_int (v : Z) : CM wdb_ctx wdb_res := value_start_ (formatted_ 50 (print_int v)).

Definition wdb_num (v : double) : CM wdb_ctx wdb_res := value_start_ (formatted_ 100 (print_double v)).

Definition wdb_bool (v : bool) : CM wdb_ctx wdb_res :=
  value_start_ (fun last_len =>
    add_literal_ ((if v then lit "true" else lit "false") ++ [ch_nul]) >[last_len]>
    mret wdb_ok).

Definition wdb_fin : CM wdb_ctx wdb_res :=
  c ← getc;
  let last_len := len c in
  if got_key c && is_first_val c then restore_ret last_len wdb_syntax
  else
    add_ch_ ch_lf >[last_len]>
    add_ch_ ch_nul >[last_len]>
    mret wdb_ok.

(** ** Calls as data *)
Inductive dbop :=
| D_key (k : list char) | D_str (s : list char) | D_long_str (s : list char)
| D_int (z : Z) | D_num (d : double) | D_bool (b : bool) | D_fin.

Definition db_op (o : dbop) : CM wdb_ctx wdb_res :=
  match o with
  | D_key k => wdb_key (k ++ [ch_nul])
  | D_str s => wdb_str (s ++ [ch_nul])
  | D_long_str s => wdb_long_str (s ++ [ch_nul])
  | D_int z => wdb_int z
  | D_num d => wdb_num d
  | D_bool b => wdb_bool b
  | D_fin => wdb_fin
  end.

(** A caller that stops at the first unsuccessful call. *)
Fixpoint db_ops (os : list dbop) : CM wdb_ctx wdb_res :=
  match os with
  | [] => mret wdb_ok
  | o :: os => db_op o >?> db_ops os
  end.

(** ** The demo program *)
Definition wdb_demo_ops : list dbop :=
  [D_key (lit "hello"); D_str (lit " , " ++ [ch_quote] ++ lit "world" ++ [ch_quote] ++ lit "!" ++ [ch_lf]);
   D_key (lit "long");
   D_long_str ([ch_lf] ++ lit "long" ++ [ch_lf] ++ lit "    - loong" ++ [ch_lf]
               ++ lit "        - looong" ++ [ch_lf]);
   D_key (lit "list"); D_str (lit "one"); D_int 22;
   D_num (S754_finite false 7070651414971679 (-51)); D_bool true; D_bool false;
   D_key (lit "multilist");
   D_long_str (lit "first" ++ [ch_lf] ++ lit "second" ++ [ch_lf] ++ lit "third");
   D_long_str ([ch_lf] ++ lit "firstfirst" ++ [ch_lf] ++ lit "secondsecond");
   D_long_str (lit "<secondfirst>" ++ [ch_lf] ++ [ch_quote] ++ lit "secondsecond" ++ [ch_quote]
               ++ [ch_lf; ch_lf]);
   D_str (lit "last"); D_fin].

(** The demo, on its buffer of four bytes: the result of the calls and the
    text printed after them, which is read also after an error. *)
Definition wdb_demo (buf : list char) : CM wdb_ctx (wdb_res * list char) :=
  wdb_init buf 4 ;;
  r ← db_ops wdb_demo_ops;
  s ← wdb_out_str;
  mret (r, s).
