(* ===== verification/WdbProps.v ===== *)
(** * Properties of the database writer

    An abstract writer of the database text and its implementation by wdb.c:
    a call either appends its whole text or leaves the text as it was. *)

From stdpp Require Import base list numbers strings option.
From S2P Require Import Prelude Wdb.

(** ** The abstract writer *)
Record dstate := { d_key : bool; d_first : bool }.

Definition dabs (c : wdb_ctx) : dstate := {| d_key := got_key c; d_first := is_first_val c |}.

(** The text of a string, [None] when it holds a character that is refused. *)
Fixpoint loop_text (switch : char -> option (bool * char)) (s : list char) : option (list char) :=
  match s with
  | [] => Some []
  | ch :: s =>
      match switch ch, loop_text switch s with
      | Some (is_escape, ch'), Some u => Some ((if is_escape then [ch_bslash; ch'] else [ch']) ++ u)
      | _, _ => None
      end
  end.

(** The text of a value. *)
Definition value_text (o : dbop) : option (list char) :=
  match o with
  | D_str s => (fun u => ch_quote :: u ++ [ch_quote]) <$> loop_text str_switch_ s
  | D_long_str s => (fun u => ch_lt :: ch_lf :: u ++ [ch_lf; ch_gt]) <$> loop_text long_str_switch_ s
  | D_int z => Some (print_int z)
  | D_num d => Some (print_double d)
  | D_bool b => Some (if b then lit "true" else lit "false")
  | _ => None
  end.

(** The text a call adds and the state after it; [None]: the call is refused. *)
Definition dstep (d : dstate) (o : dbop) : option (list char * dstate) :=
  match o with
  | D_key k =>
      if (negb (d_key d) || negb (d_first d)) && forallb is_key_ch_ k then
        Some ((if d_key d then [ch_lf] else []) ++ k ++ lit ": ", {| d_key := true; d_first := true |})
      else None
  | D_fin => if d_key d && d_first d then None else Some ([ch_lf; ch_nul], d)
  | _ =>
      if d_key d then
        (fun t => ((if d_first d then [] else lit ", ") ++ t, {| d_key := true; d_first := false |}))
          <$> value_text o
      else None
  end.

(** ** Writing in progress *)
Definition fits (t : list char) (c : wdb_ctx) : Prop := len c + length t <= mlen c.

Record wf (c : wdb_ctx) : Prop := {
  wf_out : length (out c) = mlen c;
  wf_len : len c <= mlen c
}.

(** [x] is [c] with [t] appended. *)
Record wrote (t : list char) (c x : wdb_ctx) : Prop := {
  wr_out : out x = splice (out c) (len c) t;
  wr_len : len x = len c + length t;
  wr_mlen : mlen x = mlen c;
  wr_fits : fits t c
}.

(** ... within a call, which has not changed the key. *)
Definition mid (t : list char) (c x : wdb_ctx) : Prop := wrote t c x /\ got_key x = got_key c.

(** The text of [c] is back. *)
Record rolled (c c' : wdb_ctx) : Prop := {
  ro_len : len c' = len c;
  ro_mlen : mlen c' = mlen c;
  ro_key : got_key c' = got_key c;
  ro_out : length (out c') = length (out c);
  ro_text : take (len c) (out c') = take (len c) (out c)
}.

(** The outcome of a call whose abstract result is [T]. *)
Inductive outcome_of (T : option (list char * dstate)) (c : wdb_ctx) : wdb_res -> wdb_ctx -> Prop :=
| out_ok t d c' : T = Some (t, d) -> wrote t c c' -> dabs c' = d -> outcome_of T c wdb_ok c'
| out_overflow c' t' : ~ fits t' c -> (forall t d, T = Some (t, d) -> length t' <= length t) ->
    rolled c c' -> outcome_of T c wdb_overflow c'
| out_syntax c' : T = None -> rolled c c' -> outcome_of T c wdb_syntax c'.

Lemma take_splice buf i t : i <= length buf -> take i (splice buf i t) = take i buf.
Proof. intros Hi. unfold splice. apply take_app_length'. rewrite length_take. lia. Qed.

Lemma mid_roll t c x : wf c -> mid t c x -> rolled c (with_len (len c) x).
Proof.
  intros [Ho Hl] [[E1 E2 E3 Hf] Ek]. unfold fits in Hf. split; cbn; try done.
  - rewrite E1. apply splice_length. lia.
  - rewrite E1. apply take_splice. lia.
Qed.

Lemma mid_nil c x : wf c -> out x = out c -> len x = len c -> mlen x = mlen c -> got_key x = got_key c ->
  mid [] c x.
Proof.
  intros [Ho Hl] E1 E2 E3 E4. split; [|done].
  split; rewrite ?splice_nil, ?Nat.add_0_r; try done. unfold fits. cbn. lia.
Qed.

(** Rules for the checks, within the call that started in [c]. *)
Section steps.
Context (c : wdb_ctx) (Hwf : wf c).

Lemma add_ch_wp ch t x (Q : wdb_res -> wdb_ctx -> Prop) :
  mid t c x ->
  (forall x', mid (t ++ [ch]) c x' -> is_first_val x' = is_first_val x -> Q wdb_ok x') ->
  (~ fits (t ++ [ch]) c -> Q wdb_overflow x) ->
  wp (add_ch_ ch) Q x.
Proof.
  intros [[E1 E2 E3 Hf] Ek] Hok Hov. destruct Hwf as [Ho Hl]. unfold fits in *.
  unfold add_ch_. wp_step. rewrite length_app in *. cbn in *. destruct (decide (len x < mlen x)).
  - wp_step. split; [rewrite E1, splice_length; lia|]. apply Hok; [|done]. split; [|done].
    split; cbn; rewrite ?length_app; cbn; try lia.
    + rewrite splice_insert by (rewrite E1, splice_length; lia). rewrite E1, E2. apply splice_app. lia.
    + unfold fits. rewrite length_app. cbn. lia.
  - wp_step. apply Hov. lia.
Qed.

Lemma check_restore_wp m k Q (P : wdb_res -> wdb_ctx -> Prop) x :
  wp m P x ->
  (forall x', P wdb_ok x' -> wp k Q x') ->
  (forall r x', r <> wdb_ok -> P r x' -> Q r (with_len (len c) x')) ->
  wp (wdb_check_restore (len c) m k) Q x.
Proof.
  intros Hm Hk Hr. unfold wdb_check_restore. wp_step. eapply wp_mono; [exact Hm|].
  intros r x' HP. case_bool_decide as E; [subst; auto|]. wp_step. auto.
Qed.

(** A check of one character, and of a text. *)
Lemma ch_step ch t x k Q :
  mid t c x ->
  (forall x', mid (t ++ [ch]) c x' -> is_first_val x' = is_first_val x -> wp k Q x') ->
  (forall x', ~ fits (t ++ [ch]) c -> rolled c x' -> Q wdb_overflow x') ->
  wp (wdb_check_restore (len c) (add_ch_ ch) k) Q x.
Proof.
  intros Hm Hk Hov. eapply (check_restore_wp _ _ _
    (fun r x' => match r with
     | wdb_ok => mid (t ++ [ch]) c x' /\ is_first_val x' = is_first_val x
     | wdb_overflow => x' = x /\ ~ fits (t ++ [ch]) c
     | wdb_syntax => False end)).
  - by eapply add_ch_wp.
  - intros x' [? ?]. auto.
  - intros [] x' Hne HP; [done| |done]. destruct HP as [-> Hf]. apply Hov; [done|by eapply mid_roll].
Qed.

Lemma literal_loop_wp s t x (Q : wdb_res -> wdb_ctx -> Prop) :
  mid t c x ->
  (forall x', mid (t ++ s) c x' -> is_first_val x' = is_first_val x -> Q wdb_ok x') ->
  (forall t' x', mid t' c x' -> ~ fits (t ++ s) c -> Q wdb_overflow x') ->
  wp (literal_loop_ s) Q x.
Proof.
  revert t x. induction s as [|ch s IH]; intros t x Hm Hok Hov; cbn [literal_loop_].
  - wp_step. apply Hok; [by rewrite app_nil_r|done].
  - unfold wdb_check. wp_step. eapply add_ch_wp; [done| |].
    + intros x' Hm' Hf'. rewrite bool_decide_eq_true_2 by done. eapply (IH (t ++ [ch])); [done| |].
      * intros x'' Hm'' Hf''. apply Hok; [by rewrite <- app_assoc in Hm''|congruence].
      * intros t' x'' Hm'' Hf''. eapply Hov; [done|]. by rewrite <- app_assoc in Hf''.
    + intros Hf. rewrite bool_decide_eq_false_2 by done. wp_step. eapply Hov; [done|].
      unfold fits in *. rewrite length_app in *. cbn in *. lia.
Qed.

Lemma literal_step s t x k Q :
  mid t c x -> no_nul s ->
  (forall x', mid (t ++ s) c x' -> is_first_val x' = is_first_val x -> wp k Q x') ->
  (forall x', ~ fits (t ++ s) c -> rolled c x' -> Q wdb_overflow x') ->
  wp (wdb_check_restore (len c) (add_literal_ (s ++ [ch_nul])) k) Q x.
Proof.
  intros Hm Hs Hk Hov. eapply (check_restore_wp _ _ _
    (fun r x' => match r with
     | wdb_ok => mid (t ++ s) c x' /\ is_first_val x' = is_first_val x
     | wdb_overflow => (exists t', mid t' c x') /\ ~ fits (t ++ s) c
     | wdb_syntax => False end)).
  - unfold add_literal_, chars_of. rewrite cstr_app_nul by done. wp_step.
    eapply literal_loop_wp; [done|auto|eauto].
  - intros x' [? ?]. auto.
  - intros [] x' Hne HP; [done| |done]. destruct HP as [[t' Hm'] Hf]. apply Hov; [done|by eapply mid_roll].
Qed.

(** The loop over the characters of a string. *)
Lemma str_loop_wp switch s t x k Q :
  mid t c x ->
  (forall u x', loop_text switch s = Some u -> mid (t ++ u) c x' ->
     is_first_val x' = is_first_val x -> wp k Q x') ->
  (forall t' x', ~ fits t' c ->
     (forall u, loop_text switch s = Some u -> length t' <= length (t ++ u)) -> rolled c x' ->
     Q wdb_overflow x') ->
  (forall x', loop_text switch s = None -> rolled c x' -> Q wdb_syntax x') ->
  wp (str_loop_ switch (len c) s k) Q x.
Proof.
  revert t x. induction s as [|ch s IH]; intros t x Hm Hok Hov Hsyn; cbn [str_loop_].
  - apply (Hok []); [done|by rewrite app_nil_r|done].
  - cbn [loop_text] in *. destruct (switch ch) as [[e ch']|].
    2:{ unfold restore_ret. wp_step. apply Hsyn; [done|by eapply mid_roll]. }
    set (t1 := if e then [ch_bslash] else []).
    assert ((if e then [ch_bslash; ch'] else [ch']) = t1 ++ [ch']) as E by (by destruct e).
    assert (forall (t' u : list char), loop_text switch s = Some u ->
      length t' <= length ((t ++ t1) ++ [ch']) ->
      length t' <= length (t ++ (if e then [ch_bslash; ch'] else [ch']) ++ u)) as Hlen.
    { intros t' u Hu. rewrite E, !length_app. cbn. lia. }
    assert (forall x1, mid (t ++ t1) c x1 -> is_first_val x1 = is_first_val x ->
      wp (wdb_check_restore (len c) (add_ch_ ch') (str_loop_ switch (len c) s k)) Q x1) as Hnext.
    { intros x1 Hm1 Hf1. eapply ch_step; [done| |].
      - intros x2 Hm2 Hf2. eapply IH; [done|..].
        + intros u x3 Hu Hm3 Hf3. rewrite Hu in Hok. eapply Hok; [done| |congruence].
          rewrite E. by rewrite <- !app_assoc in *.
        + intros t' x3 Hf3 Hl Hr. eapply Hov; [done| |done]. intros u Hu.
          destruct (loop_text switch s) as [u0|]; [|done]. simplify_eq. specialize (Hl u0 eq_refl).
          rewrite E, !length_app in *. cbn in *. lia.
        + intros x3 Hn Hr. apply Hsyn; [by rewrite Hn|done].
      - intros x2 Hf2 Hr. eapply Hov; [done| |done]. intros u Hu.
        destruct (loop_text switch s) as [u0|] eqn:E0; [|done]. simplify_eq. by eapply Hlen. }
    destruct e; subst t1.
    + eapply ch_step; [done|done|]. intros x2 Hf2 Hr. eapply Hov; [done| |done]. intros u Hu.
      destruct (loop_text switch s) as [u0|] eqn:E0; [|done]. simplify_eq. rewrite !length_app. cbn. lia.
    + unfold wdb_check_restore at 1. wp_step. rewrite bool_decide_eq_true_2 by done.
      apply Hnext; [by rewrite app_nil_r|done].
Qed.
End steps.

(** ** Calls *)

(** Arguments within the ranges of their C types; a number whose text has 100
    characters or more is refused before anything is written. *)
Definition dbop_ok (o : dbop) : Prop :=
  match o with
  | D_key s | D_str s | D_long_str s => no_nul s
  | D_int z => (- 2 ^ 63 <= z < 2 ^ 63)%Z
  | D_num d => length (print_double d) < 100
  | _ => True
  end.

Definition value_lead (c : wdb_ctx) : list char := if is_first_val c then [] else lit ", ".

Lemma rolled_refl c : rolled c c.
Proof. by split. Qed.

Lemma value_start_wp k c Q :
  wf c ->
  (got_key c = false -> Q wdb_syntax c) ->
  (forall x, got_key c = true -> mid (value_lead c) c x -> is_first_val x = false -> wp (k (len c)) Q x) ->
  (forall x, got_key c = true -> ~ fits (value_lead c) c -> rolled c x -> Q wdb_overflow x) ->
  wp (value_start_ k) Q c.
Proof.
  intros Hwf Hsyn Hk Hov. unfold value_start_. wp_step. destruct (got_key c) eqn:Hkey; cbn [negb].
  2:{ wp_step. auto. }
  unfold maybe_arr_. unfold value_lead in *. destruct (is_first_val c) eqn:Hf.
  - unfold wdb_check_restore. wp_step. rewrite Hf. cbn [negb]. wp_step. rewrite bool_decide_eq_true_2 by done.
    wp_step. apply Hk; [done| |done]. by apply mid_nil.
  - eapply (check_restore_wp c _ _ _
      (fun r x' => match r with
       | wdb_ok => mid (lit ", ") c x'
       | wdb_overflow => (exists t', mid t' c x') /\ ~ fits (lit ", ") c
       | wdb_syntax => False end)).
    + wp_step. rewrite Hf. cbn [negb]. unfold add_literal_, chars_of.
      rewrite cstr_app_nul by (repeat constructor; done). wp_step.
      eapply (literal_loop_wp c Hwf _ []); [by apply mid_nil|auto|eauto].
    + intros x' Hm. wp_step. apply Hk; [done| |done].
      destruct Hm as [[? ? ? ?] ?]. by repeat split.
    + intros [] x' Hne HP; [done| |done]. destruct HP as [[t' Hm] Hfit].
      apply Hov; [done|done|by eapply mid_roll].
Qed.

(** The outcome of a value whose own text is [T]. *)
Definition value_outcome (T : option (list char)) (c : wdb_ctx) : wdb_res -> wdb_ctx -> Prop :=
  outcome_of ((fun t => (value_lead c ++ t, {| d_key := true; d_first := false |})) <$> T) c.

Lemma value_ok t c x : got_key c = true -> mid (value_lead c ++ t) c x -> is_first_val x = false ->
  value_outcome (Some t) c wdb_ok x.
Proof.
  intros Hk [Hw Ek] Hf. eapply out_ok; [done|exact Hw|]. unfold dabs. congruence.
Qed.

Lemma value_over T t' c x :
  ~ fits t' c -> (forall t, T = Some t -> length t' <= length (value_lead c ++ t)) -> rolled c x ->
  value_outcome T c wdb_overflow x.
Proof.
  intros Hf Hl Hr. eapply out_overflow; [done| |done]. intros t d HT.
  destruct T as [t0|]; [|done]. cbn in HT. simplify_eq. auto.
Qed.

(** The characters of a string and the closing [fin], after the opening [pre]. *)
Lemma str_tail_wp switch (pre post s : list char) (fin : CM wdb_ctx wdb_res) c x :
  wf c -> got_key c = true ->
  (forall t x Q, mid t c x ->
     (forall x', mid (t ++ post) c x' -> is_first_val x' = is_first_val x -> Q wdb_ok x') ->
     (forall x', ~ fits (t ++ post) c -> rolled c x' -> Q wdb_overflow x') -> wp fin Q x) ->
  mid (value_lead c ++ pre) c x -> is_first_val x = false ->
  wp (str_loop_ switch (len c) s fin)
    (value_outcome ((fun u => pre ++ u ++ post) <$> loop_text switch s) c) x.
Proof.
  intros Hwf Hkey Hfin Hm Hf. eapply (str_loop_wp c Hwf switch s); [done|..].
  - intros u x2 Hu Hm2 Hf2. rewrite Hu. eapply Hfin; [done|..].
    + intros x3 Hm3 Hf3. eapply value_ok; [done| |congruence]. by rewrite <- !app_assoc in Hm3.
    + intros x3 Hf3 Hr. eapply value_over; [exact Hf3| |done]. intros t [= <-].
      rewrite !length_app. lia.
  - intros t' x2 Hf2 Hl Hr. eapply value_over; [done| |done]. intros t Ht.
    destruct (loop_text switch s) as [u|]; [|done]. simplify_eq/=. specialize (Hl u eq_refl).
    rewrite !length_app in *. lia.
  - intros x2 Hn Hr. rewrite Hn. by eapply out_syntax.
Qed.

Lemma str_open_over switch (pre post s : list char) c x :
  ~ fits (value_lead c ++ pre) c -> rolled c x ->
  value_outcome ((fun u => pre ++ u ++ post) <$> loop_text switch s) c wdb_overflow x.
Proof.
  intros Hf Hr. eapply value_over; [exact Hf| |done]. intros t Ht.
  destruct (loop_text switch s) as [u|]; [|done]. simplify_eq/=. rewrite !length_app. lia.
Qed.

Lemma formatted_wp size t c x :
  wf c -> got_key c = true -> no_nul t -> length t < size ->
  mid (value_lead c) c x -> is_first_val x = false ->
  wp (formatted_ size t (len c)) (value_outcome (Some t) c) x.
Proof.
  intros Hwf Hkey Ht Hlen Hm Hf. unfold formatted_. rewrite decide_False by lia.
  rewrite take_ge by lia. eapply literal_step; [done|done|done|..].
  - intros x' Hm' Hf'. wp_step. apply value_ok; [done|done|congruence].
  - intros x' Hf' Hr. eapply value_over; [done| |done]. by intros u [= <-].
Qed.

(** A value call: its guards, then its own part. *)
Lemma value_call_wp T k c :
  wf c ->
  (forall x, got_key c = true -> mid (value_lead c) c x -> is_first_val x = false ->
     wp (k (len c)) (value_outcome T c) x) ->
  wp (value_start_ k)
    (outcome_of (if d_key (dabs c) then
       (fun t => ((if d_first (dabs c) then [] else lit ", ") ++ t, {| d_key := true; d_first := false |})) <$> T
     else None) c) c.
Proof.
  intros Hwf Hk. cbn [dabs d_key d_first]. apply value_start_wp; [done|..].
  - intros ->. eapply out_syntax; [done|apply rolled_refl].
  - intros x Hkey Hm Hf. rewrite Hkey. by apply Hk.
  - intros x Hkey Hf Hr. rewrite Hkey. eapply (value_over T); [exact Hf| |done].
    intros t _. rewrite length_app. lia.
Qed.

Lemma key_wp k c : wf c -> no_nul k ->
  wp (db_op (D_key k)) (outcome_of (dstep (dabs c) (D_key k)) c) c.
Proof.
  intros Hwf Hk. cbn [db_op dstep dabs d_key d_first]. unfold wdb_key, restore_ret. wp_step.
  destruct (negb (got_key c) || negb (is_first_val c)); cbn [andb].
  2:{ wp_step. eapply out_syntax; [done|]. by split. }
  set (T := if forallb is_key_ch_ k then _ else None).
  set (nl := if got_key c then [ch_lf] else []) in *.
  assert (forall t' : list char, length t' <= length (nl ++ k ++ lit ": ") ->
    forall t d, T = Some (t, d) -> length t' <= length t) as Hlen.
  { intros t' Hl t d. subst T. destruct (forallb _ _); [|done]. by intros [= <- <-]. }
  assert (forall x, mid nl c x ->
    wp (s ← chars_of (k ++ [ch_nul]);
     if negb (forallb is_key_ch_ s) then modc (with_len (len c)) ;; mret wdb_syntax
     else wdb_check_restore (len c) (add_literal_ (k ++ [ch_nul]))
       (wdb_check_restore (len c) (add_literal_ (lit ": " ++ [ch_nul]))
         (modc (with_got_key true) ;; modc (with_is_first_val true) ;; mret wdb_ok)))
      (outcome_of T c) x) as Hrest.
  { intros x Hm. unfold chars_of. rewrite cstr_app_nul by done. wp_step.
    subst T. destruct (forallb is_key_ch_ k); cbn [negb] in *.
    2:{ wp_step. eapply out_syntax; [done|by eapply mid_roll]. }
    eapply literal_step; [done..| |].
    - intros x1 Hm1 _. eapply literal_step; [done|done|repeat constructor; done| |].
      + intros x2 Hm2 _. wp_step. destruct Hm2 as [[? ? ? ?] ?]. eapply out_ok; [done| |done].
        rewrite <- app_assoc in *. by split.
      + intros x2 Hf Hr. eapply out_overflow; [exact Hf| |done]. apply Hlen. by rewrite <- app_assoc.
    - intros x1 Hf Hr. eapply out_overflow; [exact Hf| |done]. apply Hlen. rewrite !length_app. lia. }
  subst nl. destruct (got_key c) eqn:Hg.
  - eapply (ch_step c Hwf ch_lf []); [by apply mid_nil|auto|]. intros x Hf Hr.
    eapply out_overflow; [exact Hf| |done]. apply Hlen. cbn. lia.
  - unfold wdb_check_restore at 1. wp_step. rewrite bool_decide_eq_true_2 by done.
    apply Hrest. by apply mid_nil.
Qed.

Lemma fin_wp c : wf c -> wp wdb_fin (outcome_of (dstep (dabs c) D_fin) c) c.
Proof.
  intros Hwf. unfold wdb_fin, restore_ret. cbn [dstep dabs d_key d_first]. wp_step.
  destruct (got_key c && is_first_val c).
  { wp_step. eapply out_syntax; [done|by split]. }
  eapply (ch_step c Hwf ch_lf []); [by apply mid_nil| |].
  - intros x1 Hm1 Hf1. eapply ch_step; [done|done| |].
    + intros x2 Hm2 Hf2. wp_step. destruct Hm2 as [Hw Ek]. eapply out_ok; [done|exact Hw|].
      unfold dabs. congruence.
    + intros x2 Hf Hr. eapply out_overflow; [exact Hf| |done]. by intros t d [= <- <-].
  - intros x2 Hf Hr. eapply out_overflow; [exact Hf| |done]. intros t d [= <- <-]. cbn. lia.
Qed.

Lemma str_wp s c : wf c -> no_nul s -> wp (db_op (D_str s)) (outcome_of (dstep (dabs c) (D_str s)) c) c.
Proof.
  intros Hwf Hs. apply value_call_wp; [done|]. intros x Hkey Hm Hf. cbn [value_text].
  change (fun u => ch_quote :: u ++ [ch_quote]) with (fun u => [ch_quote] ++ u ++ [ch_quote]).
  eapply ch_step; [done|done| |by apply str_open_over]. intros x1 Hm1 Hf1.
  unfold chars_of. rewrite cstr_app_nul by done. wp_step.
  apply str_tail_wp; [done..| |done|congruence]. intros t x2 Q Hm2 Hok Hov.
  eapply ch_step; [done|done| |done]. intros x3 Hm3 Hf3. wp_step. auto.
Qed.

Lemma long_str_wp s c : wf c -> no_nul s ->
  wp (db_op (D_long_str s)) (outcome_of (dstep (dabs c) (D_long_str s)) c) c.
Proof.
  intros Hwf Hs. apply value_call_wp; [done|]. intros x Hkey Hm Hf. cbn [value_text].
  change (fun u => ch_lt :: ch_lf :: u ++ [ch_lf; ch_gt]) with
    (fun u => [ch_lt; ch_lf] ++ u ++ [ch_lf; ch_gt]).
  eapply (literal_step c Hwf [ch_lt; ch_lf]); [done|repeat constructor; done| |by apply str_open_over].
  intros x1 Hm1 Hf1. unfold chars_of. rewrite cstr_app_nul by done. wp_step.
  apply str_tail_wp; [done..| |done|congruence]. intros t x2 Q Hm2 Hok Hov.
  eapply (literal_step c Hwf [ch_lf; ch_gt]); [done|repeat constructor; done| |done].
  intros x3 Hm3 Hf3. wp_step. auto.
Qed.

Lemma db_op_wp o c : wf c -> dbop_ok o -> wp (db_op o) (outcome_of (dstep (dabs c) o) c) c.
Proof.
  intros Hwf Hok. destruct o as [k|s|s|z|d|b|]; cbn [dbop_ok] in Hok.
  - by apply key_wp.
  - by apply str_wp.
  - by apply long_str_wp.
  - apply value_call_wp; [done|]. intros x Hkey Hm Hf.
    apply formatted_wp; try done; [apply print_int_no_nul|by apply print_int_length].
  - apply value_call_wp; [done|]. intros x Hkey Hm Hf.
    apply formatted_wp; try done. apply print_double_no_nul.
  - apply value_call_wp; [done|]. intros x Hkey Hm Hf. cbn [value_text].
    assert (no_nul (if b then lit "true" else lit "false")) by (destruct b; repeat constructor; done).
    eapply literal_step; [done..| |].
    + intros x' Hm' Hf'. wp_step. apply value_ok; [done|done|congruence].
    + intros x' Hf' Hr. eapply value_over; [done| |done]. by intros u [= <-].
  - by apply fin_wp.
Qed.

Lemma wrote_wf t c c' : wf c -> wrote t c c' -> wf c'.
Proof. intros [Ho Hl] [E1 E2 E3 Hf]. unfold fits in Hf. split; rewrite ?E1, ?splice_length; lia. Qed.

Lemma rolled_wf c c' : wf c -> rolled c c' -> wf c'.
Proof. intros [Ho Hl] [E1 E2 E3 E4 E5]. split; lia. Qed.

(** ** Sequences of calls *)
Fixpoint drun (d : dstate) (os : list dbop) : option (list char * dstate) :=
  match os with
  | [] => Some ([], d)
  | o :: os =>
      match dstep d o with
      | Some (t, d') => (fun r => (t ++ r.1, r.2)) <$> drun d' os
      | None => None
      end
  end.

Lemma drun_cons d o os t1 d1 t2 d2 :
  dstep d o = Some (t1, d1) -> drun d1 os = Some (t2, d2) -> drun d (o :: os) = Some (t1 ++ t2, d2).
Proof. intros H1 H2. cbn. rewrite H1, H2. done. Qed.

Lemma drun_app d o1 o2 t1 d1 t2 d2 :
  drun d o1 = Some (t1, d1) -> drun d1 o2 = Some (t2, d2) -> drun d (o1 ++ o2) = Some (t1 ++ t2, d2).
Proof.
  revert d t1. induction o1 as [|o o1 IH]; intros d t1 H1 H2; cbn in *; [by simplify_eq|].
  destruct (dstep d o) as [[t d']|]; [|done]. destruct (drun d' o1) as [[t' d'']|] eqn:E; [|done].
  cbn in H1. simplify_eq. rewrite (IH _ _ E H2). cbn. by rewrite app_assoc.
Qed.

Lemma db_ops_run os c t d : wf c -> Forall dbop_ok os -> drun (dabs c) os = Some (t, d) -> fits t c ->
  exists c', db_ops os c = Ret (wdb_ok, c') /\ wrote t c c' /\ dabs c' = d.
Proof.
  intros Hwf Hos. revert c t Hwf. induction Hos as [|o os Ho Hos IH]; intros c t Hwf Hrun Hf; cbn in Hrun.
  - simplify_eq. exists c. split_and!; try done. split; cbn; rewrite ?splice_nil; try done; try lia.
  - destruct (dstep (dabs c) o) as [[t1 d1]|] eqn:E1; [|done].
    destruct (drun d1 os) as [[t2 d2]|] eqn:E2; [|done]. cbn in Hrun. simplify_eq.
    unfold fits in Hf. rewrite length_app in Hf.
    pose proof (db_op_wp o c Hwf Ho) as H. apply wp_Ret in H as (r & c1 & Hr & Hout).
    rewrite E1 in Hout. destruct Hout as [t d0 c1 [= <- <-] Hw Hd|c1 t' Hf' Hl _|c1 Hn _]; [| |done].
    2:{ exfalso. apply Hf'. specialize (Hl _ _ eq_refl). unfold fits. lia. }
    rewrite <- Hd in E2. pose proof Hw as [S1 L1 M1 F1].
    destruct (IH c1 t2 (wrote_wf _ _ _ Hwf Hw) E2) as (c2 & Hr2 & [S2 L2 M2 F2] & Hd2); [unfold fits; lia|].
    exists c2. split_and!; [|split|done].
    + cbn. unfold wdb_check, mbind, cm_bind. rewrite Hr. by rewrite bool_decide_eq_true_2.
    + rewrite S2, S1, L1. destruct Hwf. apply splice_app. lia.
    + rewrite L2, L1, length_app. lia.
    + congruence.
    + unfold fits. rewrite length_app. lia.
Qed.

(** ** Initialisation *)
Definition inited (buf : list char) (c0 : wdb_ctx) : wdb_ctx :=
  {| out := <[0 := ch_nul]> buf; mlen := length buf; len := 0; got_key := false; is_first_val := false |}.

Lemma wdb_init_run buf c0 : wdb_init buf (length buf) c0 = Ret (tt, inited buf c0).
Proof. destruct buf as [|x buf]; done. Qed.

Lemma wdb_inited_wf buf c0 : wf (inited buf c0).
Proof. split; cbn; [by rewrite length_insert|lia]. Qed.

(** ** Theorems *)

(** C5. A call of the database writer is all or nothing.  If the call is
    allowed and its text fits, it returns [wdb_ok], appends exactly the text the
    abstract writer gives and reaches its state.  If the text does not fit it
    returns [wdb_overflow], and if the call is not allowed (a value without a
    key, two keys in a row, a bad character) it returns an error; in both cases
    the length and the text written so far are those from before the call, and
    nothing outside the buffer is touched. *)
Theorem wdb_call_atomic o c :
  wf c -> dbop_ok o ->
  match dstep (dabs c) o with
  | Some (t, d) =>
      (len c + length t <= mlen c /\ exists c', db_op o c = Ret (wdb_ok, c') /\ wf c' /\ dabs c' = d /\
         len c' = len c + length t /\ out c' = splice (out c) (len c) t) \/
      (mlen c < len c + length t /\ exists c', db_op o c = Ret (wdb_overflow, c') /\ wf c' /\ rolled c c')
  | None => exists r c', db_op o c = Ret (r, c') /\ r <> wdb_ok /\ wf c' /\ rolled c c'
  end.
Proof.
  intros Hwf Hok. pose proof (db_op_wp o c Hwf Hok) as H. apply wp_Ret in H as (r & c' & Hr & Hout).
  destruct Hout as [t d c' -> Hw Hd|c' t' Hf Hl Hro|c' -> Hro].
  - left. pose proof Hw as [? ? ? ?]. split; [done|]. exists c'.
    split_and!; try done. by eapply wrote_wf.
  - destruct (dstep (dabs c) o) as [[t d]|].
    + right. specialize (Hl _ _ eq_refl). unfold fits in Hf. split; [lia|]. exists c'.
      split_and!; try done. by eapply rolled_wf.
    + exists wdb_overflow, c'. split_and!; try done. by eapply rolled_wf.
  - exists wdb_syntax, c'. split_and!; try done. by eapply rolled_wf.
Qed.

Definition wdb_memory : wdb_ctx := {| out := []; mlen := 7; len := 9; got_key := true; is_first_val := true |}.

Lemma wdb_call_atomic_witness :
  4 < 7 /\ exists c', db_op (D_key (lit "hello")) (inited [1; 2; 3; 4]%Z wdb_memory) = Ret (wdb_overflow, c') /\
    wf c' /\ rolled (inited [1; 2; 3; 4]%Z wdb_memory) c'.
Proof.
  destruct (wdb_call_atomic (D_key (lit "hello")) (inited [1; 2; 3; 4]%Z wdb_memory)) as [[H _]|[_ H]].
  - apply wdb_inited_wf.
  - repeat constructor; discriminate.
  - exfalso. vm_compute in H. lia.
  - split; [lia|exact H].
Defined.

(** An error is not rolled back completely: after a value is refused for a
    bad character, the text is the old one but the key counts as having a value,
    so that [wdb_fin] accepts the key without a value it refuses otherwise. *)
Theorem wdb_failed_value_counts ch c :
  wf c -> got_key c = true -> is_first_val c = true -> str_switch_ ch = None -> ch <> ch_nul ->
  len c + 2 <= mlen c ->
  db_op D_fin c = Ret (wdb_syntax, c) /\
  exists c1 c2, db_op (D_str [ch]) c = Ret (wdb_syntax, c1) /\ rolled c c1 /\
    db_op D_fin c1 = Ret (wdb_ok, c2) /\ len c2 = len c + 2.
Proof.
  intros Hwf Hk Hf Hs Hch Hroom. split.
  { cbn [db_op]. unfold wdb_fin, restore_ret, getc, modc, mbind, cm_bind. rewrite Hk, Hf. by destruct c. }
  destruct Hwf as [Ho Hl].
  set (x := with_len (S (len c)) (with_out (<[len c := ch_quote]> (out c)) (with_is_first_val false c))).
  assert (db_op (D_str [ch]) c = Ret (wdb_syntax, with_len (len c) x)) as Hrun.
  { subst x. destruct c as [o m l k f]. cbn in Hk, Hf, Ho, Hl, Hroom. subst k f.
    cbn [db_op]. unfold wdb_str, value_start_, maybe_arr_. unfold wdb_check_restore, restore_ret, add_ch_, buf_set.
    unfold getc, modc, mbind, cm_bind, mret, cm_ret. cbn -[bool_decide decide insert cstr].
    rewrite bool_decide_eq_true_2 by done. cbn -[bool_decide decide insert cstr].
    rewrite decide_True by lia. rewrite decide_True by lia. cbn -[bool_decide decide insert cstr].
    rewrite bool_decide_eq_true_2 by done. unfold chars_of. cbn [app cstr].
    rewrite (proj2 (Z.eqb_neq _ _) Hch). cbn. rewrite Hs. done. }
  assert (rolled c (with_len (len c) x)) as Hro.
  { split; cbn; try done; rewrite ?length_insert, ?take_insert_ge by lia; done. }
  pose proof (fin_wp (with_len (len c) x)) as Hfin.
  assert (wf (with_len (len c) x)) as Hwfx by (split; cbn; rewrite ?length_insert; lia).
  specialize (Hfin Hwfx). apply wp_Ret in Hfin as (r & c2 & Hr2 & Hout).
  cbn [dstep dabs d_key d_first] in Hout. replace (is_first_val (with_len (len c) x)) with false in Hout by done.
  rewrite andb_false_r in Hout.
  destruct Hout as [t d c2 [= <- <-] [_ L2 _ _] _|c2 t' Hf2 Hl2 _|c2 Hn _]; [| |done].
  - exists (with_len (len c) x), c2. by split_and!.
  - exfalso. apply Hf2. specialize (Hl2 _ _ eq_refl). unfold fits. cbn in *. lia.
Qed.

(** A context in which the key [k] has been written. *)
Definition after_key_k : wdb_ctx :=
  {| out := [107; 58; 32; 0; 0; 0; 0; 0]%Z; mlen := 8; len := 3; got_key := true; is_first_val := true |}.

Lemma wdb_failed_value_counts_witness :
  db_op D_fin after_key_k = Ret (wdb_syntax, after_key_k) /\
  exists c1 c2, db_op (D_str [1%Z]) after_key_k = Ret (wdb_syntax, c1) /\ rolled after_key_k c1 /\
    db_op D_fin c1 = Ret (wdb_ok, c2) /\ len c2 = 5.
Proof.
  apply (wdb_failed_value_counts 1%Z after_key_k); [split; vm_compute; lia|reflexivity..|discriminate|].
  vm_compute. lia.
Defined.

(** The demo program reads outside its buffer: its first call overflows the
    four bytes, and the text printed with the error message is not terminated. *)
Theorem wdb_demo_reads_outside a b c d c0 : wdb_demo [a; b; c; d] c0 = Undef.
Proof. done. Qed.
