(* ===== verification/Rdb.v ===== *)
(** * Database reader (rdb.h, rdb.c)

    The reader of the database text, fed one [char] at a time.  Definitions
    follow the functions of rdb.c one by one; libm's [pow] is a parameter.  The
    theorems are in [RdbProps.v] and [DbRoundtrip.v]. *)

From stdpp Require Import base list numbers strings option.
From S2P Require Import Prelude.

(** ** Data *)
Inductive rdb_ty := rdb_incomplete | rdb_key | rdb_str | rdb_num | rdb_bool.

Inductive rdb_next_res := rdb_next_syntax | rdb_next_fin | rdb_next_ok.

Inductive st_ := st_idle_ | st_key_ | st_str_ | st_long_str_ | st_num_ | st_bool_.

(** The enumerators as [int]s, for the messages of panics. *)
Definition st_code (s : st_) : Z :=
  match s with
  | st_idle_ => 0 | st_key_ => 1 | st_str_ => 2 | st_long_str_ => 3 | st_num_ => 4 | st_bool_ => 5
  end.

Inductive num_part_ := num_part_int_ | num_part_frac_ | num_part_exp_.

#[export] Instance rdb_ty_eq_dec : EqDecision rdb_ty.
Proof. solve_decision. Defined.
#[export] Instance rdb_next_res_eq_dec : EqDecision rdb_next_res.
Proof. solve_decision. Defined.
#[export] Instance rdb_st_eq_dec : EqDecision st_.
Proof. solve_decision. Defined.

(** The members of the union [sd]; of [word] the bytes stored so far, so that
    [wlen] is its length. *)
Record sd_key_ := { key_len : nat }.

Record sd_str_ := { str_len : nat; str_is_escape : bool }.

Record sd_long_str_ := {
  long_len : nat; long_is_escape : bool; skip_whitespace : bool; keep_last_newline : bool
}.

Record sd_num_ := {
  is_negative : bool; got_sign : bool; got_int_explicit : bool; num : double;
  exp_is_negative : bool; exp : Z; num_pos : Z; part : num_part_
}.

Record sd_bool_ := { word : list char }.

(** The union: the member stored last.  Reading another member is undefined. *)
Inductive sd_ :=
| Sd_zero
| Sd_key (k : sd_key_)
| Sd_str (s : sd_str_)
| Sd_long_str (s : sd_long_str_)
| Sd_num (n : sd_num_)
| Sd_bool (b : sd_bool_).

Record rdb_ctx := {
  str_out : list char;
  str_mlen : nat;
  pos : Z;
  ty : rdb_ty;
  st : st_;
  is_in_arr : bool;
  got_key : bool;
  expect_colon : bool;
  got_first_val : bool;
  sd : sd_
}.

(** Field assignments. *)
Definition with_str_out v (c : rdb_ctx) : rdb_ctx :=
  {| str_out := v; str_mlen := str_mlen c; pos := pos c; ty := ty c; st := st c;
     is_in_arr := is_in_arr c; got_key := got_key c; expect_colon := expect_colon c;
     got_first_val := got_first_val c; sd := sd c |}.
Definition with_str_mlen v (c : rdb_ctx) : rdb_ctx :=
  {| str_out := str_out c; str_mlen := v; pos := pos c; ty := ty c; st := st c;
     is_in_arr := is_in_arr c; got_key := got_key c; expect_colon := expect_colon c;
     got_first_val := got_first_val c; sd := sd c |}.
Definition with_pos v (c : rdb_ctx) : rdb_ctx :=
  {| str_out := str_out c; str_mlen := str_mlen c; pos := v; ty := ty c; st := st c;
     is_in_arr := is_in_arr c; got_key := got_key c; expect_colon := expect_colon c;
     got_first_val := got_first_val c; sd := sd c |}.
Definition with_ty v (c : rdb_ctx) : rdb_ctx :=
  {| str_out := str_out c; str_mlen := str_mlen c; pos := pos c; ty := v; st := st c;
     is_in_arr := is_in_arr c; got_key := got_key c; expect_colon := expect_colon c;
     got_first_val := got_first_val c; sd := sd c |}.
Definition with_st v (c : rdb_ctx) : rdb_ctx :=
  {| str_out := str_out c; str_mlen := str_mlen c; pos := pos c; ty := ty c; st := v;
     is_in_arr := is_in_arr c; got_key := got_key c; expect_colon := expect_colon c;
     got_first_val := got_first_val c; sd := sd c |}.
Definition with_is_in_arr v (c : rdb_ctx) : rdb_ctx :=
  {| str_out := str_out c; str_mlen := str_mlen c; pos := pos c; ty := ty c;
     st := st c; is_in_arr := v; got_key := got_key c; expect_colon := expect_colon c;
     got_first_val := got_first_val c; sd := sd c |}.
Definition with_got_key v (c : rdb_ctx) : rdb_ctx :=
  {| str_out := str_out c; str_mlen := str_mlen c; pos := pos c; ty := ty c;
     st := st c; is_in_arr := is_in_arr c; got_key := v;
     expect_colon := expect_colon c; got_first_val := got_first_val c; sd := sd c |}.
Definition with_expect_colon v (c : rdb_ctx) : rdb_ctx :=
  {| str_out := str_out c; str_mlen := str_mlen c; pos := pos c; ty := ty c;
     st := st c; is_in_arr := is_in_arr c; got_key := got_key c; expect_colon := v;
     got_first_val := got_first_val c; sd := sd c |}.
Definition with_got_first_val v (c : rdb_ctx) : rdb_ctx :=
  {| str_out := str_out c; str_mlen := str_mlen c; pos := pos c; ty := ty c;
     st := st c; is_in_arr := is_in_arr c; got_key := got_key c;
     expect_colon := expect_colon c; got_first_val := v; sd := sd c |}.
Definition with_sd v (c : rdb_ctx) : rdb_ctx :=
  {| str_out := str_out c; str_mlen := str_mlen c; pos := pos c; ty := ty c;
     st := st c; is_in_arr := is_in_arr c; got_key := got_key c;
     expect_colon := expect_colon c; got_first_val := got_first_val c; sd := v |}.
Definition set_is_negative v (c : sd_num_) : sd_num_ :=
  {| is_negative := v; got_sign := got_sign c; got_int_explicit := got_int_explicit c;
     num := num c; exp_is_negative := exp_is_negative c; exp := exp c;
     num_pos := num_pos c; part := part c |}.
Definition set_got_sign v (c : sd_num_) : sd_num_ :=
  {| is_negative := is_negative c; got_sign := v;
     got_int_explicit := got_int_explicit c; num := num c;
     exp_is_negative := exp_is_negative c; exp := exp c; num_pos := num_pos c;
     part := part c |}.
Definition set_got_int_explicit v (c : sd_num_) : sd_num_ :=
  {| is_negative := is_negative c; got_sign := got_sign c; got_int_explicit := v;
     num := num c; exp_is_negative := exp_is_negative c; exp := exp c;
     num_pos := num_pos c; part := part c |}.
Definition set_num v (c : sd_num_) : sd_num_ :=
  {| is_negative := is_negative c; got_sign := got_sign c;
     got_int_explicit := got_int_explicit c; num := v;
     exp_is_negative := exp_is_negative c; exp := exp c; num_pos := num_pos c;
     part := part c |}.
Definition set_exp_is_negative v (c : sd_num_) : sd_num_ :=
  {| is_negative := is_negative c; got_sign := got_sign c;
     got_int_explicit := got_int_explicit c; num := num c; exp_is_negative := v;
     exp := exp c; num_pos := num_pos c; part := part c |}.
Definition set_exp v (c : sd_num_) : sd_num_ :=
  {| is_negative := is_negative c; got_sign := got_sign c;
     got_int_explicit := got_int_explicit c; num := num c;
     exp_is_negative := exp_is_negative c; exp := v; num_pos := num_pos c;
     part := part c |}.
Definition set_num_pos v (c : sd_num_) : sd_num_ :=
  {| is_negative := is_negative c; got_sign := got_sign c;
     got_int_explicit := got_int_explicit c; num := num c;
     exp_is_negative := exp_is_negative c; exp := exp c; num_pos := v; part := part c |}.
Definition set_part v (c : sd_num_) : sd_num_ :=
  {| is_negative := is_negative c; got_sign := got_sign c;
     got_int_explicit := got_int_explicit c; num := num c;
     exp_is_negative := exp_is_negative c; exp := exp c; num_pos := num_pos c;
     part := v |}.

(** The union members, as the code reads them. *)
Definition get_key : CM rdb_ctx sd_key_ :=
  c ← getc; match sd c with Sd_key k => mret k | _ => undef end.
Definition get_str : CM rdb_ctx sd_str_ :=
  c ← getc; match sd c with Sd_str s => mret s | _ => undef end.
Definition get_long_str : CM rdb_ctx sd_long_str_ :=
  c ← getc; match sd c with Sd_long_str s => mret s | _ => undef end.
Definition get_num : CM rdb_ctx sd_num_ :=
  c ← getc; match sd c with Sd_num n => mret n | _ => undef end.
Definition get_bool : CM rdb_ctx sd_bool_ :=
  c ← getc; match sd c with Sd_bool b => mret b | _ => undef end.

(** [sd->X = v] through [struct sd_num_ * sd]. *)
Definition upd_num (f : sd_num_ -> sd_num_) : CM rdb_ctx unit :=
  n ← get_num; modc (with_sd (Sd_num (f n))).

(** [c->str_out[i] = ch]. *)
Definition set_out (i : nat) (ch : char) : CM rdb_ctx unit :=
  c ← getc; buf ← buf_set (str_out c) i ch; modc (with_str_out buf).

(** [SOB_ASSERT_ST_] at a line of the source. *)
Definition assert_st_ (line : Z) (expected : st_) : CM rdb_ctx unit :=
  s ← reads st;
  assertc (bool_decide (s = expected)) (lit "rdb.c") line
    (lit "unexpected state: got " ++ print_int (st_code s) ++ lit " vs " ++ print_int (st_code expected)).

(** ** Characters *)
Definition escape_ch_ (ch : char) : char :=
  if (ch =? ch_n)%Z then ch_lf
  else if (ch =? ch_r)%Z then ch_cr
  else if (ch =? ch_t)%Z then ch_tab
  else ch.

Definition is_separator_ (ch : char) : bool :=
  ((ch =? ch_sp) || (ch =? ch_tab) || (ch =? ch_comma) || (ch =? ch_lf) || (ch =? ch_nul))%Z.

Definition is_digit_ (ch : char) : bool := ((ch_0 <=? ch) && (ch <=? ch_9))%Z.

(** The characters of a key. *)
Definition is_key_ch_ (ch : char) : bool :=
  ((ch_a <=? ch) && (ch <=? ch_z))%Z || ((ch_A <=? ch) && (ch <=? ch_Z))%Z || is_digit_ ch
  || (ch =? ch_dot)%Z || (ch =? ch_under)%Z || (ch =? ch_minus)%Z.

(** [strncmp(a, b, n) == 0]. *)
Fixpoint strncmp_eq (n : nat) (a b : list char) : bool :=
  match n with
  | O => true
  | S n =>
      let x := hd ch_nul a in
      let y := hd ch_nul b in
      (x =? y)%Z && ((x =? ch_nul)%Z || strncmp_eq n (tl a) (tl b))
  end.

(** ** State *)
Definition set_st_ (new : st_) : CM rdb_ctx unit :=
  modc (with_st new) ;;
  match new with
  | st_idle_ => modc (with_expect_colon false)
  | st_key_ =>
      modc (with_is_in_arr false) ;;
      modc (with_got_key false) ;;
      modc (with_expect_colon false) ;;
      modc (with_got_first_val false) ;;
      modc (with_sd (Sd_key {| key_len := 0 |})) ;;
      set_out 0 ch_nul
  | st_str_ =>
      modc (with_got_first_val true) ;;
      modc (with_sd (Sd_str {| str_len := 0; str_is_escape := false |})) ;;
      set_out 0 ch_nul
  | st_long_str_ =>
      modc (with_got_first_val true) ;;
      modc (with_sd (Sd_long_str {| long_len := 0; long_is_escape := false;
                                    skip_whitespace := true; keep_last_newline := false |})) ;;
      set_out 0 ch_nul
  | st_num_ =>
      modc (with_got_first_val true) ;;
      modc (with_sd (Sd_num {| is_negative := false; got_sign := false; got_int_explicit := false;
                               num := d_of_int 0; exp_is_negative := false; exp := 0;
                               num_pos := 0; part := num_part_int_ |}))
  | st_bool_ =>
      modc (with_got_first_val true) ;;
      modc (with_sd (Sd_bool {| word := [] |}))
  end.

Definition rdb_init (str_out_buf : list char) (str_maxlen : nat) : CM rdb_ctx unit :=
  modc (with_str_out str_out_buf) ;;
  modc (with_str_mlen str_maxlen) ;;
  modc (with_pos 0%Z) ;;
  modc (with_ty rdb_incomplete) ;;
  modc (with_st st_idle_) ;;
  modc (with_is_in_arr false) ;;
  modc (with_got_key false) ;;
  modc (with_expect_colon false) ;;
  modc (with_got_first_val false) ;;
  modc (with_sd Sd_zero).

(** ** Keys and strings *)
Definition next_key_ (ch : char) : CM rdb_ctx rdb_next_res :=
  assert_st_ 222 st_key_ ;;
  k ← get_key;
  c ← getc;
  if ((ch =? ch_colon) || (ch =? ch_sp) || (ch =? ch_tab))%Z then
    if decide (0 < key_len k) then
      if decide (key_len k < str_mlen c) then
        set_out (key_len k) ch_nul ;;
        modc (with_sd (Sd_key {| key_len := S (key_len k) |})) ;;
        modc (with_ty rdb_key) ;;
        set_st_ st_idle_ ;;
        modc (with_expect_colon (negb (ch =? ch_colon)%Z)) ;;
        modc (with_got_key true) ;;
        modc (with_got_first_val false) ;;
        modc (with_is_in_arr false) ;;
        mret rdb_next_ok
      else mret rdb_next_syntax
    else mret rdb_next_syntax
  else if negb (is_key_ch_ ch) then mret rdb_next_syntax
  else if decide (key_len k < str_mlen c) then
    set_out (key_len k) ch ;;
    modc (with_sd (Sd_key {| key_len := S (key_len k) |})) ;;
    mret rdb_next_ok
  else mret rdb_next_syntax.

(** The end of a string: its NUL, the token and the state. *)
Definition str_done_ (ch : char) : CM rdb_ctx rdb_next_res :=
  modc (with_ty rdb_str) ;;
  set_st_ st_idle_ ;;
  modc (with_got_key (negb (ch =? ch_lf)%Z)) ;;
  modc (with_got_first_val true) ;;
  mret rdb_next_ok.

(** The last part of [next_str_]: one more character. *)
Definition str_add_ (s : sd_str_) (ch : char) : CM rdb_ctx rdb_next_res :=
  c ← getc;
  if decide (str_len s < str_mlen c) then
    set_out (str_len s) ch ;;
    modc (with_sd (Sd_str {| str_len := S (str_len s); str_is_escape := str_is_escape s |})) ;;
    mret rdb_next_ok
  else mret rdb_next_syntax.

(** [next_str_] on a character that is not a control character, [c] and [s]
    being the context and the union member at its start. *)
Definition next_str_ch_ (c : rdb_ctx) (s : sd_str_) (ch : char) : CM rdb_ctx rdb_next_res :=
  if negb (str_is_escape s) then
    if (ch =? ch_quote)%Z then
      if decide (str_len s < str_mlen c) then
        set_out (str_len s) ch_nul ;;
        modc (with_sd (Sd_str {| str_len := S (str_len s); str_is_escape := str_is_escape s |})) ;;
        str_done_ ch
      else mret rdb_next_syntax
    else if (ch =? ch_bslash)%Z then
      modc (with_sd (Sd_str {| str_len := str_len s; str_is_escape := true |})) ;;
      mret rdb_next_ok
    else str_add_ s ch
  else
    modc (with_sd (Sd_str {| str_len := str_len s; str_is_escape := false |})) ;;
    str_add_ {| str_len := str_len s; str_is_escape := false |} (escape_ch_ ch).

Definition next_str_ (ch : char) : CM rdb_ctx rdb_next_res :=
  assert_st_ 262 st_str_ ;;
  s ← get_str;
  c ← getc;
  if ((ch <=? 31) || (127 <=? ch))%Z && negb (ch =? ch_tab)%Z then mret rdb_next_syntax
  else next_str_ch_ c s ch.

(** The last part of [next_long_str_]: one more character. *)
Definition long_str_add_ (s : sd_long_str_) (ch : char) : CM rdb_ctx rdb_next_res :=
  c ← getc;
  if decide (long_len s < str_mlen c) then
    set_out (long_len s) ch ;;
    modc (with_sd (Sd_long_str {| long_len := S (long_len s); long_is_escape := long_is_escape s;
                                  skip_whitespace := false;
                                  keep_last_newline := keep_last_newline s |})) ;;
    mret rdb_next_ok
  else mret rdb_next_syntax.

(** The length without the newline before the closing bracket. *)
Definition long_str_len_ (s : sd_long_str_) : CM rdb_ctx nat :=
  c ← getc;
  if decide (0 < long_len s) then
    match str_out c !! (long_len s - 1) with
    | Some x => mret (if (x =? ch_lf)%Z && negb (keep_last_newline s) then long_len s - 1 else long_len s)
    | None => undef
    end
  else mret (long_len s).

(** [next_long_str_] on a character that is not a control character. *)
Definition next_long_str_ch_ (s : sd_long_str_) (ch : char) : CM rdb_ctx rdb_next_res :=
  if negb (long_is_escape s) then
    if (ch =? ch_gt)%Z then
      l ← long_str_len_ s;
      modc (with_sd (Sd_long_str {| long_len := l; long_is_escape := long_is_escape s;
                                    skip_whitespace := skip_whitespace s;
                                    keep_last_newline := keep_last_newline s |})) ;;
      c ← getc;
      if decide (l < str_mlen c) then
        set_out l ch_nul ;;
        modc (with_sd (Sd_long_str {| long_len := S l; long_is_escape := long_is_escape s;
                                      skip_whitespace := skip_whitespace s;
                                      keep_last_newline := keep_last_newline s |})) ;;
        str_done_ ch
      else mret rdb_next_syntax
    else if (ch =? ch_bslash)%Z then
      modc (with_sd (Sd_long_str {| long_len := long_len s; long_is_escape := true;
                                    skip_whitespace := false;
                                    keep_last_newline := keep_last_newline s |})) ;;
      mret rdb_next_ok
    else if ((ch =? ch_sp) || (ch =? ch_tab) || (ch =? ch_lf))%Z && skip_whitespace s then
      modc (with_sd (Sd_long_str {| long_len := long_len s; long_is_escape := long_is_escape s;
                                    skip_whitespace := negb (ch =? ch_lf)%Z;
                                    keep_last_newline := true |})) ;;
      mret rdb_next_ok
    else
      let s' := {| long_len := long_len s; long_is_escape := long_is_escape s;
                   skip_whitespace := skip_whitespace s; keep_last_newline := false |} in
      modc (with_sd (Sd_long_str s')) ;;
      long_str_add_ s' ch
  else
    let ch' := escape_ch_ ch in
    let s' := {| long_len := long_len s; long_is_escape := false;
                 skip_whitespace := skip_whitespace s; keep_last_newline := (ch' =? ch_lf)%Z |} in
    modc (with_sd (Sd_long_str s')) ;;
    long_str_add_ s' ch'.

Definition next_long_str_ (ch : char) : CM rdb_ctx rdb_next_res :=
  assert_st_ 302 st_long_str_ ;;
  s ← get_long_str;
  if ((ch <=? 31) || (127 <=? ch))%Z && negb (ch =? ch_tab)%Z && negb (ch =? ch_lf)%Z
  then mret rdb_next_syntax
  else next_long_str_ch_ s ch.

(** ** Numbers and booleans *)

(** The end of a number or boolean at the separator [ch]. *)
Definition val_done_ (t : rdb_ty) (ch : char) : CM rdb_ctx rdb_next_res :=
  modc (with_ty t) ;;
  set_st_ st_idle_ ;;
  modc (with_is_in_arr (ch =? ch_comma)%Z) ;;
  modc (with_got_key (negb (ch =? ch_lf)%Z)) ;;
  modc (with_got_first_val true) ;;
  mret (if (ch =? ch_nul)%Z then rdb_next_fin else rdb_next_ok).

Definition next_bool_ (ch : char) : CM rdb_ctx rdb_next_res :=
  assert_st_ 376 st_bool_ ;;
  b ← get_bool;
  let wlen := length (word b) in
  if is_separator_ ch then
    if strncmp_eq wlen (word b) (lit "true") || strncmp_eq wlen (word b) (lit "false")
    then val_done_ rdb_bool ch
    else mret rdb_next_syntax
  else if decide (wlen < 6) then
    modc (with_sd (Sd_bool {| word := word b ++ [ch] |})) ;;
    mret rdb_next_ok
  else mret rdb_next_syntax.

(** [sd->pos++]. *)
Definition num_pos_incr_ : CM rdb_ctx unit :=
  n ← get_num; p ← int_chk (num_pos n + 1)%Z; upd_num (set_num_pos p).

(** The start of the exponent, as in the integer and the fraction part. *)
Definition exp_start_ : CM rdb_ctx rdb_next_res :=
  upd_num (set_num_pos 0%Z) ;;
  upd_num (set_exp 0%Z) ;;
  upd_num (set_exp_is_negative false) ;;
  upd_num (set_got_sign false) ;;
  upd_num (set_got_int_explicit false) ;;
  upd_num (set_part num_part_exp_) ;;
  mret rdb_next_ok.

Section numbers.
Context (pow : double -> double -> double).

Definition next_num_int_ (ch : char) : CM rdb_ctx rdb_next_res :=
  n ← get_num;
  if is_digit_ ch then
    upd_num (set_got_int_explicit true) ;;
    if (num_pos n =? 0)%Z && (ch =? ch_0)%Z then mret rdb_next_ok
    else
      upd_num (set_num (dadd (dmul (num n) (d_of_int 10)) (d_of_int (ch - ch_0)))) ;;
      num_pos_incr_ ;;
      mret rdb_next_ok
  else if ((ch =? ch_minus) || (ch =? ch_plus))%Z then
    if (num_pos n =? 0)%Z && negb (got_sign n) then
      upd_num (set_is_negative (ch =? ch_minus)%Z) ;;
      upd_num (set_got_sign true) ;;
      mret rdb_next_ok
    else mret rdb_next_syntax
  else if (ch =? ch_dot)%Z then
    if got_int_explicit n || negb (got_sign n) then
      upd_num (set_num_pos 1%Z) ;;
      upd_num (set_part num_part_frac_) ;;
      mret rdb_next_ok
    else mret rdb_next_syntax
  else if ((ch =? ch_e) || (ch =? ch_E))%Z then
    if (0 <? num_pos n)%Z || negb (got_sign n) then exp_start_
    else mret rdb_next_syntax
  else if is_separator_ ch then
    if (0 <? num_pos n)%Z || negb (got_sign n) then val_done_ rdb_num ch
    else mret rdb_next_syntax
  else mret rdb_next_syntax.

Definition next_num_frac_ (ch : char) : CM rdb_ctx rdb_next_res :=
  n ← get_num;
  if is_digit_ ch then
    upd_num (set_num (dadd (num n)
      (dmul (d_of_int (ch - ch_0)) (pow (d_of_int 10) (d_of_int (- num_pos n)))))) ;;
    num_pos_incr_ ;;
    mret rdb_next_ok
  else if ((ch =? ch_e) || (ch =? ch_E))%Z then
    if (2 <=? num_pos n)%Z then exp_start_ else mret rdb_next_syntax
  else if is_separator_ ch then
    if (2 <=? num_pos n)%Z || got_int_explicit n then val_done_ rdb_num ch
    else mret rdb_next_syntax
  else mret rdb_next_syntax.

Definition next_num_exp_ (ch : char) : CM rdb_ctx rdb_next_res :=
  n ← get_num;
  if is_digit_ ch then
    upd_num (set_got_int_explicit true) ;;
    if (num_pos n =? 0)%Z && (ch =? ch_0)%Z then mret rdb_next_ok
    else
      e ← int_chk (exp n * 10)%Z;
      e' ← int_chk (e + (ch - ch_0))%Z;
      upd_num (set_exp e') ;;
      num_pos_incr_ ;;
      mret rdb_next_ok
  else if ((ch =? ch_minus) || (ch =? ch_plus))%Z then
    if (num_pos n =? 0)%Z && negb (got_sign n) then
      upd_num (set_exp_is_negative (ch =? ch_minus)%Z) ;;
      upd_num (set_got_sign true) ;;
      mret rdb_next_ok
    else mret rdb_next_syntax
  else if is_separator_ ch then
    if (0 <? num_pos n)%Z then val_done_ rdb_num ch else mret rdb_next_syntax
  else mret rdb_next_syntax.

Definition next_num_ (ch : char) : CM rdb_ctx rdb_next_res :=
  assert_st_ 360 st_num_ ;;
  n ← get_num;
  match part n with
  | num_part_int_ => next_num_int_ ch
  | num_part_frac_ => next_num_frac_ ch
  | num_part_exp_ => next_num_exp_ ch
  end.

(** ** Between values *)
Definition is_val_expected (c : rdb_ctx) : bool :=
  got_key c && (is_in_arr c || negb (got_first_val c)) && negb (expect_colon c).

(** The end of a line. *)
Definition line_end_ : CM rdb_ctx unit :=
  modc (with_is_in_arr false) ;;
  modc (with_got_key false) ;;
  modc (with_got_first_val false).

(** The character classes of [next_idle_], [c] being the context at its start. *)
Definition next_idle_switch_ (c : rdb_ctx) (ch : char) : CM rdb_ctx rdb_next_res :=
  if is_digit_ ch || (ch =? ch_minus)%Z || (ch =? ch_plus)%Z || (ch =? ch_dot)%Z then
    if is_val_expected c then set_st_ st_num_ ;; next_num_ ch else mret rdb_next_syntax
  else if (ch =? ch_colon)%Z then
    if expect_colon c then modc (with_expect_colon false) ;; mret rdb_next_ok
    else mret rdb_next_syntax
  else if (ch =? ch_quote)%Z then
    if is_val_expected c then set_st_ st_str_ ;; mret rdb_next_ok else mret rdb_next_syntax
  else if (ch =? ch_lt)%Z then
    if is_val_expected c then set_st_ st_long_str_ ;; mret rdb_next_ok else mret rdb_next_syntax
  else if (ch =? ch_comma)%Z then modc (with_is_in_arr true) ;; mret rdb_next_ok
  else if (ch =? ch_lf)%Z then line_end_ ;; mret rdb_next_ok
  else if (ch =? ch_nul)%Z then line_end_ ;; mret rdb_next_fin
  else if ((ch =? ch_sp) || (ch =? ch_tab))%Z then mret rdb_next_ok
  else if negb (got_key c) then set_st_ st_key_ ;; next_key_ ch
  else if is_val_expected c then set_st_ st_bool_ ;; next_bool_ ch
  else mret rdb_next_syntax.

Definition next_idle_ (ch : char) : CM rdb_ctx rdb_next_res :=
  c ← getc;
  assert_st_ 161 st_idle_ ;;
  next_idle_switch_ c ch.

(** The [switch (c->st)] of [rdb_next]. *)
Definition next_st_ (ch : char) : CM rdb_ctx rdb_next_res :=
  s ← reads st;
  match s with
  | st_idle_ => next_idle_ ch
  | st_key_ => next_key_ ch
  | st_str_ => next_str_ ch
  | st_long_str_ => next_long_str_ ch
  | st_num_ => next_num_ ch
  | st_bool_ => next_bool_ ch
  end.

Definition rdb_next (ch : char) : CM rdb_ctx rdb_next_res :=
  modc (with_ty rdb_incomplete) ;;
  r ← next_st_ ch;
  (if bool_decide (r = rdb_next_syntax) then mret tt
   else modc (fun c => with_pos (size_succ (pos c)) c)) ;;
  mret r.

(** ** Accessors *)
Definition rdb_pos : CM rdb_ctx Z := reads pos.

Definition rdb_cur_ty : CM rdb_ctx rdb_ty := reads ty.

Definition rdb_cur_str : CM rdb_ctx (list char) :=
  c ← getc; match cstr (str_out c) with Some s => mret s | None => undef end.

Definition num_value (n : sd_num_) : double :=
  let exponent := ((if exp_is_negative n then -1 else 1) * exp n)%Z in
  dmul (d_of_int (if is_negative n then -1 else 1)) (dmul (num n) (pow (d_of_int 10) (d_of_int exponent))).

Definition rdb_cur_num : CM rdb_ctx double := n ← get_num; mret (num_value n).

Definition rdb_cur_is_true : CM rdb_ctx bool :=
  b ← get_bool; mret (strncmp_eq (length (word b)) (lit "true") (word b)).

(** ** The driver loop of the demo program *)
Inductive rdb_event :=
| Db_key (s : list char) | Db_str (s : list char) | Db_num (d : double) | Db_bool (b : bool).

Inductive rdb_end := Db_syntax (i : nat) | Db_fin.

Definition rdb_event_ : CM rdb_ctx (list rdb_event) :=
  t ← rdb_cur_ty;
  match t with
  | rdb_key => s ← rdb_cur_str; mret [Db_key s]
  | rdb_str => s ← rdb_cur_str; mret [Db_str s]
  | rdb_num => d ← rdb_cur_num; mret [Db_num d]
  | rdb_bool => b ← rdb_cur_is_true; mret [Db_bool b]
  | rdb_incomplete => mret []
  end.

(** The loop from index [i] on; running out of input is a panic in the demo. *)
Fixpoint rdb_demo_loop (i : nat) (input : list char) : CM rdb_ctx (list rdb_event * rdb_end) :=
  match input with
  | [] => sob_panic (lit "rdb.c") 683 (lit "no fin")
  | ch :: input =>
      r ← rdb_next ch;
      match r with
      | rdb_next_syntax => mret ([], Db_syntax i)
      | rdb_next_fin => evs ← rdb_event_; mret (evs, Db_fin)
      | rdb_next_ok =>
          evs ← rdb_event_;
          rest ← rdb_demo_loop (S i) input;
          mret (evs ++ rest.1, rest.2)
      end
  end.

(** The demo: the text and its NUL are fed to a fresh context. *)
Definition rdb_demo (buf : list char) (input : list char) : CM rdb_ctx (list rdb_event * rdb_end) :=
  rdb_init buf (length buf) ;; rdb_demo_loop 0 (input ++ [ch_nul]).
End numbers.
