(* ===== verification/RdbProps.v ===== *)
(** * Properties of the database reader

    The invariant of the reader's context and its preservation by every call:
    no panic and no undefined behaviour short of the [int] counters of a number. *)

From stdpp Require Import base list numbers strings option.
From S2P Require Import Prelude Rdb.

(** ** Invariant *)
Definition num_ok (n : sd_num_) : Prop := (0 <= num_pos n <= INT_MAX)%Z /\ in_int (exp n) = true.

(** What each state relies on. *)
Definition wf_st (c : rdb_ctx) : Prop :=
  match st c with
  | st_idle_ => True
  | st_key_ => exists k, sd c = Sd_key k /\ key_len k <= str_mlen c
  | st_str_ => exists s, sd c = Sd_str s /\ str_len s <= str_mlen c
  | st_long_str_ => exists s, sd c = Sd_long_str s /\ long_len s <= str_mlen c
  | st_num_ => exists n, sd c = Sd_num n /\ num_ok n
  | st_bool_ => exists b, sd c = Sd_bool b /\ length (word b) <= 6
  end.

Record wf (c : rdb_ctx) : Prop := {
  wf_out : length (str_out c) = str_mlen c;
  wf_mlen : 0 < str_mlen c;
  wf_state : wf_st c
}.

(** The token announced by [ty] can be read through its accessor. *)
Definition ty_ok (c : rdb_ctx) : Prop :=
  match ty c with
  | rdb_incomplete => True
  | rdb_key | rdb_str => is_Some (cstr (str_out c))
  | rdb_num => exists n, sd c = Sd_num n
  | rdb_bool => exists b, sd c = Sd_bool b
  end.

(** The [int] counters of the number being read are not about to overflow. *)
Definition within_limits (c : rdb_ctx) : Prop :=
  forall n, st c = st_num_ -> sd c = Sd_num n -> (num_pos n < INT_MAX)%Z /\ (0 <= exp n <= 214748363)%Z.

Definition post (r : rdb_next_res) (c : rdb_ctx) : Prop := wf c /\ (r <> rdb_next_syntax -> ty_ok c).

Ltac rdb_simpl := cbn [str_out str_mlen pos ty st is_in_arr got_key expect_colon got_first_val sd
  with_str_out with_str_mlen with_pos with_ty with_st with_is_in_arr with_got_key with_expect_colon
  with_got_first_val with_sd] in *.

(** ** Rules *)
Lemma wp_set_out i ch c Q : i < length (str_out c) ->
  wp (set_out i ch) Q c <-> Q tt (with_str_out (<[i := ch]> (str_out c)) c).
Proof. intros Hi. unfold set_out. wp_step. split; [by intros [_ ?]|by split]. Qed.

Lemma wp_set_idle_ c Q : wp (set_st_ st_idle_) Q c <-> Q tt (with_expect_colon false (with_st st_idle_ c)).
Proof. done. Qed.

#[export] Hint Rewrite wp_set_idle_ : cm.

(** Close a goal [post r c']: the fields of [c'] are explicit. *)
Ltac post_leaf :=
  split; [split; rdb_simpl; rewrite ?length_insert; try done; try lia; unfold wf_st; rdb_simpl; try done
         |unfold ty_ok; rdb_simpl; try done].

(** A [post] that needs nothing of the token. *)
Lemma post_syntax c : wf c -> post rdb_next_syntax c.
Proof. by split. Qed.

Lemma next_key_wp ch c : wf c -> st c = st_key_ -> ty c = rdb_incomplete -> wp (next_key_ ch) post c.
Proof.
  intros Hwf Hst Hty. pose proof Hwf as [Ho Hm Hs]. unfold wf_st in Hs. rewrite Hst in Hs.
  destruct Hs as (k & Hsd & Hk). unfold next_key_, assert_st_, get_key. wp_step. rewrite Hst, Hsd.
  split; [done|]. wp_step. apply wp_if; intros Hsep.
  - destruct (decide _); [|by apply post_syntax]. destruct (decide _) as [Hlt|]; [|by apply post_syntax].
    wp_step. rewrite wp_set_out by lia. wp_step. post_leaf.
    intros _. eapply cstr_is_Some, list_lookup_insert_eq. lia.
  - apply wp_if; intros Hch; [by apply post_syntax|]. destruct (decide _) as [Hlt|]; [|by apply post_syntax].
    wp_step. rewrite wp_set_out by lia. wp_step. post_leaf; [|by rewrite Hty].
    rewrite Hst. eexists; split; [done|]. cbn. lia.
Qed.

Lemma str_add_wp ch s c : wf c -> st c = st_str_ -> ty c = rdb_incomplete -> sd c = Sd_str s ->
  wp (str_add_ s ch) post c.
Proof.
  intros Hwf Hst Hty Hsd. pose proof Hwf as [Ho Hm _]. unfold str_add_. wp_step.
  destruct (decide _) as [Hlt|]; [|by apply post_syntax].
  wp_step. rewrite wp_set_out by lia. wp_step. post_leaf; [|by rewrite Hty].
  rewrite Hst. eexists; split; [done|]. cbn. lia.
Qed.

(** The end of a string, its NUL stored. *)
Lemma str_done_wp ch c : length (str_out c) = str_mlen c -> 0 < str_mlen c -> is_Some (cstr (str_out c)) ->
  wp (str_done_ ch) post c.
Proof. intros Ho Hm Hs. unfold str_done_. wp_step. post_leaf. Qed.

Lemma rdb_next_str_wp ch c : wf c -> st c = st_str_ -> ty c = rdb_incomplete -> wp (next_str_ ch) post c.
Proof.
  intros Hwf Hst Hty. pose proof Hwf as [Ho Hm Hs]. unfold wf_st in Hs. rewrite Hst in Hs.
  destruct Hs as (s & Hsd & Hk). unfold next_str_, next_str_ch_, assert_st_, get_str. wp_step. rewrite Hst, Hsd.
  split; [done|]. wp_step.
  assert (forall s', str_len s' = str_len s -> wf (with_sd (Sd_str s') c)) as Hwf'.
  { intros s' E. split; rdb_simpl; try done. unfold wf_st; rdb_simpl. rewrite Hst.
    eexists; split; [done|]. lia. }
  apply wp_if; intros _; [by apply post_syntax|]. apply wp_if; intros He.
  - apply wp_if; intros _.
    + destruct (decide _) as [Hlt|]; [|by apply post_syntax]. wp_step.
      rewrite wp_set_out by lia. wp_step. apply str_done_wp; rdb_simpl; rewrite ?length_insert; try done.
      eapply cstr_is_Some, list_lookup_insert_eq. lia.
    + apply wp_if; intros _; [|by apply str_add_wp]. wp_step.
      split; [by apply Hwf'|]. unfold ty_ok; rdb_simpl. by rewrite Hty.
  - wp_step. apply str_add_wp; [by apply Hwf'|done..].
Qed.

Lemma long_str_add_wp ch s c : wf c -> st c = st_long_str_ -> ty c = rdb_incomplete ->
  sd c = Sd_long_str s -> wp (long_str_add_ s ch) post c.
Proof.
  intros Hwf Hst Hty Hsd. pose proof Hwf as [Ho Hm _]. unfold long_str_add_. wp_step.
  destruct (decide _) as [Hlt|]; [|by apply post_syntax].
  wp_step. rewrite wp_set_out by lia. wp_step. post_leaf; [|by rewrite Hty].
  rewrite Hst. eexists; split; [done|]. cbn. lia.
Qed.

Lemma long_str_len_wp s c : long_len s <= length (str_out c) ->
  wp (long_str_len_ s) (fun l c' => c' = c /\ l <= long_len s) c.
Proof.
  intros Hl. unfold long_str_len_. wp_step. destruct (decide _); [|by wp_step].
  destruct (lookup_lt_is_Some_2 (str_out c) (long_len s - 1)) as [x ->]; [lia|]. wp_step.
  split; [done|]. destruct (_ && _); lia.
Qed.

Lemma next_long_str_wp ch c : wf c -> st c = st_long_str_ -> ty c = rdb_incomplete ->
  wp (next_long_str_ ch) post c.
Proof.
  intros Hwf Hst Hty. pose proof Hwf as [Ho Hm Hs]. unfold wf_st in Hs. rewrite Hst in Hs.
  destruct Hs as (s & Hsd & Hk). unfold next_long_str_, next_long_str_ch_, assert_st_, get_long_str. wp_step.
  rewrite Hst, Hsd. split; [done|]. wp_step.
  assert (forall s', long_len s' <= long_len s -> wf (with_sd (Sd_long_str s') c)) as Hwf'.
  { intros s' E. split; rdb_simpl; try done. unfold wf_st; rdb_simpl. rewrite Hst.
    eexists; split; [done|]. lia. }
  assert (forall s', long_len s' <= long_len s -> post rdb_next_ok (with_sd (Sd_long_str s') c)) as Hp.
  { intros s' E. split; [by apply Hwf'|]. unfold ty_ok; rdb_simpl. by rewrite Hty. }
  apply wp_if; intros _; [by apply post_syntax|]. apply wp_if; intros He.
  - apply wp_if; intros _.
    + wp_step. eapply wp_mono; [apply long_str_len_wp; lia|]. intros l c' [-> Hl]. wp_step.
      destruct (decide _) as [Hlt|]; [|by apply post_syntax, Hwf'; cbn; lia]. wp_step. rdb_simpl.
      rewrite wp_set_out by (rdb_simpl; lia). wp_step.
      apply str_done_wp; rdb_simpl; rewrite ?length_insert; try done.
      eapply cstr_is_Some, list_lookup_insert_eq. lia.
    + apply wp_if; intros _; [wp_step; by apply Hp|].
      apply wp_if; intros _; wp_step; [by apply Hp|]. apply long_str_add_wp; [by apply Hwf'|done..].
  - wp_step. apply long_str_add_wp; [by apply Hwf'|done..].
Qed.

(** ** Numbers and booleans *)
Lemma val_done_wp t ch c : length (str_out c) = str_mlen c -> 0 < str_mlen c ->
  ty_ok (with_ty t c) -> wp (val_done_ t ch) post c.
Proof. intros Ho Hm Ht. unfold val_done_. wp_step. post_leaf. Qed.

Lemma rdb_next_bool_wp ch c : wf c -> st c = st_bool_ -> ty c = rdb_incomplete -> wp (next_bool_ ch) post c.
Proof.
  intros Hwf Hst Hty. pose proof Hwf as [Ho Hm Hs]. unfold wf_st in Hs. rewrite Hst in Hs.
  destruct Hs as (b & Hsd & Hb). unfold next_bool_, assert_st_, get_bool. wp_step. rewrite Hst, Hsd.
  split; [done|]. wp_step. apply wp_if; intros _.
  - apply wp_if; intros _; [|by apply post_syntax]. apply val_done_wp; [done..|].
    unfold ty_ok; rdb_simpl. eauto.
  - destruct (decide _) as [Hlt|]; [|by apply post_syntax]. wp_step. post_leaf; [|by rewrite Hty].
    rewrite Hst. eexists; split; [done|]. cbn. rewrite length_app. cbn. lia.
Qed.

(** The number handlers run on contexts of the form [with_sd (Sd_num n) c]. *)
Lemma rdb_with_sd_id c s : sd c = s -> c = with_sd s c.
Proof. destruct c. by intros <-. Qed.

Lemma wp_get_num n c Q : wp get_num Q (with_sd (Sd_num n) c) <-> Q n (with_sd (Sd_num n) c).
Proof. done. Qed.

Lemma wp_rdb_upd_num f n c Q :
  wp (upd_num f) Q (with_sd (Sd_num n) c) <-> Q tt (with_sd (Sd_num (f n)) c).
Proof. done. Qed.

#[export] Hint Rewrite wp_get_num wp_rdb_upd_num : cm.

Definition limits (n : sd_num_) : Prop :=
  (0 <= num_pos n < INT_MAX)%Z /\ (0 <= exp n <= 214748363)%Z.

Ltac num_side := unfold limits, num_ok, in_int, INT_MIN, INT_MAX in *; cbn;
  try (apply andb_true_iff; split; apply Z.leb_le); lia.

Lemma wp_num_pos_incr n c Q : (0 <= num_pos n < INT_MAX)%Z ->
  wp num_pos_incr_ Q (with_sd (Sd_num n) c) <->
  Q tt (with_sd (Sd_num (set_num_pos (num_pos n + 1)%Z n)) c).
Proof.
  intros Hn. unfold num_pos_incr_. wp_step. split; [by intros [_ ?]|]. intros ?.
  split; [num_side|done].
Qed.

Section num_handlers.
Context (c : rdb_ctx) (Hwf : wf c) (Hst : st c = st_num_) (Hty : ty c = rdb_incomplete).

Lemma rdb_num_post n r : num_ok n -> post r (with_sd (Sd_num n) c).
Proof.
  intros Hn. destruct Hwf as [Ho Hm _]. post_leaf; [rewrite Hst; eauto|by rewrite Hty].
Qed.

Lemma num_done_wp ch n : wp (val_done_ rdb_num ch) post (with_sd (Sd_num n) c).
Proof. destruct Hwf as [Ho Hm _]. apply val_done_wp; [done..|]. unfold ty_ok; rdb_simpl. eauto. Qed.

Lemma exp_start_wp n : num_ok n -> wp exp_start_ post (with_sd (Sd_num n) c).
Proof. intros Hn. unfold exp_start_. wp_step. apply rdb_num_post. num_side. Qed.

Ltac num_go :=
  repeat match goal with
  | |- post _ _ => apply rdb_num_post; num_side
  | |- wp (val_done_ _ _) _ _ => apply num_done_wp
  | |- wp exp_start_ _ _ => apply exp_start_wp; num_side
  | |- wp num_pos_incr_ _ _ => rewrite wp_num_pos_incr by num_side; cbv beta
  | |- wp (if _ then _ else _) _ _ => apply wp_if; intros ?
  | |- wp _ _ _ => progress wp_step
  end.

Lemma rdb_num_int_wp n ch : limits n -> wp (next_num_int_ ch) post (with_sd (Sd_num n) c).
Proof. intros Hn. unfold next_num_int_. num_go. Qed.

Lemma rdb_num_frac_wp pow n ch : limits n -> wp (next_num_frac_ pow ch) post (with_sd (Sd_num n) c).
Proof. intros Hn. unfold next_num_frac_. num_go. Qed.

Lemma rdb_num_exp_wp n ch : limits n -> wp (next_num_exp_ ch) post (with_sd (Sd_num n) c).
Proof.
  intros Hn. unfold next_num_exp_. num_go. unfold is_digit_ in *. bool_facts.
  split; [num_side|]. split; [num_side|]. num_go.
Qed.

Lemma rdb_next_num_wp pow n ch : limits n -> wp (next_num_ pow ch) post (with_sd (Sd_num n) c).
Proof.
  intros Hn. unfold next_num_, assert_st_. wp_step. rdb_simpl. rewrite Hst. split; [done|].
  destruct (part n); [by apply rdb_num_int_wp|by apply rdb_num_frac_wp|by apply rdb_num_exp_wp].
Qed.
End num_handlers.

(** ** The whole step *)
Lemma set_st_run_wp new c Q :
  length (str_out c) = str_mlen c -> 0 < str_mlen c -> ty c = rdb_incomplete -> new <> st_idle_ ->
  (forall c', wf c' -> st c' = new -> ty c' = rdb_incomplete ->
     (forall n, sd c' = Sd_num n -> limits n) -> Q tt c') ->
  wp (set_st_ new) Q c.
Proof.
  intros Ho Hm Hty Hne HQ. unfold set_st_. destruct new; [done|..]; wp_step;
    try (rewrite wp_set_out by (rdb_simpl; lia)); apply HQ; rdb_simpl; try done;
    try (split; rdb_simpl; rewrite ?length_insert; try done; unfold wf_st; rdb_simpl;
         eexists; split; [done|]; cbn; try lia; num_side).
  intros n [= <-]. num_side.
Qed.

Lemma rdb_post_of c r : wf c -> ty c = rdb_incomplete -> post r c.
Proof. intros Hwf Hty. split; [done|]. unfold ty_ok. by rewrite Hty. Qed.

Lemma idle_post r c : length (str_out c) = str_mlen c -> 0 < str_mlen c -> st c = st_idle_ ->
  ty c = rdb_incomplete -> post r c.
Proof. intros Ho Hm Hst Hty. apply rdb_post_of; [|done]. split; try done. unfold wf_st. by rewrite Hst. Qed.

Lemma rdb_num_wp pow ch c : wf c -> st c = st_num_ -> ty c = rdb_incomplete ->
  (forall n, sd c = Sd_num n -> limits n) -> wp (next_num_ pow ch) post c.
Proof.
  intros Hwf Hst Hty Hlim. pose proof Hwf as [_ _ Hs]. unfold wf_st in Hs. rewrite Hst in Hs.
  destruct Hs as (n & Hsd & _). rewrite (rdb_with_sd_id c _ Hsd). by apply rdb_next_num_wp; auto.
Qed.

Lemma rdb_next_idle_wp pow ch c : wf c -> st c = st_idle_ -> ty c = rdb_incomplete ->
  wp (next_idle_ pow ch) post c.
Proof.
  intros Hwf Hst Hty. pose proof Hwf as [Ho Hm _]. unfold next_idle_, next_idle_switch_, assert_st_. wp_step.
  rewrite Hst. split; [done|].
  repeat match goal with
  | |- post _ _ => by apply idle_post
  | |- wp (if _ then _ else _) _ _ => apply wp_if; intros _
  | |- wp line_end_ _ _ => unfold line_end_
  | |- wp (set_st_ _) _ _ => apply set_st_run_wp; [done..|]; intros c' Hwf' Hst' Hty' Hl'
  | |- wp (next_num_ _ _) _ _ => by apply rdb_num_wp
  | |- wp (next_key_ _) _ _ => by apply next_key_wp
  | |- wp (next_bool_ _) _ _ => by apply rdb_next_bool_wp
  | |- wp (mret rdb_next_ok) _ _ => wp_step; by apply rdb_post_of
  | |- wp _ _ _ => progress wp_step
  end.
Qed.

Lemma rdb_next_st_wp pow ch c : wf c -> ty c = rdb_incomplete -> within_limits c -> wp (next_st_ pow ch) post c.
Proof.
  intros Hwf Hty Hlim. unfold next_st_. wp_step. destruct (st c) eqn:Hst.
  - by apply rdb_next_idle_wp.
  - by apply next_key_wp.
  - by apply rdb_next_str_wp.
  - by apply next_long_str_wp.
  - apply rdb_num_wp; [done..|]. intros n Hn. specialize (Hlim n Hst Hn).
    pose proof (wf_state c Hwf) as Hs. unfold wf_st in Hs. rewrite Hst in Hs.
    destruct Hs as (n' & Hn' & ? & _). rewrite Hn in Hn'. simplify_eq. unfold limits. lia.
  - by apply rdb_next_bool_wp.
Qed.

Lemma post_pos r p c : post r c -> post r (with_pos p c).
Proof. intros [[Ho Hm Hs] Ht]. split; [by split|done]. Qed.

Lemma rdb_next_wp pow ch c : wf c -> within_limits c -> wp (rdb_next pow ch) post c.
Proof.
  intros Hwf Hlim. unfold rdb_next. wp_step. eapply wp_mono.
  - apply rdb_next_st_wp; [by destruct Hwf; split|done|exact Hlim].
  - intros r c' Hp. case_bool_decide; wp_step; [done|by apply post_pos].
Qed.

Lemma rdb_event_safe pow c : ty_ok c -> exists evs, rdb_event_ pow c = Ret (evs, c).
Proof.
  unfold ty_ok, rdb_event_, rdb_cur_ty, rdb_cur_str, rdb_cur_num, rdb_cur_is_true, get_num, get_bool, reads,
    getc, mbind, cm_bind. destruct (ty c).
  - by eexists.
  - intros [s ->]. by eexists.
  - intros [s ->]. by eexists.
  - intros [n ->]. by eexists.
  - intros [b ->]. by eexists.
Qed.

(** ** Initialisation *)
Definition rdb_fresh (buf : list char) : rdb_ctx :=
  {| str_out := buf; str_mlen := length buf; pos := 0; ty := rdb_incomplete; st := st_idle_;
     is_in_arr := false; got_key := false; expect_colon := false; got_first_val := false; sd := Sd_zero |}.

Lemma rdb_init_run buf c0 : rdb_init buf (length buf) c0 = Ret (tt, rdb_fresh buf).
Proof. done. Qed.

Lemma rdb_fresh_wf buf : buf <> [] -> wf (rdb_fresh buf).
Proof. intros Hne. split; [done| |done]. by destruct buf; cbn; [|lia]. Qed.

(** ** Theorems *)

(** C6. Safety of the database reader: on a context that satisfies its
    invariant and whose number counters are below the [int] range, [rdb_next] on
    any character returns - no panic, no access outside the string buffer or the
    word buffer, no read of a wrong union member - to a context that satisfies
    the invariant, and unless it reports a syntax error the token announced can
    be read through its accessor. *)
Theorem rdb_next_safe pow ch c :
  wf c -> within_limits c ->
  exists r c', rdb_next pow ch c = Ret (r, c') /\ wf c' /\
    (r <> rdb_next_syntax -> exists evs, rdb_event_ pow c' = Ret (evs, c')).
Proof.
  intros Hwf Hlim. pose proof (rdb_next_wp pow ch c Hwf Hlim) as H.
  apply wp_Ret in H as (r & c' & Hrun & Hwf' & Hty). exists r, c'. split_and!; [done..|].
  intros Hr. by apply rdb_event_safe, Hty.
Qed.

Lemma rdb_next_safe_witness :
  exists r c', rdb_next (fun x _ => x) ch_a (rdb_fresh [7; 7]%Z) = Ret (r, c') /\ wf c' /\
    (r <> rdb_next_syntax -> exists evs, rdb_event_ (fun x _ => x) c' = Ret (evs, c')).
Proof.
  apply (rdb_next_safe (fun x _ => x) ch_a (rdb_fresh [7; 7]%Z)).
  - by apply rdb_fresh_wf.
  - intros n H. discriminate H.
Defined.

(** A buffer of no bytes is written: the first character of a key makes
    [set_st_] store a NUL at [str_out[0]] whatever [str_mlen] is. *)
Theorem rdb_empty_buffer_overrun pow ch c0 :
  is_key_ch_ ch = true -> is_digit_ ch = false -> ch <> ch_dot -> ch <> ch_minus ->
  exists c, rdb_init [] 0 c0 = Ret (tt, c) /\ rdb_next pow ch c = Undef.
Proof.
  intros Hk Hd H1 H2. exists (rdb_fresh []). split; [done|]. unfold is_key_ch_, is_digit_ in *.
  unfold rdb_next, next_st_, next_idle_, next_idle_switch_, mbind, cm_bind. cbn. unfold is_digit_. rewrite Hd.
  assert (ch <> ch_plus /\ ch <> ch_colon /\ ch <> ch_quote /\ ch <> ch_lt /\ ch <> ch_comma /\ ch <> ch_lf
    /\ ch <> ch_nul /\ ch <> ch_sp /\ ch <> ch_tab) as Hne.
  { repeat split; intros ->; cbn in *; congruence. }
  destruct Hne as (? & ? & ? & ? & ? & ? & ? & ? & ?).
  by rewrite !(proj2 (Z.eqb_neq ch _)) by done.
Qed.

Lemma rdb_empty_buffer_overrun_witness :
  exists c, rdb_init [] 0 (rdb_fresh []) = Ret (tt, c) /\ rdb_next (fun x _ => x) ch_a c = Undef.
Proof. apply (rdb_empty_buffer_overrun (fun x _ => x) ch_a (rdb_fresh [])); done. Defined.

(** Booleans are compared only up to the length read: every nonempty prefix
    of [true] is reported as true, and of [false] as false. *)
Theorem rdb_bool_prefix pow w ch c :
  wf c -> st c = st_bool_ -> sd c = Sd_bool {| word := w |} -> w <> [] ->
  is_separator_ ch = true -> w `prefix_of` lit "true" \/ w `prefix_of` lit "false" ->
  exists r c', rdb_next pow ch c = Ret (r, c') /\ r <> rdb_next_syntax /\
    rdb_event_ pow c' = Ret ([Db_bool (bool_decide (w `prefix_of` lit "true"))], c').
Proof.
  intros Hwf Hst Hsd Hne Hsep Hpre.
  assert (forall u v : list char, u `prefix_of` v -> no_nul v -> strncmp_eq (length u) u v = true /\
    strncmp_eq (length u) v u = true) as Hcmp.
  { induction u as [|x u IH]; intros v [v' ->] Hv; [done|]. cbn [app length strncmp_eq hd tl].
    apply Forall_cons_iff in Hv as [_ Hv]. rewrite !Z.eqb_refl. cbn [andb].
    destruct (IH (u ++ v') ltac:(by exists v') Hv) as [-> ->]. by rewrite orb_true_r. }
  assert (strncmp_eq (length w) w (lit "true") || strncmp_eq (length w) w (lit "false") = true) as Hok.
  { apply orb_true_iff. destruct Hpre as [Hp|Hp]; [left|right]; apply Hcmp; try done; repeat constructor; done. }
  assert (strncmp_eq (length w) (lit "true") w = bool_decide (w `prefix_of` lit "true")) as Hval.
  { destruct Hpre as [Hp|Hp].
    - rewrite bool_decide_eq_true_2 by done. apply Hcmp; [done|repeat constructor; done].
    - destruct w as [|x w]; [done|]. destruct Hp as [v' Hv]. cbn in Hv. injection Hv as <- _.
      rewrite bool_decide_eq_false_2; [done|]. intros [v'' Hv'']. cbn in Hv''. discriminate Hv''. }
  enough (wp (rdb_next pow ch) (fun r c' => r <> rdb_next_syntax /\
    rdb_event_ pow c' = Ret ([Db_bool (bool_decide (w `prefix_of` lit "true"))], c')) c) as H.
  { apply wp_Ret in H as (r & c' & ? & ? & ?). by exists r, c'. }
  unfold rdb_next, next_st_. wp_step. rdb_simpl. rewrite Hst.
  unfold next_bool_, assert_st_, get_bool. wp_step. rdb_simpl. rewrite Hst, Hsd. split; [done|].
  wp_step. rewrite Hsep. cbn [word]. rewrite Hok. unfold val_done_. wp_step.
  assert ((if (ch =? ch_nul)%Z then rdb_next_fin else rdb_next_ok) <> rdb_next_syntax) as Hr
    by (by destruct (ch =? ch_nul)%Z).
  rewrite bool_decide_eq_false_2 by done. wp_step. split; [done|].
  unfold rdb_event_, rdb_cur_ty, rdb_cur_is_true, get_bool, reads, getc, mbind, cm_bind.
  rdb_simpl. rewrite Hsd. unfold mret, cm_ret. cbn [word]. by rewrite Hval.
Qed.

(** A context in which [tr] has been read as a value. *)
Definition in_bool_tr : rdb_ctx :=
  {| str_out := [0%Z]; str_mlen := 1; pos := 5; ty := rdb_incomplete; st := st_bool_;
     is_in_arr := false; got_key := true; expect_colon := false; got_first_val := true;
     sd := Sd_bool {| word := lit "tr" |} |}.

Lemma rdb_bool_prefix_witness :
  exists r c', rdb_next (fun x _ => x) ch_lf in_bool_tr = Ret (r, c') /\ r <> rdb_next_syntax /\
    rdb_event_ (fun x _ => x) c' = Ret ([Db_bool true], c').
Proof.
  apply (rdb_bool_prefix (fun x _ => x) (lit "tr") ch_lf in_bool_tr); try reflexivity.
  - split; [reflexivity|vm_compute; lia|]. exists {| word := lit "tr" |}. split; [reflexivity|vm_compute; lia].
  - discriminate.
  - left. by exists (lit "ue").
Defined.
