(* ===== verification/DbRoundtrip.v ===== *)
(** * Reading back a database

    A database is a list of keys with their values.  The text the writer of
    wdb.c produces for it is read by the reader of rdb.c as the same keys and
    values. *)

From stdpp Require Import base list numbers strings option.
From Stdlib Require Import SpecFloat.
From S2P Require Import Prelude Wdb WdbProps Rdb RdbProps.

(** ** Databases *)
Inductive dval :=
| V_str (s : list char) | V_long (s : list char) | V_int (z : Z) | V_num (d : double) | V_bool (b : bool).

(** A key and its values, of which there is at least one. *)
Record entry := { e_key : list char; e_val : dval; e_vals : list dval }.

Definition val_op (v : dval) : dbop :=
  match v with
  | V_str s => D_str s
  | V_long s => D_long_str s
  | V_int z => D_int z
  | V_num d => D_num d
  | V_bool b => D_bool b
  end.

Definition entry_ops (e : entry) : list dbop :=
  D_key (e_key e) :: val_op (e_val e) :: map val_op (e_vals e).

Definition database_ops (es : list entry) : list dbop := (es ≫= entry_ops) ++ [D_fin].

(** ** What is read *)

(** Digits as the reader accumulates them; leading zeroes are skipped. *)
Definition acc_digits (a : double) (ds : list char) : double :=
  foldl (fun a d => dadd (dmul a (d_of_int 10)) (d_of_int (d - ch_0))) a ds.

Definition nat_digits (n : Z) : list char := if (n =? 0)%Z then [] else print_nat n.

Section reading.
Context (pow : double -> double -> double).

(** Digits of a fraction, the first one being at position [p]. *)
Fixpoint acc_frac (a : double) (p : Z) (ds : list char) : double :=
  match ds with
  | [] => a
  | d :: ds => acc_frac (dadd a (dmul (d_of_int (d - ch_0)) (pow (d_of_int 10) (d_of_int (- p))))) (p + 1) ds
  end.

(** [rdb_cur_num] without an exponent. *)
Definition signed (neg : bool) (a : double) : double :=
  dmul (d_of_int (if neg then -1 else 1)) (dmul a (pow (d_of_int 10) (d_of_int 0))).

Definition read_int (z : Z) : double :=
  signed (z <? 0)%Z (acc_digits (d_of_int 0) (nat_digits (Z.abs z))).

Definition read_fixed (neg : bool) (n : Z) : double :=
  signed neg (acc_frac (acc_digits (d_of_int 0) (nat_digits (n / 10 ^ 6))) 1 (pad6 (n mod 10 ^ 6))).

Definition val_event (v : dval) : rdb_event :=
  match v with
  | V_str s | V_long s => Db_str s
  | V_int z => Db_num (read_int z)
  | V_num d => Db_num (match d with
      | S754_finite s m e => read_fixed s (millionths m e)
      | S754_zero s => read_fixed s 0
      | _ => d
      end)
  | V_bool b => Db_bool b
  end.

Definition entry_events (e : entry) : list rdb_event :=
  Db_key (e_key e) :: val_event (e_val e) :: map val_event (e_vals e).

(** ** What both sides handle *)

(** Printable characters but the backslash, tab, newline, carriage return. *)
Definition dchar_ok (ch : char) : bool :=
  ((32 <=? ch) && (ch <=? 126) && negb (ch =? ch_bslash))%Z || (ch =? ch_tab)%Z || (ch =? ch_lf)%Z || (ch =? ch_cr)%Z.

Definition dstr_ok (n : nat) (s : list char) : bool := forallb dchar_ok s && bool_decide (length s < n).

Definition finite (d : double) : bool :=
  match d with S754_finite _ _ _ | S754_zero _ => true | _ => false end.

Definition val_ok (n : nat) (v : dval) : bool :=
  match v with
  | V_str s | V_long s => dstr_ok n s
  | V_int z => (- 2 ^ 63 <=? z)%Z && (z <? 2 ^ 63)%Z
  | V_num d => finite d && bool_decide (length (print_double d) < 100)
  | V_bool _ => true
  end.

(** A key starts with a letter or an underscore. *)
Definition key_ok (n : nat) (k : list char) : bool :=
  match k with
  | [] => false
  | x :: _ => negb (is_digit_ x || (x =? ch_minus)%Z || (x =? ch_dot)%Z)
  end && forallb Rdb.is_key_ch_ k && bool_decide (length k < n).

Definition entry_ok (n : nat) (e : entry) : bool :=
  key_ok n (e_key e) && val_ok n (e_val e) && forallb (val_ok n) (e_vals e).

(** ** Steps of the reader *)

(** From [c] the driver loop reports [evs] for [input] and ends with a NUL. *)
Definition reads_db (c : rdb_ctx) (input : list char) (evs : list rdb_event) : Prop :=
  forall i, exists c', rdb_demo_loop pow i input c = Ret ((evs, Db_fin), c').

(** The fields a call may change without changing what is being read. *)
Definition stable (P : rdb_ctx -> Prop) : Prop := forall p c, P c -> P (with_pos p c).

Lemma rdb_event_pos c evs p :
  rdb_event_ pow c = Ret (evs, c) -> rdb_event_ pow (with_pos p c) = Ret (evs, with_pos p c).
Proof.
  destruct c as [o m q t s ar k ec fv d].
  unfold rdb_event_, rdb_cur_ty, rdb_cur_str, rdb_cur_num, rdb_cur_is_true, get_num, get_bool, reads,
    getc, mbind, cm_bind, mret, cm_ret, undef. cbn.
  destruct t; cbn.
  - intros [= <-]. reflexivity.
  - destruct (cstr o); cbn; intros H; [injection H as <-; reflexivity|discriminate H].
  - destruct (cstr o); cbn; intros H; [injection H as <-; reflexivity|discriminate H].
  - destruct d; cbn; intros H; try discriminate H; injection H as <-; reflexivity.
  - destruct d; cbn; intros H; try discriminate H; injection H as <-; reflexivity.
Qed.

Lemma reads_step ch rest c evs1 evs2 (P : rdb_ctx -> Prop) :
  stable P ->
  wp (next_st_ pow ch) (fun r c1 => r = rdb_next_ok /\ rdb_event_ pow c1 = Ret (evs1, c1) /\ P c1)
    (with_ty rdb_incomplete c) ->
  (forall c1, P c1 -> reads_db c1 rest evs2) ->
  reads_db c (ch :: rest) (evs1 ++ evs2).
Proof.
  intros HP Hw Hrest i. apply wp_Ret in Hw as (r & c1 & Hrun & -> & He & Hc1).
  destruct (Hrest _ (HP (size_succ (pos c1)) c1 Hc1) (S i)) as [c' Hc'].
  exists c'. cbn [rdb_demo_loop]. unfold rdb_next, modc, mbind, cm_bind. rewrite Hrun.
  rewrite bool_decide_eq_false_2 by done. cbn.
  rewrite (rdb_event_pos _ _ _ He). by rewrite Hc'.
Qed.

Lemma reads_quiet ch rest c evs (P : rdb_ctx -> Prop) :
  stable P ->
  wp (next_st_ pow ch) (fun r c1 => r = rdb_next_ok /\ ty c1 = rdb_incomplete /\ P c1)
    (with_ty rdb_incomplete c) ->
  (forall c1, P c1 -> reads_db c1 rest evs) ->
  reads_db c (ch :: rest) evs.
Proof.
  intros HP Hw Hrest. change evs with ([] ++ evs). eapply reads_step; [exact HP| |exact Hrest].
  eapply wp_mono; [exact Hw|]. intros r c1 (-> & Hty & HPc). split_and!; try done.
  unfold rdb_event_, rdb_cur_ty, reads, mbind, cm_bind. by rewrite Hty.
Qed.
(** *** Where the reader stands *)
Definition buf_is (n : nat) (c : rdb_ctx) : Prop := length (str_out c) = n /\ str_mlen c = n /\ 0 < n.

Definition line_start n c : Prop := buf_is n c /\ st c = st_idle_ /\ Rdb.got_key c = false.

Definition val_wait n c : Prop := buf_is n c /\ st c = st_idle_ /\ is_val_expected c = true.

Definition after_val n c : Prop :=
  buf_is n c /\ st c = st_idle_ /\ Rdb.got_key c = true /\ expect_colon c = false.

(** Inside a key, a string or a multi-line string of which [acc] is read. *)
Definition in_key n acc c : Prop :=
  buf_is n c /\ st c = st_key_ /\ sd c = Sd_key {| key_len := length acc |} /\
  take (length acc) (str_out c) = acc.

Definition in_dstr n acc e c : Prop :=
  buf_is n c /\ st c = st_str_ /\ sd c = Sd_str {| str_len := length acc; str_is_escape := e |} /\
  take (length acc) (str_out c) = acc.

Definition in_long n acc e keep c : Prop :=
  buf_is n c /\ st c = st_long_str_ /\
  sd c = Sd_long_str {| long_len := length acc; long_is_escape := e; skip_whitespace := false;
                        keep_last_newline := keep |} /\
  take (length acc) (str_out c) = acc.

(** One more character in the buffer. *)
Lemma buf_snoc n (acc : list char) ch c :
  buf_is n c -> length acc < n -> take (length acc) (str_out c) = acc ->
  length (<[length acc := ch]> (str_out c)) = n /\
  take (length (acc ++ [ch])) (<[length acc := ch]> (str_out c)) = acc ++ [ch].
Proof.
  intros (Hl & _) Hlt Hacc. rewrite length_insert, length_app, Nat.add_1_r. split; [done|].
  rewrite take_insert_snoc by lia. by rewrite Hacc.
Qed.

Lemma buf_cstr n (acc : list char) c :
  buf_is n c -> length acc < n -> take (length acc) (str_out c) = acc -> no_nul acc ->
  cstr (<[length acc := ch_nul]> (str_out c)) = Some acc.
Proof.
  intros (Hl & _) Hlt Hacc Hnul.
  rewrite (cstr_take_nul _ (length acc)); rewrite ?take_insert_ge, ?Hacc by lia; [done| |done].
  apply list_lookup_insert_eq. lia.
Qed.

(** Start a step from a known state. *)
Ltac dstep_start Hst := unfold next_st_; wp_step; rdb_simpl; rewrite Hst; unfold assert_st_;
  wp_step; rdb_simpl; rewrite Hst.

Lemma idle_start ch c Q : st c = st_idle_ ->
  wp (next_idle_switch_ pow (with_ty rdb_incomplete c) ch) Q (with_ty rdb_incomplete c) ->
  wp (next_st_ pow ch) Q (with_ty rdb_incomplete c).
Proof.
  intros Hst H. unfold next_st_. wp_step. rdb_simpl. rewrite Hst. unfold next_idle_, assert_st_.
  wp_step. rdb_simpl. rewrite Hst. by split.
Qed.

(** *** Separators *)
Lemma stable_line n : stable (line_start n).
Proof. by intros p c H. Qed.
Lemma stable_wait n : stable (val_wait n).
Proof. by intros p c H. Qed.
Lemma stable_after n : stable (after_val n).
Proof. by intros p c H. Qed.

Lemma read_space n c rest evs :
  val_wait n c -> (forall c1, val_wait n c1 -> reads_db c1 rest evs) -> reads_db c (ch_sp :: rest) evs.
Proof.
  intros (Hb & Hst & Hv) Hrest. eapply reads_quiet; [apply (stable_wait n)| |exact Hrest].
  apply idle_start; [done|]. unfold next_idle_switch_. cbn -[is_val_expected]. wp_step. done.
Qed.

Lemma read_comma n c rest evs :
  after_val n c -> (forall c1, val_wait n c1 -> reads_db c1 rest evs) -> reads_db c (ch_comma :: rest) evs.
Proof.
  intros (Hb & Hst & Hk & Hc) Hrest. eapply reads_quiet; [apply (stable_wait n)| |exact Hrest].
  apply idle_start; [done|]. unfold next_idle_switch_. cbn -[is_val_expected]. wp_step. split; [done|]. split; [done|].
  split; [exact Hb|]. split; [exact Hst|]. unfold is_val_expected. rdb_simpl. by rewrite Hk, Hc.
Qed.

Lemma read_newline n c rest evs :
  buf_is n c -> st c = st_idle_ -> (forall c1, line_start n c1 -> reads_db c1 rest evs) ->
  reads_db c (ch_lf :: rest) evs.
Proof.
  intros Hb Hst Hrest. eapply reads_quiet; [apply (stable_line n)| |exact Hrest].
  apply idle_start; [done|]. unfold next_idle_switch_. cbn -[is_val_expected]. unfold line_end_. wp_step. done.
Qed.

Lemma read_nul n c : line_start n c -> reads_db c [ch_nul] [].
Proof.
  intros (Hb & Hst & Hk) i.
  assert (wp (next_st_ pow ch_nul) (fun r c1 => r = rdb_next_fin /\ ty c1 = rdb_incomplete)
    (with_ty rdb_incomplete c)) as H.
  { apply idle_start; [done|]. unfold next_idle_switch_. cbn -[is_val_expected]. unfold line_end_. wp_step. done. }
  apply wp_Ret in H as (r & c1 & Hrun & -> & Hty). eexists. cbn [rdb_demo_loop].
  unfold rdb_next, modc, mbind, cm_bind. rewrite Hrun. rewrite bool_decide_eq_false_2 by done. cbn.
  unfold rdb_event_, rdb_cur_ty, reads, mbind, cm_bind. rdb_simpl. rewrite Hty. reflexivity.
Qed.

(** *** Keys *)
Lemma key_char_not_sep ch : Rdb.is_key_ch_ ch = true ->
  (ch =? ch_colon)%Z || (ch =? ch_sp)%Z || (ch =? ch_tab)%Z = false.
Proof.
  intros H. destruct (Z.eqb_spec ch ch_colon) as [->|]; [done|].
  destruct (Z.eqb_spec ch ch_sp) as [->|]; [done|]. by destruct (Z.eqb_spec ch ch_tab) as [->|].
Qed.

Lemma key_ch_step n acc ch c :
  in_key n acc c -> length acc < n -> Rdb.is_key_ch_ ch = true -> ty c = rdb_incomplete ->
  wp (next_key_ ch) (fun r c1 => r = rdb_next_ok /\ ty c1 = rdb_incomplete /\ in_key n (acc ++ [ch]) c1) c.
Proof.
  intros (Hb & Hst & Hsd & Hacc) Hlt Hch Hty. unfold next_key_, assert_st_, get_key. wp_step.
  rewrite Hst, Hsd. split; [done|]. wp_step. rewrite key_char_not_sep, Hch by done. cbn [negb key_len].
  pose proof Hb as (Hl & Hm & _). rewrite decide_True by lia. wp_step. rewrite wp_set_out by lia. wp_step.
  destruct (buf_snoc n acc ch c) as [H1 H2]; [done..|]. split; [done|]. split; [done|].
  split; [by destruct Hb as (_ & ? & ?)|]. split; [done|].
  split; [by rewrite length_app, Nat.add_1_r|done].
Qed.
Lemma key_chars_no_nul k : forallb Rdb.is_key_ch_ k = true -> no_nul k.
Proof.
  induction k as [|ch k IH]; cbn; intros H; bool_facts; constructor; [|by apply IH]. by intros ->.
Qed.

Lemma in_key_next n acc c ch Q : in_key n acc c ->
  (in_key n acc (with_ty rdb_incomplete c) -> wp (next_key_ ch) Q (with_ty rdb_incomplete c)) ->
  wp (next_st_ pow ch) Q (with_ty rdb_incomplete c).
Proof.
  intros H HQ. pose proof H as (_ & Hst & _). unfold next_st_. wp_step. rdb_simpl. rewrite Hst.
  apply HQ. exact H.
Qed.

Lemma stable_key n acc : stable (in_key n acc).
Proof. by intros p c H. Qed.

Lemma read_key_chars k n acc c rest evs :
  in_key n acc c -> length acc + length k <= n -> forallb Rdb.is_key_ch_ k = true ->
  (forall c1, in_key n (acc ++ k) c1 -> reads_db c1 rest evs) -> reads_db c (k ++ rest) evs.
Proof.
  revert acc c. induction k as [|ch k IH]; intros acc c Hin Hlen Hok Hrest; cbn in *.
  - apply Hrest. by rewrite app_nil_r.
  - bool_facts. eapply (reads_quiet _ _ _ _ (in_key n (acc ++ [ch]))); [apply stable_key| |].
    + eapply in_key_next; [done|]. intros H'. apply key_ch_step; [done|lia|done|done].
    + intros c1 H1. eapply IH; [done|rewrite length_app; cbn; lia|done|].
      intros c2 H2. apply Hrest. by rewrite <- app_assoc in H2.
Qed.

Lemma read_key_colon n acc c rest evs :
  in_key n acc c -> 0 < length acc < n -> no_nul acc ->
  (forall c1, val_wait n c1 -> reads_db c1 rest evs) ->
  reads_db c (ch_colon :: rest) (Db_key acc :: evs).
Proof.
  intros Hin Hlen Hnul Hrest. change (Db_key acc :: evs) with ([Db_key acc] ++ evs).
  eapply reads_step; [apply (stable_wait n)| |exact Hrest].
  eapply in_key_next; [done|]. clear Hin. intros (Hb & Hst & Hsd & Hacc).
  unfold next_key_, assert_st_, get_key. wp_step. rewrite Hst, Hsd. split; [done|]. wp_step. cbn [Z.eqb Pos.eqb orb key_len].
  pose proof Hb as (Hl & Hm & Hn). rewrite decide_True by lia. rewrite decide_True by lia. wp_step.
  rewrite wp_set_out by lia. wp_step. split; [done|]. split.
  - unfold rdb_event_, rdb_cur_ty, rdb_cur_str, reads, getc, mbind, cm_bind. rdb_simpl.
    rewrite (buf_cstr n acc c); [reflexivity|exact Hb|lia|done|done].
  - split; [|done]. split; [|done]. rdb_simpl. by rewrite length_insert.
Qed.

Lemma key_first_not_special x :
  Rdb.is_key_ch_ x = true -> is_digit_ x || (x =? ch_minus)%Z || (x =? ch_dot)%Z = false ->
  forall c, Rdb.got_key c = false -> next_idle_switch_ pow c x = (set_st_ st_key_ ;; next_key_ x).
Proof.
  intros Hk Hf c Hg. unfold next_idle_switch_. bool_facts.
  assert (forall y, Rdb.is_key_ch_ y = false -> (x =? y)%Z = false) as Hne.
  { intros y Hy. destruct (Z.eqb_spec x y) as [->|]; [congruence|done]. }
  rewrite H, (proj2 (Z.eqb_neq x ch_minus)), (proj2 (Z.eqb_neq x ch_dot)) by done.
  rewrite !Hne by done. cbn [orb]. by rewrite Hg.
Qed.

Lemma read_key k n c rest evs :
  line_start n c -> key_ok n k = true -> (forall c1, val_wait n c1 -> reads_db c1 rest evs) ->
  reads_db c (k ++ ch_colon :: ch_sp :: rest) (Db_key k :: evs).
Proof.
  intros (Hb & Hst & Hg) Hok Hrest. unfold key_ok in Hok. destruct k as [|x k]; [done|].
  apply andb_true_iff in Hok as [Hok Hlen]. apply andb_true_iff in Hok as [Hx Hk].
  apply bool_decide_eq_true in Hlen. apply negb_true_iff in Hx. pose proof Hk as Hk'.
  cbn [forallb] in Hk. apply andb_true_iff in Hk as [Hkx Hk]. cbn [app length] in *.
  pose proof Hb as (Hl & Hm & Hn).
  eapply (reads_quiet _ _ _ _ (in_key n [x])); [apply stable_key| |].
  - apply idle_start; [done|]. rewrite key_first_not_special by done. wp_step. unfold set_st_. wp_step.
    rewrite wp_set_out by (rdb_simpl; lia). apply (key_ch_step n []); [|cbn; lia|done|done].
    split; [|done]. unfold buf_is. rdb_simpl. by rewrite length_insert.
  - intros c1 H1. eapply (read_key_chars k n [x]); [done|cbn; lia|done|]. intros c2 H2.
    eapply read_key_colon; [exact H2|cbn; lia| |].
    + apply (key_chars_no_nul (x :: k)). done.
    + intros c3 H3. by eapply read_space.
Qed.

(** *** Strings *)
Lemma stable_dstr n acc e : stable (in_dstr n acc e).
Proof. by intros p c H. Qed.
Lemma stable_long n acc e k : stable (in_long n acc e k).
Proof. by intros p c H. Qed.

Lemma read_quote_open n c rest evs :
  val_wait n c -> (forall c1, in_dstr n [] false c1 -> reads_db c1 rest evs) ->
  reads_db c (ch_quote :: rest) evs.
Proof.
  intros (Hb & Hst & Hv) Hrest. pose proof Hb as (Hl & Hm & Hn).
  eapply reads_quiet; [apply (stable_dstr n [] false)| |exact Hrest].
  apply idle_start; [done|]. unfold next_idle_switch_. cbn -[is_val_expected].
  change (is_val_expected (with_ty rdb_incomplete c)) with (is_val_expected c). rewrite Hv.
  wp_step. unfold set_st_. wp_step. rewrite wp_set_out by (rdb_simpl; lia). wp_step.
  split; [done|]. split; [done|]. split; [|done]. unfold buf_is. rdb_simpl. by rewrite length_insert.
Qed.

(** A character inside a string, the state being known. *)
Lemma in_dstr_next n acc e c ch Q : in_dstr n acc e c ->
  ((ch <=? 31) || (127 <=? ch))%Z && negb (ch =? ch_tab)%Z = false ->
  wp (next_str_ch_ (with_ty rdb_incomplete c) {| str_len := length acc; str_is_escape := e |} ch) Q
    (with_ty rdb_incomplete c) ->
  wp (next_st_ pow ch) Q (with_ty rdb_incomplete c).
Proof.
  intros (Hb & Hst & Hsd & Hacc) Hch HQ. unfold next_st_. wp_step. rdb_simpl. rewrite Hst.
  unfold next_str_, assert_st_, get_str. wp_step. rdb_simpl. rewrite Hst, Hsd. split; [done|]. wp_step.
  rewrite Hch. exact HQ.
Qed.

Lemma str_add_step n acc ch c :
  in_dstr n acc false c -> length acc < n -> ty c = rdb_incomplete ->
  wp (str_add_ {| str_len := length acc; str_is_escape := false |} ch)
    (fun r c1 => r = rdb_next_ok /\ ty c1 = rdb_incomplete /\ in_dstr n (acc ++ [ch]) false c1) c.
Proof.
  intros (Hb & Hst & Hsd & Hacc) Hlt Hty. pose proof Hb as (Hl & Hm & Hn). unfold str_add_. wp_step.
  cbn [str_len str_is_escape]. rewrite decide_True by lia. wp_step. rewrite wp_set_out by lia. wp_step.
  destruct (buf_snoc n acc ch c) as [H1 H2]; [done..|]. split; [done|]. split; [done|].
  split; [by unfold buf_is; rdb_simpl; rewrite length_insert|]. split; [done|].
  split; [by rewrite length_app, Nat.add_1_r|done].
Qed.

(** The characters both sides handle, as the two switches see them. *)
Lemma dchar_range ch : dchar_ok ch = true ->
  (32 <= ch <= 126 /\ ch <> ch_bslash \/ ch = ch_tab \/ ch = ch_lf \/ ch = ch_cr)%Z.
Proof.
  unfold dchar_ok. intros H. repeat (apply orb_true_iff in H as [H|H]); bool_facts; auto.
Qed.

Lemma not_control ch : (32 <= ch <= 126)%Z \/ ch = ch_tab ->
  ((ch <=? 31) || (127 <=? ch))%Z && negb (ch =? ch_tab)%Z = false.
Proof.
  intros [H| ->]; [|done]. by rewrite (proj2 (Z.leb_gt ch 31)), (proj2 (Z.leb_gt 127 ch)) by lia.
Qed.

(** A backslash and the character it escapes. *)
Lemma read_escaped n acc c x rest evs :
  in_dstr n acc false c -> length acc < n -> (32 <= x <= 126)%Z ->
  (forall c1, in_dstr n (acc ++ [escape_ch_ x]) false c1 -> reads_db c1 rest evs) ->
  reads_db c ([ch_bslash; x] ++ rest) evs.
Proof.
  intros Hin Hlt Hx Hrest. eapply (reads_quiet _ _ _ _ (in_dstr n acc true)); [apply stable_dstr| |].
  - eapply in_dstr_next; [done|apply not_control; lia|]. unfold next_str_ch_. cbn. wp_step.
    destruct Hin as (Hb & Hst & Hsd & Hacc). done.
  - intros c1 H1. eapply (reads_quiet _ _ _ _ (in_dstr n (acc ++ [escape_ch_ x]) false)); [apply stable_dstr| |done].
    eapply in_dstr_next; [done|apply not_control; lia|].
    unfold next_str_ch_. cbn [negb str_is_escape str_len]. wp_step.
    apply str_add_step; [|done|done]. destruct H1 as (Hb & Hst & Hsd & Hacc). done.
Qed.

(** One character of a string, with its backslash if it has one. *)
Lemma read_dchar n acc c ch e ch' rest evs :
  in_dstr n acc false c -> length acc < n -> dchar_ok ch = true -> str_switch_ ch = Some (e, ch') ->
  (forall c1, in_dstr n (acc ++ [ch]) false c1 -> reads_db c1 rest evs) ->
  reads_db c ((if e then [ch_bslash; ch'] else [ch']) ++ rest) evs.
Proof.
  intros Hin Hlt Hok Hsw Hrest. apply dchar_range in Hok.
  assert (forall x, (32 <= x <= 126)%Z -> escape_ch_ x = ch -> reads_db c ([ch_bslash; x] ++ rest) evs) as Hesc.
  { intros x Hx <-. by eapply read_escaped. }
  unfold str_switch_ in Hsw.
  destruct (Z.eqb_spec ch ch_quote) as [->|Hq]; [injection Hsw as <- <-; by apply Hesc|].
  destruct (Z.eqb_spec ch ch_lf) as [->|Hlf]; [injection Hsw as <- <-; by apply Hesc|].
  destruct (Z.eqb_spec ch ch_cr) as [->|Hcr]; [injection Hsw as <- <-; by apply Hesc|].
  assert ((32 <= ch <= 126)%Z \/ ch = ch_tab) as Hr by lia. rewrite (not_control ch Hr) in Hsw.
  injection Hsw as <- <-. eapply (reads_quiet _ _ _ _ (in_dstr n (acc ++ [ch]) false)); [apply stable_dstr| |done].
  eapply in_dstr_next; [done|by apply not_control|].
  unfold next_str_ch_. cbn [negb str_is_escape str_len].
  rewrite (proj2 (Z.eqb_neq ch ch_quote)), (proj2 (Z.eqb_neq ch ch_bslash)) by lia.
  apply str_add_step; [exact Hin|done|done].
Qed.

Lemma read_dchars s u n acc c rest evs :
  in_dstr n acc false c -> length acc + length s <= n -> forallb dchar_ok s = true ->
  loop_text str_switch_ s = Some u ->
  (forall c1, in_dstr n (acc ++ s) false c1 -> reads_db c1 rest evs) -> reads_db c (u ++ rest) evs.
Proof.
  revert acc c u. induction s as [|ch s IH]; intros acc c u Hin Hlen Hok Hu Hrest; cbn in *.
  - injection Hu as <-. apply Hrest. by rewrite app_nil_r.
  - apply andb_true_iff in Hok as [Hch Hok]. destruct (str_switch_ ch) as [[e ch']|] eqn:Hsw; [|done].
    destruct (loop_text str_switch_ s) as [u'|] eqn:Hu'; [|done]. injection Hu as <-.
    rewrite <- app_assoc. eapply read_dchar; [done|lia|done|done|]. intros c1 H1.
    eapply IH; [done|rewrite length_app; cbn; lia|done|done|]. intros c2 H2. apply Hrest.
    by rewrite <- app_assoc in H2.
Qed.

Lemma dchars_no_nul s : forallb dchar_ok s = true -> no_nul s.
Proof.
  induction s as [|ch s IH]; cbn; intros H; bool_facts; constructor; [|by apply IH]. by intros ->.
Qed.

Lemma read_quote_close n acc c rest evs :
  in_dstr n acc false c -> length acc < n -> no_nul acc ->
  (forall c1, after_val n c1 -> reads_db c1 rest evs) ->
  reads_db c (ch_quote :: rest) (Db_str acc :: evs).
Proof.
  intros Hin Hlt Hnul Hrest. change (Db_str acc :: evs) with ([Db_str acc] ++ evs).
  eapply reads_step; [apply (stable_after n)| |exact Hrest].
  eapply in_dstr_next; [done|done|]. unfold next_str_ch_. cbn [negb Z.eqb Pos.eqb str_is_escape str_len].
  destruct Hin as (Hb & Hst & Hsd & Hacc). pose proof Hb as (Hl & Hm & Hn).
  rewrite decide_True by (rdb_simpl; lia). wp_step. rewrite wp_set_out by (rdb_simpl; lia). wp_step.
  unfold str_done_. wp_step. split; [done|]. split.
  - unfold rdb_event_, rdb_cur_ty, rdb_cur_str, reads, getc, mbind, cm_bind. rdb_simpl.
    rewrite (buf_cstr n acc c); [reflexivity|done..].
  - split; [|done]. unfold buf_is. rdb_simpl. by rewrite length_insert.
Qed.

(** *** Multi-line strings *)
Lemma not_control_long ch : (32 <= ch <= 126)%Z \/ ch = ch_tab \/ ch = ch_lf ->
  ((ch <=? 31) || (127 <=? ch))%Z && negb (ch =? ch_tab)%Z && negb (ch =? ch_lf)%Z = false.
Proof.
  intros [H|[-> | ->]]; [|done|done].
  by rewrite (proj2 (Z.leb_gt ch 31)), (proj2 (Z.leb_gt 127 ch)) by lia.
Qed.

Lemma in_long_next n acc e k c ch Q : in_long n acc e k c ->
  (32 <= ch <= 126)%Z \/ ch = ch_tab \/ ch = ch_lf ->
  wp (next_long_str_ch_ {| long_len := length acc; long_is_escape := e; skip_whitespace := false;
                           keep_last_newline := k |} ch) Q (with_ty rdb_incomplete c) ->
  wp (next_st_ pow ch) Q (with_ty rdb_incomplete c).
Proof.
  intros (Hb & Hst & Hsd & Hacc) Hch HQ. unfold next_st_. wp_step. rdb_simpl. rewrite Hst.
  unfold next_long_str_, assert_st_, get_long_str. wp_step. rdb_simpl. rewrite Hst, Hsd. split; [done|].
  wp_step. by rewrite not_control_long.
Qed.

Lemma long_add_step n acc ch c k :
  in_long n acc false k c -> length acc < n -> ty c = rdb_incomplete ->
  wp (long_str_add_ {| long_len := length acc; long_is_escape := false; skip_whitespace := false;
                       keep_last_newline := k |} ch)
    (fun r c1 => r = rdb_next_ok /\ ty c1 = rdb_incomplete /\ in_long n (acc ++ [ch]) false k c1) c.
Proof.
  intros (Hb & Hst & Hsd & Hacc) Hlt Hty. pose proof Hb as (Hl & Hm & Hn). unfold long_str_add_. wp_step.
  cbn [long_len long_is_escape keep_last_newline]. rewrite decide_True by lia. wp_step.
  rewrite wp_set_out by lia. wp_step.
  destruct (buf_snoc n acc ch c) as [H1 H2]; [done..|]. split; [done|]. split; [done|].
  split; [by unfold buf_is; rdb_simpl; rewrite length_insert|]. split; [done|].
  split; [by rewrite length_app, Nat.add_1_r|done].
Qed.

(** A character stored as it is; the newline rule is then reset. *)
Lemma read_long_plain n acc k c ch rest evs :
  in_long n acc false k c -> length acc < n -> (32 <= ch <= 126)%Z \/ ch = ch_tab \/ ch = ch_lf ->
  ch <> ch_gt -> ch <> ch_bslash ->
  (forall c1, in_long n (acc ++ [ch]) false false c1 -> reads_db c1 rest evs) ->
  reads_db c (ch :: rest) evs.
Proof.
  intros Hin Hlt Hr Hgt Hbs Hrest.
  eapply (reads_quiet _ _ _ _ (in_long n (acc ++ [ch]) false false)); [apply stable_long| |done].
  eapply in_long_next; [done|done|]. unfold next_long_str_ch_.
  cbn [negb long_is_escape long_len skip_whitespace keep_last_newline].
  rewrite (proj2 (Z.eqb_neq ch ch_gt)), (proj2 (Z.eqb_neq ch ch_bslash)) by done.
  rewrite andb_false_r. wp_step. apply long_add_step; [|done|done].
  destruct Hin as (Hb & Hst & Hsd & Hacc). done.
Qed.

Lemma read_long_char n acc k c ch e ch' rest evs :
  in_long n acc false k c -> length acc < n -> dchar_ok ch = true -> long_str_switch_ ch = Some (e, ch') ->
  (forall c1, in_long n (acc ++ [ch]) false false c1 -> reads_db c1 rest evs) ->
  reads_db c ((if e then [ch_bslash; ch'] else [ch']) ++ rest) evs.
Proof.
  intros Hin Hlt Hok Hsw Hrest. apply dchar_range in Hok.
  assert (forall x, (32 <= x <= 126)%Z -> escape_ch_ x = ch -> ch <> ch_lf ->
    reads_db c ([ch_bslash; x] ++ rest) evs) as Hesc.
  { intros x Hx Hex Hnl. eapply (reads_quiet _ _ _ _ (in_long n acc true k)); [apply stable_long| |].
    - eapply in_long_next; [done|lia|]. unfold next_long_str_ch_. cbn. wp_step.
      destruct Hin as (Hb & Hst & Hsd & Hacc). done.
    - intros c1 H1. eapply (reads_quiet _ _ _ _ (in_long n (acc ++ [ch]) false false)); [apply stable_long| |done].
      eapply in_long_next; [done|lia|]. unfold next_long_str_ch_.
      cbn [negb long_is_escape long_len skip_whitespace keep_last_newline]. wp_step. rewrite Hex.
      rewrite (proj2 (Z.eqb_neq ch ch_lf)) by done. apply long_add_step; [|done|done].
      destruct H1 as (Hb & Hst & Hsd & Hacc). done. }
  unfold long_str_switch_ in Hsw.
  destruct (Z.eqb_spec ch ch_lt) as [->|Hq]; [injection Hsw as <- <-; by apply Hesc|].
  destruct (Z.eqb_spec ch ch_gt) as [->|Hg]; [injection Hsw as <- <-; by apply Hesc|]. cbn [orb] in Hsw.
  destruct (Z.eqb_spec ch ch_cr) as [->|Hcr]; [injection Hsw as <- <-; by apply Hesc|].
  assert ((32 <= ch <= 126)%Z \/ ch = ch_tab \/ ch = ch_lf) as Hr by lia.
  rewrite (not_control_long ch Hr) in Hsw. injection Hsw as <- <-.
  eapply read_long_plain; [done|done|done|done|lia|done].
Qed.

Lemma read_long_chars s u n acc k c rest evs :
  in_long n acc false k c -> length acc + length s <= n -> forallb dchar_ok s = true ->
  loop_text long_str_switch_ s = Some u ->
  (forall c1 k', in_long n (acc ++ s) false k' c1 -> reads_db c1 rest evs) -> reads_db c (u ++ rest) evs.
Proof.
  revert acc k c u. induction s as [|ch s IH]; intros acc k c u Hin Hlen Hok Hu Hrest; cbn in *.
  - injection Hu as <-. apply (Hrest c k). by rewrite app_nil_r.
  - apply andb_true_iff in Hok as [Hch Hok]. destruct (long_str_switch_ ch) as [[e ch']|] eqn:Hsw; [|done].
    destruct (loop_text long_str_switch_ s) as [u'|] eqn:Hu'; [|done]. injection Hu as <-.
    rewrite <- app_assoc. eapply read_long_char; [done|lia|done|done|]. intros c1 H1.
    eapply IH; [done|rewrite length_app; cbn; lia|done|done|]. intros c2 k' H2. eapply Hrest.
    by rewrite <- app_assoc in H2.
Qed.

(** The opening bracket and the newline after it. *)
Lemma read_long_open n c rest evs :
  val_wait n c -> (forall c1, in_long n [] false true c1 -> reads_db c1 rest evs) ->
  reads_db c (ch_lt :: ch_lf :: rest) evs.
Proof.
  intros (Hb & Hst & Hv) Hrest. pose proof Hb as (Hl & Hm & Hn).
  set (P := fun c => buf_is n c /\ st c = st_long_str_ /\
    sd c = Sd_long_str {| long_len := 0; long_is_escape := false; skip_whitespace := true;
                          keep_last_newline := false |}).
  eapply (reads_quiet _ _ _ _ P); [by intros p c' H| |].
  - apply idle_start; [done|]. unfold next_idle_switch_. cbn -[is_val_expected].
    change (is_val_expected (with_ty rdb_incomplete c)) with (is_val_expected c). rewrite Hv.
    wp_step. unfold set_st_. wp_step. rewrite wp_set_out by (rdb_simpl; lia). wp_step.
    split; [done|]. split; [done|]. split; [|done]. unfold buf_is. rdb_simpl. by rewrite length_insert.
  - intros c1 (Hb1 & Hst1 & Hsd1).
    eapply (reads_quiet _ _ _ _ (in_long n [] false true)); [apply stable_long| |done].
    unfold next_st_. wp_step. rdb_simpl. rewrite Hst1. unfold next_long_str_, assert_st_, get_long_str. wp_step.
    rdb_simpl. rewrite Hst1, Hsd1. split; [done|]. wp_step. cbn. wp_step. done.
Qed.

(** The newline before the closing bracket is dropped. *)
Lemma read_long_close n acc k c rest evs :
  in_long n acc false k c -> length acc < n -> no_nul acc ->
  (forall c1, after_val n c1 -> reads_db c1 rest evs) ->
  reads_db c (ch_lf :: ch_gt :: rest) (Db_str acc :: evs).
Proof.
  intros Hin Hlt Hnul Hrest. eapply read_long_plain; [done|done|lia|done|done|]. clear c k Hin.
  intros c Hin. change (Db_str acc :: evs) with ([Db_str acc] ++ evs).
  eapply reads_step; [apply (stable_after n)| |exact Hrest].
  eapply in_long_next; [done|lia|]. destruct Hin as (Hb & Hst & Hsd & Hacc). pose proof Hb as (Hl & Hm & Hn).
  rewrite length_app in *. cbn [length] in *.
  destruct (take_pred_snoc (str_out c) (length acc + 1) acc ch_lf Hacc) as (_ & Hlast & Htake); [lia|].
  rewrite Nat.add_sub in *.
  unfold next_long_str_ch_, long_str_len_. cbn [negb long_is_escape long_len keep_last_newline Z.eqb Pos.eqb].
  wp_step. rewrite decide_True by lia. rdb_simpl. rewrite Nat.add_sub, Hlast. wp_step. cbn [Z.eqb Pos.eqb andb].
  rewrite decide_True by (rdb_simpl; lia). wp_step. rewrite wp_set_out by (rdb_simpl; lia). wp_step.
  unfold str_done_. wp_step. split; [done|]. split.
  - unfold rdb_event_, rdb_cur_ty, rdb_cur_str, reads, getc, mbind, cm_bind. rdb_simpl.
    rewrite (buf_cstr n acc c); [reflexivity|done..].
  - split; [|done]. unfold buf_is. rdb_simpl. by rewrite length_insert.
Qed.

(** *** Numbers and booleans *)
Definition is_vsep (ch : char) : Prop := ch = ch_comma \/ ch = ch_lf.

(** After a value and the separator [ch]. *)
Definition after_sep n (ch : char) c : Prop := if (ch =? ch_comma)%Z then val_wait n c else line_start n c.

Lemma stable_sep n ch : stable (after_sep n ch).
Proof. intros p c H. unfold after_sep in *. by destruct (ch =? ch_comma)%Z. Qed.

Lemma after_val_sep n c ch rest evs :
  after_val n c -> is_vsep ch -> (forall c1, after_sep n ch c1 -> reads_db c1 rest evs) ->
  reads_db c (ch :: rest) evs.
Proof.
  intros Ha [-> | ->] Hrest; [by eapply read_comma|].
  destruct Ha as (Hb & Hst & _). by eapply read_newline.
Qed.

Lemma reads_same ch rest c c0 evs :
  next_st_ pow ch (with_ty rdb_incomplete c) = next_st_ pow ch (with_ty rdb_incomplete c0) ->
  reads_db c0 (ch :: rest) evs -> reads_db c (ch :: rest) evs.
Proof.
  intros Heq H i. destruct (H i) as [c' Hc']. exists c'. rewrite <- Hc'. cbn [rdb_demo_loop].
  unfold rdb_next, modc, mbind, cm_bind. by rewrite Heq.
Qed.

Definition in_dnum n nd c : Prop := buf_is n c /\ st c = st_num_ /\ sd c = Sd_num nd.

Lemma stable_dnum n nd : stable (in_dnum n nd).
Proof. by intros p c H. Qed.

(** A number without an exponent. *)
Definition plain_num (neg sg ex : bool) (a : double) (p : Z) (pt : num_part_) : sd_num_ :=
  {| is_negative := neg; got_sign := sg; got_int_explicit := ex; num := a; exp_is_negative := false;
     exp := 0; num_pos := p; part := pt |}.

Lemma in_dnum_next n nd c ch Q : in_dnum n nd c ->
  wp (match part nd with
      | num_part_int_ => next_num_int_ ch
      | num_part_frac_ => next_num_frac_ pow ch
      | num_part_exp_ => next_num_exp_ ch
      end) Q (with_sd (Sd_num nd) (with_ty rdb_incomplete c)) ->
  wp (next_st_ pow ch) Q (with_ty rdb_incomplete c).
Proof.
  intros (Hb & Hst & Hsd) HQ. unfold next_st_. wp_step. rdb_simpl. rewrite Hst.
  rewrite (rdb_with_sd_id (with_ty rdb_incomplete c) _ Hsd).
  unfold next_num_, assert_st_. wp_step. rdb_simpl. rewrite Hst. by split.
Qed.

Lemma is_dec_digit d : is_dec d -> is_digit_ d = true.
Proof. unfold is_dec, is_digit_. intros. apply andb_true_iff; split; apply Z.leb_le; lia. Qed.

(** The first character of a number. *)
Lemma db_num_enter n c d rest evs :
  val_wait n c -> is_dec d \/ d = ch_minus ->
  (forall c1, in_dnum n (plain_num false false false (d_of_int 0) 0 num_part_int_) c1 ->
     reads_db c1 (d :: rest) evs) ->
  reads_db c (d :: rest) evs.
Proof.
  intros (Hb & Hst & Hv) Hd Hrest. eapply reads_same; [|apply Hrest].
  2:{ instantiate (1 := with_sd (Sd_num (plain_num false false false (d_of_int 0) 0 num_part_int_))
        (with_got_first_val true (with_st st_num_ c))). done. }
  unfold next_st_ at 1, next_idle_, assert_st_, reads, getc, mbind, cm_bind. rdb_simpl. rewrite Hst.
  rewrite bool_decide_eq_true_2 by done. cbn [assertc]. unfold next_idle_switch_.
  replace (is_digit_ d || (d =? ch_minus)%Z || (d =? ch_plus)%Z || (d =? ch_dot)%Z) with true.
  2:{ destruct Hd as [Hd| ->]; [by rewrite is_dec_digit|done]. }
  unfold mret, cm_ret. change (is_val_expected (with_ty rdb_incomplete c)) with (is_val_expected c).
  rewrite Hv. done.
Qed.

Lemma digit_step n neg sg ex a p c d rest evs :
  in_dnum n (plain_num neg sg ex a p num_part_int_) c -> is_dec d -> (p <> 0 \/ d <> ch_0)%Z ->
  (0 <= p < INT_MAX)%Z ->
  (forall c1, in_dnum n (plain_num neg sg true (acc_digits a [d]) (p + 1) num_part_int_) c1 ->
     reads_db c1 rest evs) ->
  reads_db c (d :: rest) evs.
Proof.
  intros Hin Hd Hz Hp Hrest. eapply reads_quiet; [apply stable_dnum| |exact Hrest].
  eapply in_dnum_next; [done|]. cbn [part plain_num]. unfold next_num_int_. wp_step.
  rewrite is_dec_digit by done. wp_step.
  replace ((num_pos (plain_num neg sg ex a p num_part_int_) =? 0)%Z && (d =? ch_0)%Z) with false.
  2:{ symmetry. apply andb_false_iff. cbn. destruct Hz; [left|right]; by apply Z.eqb_neq. }
  wp_step. rewrite wp_num_pos_incr by (cbn; lia). wp_step. destruct Hin as (Hb & Hst & _). done.
Qed.

Lemma zero_step n neg sg c rest evs :
  in_dnum n (plain_num neg sg false (d_of_int 0) 0 num_part_int_) c ->
  (forall c1, in_dnum n (plain_num neg sg true (d_of_int 0) 0 num_part_int_) c1 -> reads_db c1 rest evs) ->
  reads_db c (ch_0 :: rest) evs.
Proof.
  intros Hin Hrest. eapply reads_quiet; [apply stable_dnum| |exact Hrest].
  eapply in_dnum_next; [done|]. cbn [part plain_num]. unfold next_num_int_. wp_step. cbn. wp_step.
  destruct Hin as (Hb & Hst & _). done.
Qed.

Lemma dminus_step n c rest evs :
  in_dnum n (plain_num false false false (d_of_int 0) 0 num_part_int_) c ->
  (forall c1, in_dnum n (plain_num true true false (d_of_int 0) 0 num_part_int_) c1 -> reads_db c1 rest evs) ->
  reads_db c (ch_minus :: rest) evs.
Proof.
  intros Hin Hrest. eapply reads_quiet; [apply stable_dnum| |exact Hrest].
  eapply in_dnum_next; [done|]. cbn [part plain_num]. unfold next_num_int_. wp_step. cbn. wp_step.
  destruct Hin as (Hb & Hst & _). done.
Qed.

Lemma digits_step ds n neg sg a p c rest evs :
  in_dnum n (plain_num neg sg true a p num_part_int_) c -> Forall is_dec ds -> (0 < p)%Z ->
  (p + Z.of_nat (length ds) < INT_MAX)%Z ->
  (forall c1, in_dnum n (plain_num neg sg true (acc_digits a ds) (p + Z.of_nat (length ds)) num_part_int_) c1 ->
     reads_db c1 rest evs) ->
  reads_db c (ds ++ rest) evs.
Proof.
  revert a p c. induction ds as [|d ds IH]; intros a p c Hin Hds Hp Hmax Hrest; cbn [app length] in *.
  - apply Hrest. cbn. by rewrite Z.add_0_r.
  - apply Forall_cons_iff in Hds as [Hd Hds]. eapply digit_step; [done|done|lia|lia|].
    intros c1 H1. eapply IH; [done|done|lia|lia|]. intros c2 H2. apply Hrest.
    by replace (p + Z.of_nat (S (length ds)))%Z with (p + 1 + Z.of_nat (length ds))%Z by lia.
Qed.

(** The digits of a nonnegative integer. *)
Lemma read_nat n neg sg m c rest evs :
  in_dnum n (plain_num neg sg false (d_of_int 0) 0 num_part_int_) c -> (0 <= m)%Z ->
  length (print_nat m) < 100 ->
  (forall c1, in_dnum n (plain_num neg sg true (acc_digits (d_of_int 0) (nat_digits m))
      (Z.of_nat (length (nat_digits m))) num_part_int_) c1 -> reads_db c1 rest evs) ->
  reads_db c (print_nat m ++ rest) evs.
Proof.
  intros Hin Hm Hlen Hrest. unfold nat_digits in Hrest. destruct (Z.eqb_spec m 0) as [->|Hnz].
  - by eapply zero_step.
  - destruct (print_nat_spec m Hm) as (Hd & _ & _ & d & ds & E & Hne). rewrite E in *.
    apply Forall_cons_iff in Hd as [Hd Hds]. cbn [app length] in *.
    eapply digit_step; [done|done|lia|unfold INT_MAX; lia|]. intros c1 H1.
    eapply digits_step; [done|done|lia|unfold INT_MAX; lia|]. intros c2 H2. apply Hrest.
    by replace (Z.of_nat (S (length ds))) with (0 + 1 + Z.of_nat (length ds))%Z by lia.
Qed.

(** The separator after a number. *)
Lemma num_end_step n neg sg ex a p pt c ch rest evs :
  in_dnum n (plain_num neg sg ex a p pt) c -> is_vsep ch ->
  (pt = num_part_int_ /\ (0 < p \/ sg = false)%Z \/ pt = num_part_frac_ /\ (2 <= p)%Z) ->
  (forall c1, after_sep n ch c1 -> reads_db c1 rest evs) ->
  reads_db c (ch :: rest) (Db_num (signed neg a) :: evs).
Proof.
  intros Hin Hsep Hpt Hrest. change (Db_num (signed neg a) :: evs) with ([Db_num (signed neg a)] ++ evs).
  eapply reads_step; [apply (stable_sep n ch)| |exact Hrest].
  eapply in_dnum_next; [done|]. destruct Hin as (Hb & Hst & _).
  assert (wp (val_done_ rdb_num ch) (fun r c1 => r = rdb_next_ok /\
    rdb_event_ pow c1 = Ret ([Db_num (signed neg a)], c1) /\ after_sep n ch c1)
    (with_sd (Sd_num (plain_num neg sg ex a p pt)) (with_ty rdb_incomplete c))) as Hdone.
  { unfold val_done_. wp_step. destruct Hsep as [-> | ->]; (split; [done|]); split; done. }
  assert (is_digit_ ch = false /\ (ch =? ch_minus)%Z || (ch =? ch_plus)%Z = false /\ (ch =? ch_dot)%Z = false /\
    (ch =? ch_e)%Z || (ch =? ch_E)%Z = false /\ is_separator_ ch = true) as (E1 & E2 & E3 & E4 & E5)
    by (by destruct Hsep as [-> | ->]).
  destruct Hpt as [[-> Hp]|[-> Hp]]; cbn [part plain_num].
  - unfold next_num_int_. wp_step. rewrite E1, E2, E3, E4, E5. cbn [num_pos got_sign plain_num].
    replace ((0 <? p)%Z || negb sg) with true; [exact Hdone|].
    destruct Hp as [Hp| ->]; [by rewrite (proj2 (Z.ltb_lt 0 p))|by rewrite orb_true_r].
  - unfold next_num_frac_. wp_step. rewrite E1, E4, E5. cbn [num_pos got_int_explicit plain_num].
    rewrite (proj2 (Z.leb_le 2 p)) by done. exact Hdone.
Qed.

Lemma read_int_val n z c ch rest evs :
  val_wait n c -> (- 2 ^ 63 <= z < 2 ^ 63)%Z -> is_vsep ch ->
  (forall c1, after_sep n ch c1 -> reads_db c1 rest evs) ->
  reads_db c (print_int z ++ ch :: rest) (Db_num (read_int z) :: evs).
Proof.
  intros Hw Hz Hsep Hrest. unfold print_int, read_int.
  assert (forall m, (0 <= m <= 2 ^ 63)%Z -> length (print_nat m) < 100) as Hlen.
  { intros m Hm. pose proof (print_nat_length10 m 20) as H. specialize (H ltac:(lia) ltac:(lia)). lia. }
  destruct (Z.ltb_spec z 0) as [Hneg|Hpos]; cbn [app].
  - eapply db_num_enter; [done|by right|]. intros c1 H1. eapply dminus_step; [done|]. intros c2 H2.
    rewrite Z.abs_neq by lia. eapply read_nat; [done|lia|apply Hlen; lia|]. intros c3 H3.
    eapply num_end_step; [exact H3|done| |done]. left. split; [done|]. left.
    unfold nat_digits. rewrite (proj2 (Z.eqb_neq (- z) 0)) by lia.
    destruct (print_nat_spec (- z)) as (_ & _ & _ & d & ds & -> & _); [lia|]. cbn. lia.
  - rewrite Z.abs_eq by lia.
    destruct (print_nat_spec z) as (Hd & _ & _ & d & ds & E & _); [lia|].
    assert (forall c1, in_dnum n (plain_num false false false (d_of_int 0) 0 num_part_int_) c1 ->
      reads_db c1 (print_nat z ++ ch :: rest)
        (Db_num (signed false (acc_digits (d_of_int 0) (nat_digits z))) :: evs)) as Hk.
    { intros c1 H1. eapply read_nat; [done|lia|apply Hlen; lia|]. intros c3 H3.
      eapply num_end_step; [exact H3|done| |done]. left. split; [done|by right]. }
    rewrite E in *. apply Forall_cons_iff in Hd as [Hd _]. cbn [app] in *. eapply db_num_enter; [done|by left|done].
Qed.

Lemma point_step n neg sg a p c rest evs :
  in_dnum n (plain_num neg sg true a p num_part_int_) c ->
  (forall c1, in_dnum n (plain_num neg sg true a 1 num_part_frac_) c1 -> reads_db c1 rest evs) ->
  reads_db c (ch_dot :: rest) evs.
Proof.
  intros Hin Hrest. eapply reads_quiet; [apply stable_dnum| |exact Hrest].
  eapply in_dnum_next; [done|]. cbn [part plain_num]. unfold next_num_int_. wp_step. cbn. wp_step.
  destruct Hin as (Hb & Hst & _). done.
Qed.

Lemma frac_step ds n neg sg a p c rest evs :
  in_dnum n (plain_num neg sg true a p num_part_frac_) c -> Forall is_dec ds -> (1 <= p)%Z ->
  (p + Z.of_nat (length ds) < INT_MAX)%Z ->
  (forall c1, in_dnum n (plain_num neg sg true (acc_frac a p ds) (p + Z.of_nat (length ds)) num_part_frac_) c1 ->
     reads_db c1 rest evs) ->
  reads_db c (ds ++ rest) evs.
Proof.
  revert a p c. induction ds as [|d ds IH]; intros a p c Hin Hds Hp Hmax Hrest; cbn [app length acc_frac] in *.
  - apply Hrest. cbn. by rewrite Z.add_0_r.
  - apply Forall_cons_iff in Hds as [Hd Hds]. eapply (reads_quiet _ _ _ _ (in_dnum n (plain_num neg sg true
      (dadd a (dmul (d_of_int (d - ch_0)) (pow (d_of_int 10) (d_of_int (- p))))) (p + 1) num_part_frac_)));
      [apply stable_dnum| |].
    + eapply in_dnum_next; [done|]. cbn [part plain_num]. unfold next_num_frac_. wp_step.
      rewrite is_dec_digit by done. wp_step. rewrite wp_num_pos_incr by (cbn; lia). wp_step.
      split; [done|]. split; [done|]. destruct Hin as (Hb & Hst & _). split; [exact Hb|].
      split; [exact Hst|]. reflexivity.
    + intros c1 H1. eapply IH; [exact H1|done|lia|lia|]. intros c2 H2. apply Hrest.
      by replace (p + Z.of_nat (S (length ds)))%Z with (p + 1 + Z.of_nat (length ds))%Z by lia.
Qed.

Lemma pad6_spec m : (0 <= m < 10 ^ 6)%Z -> Forall is_dec (pad6 m) /\ length (pad6 m) = 6.
Proof.
  intros Hm. destruct (print_nat_spec m) as (Hd & _); [lia|].
  pose proof (print_nat_length10 m 6) as Hl. specialize (Hl ltac:(lia) ltac:(lia)). unfold pad6. split.
  - apply Forall_app; split; [|done]. apply Forall_replicate. unfold is_dec. lia.
  - rewrite length_app, length_replicate. lia.
Qed.

Lemma read_fixed_val n (neg : bool) m c ch rest evs :
  val_wait n c -> (0 <= m)%Z -> length (print_fixed6 m) < 100 -> is_vsep ch ->
  (forall c1, after_sep n ch c1 -> reads_db c1 rest evs) ->
  reads_db c (((if neg then [ch_minus] else []) ++ print_fixed6 m) ++ ch :: rest)
    (Db_num (read_fixed neg m) :: evs).
Proof.
  intros Hw Hm Hlen Hsep Hrest. unfold print_fixed6, read_fixed in *. rewrite length_app in Hlen.
  assert (0 <= m / 10 ^ 6)%Z as Hq by (apply Z.div_pos; lia).
  destruct (pad6_spec (m mod 10 ^ 6)) as [Hpad Hl6]; [apply Z.mod_pos_bound; lia|].
  assert (forall sg c1, in_dnum n (plain_num neg sg false (d_of_int 0) 0 num_part_int_) c1 ->
    reads_db c1 (print_nat (m / 10 ^ 6) ++ ch_dot :: pad6 (m mod 10 ^ 6) ++ ch :: rest)
      (Db_num (signed neg (acc_frac (acc_digits (d_of_int 0) (nat_digits (m / 10 ^ 6))) 1 (pad6 (m mod 10 ^ 6)))) :: evs)) as Hk.
  { intros sg c1 H1. eapply read_nat; [exact H1|done|lia|]. intros c2 H2. eapply point_step; [exact H2|].
    intros c3 H3. eapply frac_step; [exact H3|done|lia|unfold INT_MAX; lia|]. intros c4 H4.
    eapply num_end_step; [exact H4|done| |done]. right. split; [done|lia]. }
  rewrite <- !app_assoc. cbn [app]. destruct neg; cbn [app].
  - eapply db_num_enter; [done|by right|]. intros c1 H1. eapply dminus_step; [done|]. apply Hk.
  - destruct (print_nat_spec (m / 10 ^ 6)) as (Hd & _ & _ & d & ds & E & _); [done|].
    specialize (Hk false). rewrite E in *. apply Forall_cons_iff in Hd as [Hd _]. cbn [app] in *.
    eapply db_num_enter; [done|by left|done].
Qed.

(** *** Booleans *)
Definition in_bool n (w : list char) c : Prop := buf_is n c /\ st c = st_bool_ /\ sd c = Sd_bool {| word := w |}.

Lemma read_word (w v : list char) n c ch rest evs :
  in_bool n v c -> length v + length w <= 6 -> forallb (fun x => negb (is_separator_ x)) w = true ->
  (forall c1, in_bool n (v ++ w) c1 -> reads_db c1 (ch :: rest) evs) ->
  reads_db c (w ++ ch :: rest) evs.
Proof.
  revert v c. induction w as [|x w IH]; intros v c (Hb & Hst & Hsd) Hlen Hw Hrest; cbn [app length forallb] in *.
  - apply Hrest. by rewrite app_nil_r.
  - apply andb_true_iff in Hw as [Hx Hw]. apply negb_true_iff in Hx.
    eapply (reads_quiet _ _ _ _ (in_bool n (v ++ [x]))); [by intros p c' H| |].
    + unfold next_st_. wp_step. rdb_simpl. rewrite Hst. unfold next_bool_, assert_st_, get_bool. wp_step.
      rdb_simpl. rewrite Hst, Hsd. split; [done|]. wp_step. cbn [word]. rewrite Hx, decide_True by lia.
      wp_step. done.
    + intros c1 H1. eapply IH; [exact H1|rewrite length_app; cbn; lia|done|].
      intros c2 H2. apply Hrest. by rewrite <- app_assoc in H2.
Qed.

Lemma read_bool_val n (b : bool) c ch rest evs :
  val_wait n c -> is_vsep ch -> (forall c1, after_sep n ch c1 -> reads_db c1 rest evs) ->
  reads_db c ((if b then lit "true" else lit "false") ++ ch :: rest) (Db_bool b :: evs).
Proof.
  intros (Hb & Hst & Hv) Hsep Hrest.
  assert (forall c1, in_bool n (if b then lit "true" else lit "false") c1 ->
    reads_db c1 (ch :: rest) (Db_bool b :: evs)) as Hend.
  { intros c1 (Hb1 & Hst1 & Hsd1). change (Db_bool b :: evs) with ([Db_bool b] ++ evs).
    eapply reads_step; [apply (stable_sep n ch)| |exact Hrest].
    unfold next_st_. wp_step. rdb_simpl. rewrite Hst1. unfold next_bool_, assert_st_, get_bool. wp_step.
    rdb_simpl. rewrite Hst1, Hsd1. split; [done|]. wp_step.
    replace (is_separator_ ch) with true by (by destruct Hsep as [-> | ->]).
    destruct b; cbn [word]; unfold val_done_; cbn [length lit map]; cbn -[after_sep with_ty]; wp_step;
      (destruct Hsep as [-> | ->]; (split; [done|]); (split; [|done]));
      unfold rdb_event_, rdb_cur_ty, rdb_cur_is_true, get_bool, reads, getc, mbind, cm_bind; rdb_simpl;
      by rewrite Hsd1. }
  set (c0 := with_sd (Sd_bool {| word := [] |}) (with_got_first_val true (with_st st_bool_ c))).
  assert (reads_db c0 ((if b then lit "true" else lit "false") ++ ch :: rest) (Db_bool b :: evs)) as H0.
  { eapply (read_word _ []); [done|by destruct b; cbn; lia|by destruct b|exact Hend]. }
  assert (Rdb.got_key c = true) as Hk.
  { unfold is_val_expected in Hv. by destruct (Rdb.got_key c). }
  destruct b; (eapply reads_same; [|exact H0]);
    unfold next_st_ at 1, next_idle_, assert_st_, reads, getc, mbind, cm_bind; rdb_simpl; rewrite Hst;
    rewrite bool_decide_eq_true_2 by done; cbn [assertc]; unfold next_idle_switch_; cbn -[is_val_expected next_st_];
    rewrite Hk; change (is_val_expected (with_ty rdb_incomplete c)) with (is_val_expected c); rewrite Hv; done.
Qed.

(** *** Values, entries, databases *)
Definition val_text (v : dval) : list char := default [] (value_text (val_op v)).

Lemma loop_text_str s : forallb dchar_ok s = true -> exists u, loop_text str_switch_ s = Some u.
Proof.
  induction s as [|ch s IH]; cbn; [eauto|]. intros H. apply andb_true_iff in H as [Hch Hs].
  destruct (IH Hs) as [u ->]. apply dchar_range in Hch. unfold str_switch_.
  destruct (Z.eqb_spec ch ch_quote); [eauto|]. destruct (Z.eqb_spec ch ch_lf); [eauto|].
  destruct (Z.eqb_spec ch ch_cr); [eauto|]. rewrite not_control by lia. eauto.
Qed.

Lemma loop_text_long s : forallb dchar_ok s = true -> exists u, loop_text long_str_switch_ s = Some u.
Proof.
  induction s as [|ch s IH]; cbn; [eauto|]. intros H. apply andb_true_iff in H as [Hch Hs].
  destruct (IH Hs) as [u ->]. apply dchar_range in Hch. unfold long_str_switch_.
  destruct (_ || _); [eauto|]. destruct (Z.eqb_spec ch ch_cr); [eauto|].
  rewrite not_control_long by lia. eauto.
Qed.

Lemma val_text_some n v : val_ok n v = true -> value_text (val_op v) = Some (val_text v).
Proof.
  unfold val_text. destruct v as [s|s|z|d|b]; cbn; intros H; try done; unfold dstr_ok in H;
    apply andb_true_iff in H as [H _].
  - by destruct (loop_text_str s H) as [u ->].
  - by destruct (loop_text_long s H) as [u ->].
Qed.

Lemma millionths_nonneg m e : (0 <= millionths m e)%Z.
Proof.
  unfold millionths. destruct (Z.leb_spec 0 e).
  - pose proof (Z.pow_nonneg 2 e ltac:(lia)). lia.
  - apply div_half_even_nonneg; [lia|]. apply Z.pow_pos_nonneg; lia.
Qed.

Lemma read_value n v c ch rest evs :
  val_wait n c -> val_ok n v = true -> is_vsep ch ->
  (forall c1, after_sep n ch c1 -> reads_db c1 rest evs) ->
  reads_db c (val_text v ++ ch :: rest) (val_event v :: evs).
Proof.
  intros Hw Hok Hsep Hrest. pose proof (val_text_some n v Hok) as Ht.
  destruct v as [s|s|z|d|b]; cbn [val_ok val_op value_text val_event] in *.
  - unfold dstr_ok in Hok. apply andb_true_iff in Hok as [Hs Hlen]. apply bool_decide_eq_true in Hlen.
    destruct (loop_text str_switch_ s) as [u|] eqn:Hu; [|done]. injection Ht as <-. cbn [app].
    rewrite <- app_assoc. cbn [app]. eapply read_quote_open; [done|]. intros c1 H1.
    eapply (read_dchars s u); [done|cbn; lia|done|done|]. intros c2 H2.
    eapply read_quote_close; [done|done|by apply dchars_no_nul|]. intros c3 H3. by eapply after_val_sep.
  - unfold dstr_ok in Hok. apply andb_true_iff in Hok as [Hs Hlen]. apply bool_decide_eq_true in Hlen.
    destruct (loop_text long_str_switch_ s) as [u|] eqn:Hu; [|done]. injection Ht as <-. cbn [app].
    rewrite <- app_assoc. cbn [app]. eapply read_long_open; [done|]. intros c1 H1.
    eapply (read_long_chars s u); [done|cbn; lia|done|done|]. intros c2 k' H2.
    eapply read_long_close; [done|done|by apply dchars_no_nul|]. intros c3 H3. by eapply after_val_sep.
  - bool_facts. change (val_text (V_int z)) with (print_int z). eapply read_int_val; [done|lia|done|done].
  - apply andb_true_iff in Hok as [Hfin Hlen]. apply bool_decide_eq_true in Hlen.
    change (val_text (V_num d)) with (print_double d).
    destruct d as [sg|sg| |sg m e]; try done; cbn [print_double] in *; rewrite length_app in Hlen.
    + eapply read_fixed_val; [done|lia|lia|done|done].
    + eapply read_fixed_val; [done|apply millionths_nonneg|lia|done|done].
  - by eapply read_bool_val.
Qed.

Definition entry_text (e : entry) : list char :=
  e_key e ++ lit ": " ++ val_text (e_val e) ++ (map val_text (e_vals e) ≫= fun t => lit ", " ++ t).

Lemma read_values vs v n c rest evs :
  val_wait n c -> val_ok n v = true -> forallb (val_ok n) vs = true ->
  (forall c1, line_start n c1 -> reads_db c1 rest evs) ->
  reads_db c (val_text v ++ (map val_text vs ≫= fun t => lit ", " ++ t) ++ ch_lf :: rest)
    (val_event v :: map val_event vs ++ evs).
Proof.
  revert v c. induction vs as [|v' vs IH]; intros v c Hw Hv Hvs Hrest; cbn [forallb map] in *.
  - eapply read_value; [done|done|by right|done].
  - apply andb_true_iff in Hvs as [Hv' Hvs].
    change ((val_text v' :: map val_text vs) ≫= ?f) with (f (val_text v') ++ (map val_text vs ≫= f)).
    rewrite <- !app_assoc. change (lit ", ") with [ch_comma; ch_sp]. cbn [app].
    eapply read_value; [done|done|by left|]. intros c1 H1. eapply read_space; [exact H1|].
    intros c2 H2. by eapply IH.
Qed.

Lemma read_entry e n c rest evs :
  line_start n c -> entry_ok n e = true -> (forall c1, line_start n c1 -> reads_db c1 rest evs) ->
  reads_db c (entry_text e ++ ch_lf :: rest) (entry_events e ++ evs).
Proof.
  intros Hl Hok Hrest. unfold entry_ok in Hok. apply andb_true_iff in Hok as [Hok Hvs].
  apply andb_true_iff in Hok as [Hk Hv]. unfold entry_text, entry_events. cbn [app].
  rewrite <- !app_assoc. change (lit ": ") with [ch_colon; ch_sp]. cbn [app].
  eapply read_key; [done|done|]. intros c1 H1. by eapply read_values.
Qed.

Definition database_text (es : list entry) : list char :=
  match es with
  | [] => []
  | e :: es => entry_text e ++ (es ≫= fun e => ch_lf :: entry_text e)
  end ++ [ch_lf].

Lemma read_database es n c :
  line_start n c -> forallb (entry_ok n) es = true ->
  reads_db c (database_text es ++ [ch_nul]) (es ≫= entry_events).
Proof.
  unfold database_text. destruct es as [|e es]; intros Hl Hok.
  - destruct Hl as (Hb & Hst & _). eapply read_newline; [done|done|]. intros c1 H1. by eapply read_nul.
  - rewrite <- !app_assoc. cbn [app]. cbn [forallb] in Hok. apply andb_true_iff in Hok as [He Hes].
    change ((e :: es) ≫= entry_events) with (entry_events e ++ (es ≫= entry_events)).
    revert e c Hl He. induction es as [|e' es IH]; intros e c Hl He.
    + cbn [mbind list_bind app]. rewrite app_nil_r, <- (app_nil_r (entry_events e)).
      eapply read_entry; [done|done|]. intros c1 H1. by eapply read_nul.
    + cbn [forallb] in Hes. apply andb_true_iff in Hes as [He' Hes].
      change ((e' :: es) ≫= (fun e => ch_lf :: entry_text e)) with
        (ch_lf :: entry_text e' ++ (es ≫= fun e => ch_lf :: entry_text e)).
      change ((e' :: es) ≫= entry_events) with (entry_events e' ++ (es ≫= entry_events)).
      cbn [app]. rewrite <- app_assoc. eapply read_entry; [done|done|]. intros c1 H1. by apply IH.
Qed.
End reading.

(** ** The writer's side *)
Lemma key_ch_same ch : Wdb.is_key_ch_ ch = Rdb.is_key_ch_ ch.
Proof. done. Qed.

Lemma val_op_ok n v : val_ok n v = true -> dbop_ok (val_op v).
Proof.
  destruct v as [s|s|z|d|b]; cbn; intros H; try done.
  - unfold dstr_ok in H. apply andb_true_iff in H as [H _]. by apply dchars_no_nul.
  - unfold dstr_ok in H. apply andb_true_iff in H as [H _]. by apply dchars_no_nul.
  - bool_facts. lia.
  - apply andb_true_iff in H as [_ H]. by apply bool_decide_eq_true in H.
Qed.

Lemma value_step n v first : val_ok n v = true ->
  dstep {| d_key := true; d_first := first |} (val_op v) =
    Some ((if first then [] else lit ", ") ++ val_text v, {| d_key := true; d_first := false |}).
Proof.
  intros Hok. pose proof (val_text_some n v Hok) as Ht.
  destruct v; cbn [val_op dstep d_key d_first] in *; by rewrite Ht.
Qed.

Lemma drun_values n vs : forallb (val_ok n) vs = true ->
  drun {| d_key := true; d_first := false |} (map val_op vs) =
    Some (map val_text vs ≫= (fun t => lit ", " ++ t), {| d_key := true; d_first := false |}).
Proof.
  induction vs as [|v vs IH]; intros H; [done|]. cbn [forallb map] in *. apply andb_true_iff in H as [Hv Hvs].
  change ((val_text v :: map val_text vs) ≫= ?f) with (f (val_text v) ++ (map val_text vs ≫= f)).
  eapply drun_cons; [by apply (value_step n)|by apply IH].
Qed.

Lemma drun_entry n e first : entry_ok n e = true ->
  drun {| d_key := first; d_first := false |} (entry_ops e) =
    Some ((if first then [ch_lf] else []) ++ entry_text e, {| d_key := true; d_first := false |}).
Proof.
  intros Hok. unfold entry_ok in Hok. apply andb_true_iff in Hok as [Hok Hvs].
  apply andb_true_iff in Hok as [Hk Hv]. unfold key_ok in Hk.
  apply andb_true_iff in Hk as [Hk _]. apply andb_true_iff in Hk as [_ Hk].
  unfold entry_ops, entry_text.
  assert (forall (a b c d e : list char), a ++ b ++ c ++ d ++ e = (a ++ b ++ c) ++ d ++ e) as Hassoc
    by (intros; by rewrite <- !app_assoc).
  rewrite Hassoc. eapply drun_cons.
  - cbn [dstep d_key d_first]. rewrite orb_true_r. cbn [andb].
    replace (forallb Wdb.is_key_ch_ (e_key e)) with true by (by rewrite <- Hk). reflexivity.
  - eapply drun_cons; [by apply (value_step n _ true)|by apply (drun_values n)].
Qed.

Lemma drun_entries n es : forallb (entry_ok n) es = true ->
  drun {| d_key := true; d_first := false |} (es ≫= entry_ops) =
    Some (es ≫= (fun e => ch_lf :: entry_text e), {| d_key := true; d_first := false |}).
Proof.
  induction es as [|e es IH]; intros H; [done|]. cbn [forallb] in H. apply andb_true_iff in H as [He Hes].
  change ((e :: es) ≫= ?f) with (f e ++ (es ≫= f)). eapply drun_app; [by apply (drun_entry n e true)|by apply IH].
Qed.

Lemma drun_database n es : forallb (entry_ok n) es = true ->
  exists d, drun {| d_key := false; d_first := false |} (database_ops es) =
    Some (database_text es ++ [ch_nul], d).
Proof.
  intros H. unfold database_ops, database_text. destruct es as [|e es].
  - eexists. reflexivity.
  - cbn [forallb] in H. apply andb_true_iff in H as [He Hes]. eexists.
    change ((e :: es) ≫= entry_ops) with (entry_ops e ++ (es ≫= entry_ops)). rewrite <- !app_assoc.
    eapply drun_app; [by apply (drun_entry n e false)|].
    eapply drun_app; [by apply (drun_entries n)|]. reflexivity.
Qed.

Lemma entry_ops_ok n e : entry_ok n e = true -> Forall dbop_ok (entry_ops e).
Proof.
  intros Hok. unfold entry_ok in Hok. apply andb_true_iff in Hok as [Hok Hvs].
  apply andb_true_iff in Hok as [Hk Hv]. unfold key_ok in Hk.
  apply andb_true_iff in Hk as [Hk _]. apply andb_true_iff in Hk as [_ Hk].
  constructor; [by apply key_chars_no_nul|]. constructor; [by eapply val_op_ok|].
  induction (e_vals e) as [|v vs IH]; cbn in *; [constructor|]. apply andb_true_iff in Hvs as [H1 H2].
  constructor; [by eapply val_op_ok|by apply IH].
Qed.

Lemma database_ops_ok n es : forallb (entry_ok n) es = true -> Forall dbop_ok (database_ops es).
Proof.
  intros H. unfold database_ops. apply Forall_app; split; [|by repeat constructor].
  induction es as [|e es IH]; cbn in *; [constructor|]. apply andb_true_iff in H as [He Hes].
  apply (Forall_app_2 _ (entry_ops e)); [by eapply entry_ops_ok|by apply IH].
Qed.

(** The text holds no NUL. *)
Lemma loop_no_nul switch s u : (forall ch e ch', switch ch = Some (e, ch') -> ch <> ch_nul -> ch' <> ch_nul) ->
  no_nul s -> loop_text switch s = Some u -> no_nul u.
Proof.
  intros Hsw Hs. revert u. induction Hs as [|ch s Hch Hs IH]; intros u Hu; cbn in Hu; [by simplify_eq; constructor|].
  destruct (switch ch) as [[e ch']|] eqn:E; [|done]. destruct (loop_text switch s) as [u'|]; [|done].
  simplify_eq. apply Forall_app; split; [|by apply IH].
  pose proof (Hsw _ _ _ E Hch). destruct e; repeat constructor; done.
Qed.

Lemma val_text_no_nul n v : val_ok n v = true -> no_nul (val_text v).
Proof.
  intros Hok. pose proof (val_text_some n v Hok) as Ht.
  destruct v as [s|s|z|d|b]; cbn [val_ok val_op value_text] in *.
  - unfold dstr_ok in Hok. apply andb_true_iff in Hok as [Hs _].
    destruct (loop_text str_switch_ s) as [u|] eqn:Hu; [|done]. injection Ht as <-.
    constructor; [done|]. apply Forall_app; split; [|by repeat constructor].
    eapply loop_no_nul; [|by apply dchars_no_nul|exact Hu].
    intros ch e ch' H Hne. unfold str_switch_ in H. repeat (case_match; simplify_eq; try done).
  - unfold dstr_ok in Hok. apply andb_true_iff in Hok as [Hs _].
    destruct (loop_text long_str_switch_ s) as [u|] eqn:Hu; [|done]. injection Ht as <-.
    constructor; [done|]. constructor; [done|]. apply Forall_app; split; [|by repeat constructor].
    eapply loop_no_nul; [|by apply dchars_no_nul|exact Hu].
    intros ch e ch' H Hne. unfold long_str_switch_ in H. repeat (case_match; simplify_eq; try done).
  - apply print_int_no_nul.
  - apply print_double_no_nul.
  - destruct b; repeat constructor; done.
Qed.

Lemma entry_text_no_nul n e : entry_ok n e = true -> no_nul (entry_text e).
Proof.
  intros Hok. unfold entry_ok in Hok. apply andb_true_iff in Hok as [Hok Hvs].
  apply andb_true_iff in Hok as [Hk Hv]. unfold key_ok in Hk.
  apply andb_true_iff in Hk as [Hk _]. apply andb_true_iff in Hk as [_ Hk]. unfold entry_text.
  apply Forall_app; split; [by apply key_chars_no_nul|].
  apply Forall_app; split; [repeat constructor; done|].
  apply Forall_app; split; [by eapply val_text_no_nul|].
  induction (e_vals e) as [|v vs IH]; cbn in *; [constructor|]. apply andb_true_iff in Hvs as [H1 H2].
  constructor; [done|]. constructor; [done|]. apply Forall_app; split; [by eapply val_text_no_nul|by apply IH].
Qed.

Lemma database_text_no_nul n es : forallb (entry_ok n) es = true -> no_nul (database_text es).
Proof.
  intros H. unfold database_text. apply Forall_app; split; [|by repeat constructor].
  destruct es as [|e es]; [constructor|]. cbn [forallb] in H. apply andb_true_iff in H as [He Hes].
  apply Forall_app; split; [by eapply entry_text_no_nul|].
  induction es as [|e' es IH]; cbn in *; [constructor|]. apply andb_true_iff in Hes as [He' Hes].
  constructor; [done|]. apply Forall_app; split; [by eapply entry_text_no_nul|by apply IH].
Qed.

(** ** Theorems *)

(** C7. Round trip of a database: the calls that write a database succeed when
    the text and its NUL fit the buffer; the buffer then holds that text as a C
    string, and the reader reports for it every key and value in order and ends
    with [rdb_next_fin] - for keys that start with a letter or an underscore,
    strings of printable characters (and tab, newline, carriage return) without
    backslash that fit the reader's buffer, [long] integers, finite numbers of
    fewer than 100 characters, and booleans.  A number is reported as the double
    the reader computes from the digits that were printed ([read_int],
    [read_fixed]), whatever [pow] is; that this is the number written is not
    claimed. *)
Theorem wdb_rdb_roundtrip pow wbuf rbuf w0 r0 es :
  forallb (entry_ok (length rbuf)) es = true -> rbuf <> [] ->
  length (database_text es) < length wbuf ->
  exists w1 w2 r1, wdb_init wbuf (length wbuf) w0 = Ret (tt, w1) /\
    db_ops (database_ops es) w1 = Ret (wdb_ok, w2) /\
    wdb_out_str w2 = Ret (database_text es, w2) /\
    rdb_demo pow rbuf (database_text es) r0 = Ret ((es ≫= entry_events pow, Db_fin), r1).
Proof.
  intros Hok Hne Hlen. destruct (drun_database _ es Hok) as [d Hrun].
  destruct (db_ops_run (database_ops es) (inited wbuf w0) (database_text es ++ [ch_nul]) d)
    as (w2 & Hops & [Hout Hl Hm Hf] & _).
  - apply wdb_inited_wf.
  - by eapply database_ops_ok.
  - exact Hrun.
  - unfold fits. rewrite length_app. cbn. lia.
  - assert (line_start (length rbuf) (rdb_fresh rbuf)) as Hls.
    { split; [|done]. split; [done|]. split; [done|]. destruct rbuf; [done|cbn; lia]. }
    destruct (read_database pow es (length rbuf) (rdb_fresh rbuf) Hls Hok 0) as [r1 Hr1].
    exists (inited wbuf w0), w2, r1. split_and!; [apply wdb_init_run|exact Hops| |].
    + unfold wdb_out_str, getc, mbind, cm_bind. rewrite Hout. unfold splice. cbn [inited len]. rewrite take_0.
      cbn [app]. rewrite <- app_assoc. cbn [app].
      by rewrite cstr_app_nul by (by eapply database_text_no_nul).
    + unfold rdb_demo, mbind, cm_bind. rewrite rdb_init_run. exact Hr1.
Qed.

(** A database with two keys, one of them with four values. *)
Definition sample_db : list entry :=
  [{| e_key := lit "id"; e_val := V_int (-7); e_vals := [] |};
   {| e_key := lit "list"; e_val := V_str (lit "a" ++ [ch_lf] ++ lit "b");
      e_vals := [V_long (lit "<x>" ++ [ch_lf]); V_bool true; V_num (d_of_int 2)] |}].

Lemma wdb_rdb_roundtrip_witness :
  exists w1 w2 r1, wdb_init (replicate 80 7%Z) 80 wdb_memory = Ret (tt, w1) /\
    db_ops (database_ops sample_db) w1 = Ret (wdb_ok, w2) /\
    wdb_out_str w2 = Ret (database_text sample_db, w2) /\
    rdb_demo (fun _ _ => d_of_int 1) (replicate 8 7%Z) (database_text sample_db) (rdb_fresh []) =
      Ret (([Db_key (lit "id"); Db_num (d_of_int (-7)); Db_key (lit "list");
             Db_str (lit "a" ++ [ch_lf] ++ lit "b"); Db_str (lit "<x>" ++ [ch_lf]); Db_bool true;
             Db_num (d_of_int 2)], Db_fin), r1).
Proof.
  apply (wdb_rdb_roundtrip (fun _ _ => d_of_int 1) (replicate 80 7%Z) (replicate 8 7%Z) wdb_memory (rdb_fresh [])
    sample_db); [vm_compute; reflexivity|discriminate|vm_compute; lia].
Defined.

(** C33. A backslash does not survive: the writer does not escape it, so that a
    string that holds one before another character is read back with the two
    replaced by what the reader takes them for, always one character. *)
Theorem db_backslash_lost pow (x : char) wbuf w0 r0 :
  (32 <= x <= 126)%Z -> x <> ch_quote -> 9 <= length wbuf ->
  exists w1 w2 t r1, wdb_init wbuf (length wbuf) w0 = Ret (tt, w1) /\
    db_ops [D_key [ch_a]; D_str [ch_bslash; x]; D_fin] w1 = Ret (wdb_ok, w2) /\
    wdb_out_str w2 = Ret (t, w2) /\
    rdb_demo pow [0; 0; 0; 0]%Z t r0 = Ret (([Db_key [ch_a]; Db_str [escape_ch_ x]], Db_fin), r1).
Proof.
  intros Hx Hq Hlen.
  set (t := [ch_a] ++ ch_colon :: ch_sp :: (ch_quote :: ([ch_bslash; x] ++ (ch_quote :: ch_lf :: [])))).
  assert (str_switch_ x = Some (false, x)) as Hsw.
  { unfold str_switch_. rewrite !(proj2 (Z.eqb_neq x _)) by lia.
    by rewrite (proj2 (Z.leb_gt x 31)), (proj2 (Z.leb_gt 127 x)) by lia. }
  destruct (db_ops_run [D_key [ch_a]; D_str [ch_bslash; x]; D_fin] (inited wbuf w0) (t ++ [ch_nul])
    {| d_key := true; d_first := false |}) as (w2 & Hops & [Hout Hl Hm Hf] & _).
  - apply wdb_inited_wf.
  - repeat constructor; try done. lia.
  - cbn. by rewrite Hsw.
  - unfold fits. cbn. lia.
  - assert (no_nul t) as Hnul by (repeat constructor; try done; lia).
    assert (line_start 4 (rdb_fresh [0; 0; 0; 0]%Z)) as Hls by (split; [|done]; split; [done|]; split; [done|lia]).
    assert (reads_db pow (rdb_fresh [0; 0; 0; 0]%Z) (t ++ [ch_nul]) [Db_key [ch_a]; Db_str [escape_ch_ x]]) as Hr.
    { eapply (read_key pow [ch_a] 4); [exact Hls|reflexivity|]. intros c1 H1. cbn [app].
      eapply read_quote_open; [done|]. intros c2 H2.
      eapply read_escaped; [exact H2|cbn; lia|lia|]. intros c3 H3.
      eapply read_quote_close; [exact H3|cbn; lia| |].
      - repeat constructor. unfold escape_ch_. repeat case_match; try done. lia.
      - intros c4 H4. eapply after_val_sep; [exact H4|by right|]. intros c5 H5. apply (read_nul pow 4). exact H5. }
    destruct (Hr 0) as [r1 Hr1]. exists (inited wbuf w0), w2, t, r1.
    split_and!; [apply wdb_init_run|exact Hops| |].
    + unfold wdb_out_str, getc, mbind, cm_bind. rewrite Hout. unfold splice. cbn [inited len]. rewrite take_0.
      cbn [app]. rewrite <- app_assoc. cbn [app]. by rewrite cstr_app_nul.
    + unfold rdb_demo, mbind, cm_bind. rewrite rdb_init_run. exact Hr1.
Qed.

Lemma db_backslash_lost_witness :
  exists w1 w2 t r1, wdb_init (replicate 16 7%Z) 16 wdb_memory = Ret (tt, w1) /\
    db_ops [D_key [ch_a]; D_str [ch_bslash; ch_b]; D_fin] w1 = Ret (wdb_ok, w2) /\
    wdb_out_str w2 = Ret (t, w2) /\
    rdb_demo (fun x _ => x) [0; 0; 0; 0]%Z t (rdb_fresh []) =
      Ret (([Db_key [ch_a]; Db_str [ch_b]], Db_fin), r1).
Proof.
  apply (db_backslash_lost (fun x _ => x) ch_b (replicate 16 7%Z) wdb_memory (rdb_fresh []));
    [lia|discriminate|vm_compute; lia].
Defined.

(** Keys the writer accepts and the reader refuses: a key that starts with
    a digit, a minus or a dot is written, and its line is a syntax error. *)
Theorem db_key_start_refused pow x k buf r0 rest :
  Rdb.is_key_ch_ x = true -> is_digit_ x || (x =? ch_minus)%Z || (x =? ch_dot)%Z = true ->
  forallb Rdb.is_key_ch_ k = true ->
  dstep {| d_key := false; d_first := false |} (D_key (x :: k)) =
    Some ((x :: k) ++ lit ": ", {| d_key := true; d_first := true |}) /\
  exists r1, rdb_demo pow buf ((x :: k) ++ lit ": " ++ rest) r0 = Ret (([], Db_syntax 0), r1).
Proof.
  intros Hx Hd Hk. split.
  - cbn [dstep d_key d_first negb orb andb].
    replace (forallb Wdb.is_key_ch_ (x :: k)) with true; [done|]. symmetry. cbn [forallb].
    apply andb_true_iff. by split.
  - exists (with_ty rdb_incomplete (rdb_fresh buf)). unfold rdb_demo, mbind, cm_bind. rewrite rdb_init_run.
    cbn [app rdb_demo_loop]. unfold rdb_next, next_st_, next_idle_, next_idle_switch_, assert_st_, mbind, cm_bind. cbn.
    assert (is_digit_ x || (x =? ch_minus)%Z || (x =? ch_plus)%Z || (x =? ch_dot)%Z = true) as ->.
    { apply orb_true_iff. apply orb_true_iff in Hd as [Hd|Hd]; [|by right]. left. by rewrite Hd. }
    done.
Qed.

Lemma db_key_start_refused_witness :
  dstep {| d_key := false; d_first := false |} (D_key [ch_0]) =
    Some ([ch_0] ++ lit ": ", {| d_key := true; d_first := true |}) /\
  exists r1, rdb_demo (fun x _ => x) [0%Z] ([ch_0] ++ lit ": " ++ lit "1") (rdb_fresh []) =
    Ret (([], Db_syntax 0), r1).
Proof. apply (db_key_start_refused (fun x _ => x) ch_0 [] [0%Z] (rdb_fresh []) (lit "1")); done. Defined.
