(* ===== verification/Https.v ===== *)
(** * HTTPS client ([src/src/https.c], [src/src/https.h])

    One request at a time over libcurl's multi interface, driven by the caller's
    poll loop.  libcurl and the kernel are not part of the program: they are a
    record [curl_env] of functions on an abstract world [W].  A libcurl call may
    call back into the module ([sock_cb_], [timer_cb_], [write_cb_]) before it
    returns and sees what the callback returned; it is a tree [curl_run] whose
    nodes are those callbacks.  [run_curl] runs such a tree on the module.

    The array given to [https_update] is usually the module's own table, handed
    out by [https_pollfds]: [fds_arg] tells the two cases apart, so that what
    the callbacks do to the table is seen by the loop over it. *)

From stdpp Require Import base list numbers strings option.
From S2P Require Import Prelude.

(** ** Constants of the interfaces used *)
Definition POLLIN : Z := 1.
Definition POLLOUT : Z := 4.
Definition POLLERR : Z := 8.
Definition POLLHUP : Z := 16.
Definition POLLNVAL : Z := 32.
Definition CURL_CSELECT_IN : Z := 1.
Definition CURL_CSELECT_OUT : Z := 2.
Definition CURL_CSELECT_ERR : Z := 4.
Definition CURL_SOCKET_TIMEOUT : Z := -1.
Definition CURL_POLL_IN : Z := 1.
Definition CURL_POLL_OUT : Z := 2.
Definition CURL_POLL_INOUT : Z := 3.
Definition CURL_POLL_REMOVE : Z := 4.
Definition CURLM_OK : Z := 0.
Definition CURLE_OK : Z := 0.
Definition CURLMSG_DONE : Z := 1.

Record CURLMsg := { msg : Z; result : Z }.

Record itimerspec := {
  it_interval_sec : Z; it_interval_nsec : Z; it_value_sec : Z; it_value_nsec : Z }.

(** Options of the two handles. *)
Inductive easy_opt :=
| CURLOPT_POSTFIELDSIZE (v : Z) | CURLOPT_HTTPHEADER | CURLOPT_WRITEDATA | CURLOPT_WRITEFUNCTION
| CURLOPT_TIMEOUT (v : Z) | CURLOPT_VERBOSE (v : Z) | CURLOPT_HTTPGET (v : Z) | CURLOPT_POST (v : Z)
| CURLOPT_URL (url : list char) | CURLOPT_POSTFIELDS (data : list char).

Inductive multi_opt :=
| CURLMOPT_SOCKETDATA | CURLMOPT_SOCKETFUNCTION | CURLMOPT_TIMERDATA | CURLMOPT_TIMERFUNCTION.

(** ** libcurl and the kernel *)

(** A libcurl call in progress: it returns, or it calls one of the module's
    callbacks and goes on with the callback's result. *)
Inductive curl_run (W A : Type) : Type :=
| Curl_ret (a : A) (w : W)
| Curl_sock (fd what : Z) (w : W) (k : Z -> W -> curl_run W A)
| Curl_timer (timeout_ms : Z) (w : W) (k : Z -> W -> curl_run W A)
| Curl_write (data : list char) (w : W) (k : Z -> W -> curl_run W A).
Arguments Curl_ret {W A} a w.
Arguments Curl_sock {W A} fd what w k.
Arguments Curl_timer {W A} timeout_ms w k.
Arguments Curl_write {W A} data w k.

(** The calls the module makes; results the source ignores are left out, a
    pointer result is whether it is not NULL. *)
Record curl_env (W : Type) := {
  curl_easy_init : W -> bool * W;
  curl_multi_init : W -> bool * W;
  curl_slist_append : bool -> list char -> W -> bool * W;
  curl_slist_free_all : W -> W;
  curl_easy_setopt : easy_opt -> W -> W;
  curl_multi_setopt : multi_opt -> W -> W;
  curl_easy_cleanup : W -> curl_run W unit;
  curl_multi_cleanup : W -> curl_run W unit;
  curl_multi_add_handle : W -> curl_run W unit;
  curl_multi_remove_handle : W -> curl_run W unit;
  curl_multi_socket_action : Z -> Z -> W -> curl_run W Z;
  curl_multi_info_read : W -> option CURLMsg * W;
  curl_easy_getinfo_response_code : W -> option Z;
  timerfd_create : W -> Z * W;
  timerfd_settime : Z -> itimerspec -> W -> Z * W;
  read_timerfd : Z -> W -> Z * W;
  close_fd : Z -> W -> W
}.
Arguments curl_easy_init {W} c.
Arguments curl_multi_init {W} c.
Arguments curl_slist_append {W} c.
Arguments curl_slist_free_all {W} c.
Arguments curl_easy_setopt {W} c.
Arguments curl_multi_setopt {W} c.
Arguments curl_easy_cleanup {W} c.
Arguments curl_multi_cleanup {W} c.
Arguments curl_multi_add_handle {W} c.
Arguments curl_multi_remove_handle {W} c.
Arguments curl_multi_socket_action {W} c.
Arguments curl_multi_info_read {W} c.
Arguments curl_easy_getinfo_response_code {W} c.
Arguments timerfd_create {W} c.
Arguments timerfd_settime {W} c.
Arguments read_timerfd {W} c.
Arguments close_fd {W} c.

(** ** Data of the module *)
Definition evs_maxlen_ : nat := 12.
Definition fds_maxlen_ : nat := 24.

Inductive https_ev_type :=
| https_ev_init | https_ev_init_fail | https_ev_stopped | https_ev_req_fin | https_ev_req_fail.
#[export] Instance https_ev_type_eq_dec : EqDecision https_ev_type.
Proof. solve_decision. Defined.

Inductive https_req_method := https_method_get | https_method_post.

Inductive https_init_res :=
| https_init_fail_timerfd | https_init_fail_no_mem | https_init_fail_curl_easy_init
| https_init_fail_curl_multi_init | https_init_ok.
#[export] Instance https_init_res_eq_dec : EqDecision https_init_res.
Proof. solve_decision. Defined.

Inductive https_stop_prep_res := https_stop_prep_fail | https_stop_prep_ok.
#[export] Instance https_stop_prep_res_eq_dec : EqDecision https_stop_prep_res.
Proof. solve_decision. Defined.
Inductive https_stop_res := https_stop_fail_no_prep | https_stop_fail | https_stop_ok.
#[export] Instance https_stop_res_eq_dec : EqDecision https_stop_res.
Proof. solve_decision. Defined.
Inductive https_verbosity := https_verbosity_silent | https_verbosity_debug.
Inductive https_stop_strategy := https_stop_strat_abort | https_stop_strat_wait.
Inductive https_req_res :=
| https_req_fail_stopping | https_req_fail_other_pend | https_req_fail | https_req_ok.
#[export] Instance https_req_res_eq_dec : EqDecision https_req_res.
Proof. solve_decision. Defined.

Inductive set_fd_res_ := set_fd_add_overflow_ | set_fd_ok_.
#[export] Instance set_fd_res_eq_dec : EqDecision set_fd_res_.
Proof. solve_decision. Defined.
Inductive del_fd_res_ := del_fd_not_found_ | del_fd_ok_.
#[export] Instance del_fd_res_eq_dec : EqDecision del_fd_res_.
Proof. solve_decision. Defined.
Inductive add_ev_res_ := add_ev_overflow_ | add_ev_ok_.
#[export] Instance add_ev_res_eq_dec : EqDecision add_ev_res_.
Proof. solve_decision. Defined.

Inductive st_ := st_uninit_ | st_just_init_ | st_idle_ | st_pend_ | st_stopped_ | st_err_.
#[export] Instance st_eq_dec : EqDecision st_.
Proof. solve_decision. Defined.

Inductive set_st_res_ := set_st_ok_.
#[export] Instance set_st_res_eq_dec : EqDecision set_st_res_.
Proof. solve_decision. Defined.

(** What a pointer to one of libcurl's objects points to.  Nothing is said of a
    call on an object that does not exist; libcurl's own check for a NULL handle
    is not relied on. *)
Inductive handle := H_null | H_live | H_freed.
#[export] Instance handle_eq_dec : EqDecision handle.
Proof. solve_decision. Defined.

Definition new_handle (b : bool) : handle := if b then H_live else H_null.

Record pollfd := { fd : Z; events : Z; revents : Z }.

(** The array given to [https_update]. *)
Inductive fds_arg := Fds_own | Fds_copy (l : list pollfd).

(** The module.  [data_cb] is the caller's function with its [data_cb_user]. *)
Record https_mod (W : Type) := {
  st : st_;
  stop_strat : https_stop_strategy;
  is_stop_waiting : bool;
  curl_err : Z;
  curlm_err : Z;
  evs : list https_ev_type;
  evs_len : nat;
  data_cb : option (list char -> W -> W);
  resp_status : Z;
  fds : list pollfd;
  fds_len : nat;
  timerfd : Z;
  curl : handle;
  curlm : handle;
  json_hdrs : handle
}.
Arguments st {W} _.
Arguments stop_strat {W} _.
Arguments is_stop_waiting {W} _.
Arguments curl_err {W} _.
Arguments curlm_err {W} _.
Arguments evs {W} _.
Arguments evs_len {W} _.
Arguments data_cb {W} _.
Arguments resp_status {W} _.
Arguments fds {W} _.
Arguments fds_len {W} _.
Arguments timerfd {W} _.
Arguments curl {W} _.
Arguments curlm {W} _.
Arguments json_hdrs {W} _.

Definition with_st {W} v (c : https_mod W) : https_mod W :=
  {| st := v; stop_strat := stop_strat c; is_stop_waiting := is_stop_waiting c;
     curl_err := curl_err c; curlm_err := curlm_err c; evs := evs c;
     evs_len := evs_len c; data_cb := data_cb c; resp_status := resp_status c;
     fds := fds c; fds_len := fds_len c; timerfd := timerfd c; curl := curl c;
     curlm := curlm c; json_hdrs := json_hdrs c |}.
Definition with_stop_strat {W} v (c : https_mod W) : https_mod W :=
  {| st := st c; stop_strat := v; is_stop_waiting := is_stop_waiting c;
     curl_err := curl_err c; curlm_err := curlm_err c; evs := evs c;
     evs_len := evs_len c; data_cb := data_cb c; resp_status := resp_status c;
     fds := fds c; fds_len := fds_len c; timerfd := timerfd c; curl := curl c;
     curlm := curlm c; json_hdrs := json_hdrs c |}.
Definition with_is_stop_waiting {W} v (c : https_mod W) : https_mod W :=
  {| st := st c; stop_strat := stop_strat c; is_stop_waiting := v;
     curl_err := curl_err c; curlm_err := curlm_err c; evs := evs c;
     evs_len := evs_len c; data_cb := data_cb c; resp_status := resp_status c;
     fds := fds c; fds_len := fds_len c; timerfd := timerfd c; curl := curl c;
     curlm := curlm c; json_hdrs := json_hdrs c |}.
Definition with_curl_err {W} v (c : https_mod W) : https_mod W :=
  {| st := st c; stop_strat := stop_strat c; is_stop_waiting := is_stop_waiting c;
     curl_err := v; curlm_err := curlm_err c; evs := evs c; evs_len := evs_len c;
     data_cb := data_cb c; resp_status := resp_status c; fds := fds c;
     fds_len := fds_len c; timerfd := timerfd c; curl := curl c; curlm := curlm c;
     json_hdrs := json_hdrs c |}.
Definition with_curlm_err {W} v (c : https_mod W) : https_mod W :=
  {| st := st c; stop_strat := stop_strat c; is_stop_waiting := is_stop_waiting c;
     curl_err := curl_err c; curlm_err := v; evs := evs c; evs_len := evs_len c;
     data_cb := data_cb c; resp_status := resp_status c; fds := fds c;
     fds_len := fds_len c; timerfd := timerfd c; curl := curl c; curlm := curlm c;
     json_hdrs := json_hdrs c |}.
Definition with_evs {W} v (c : https_mod W) : https_mod W :=
  {| st := st c; stop_strat := stop_strat c; is_stop_waiting := is_stop_waiting c;
     curl_err := curl_err c; curlm_err := curlm_err c; evs := v; evs_len := evs_len c;
     data_cb := data_cb c; resp_status := resp_status c; fds := fds c;
     fds_len := fds_len c; timerfd := timerfd c; curl := curl c; curlm := curlm c;
     json_hdrs := json_hdrs c |}.
Definition with_evs_len {W} v (c : https_mod W) : https_mod W :=
  {| st := st c; stop_strat := stop_strat c; is_stop_waiting := is_stop_waiting c;
     curl_err := curl_err c; curlm_err := curlm_err c; evs := evs c; evs_len := v;
     data_cb := data_cb c; resp_status := resp_status c; fds := fds c;
     fds_len := fds_len c; timerfd := timerfd c; curl := curl c; curlm := curlm c;
     json_hdrs := json_hdrs c |}.
Definition with_data_cb {W} v (c : https_mod W) : https_mod W :=
  {| st := st c; stop_strat := stop_strat c; is_stop_waiting := is_stop_waiting c;
     curl_err := curl_err c; curlm_err := curlm_err c; evs := evs c;
     evs_len := evs_len c; data_cb := v; resp_status := resp_status c; fds := fds c;
     fds_len := fds_len c; timerfd := timerfd c; curl := curl c; curlm := curlm c;
     json_hdrs := json_hdrs c |}.
Definition with_resp_status {W} v (c : https_mod W) : https_mod W :=
  {| st := st c; stop_strat := stop_strat c; is_stop_waiting := is_stop_waiting c;
     curl_err := curl_err c; curlm_err := curlm_err c; evs := evs c;
     evs_len := evs_len c; data_cb := data_cb c; resp_status := v; fds := fds c;
     fds_len := fds_len c; timerfd := timerfd c; curl := curl c; curlm := curlm c;
     json_hdrs := json_hdrs c |}.
Definition with_fds {W} v (c : https_mod W) : https_mod W :=
  {| st := st c; stop_strat := stop_strat c; is_stop_waiting := is_stop_waiting c;
     curl_err := curl_err c; curlm_err := curlm_err c; evs := evs c;
     evs_len := evs_len c; data_cb := data_cb c; resp_status := resp_status c;
     fds := v; fds_len := fds_len c; timerfd := timerfd c; curl := curl c;
     curlm := curlm c; json_hdrs := json_hdrs c |}.
Definition with_fds_len {W} v (c : https_mod W) : https_mod W :=
  {| st := st c; stop_strat := stop_strat c; is_stop_waiting := is_stop_waiting c;
     curl_err := curl_err c; curlm_err := curlm_err c; evs := evs c;
     evs_len := evs_len c; data_cb := data_cb c; resp_status := resp_status c;
     fds := fds c; fds_len := v; timerfd := timerfd c; curl := curl c;
     curlm := curlm c; json_hdrs := json_hdrs c |}.
Definition with_timerfd {W} v (c : https_mod W) : https_mod W :=
  {| st := st c; stop_strat := stop_strat c; is_stop_waiting := is_stop_waiting c;
     curl_err := curl_err c; curlm_err := curlm_err c; evs := evs c;
     evs_len := evs_len c; data_cb := data_cb c; resp_status := resp_status c;
     fds := fds c; fds_len := fds_len c; timerfd := v; curl := curl c;
     curlm := curlm c; json_hdrs := json_hdrs c |}.
Definition with_curl {W} v (c : https_mod W) : https_mod W :=
  {| st := st c; stop_strat := stop_strat c; is_stop_waiting := is_stop_waiting c;
     curl_err := curl_err c; curlm_err := curlm_err c; evs := evs c;
     evs_len := evs_len c; data_cb := data_cb c; resp_status := resp_status c;
     fds := fds c; fds_len := fds_len c; timerfd := timerfd c; curl := v;
     curlm := curlm c; json_hdrs := json_hdrs c |}.
Definition with_curlm {W} v (c : https_mod W) : https_mod W :=
  {| st := st c; stop_strat := stop_strat c; is_stop_waiting := is_stop_waiting c;
     curl_err := curl_err c; curlm_err := curlm_err c; evs := evs c;
     evs_len := evs_len c; data_cb := data_cb c; resp_status := resp_status c;
     fds := fds c; fds_len := fds_len c; timerfd := timerfd c; curl := curl c;
     curlm := v; json_hdrs := json_hdrs c |}.
Definition with_json_hdrs {W} v (c : https_mod W) : https_mod W :=
  {| st := st c; stop_strat := stop_strat c; is_stop_waiting := is_stop_waiting c;
     curl_err := curl_err c; curlm_err := curlm_err c; evs := evs c;
     evs_len := evs_len c; data_cb := data_cb c; resp_status := resp_status c;
     fds := fds c; fds_len := fds_len c; timerfd := timerfd c; curl := curl c;
     curlm := curlm c; json_hdrs := v |}.

Section https.
Context {W : Type} (E : curl_env W).

(** A call sees the module and the world. *)
Abbreviation mod_st := (https_mod W * W)%type (only parsing).
Abbreviation M := (CM (https_mod W * W)) (only parsing).

Definition get_mod : M (https_mod W) := reads fst.
Definition upd_mod (f : https_mod W -> https_mod W) : M unit := modc (fun s => (f s.1, s.2)).
Definition get_world : M W := reads snd.
Definition set_world (w : W) : M unit := modc (fun s => (s.1, w)).

(** A call of libcurl or of the kernel that does not call back. *)
Definition sys {A} (f : W -> A * W) : M A :=
  w ← get_world; set_world (f w).2 ;; mret (f w).1.
Definition sys_ (f : W -> W) : M unit := w ← get_world; set_world (f w).

(** *** The objects of libcurl *)

(** A use of the handles: undefined unless they exist. *)
Definition need_curl : M unit := m ← get_mod; if decide (curl m = H_live) then mret tt else undef.
Definition need_curlm : M unit := m ← get_mod; if decide (curlm m = H_live) then mret tt else undef.

Definition easy_setopt_ (o : easy_opt) : M unit := need_curl ;; sys_ (curl_easy_setopt E o).
Definition multi_setopt_ (o : multi_opt) : M unit := need_curlm ;; sys_ (curl_multi_setopt E o).

(** [curl_slist_free_all(m->json_hdrs)]: nothing for NULL. *)
Definition slist_free_all_ : M unit :=
  m ← get_mod;
  match json_hdrs m with
  | H_null => mret tt
  | H_live => sys_ (curl_slist_free_all E) ;; upd_mod (with_json_hdrs H_freed)
  | H_freed => undef
  end.

(** ** State, events *)
Definition set_st_ (s : st_) : M set_st_res_ := upd_mod (with_st s) ;; mret set_st_ok_.

(** [if (set_st_(m, s) != set_st_ok_) SOB_PANIC(...)] *)
Definition must_set_st_ (line : Z) (msg : list char) (s : st_) : M unit :=
  r ← set_st_ s; assertc (bool_decide (r = set_st_ok_)) (lit "https.c") line msg.

Definition add_ev_ (ty : https_ev_type) : M add_ev_res_ :=
  m ← get_mod;
  if decide (evs_maxlen_ = evs_len m) then mret add_ev_overflow_
  else if decide (evs_len m < length (evs m)) then
    upd_mod (with_evs (<[evs_len m := ty]> (evs m))) ;;
    upd_mod (with_evs_len (S (evs_len m))) ;;
    mret add_ev_ok_
  else undef.

Definition must_add_ev_ (line : Z) (msg : list char) (ty : https_ev_type) : M unit :=
  r ← add_ev_ ty; assertc (bool_decide (r = add_ev_ok_)) (lit "https.c") line msg.

(** ** The descriptor table *)

(** [m->fds[i]] *)
Definition fds_at (i : nat) : M pollfd :=
  m ← get_mod; match fds m !! i with Some p => mret p | None => undef end.

(** [m->fds[i] = p] *)
Definition fds_put (i : nat) (p : pollfd) : M unit :=
  m ← get_mod;
  if decide (i < length (fds m)) then upd_mod (with_fds (<[i := p]> (fds m))) else undef.

(** The search from index [i] on, [n] entries left; [None] is the source's -1. *)
Fixpoint find_fd_loop_ (n i : nat) (x : Z) : M (option nat) :=
  match n with
  | O => mret None
  | S n =>
      p ← fds_at i;
      if (fd p =? x)%Z then mret (Some i) else find_fd_loop_ n (S i) x
  end.

Definition find_fd_ (x : Z) : M (option nat) :=
  m ← get_mod; find_fd_loop_ (fds_len m) 0 x.

Definition add_fd_ (x : Z) (ev : Z) : M (option nat) :=
  m ← get_mod;
  if decide (fds_len m < fds_maxlen_) then
    let idx := fds_len m in
    fds_put idx {| fd := x; events := ev; revents := 0 |} ;;
    upd_mod (with_fds_len (S (fds_len m))) ;;
    mret (Some idx)
  else mret None.

Definition set_fd_ (x : Z) (ev : Z) : M set_fd_res_ :=
  pos ← find_fd_ x;
  match pos with
  | None =>
      pos ← add_fd_ x ev;
      match pos with
      | None => mret set_fd_add_overflow_
      | Some _ => mret set_fd_ok_
      end
  | Some pos =>
      p ← fds_at pos;
      fds_put pos {| fd := fd p; events := ev; revents := revents p |} ;;
      mret set_fd_ok_
  end.

(** [for (; i < fds_len; i++) fds[i - 1] = fds[i]], [n] entries left. *)
Fixpoint shift_fds_ (n i : nat) : M unit :=
  match n with
  | O => mret tt
  | S n => p ← fds_at i; fds_put (i - 1) p ;; shift_fds_ n (S i)
  end.

Definition del_fd_ (x : Z) : M del_fd_res_ :=
  pos ← find_fd_ x;
  match pos with
  | None => mret del_fd_not_found_
  | Some pos =>
      m ← get_mod;
      shift_fds_ (fds_len m - (pos + 1)) (pos + 1) ;;
      upd_mod (with_fds_len (fds_len m - 1)) ;;
      mret del_fd_ok_
  end.

(** ** Callbacks *)
Definition sock_cb_ (x : Z) (what : Z) : M Z :=
  m ← get_mod;
  assertc (negb (x =? timerfd m)%Z) (lit "https.c") 395
    (lit "sock_cb_: fd == timerfd but curl doesn't know about timer") ;;
  if (what =? CURL_POLL_REMOVE)%Z then
    r ← del_fd_ x;
    if decide (r = del_fd_ok_) then mret 0%Z else mret (-1)%Z
  else
    let ev :=
      if (what =? CURL_POLL_IN)%Z then POLLIN
      else if (what =? CURL_POLL_OUT)%Z then POLLOUT
      else if (what =? CURL_POLL_INOUT)%Z then Z.lor POLLIN POLLOUT
      else 0%Z in
    r ← set_fd_ x ev;
    if decide (r = set_fd_ok_) then mret 0%Z else mret (-1)%Z.

(** The time [timer_cb_] gives to [timerfd_settime]; C's division truncates. *)
Definition timer_spec_ (timeout_ms : Z) : itimerspec :=
  if (0 <=? timeout_ms)%Z then
    if (0 <? timeout_ms)%Z then
      {| it_interval_sec := 0; it_interval_nsec := 0;
         it_value_sec := Z.quot timeout_ms 1000;
         it_value_nsec := Z.rem timeout_ms 1000 * 1000 * 1000 |}
    else {| it_interval_sec := 0; it_interval_nsec := 0; it_value_sec := 0; it_value_nsec := 1 |}
  else {| it_interval_sec := 0; it_interval_nsec := 0; it_value_sec := 0; it_value_nsec := 0 |}.

Definition timer_cb_ (timeout_ms : Z) : M Z :=
  m ← get_mod;
  (if (0 <=? timeout_ms)%Z then set_fd_ (timerfd m) POLLIN ;; mret tt
   else del_fd_ (timerfd m) ;; mret tt) ;;
  r ← sys (timerfd_settime E (timerfd m) (timer_spec_ timeout_ms));
  if (r =? -1)%Z then mret (-1)%Z else mret 0%Z.

(** [return len] converts the [size_t] to [int]. *)
Definition int_of_size (z : Z) : Z := ((z + 2 ^ 31) mod 2 ^ 32 - 2 ^ 31)%Z.

Definition write_cb_ (data : list char) : M Z :=
  m ← get_mod;
  match data_cb m with
  | Some f => sys_ (f data)
  | None => mret tt
  end ;;
  mret (int_of_size (Z.of_nat (length data))).

(** A libcurl call on the module: its callbacks run where it makes them. *)
Fixpoint run_curl {A} (r : curl_run W A) : M A :=
  match r with
  | Curl_ret a w => set_world w ;; mret a
  | Curl_sock x what w k =>
      set_world w ;; rc ← sock_cb_ x what; w ← get_world; run_curl (k rc w)
  | Curl_timer ms w k =>
      set_world w ;; rc ← timer_cb_ ms; w ← get_world; run_curl (k rc w)
  | Curl_write data w k =>
      set_world w ;; rc ← write_cb_ data; w ← get_world; run_curl (k rc w)
  end.

Definition curl_call {A} (f : W -> curl_run W A) : M A := w ← get_world; run_curl (f w).

(** The calls on the handles that may call back. *)
Definition easy_cleanup_ : M unit :=
  need_curl ;; curl_call (curl_easy_cleanup E) ;; upd_mod (with_curl H_freed).
Definition multi_cleanup_ : M unit :=
  need_curlm ;; curl_call (curl_multi_cleanup E) ;; upd_mod (with_curlm H_freed).
Definition add_handle_ : M unit := need_curlm ;; need_curl ;; curl_call (curl_multi_add_handle E).
Definition remove_handle_ : M unit := need_curlm ;; need_curl ;; curl_call (curl_multi_remove_handle E).
Definition socket_action_ (x ev : Z) : M Z := need_curlm ;; curl_call (curl_multi_socket_action E x ev).

(** ** Start and stop *)
Definition https_init (cb : option (list char -> W -> W)) : M https_init_res :=
  upd_mod (with_st st_just_init_) ;;
  upd_mod (with_stop_strat https_stop_strat_wait) ;;
  upd_mod (with_is_stop_waiting false) ;;
  upd_mod (with_curl_err CURLE_OK) ;;
  upd_mod (with_curlm_err CURLM_OK) ;;
  upd_mod (with_evs_len 0) ;;
  upd_mod (with_data_cb cb) ;;
  upd_mod (with_resp_status 0%Z) ;;
  h ← sys (curl_easy_init E);
  upd_mod (with_curl (new_handle h)) ;;
  if negb h then mret https_init_fail_curl_easy_init else
  hm ← sys (curl_multi_init E);
  upd_mod (with_curlm (new_handle hm)) ;;
  if negb hm then easy_cleanup_ ;; mret https_init_fail_curl_multi_init else
  upd_mod (with_json_hdrs H_null) ;;
  l ← sys (curl_slist_append E false (lit "Content-Type: application/json"));
  upd_mod (with_json_hdrs (new_handle l)) ;;
  l ← sys (curl_slist_append E l (lit "Accept: application/json"));
  upd_mod (with_json_hdrs (new_handle l)) ;;
  if negb l then
    easy_cleanup_ ;;
    multi_cleanup_ ;;
    mret https_init_fail_no_mem
  else
  easy_setopt_ (CURLOPT_POSTFIELDSIZE (-1)) ;;
  easy_setopt_ CURLOPT_HTTPHEADER ;;
  easy_setopt_ CURLOPT_WRITEDATA ;;
  easy_setopt_ CURLOPT_WRITEFUNCTION ;;
  multi_setopt_ CURLMOPT_SOCKETDATA ;;
  multi_setopt_ CURLMOPT_SOCKETFUNCTION ;;
  multi_setopt_ CURLMOPT_TIMERDATA ;;
  multi_setopt_ CURLMOPT_TIMERFUNCTION ;;
  t ← sys (timerfd_create E);
  upd_mod (with_timerfd t) ;;
  if (-1 =? t)%Z then mret https_init_fail_timerfd else
  upd_mod (with_fds_len 0) ;;
  mret https_init_ok.

Definition https_stop_prep : M https_stop_prep_res :=
  m ← get_mod;
  match stop_strat m with
  | https_stop_strat_abort =>
      (if decide (st m = st_pend_) then remove_handle_ else mret tt) ;;
      must_set_st_ 149 (lit "set_st_(st_stopped_) in https_stop_prep") st_stopped_ ;;
      upd_mod (with_is_stop_waiting false) ;;
      mret https_stop_prep_ok
  | https_stop_strat_wait =>
      if negb (is_stop_waiting m) then
        if decide (st m = st_pend_) then
          upd_mod (with_is_stop_waiting true) ;; mret https_stop_prep_ok
        else must_set_st_ 160 (lit "set_st_(st_stopped_) in https_stop_prep") st_stopped_ ;; mret https_stop_prep_ok
      else mret https_stop_prep_ok
  end.

Definition https_stop : M https_stop_res :=
  m ← get_mod;
  if decide (st m = st_stopped_) then
    upd_mod (with_st st_uninit_) ;;
    easy_cleanup_ ;;
    multi_cleanup_ ;;
    slist_free_all_ ;;
    m ← get_mod;
    sys_ (close_fd E (timerfd m)) ;;
    mret https_stop_ok
  else mret https_stop_fail_no_prep.

(** The table and how many of its entries to poll. *)
Definition https_pollfds : M (fds_arg * nat) :=
  m ← get_mod;
  if decide (st m = st_pend_) then mret (Fds_own, fds_len m) else mret (Fds_own, 0).

Definition https_events : M (list https_ev_type * nat) :=
  m ← get_mod; mret (evs m, evs_len m).

(** ** Update *)
Definition req_fail_ : M unit :=
  must_set_st_ 201 (lit "set_st_(st_err_) in update") st_err_ ;;
  must_add_ev_ 204 (lit "add_ev_(https_ev_req_fail) in update") https_ev_req_fail.

(** The action flags made from [revents]: a [switch] on the whole value whose
    cases fall through. *)
Definition revents_cev_ (rev : Z) : Z :=
  if (rev =? POLLIN)%Z then Z.lor (Z.lor CURL_CSELECT_IN CURL_CSELECT_OUT) CURL_CSELECT_ERR
  else if (rev =? POLLOUT)%Z then Z.lor CURL_CSELECT_OUT CURL_CSELECT_ERR
  else if ((rev =? POLLERR) || (rev =? POLLHUP) || (rev =? POLLNVAL))%Z then CURL_CSELECT_ERR
  else 0%Z.

(** What is done for a finished transfer; [https_update] returns after it. *)
Definition req_done_ : M unit :=
  need_curl ;;
  w ← get_world;
  match curl_easy_getinfo_response_code E w with
  | Some code => upd_mod (with_resp_status code)
  | None => mret tt
  end ;;
  must_set_st_ 280 (lit "set_st_(st_idle_) in update") st_idle_ ;;
  must_add_ev_ 283 (lit "add_ev_(https_ev_req_fin) in update") https_ev_req_fin ;;
  remove_handle_ ;;
  m ← get_mod;
  if is_stop_waiting m then
    upd_mod (with_is_stop_waiting false) ;;
    must_set_st_ 290 (lit "set_st_(st_stopped_)") st_stopped_ ;;
    must_add_ev_ 293 (lit "add_ev_(https_ev_stopped)") https_ev_stopped
  else mret tt.

(** The [do ... while (cmsg)] loop over libcurl's messages; true when
    [https_update] returns from inside it.  [fuel] bounds the number of
    messages; running out of it counts as undefined. *)
Fixpoint info_loop_ (fuel : nat) : M bool :=
  match fuel with
  | O => undef
  | S fuel =>
      need_curlm ;;
      cmsg ← sys (curl_multi_info_read E);
      match cmsg with
      | None => mret false
      | Some cm =>
          if (msg cm =? CURLMSG_DONE)%Z then
            if (result cm =? CURLE_OK)%Z then req_done_ ;; mret true
            else
              upd_mod (with_curl_err (result cm)) ;;
              req_fail_ ;;
              info_loop_ fuel
          else info_loop_ fuel
      end
  end.

(** [fds[i]] *)
Definition fds_arg_at (a : fds_arg) (i : nat) : M pollfd :=
  match a with
  | Fds_own => fds_at i
  | Fds_copy l => match l !! i with Some p => mret p | None => undef end
  end.

(** What one descriptor makes of the result code so far. *)
Definition fd_action_ (p : pollfd) (cmres : Z) : M Z :=
  m ← get_mod;
  if (fd p =? timerfd m)%Z then
    if negb (Z.land (revents p) POLLIN =? 0)%Z then
      sys (read_timerfd E (fd p)) ;;
      socket_action_ CURL_SOCKET_TIMEOUT 0
    else mret cmres
  else socket_action_ (fd p) (revents_cev_ (revents p)).

(** The loop over the array from index [i] on, [n] entries left. *)
Fixpoint update_loop_ (fuel : nat) (a : fds_arg) (n i : nat) (cmres : Z) : M unit :=
  match n with
  | O => mret tt
  | S n =>
      p ← fds_arg_at a i;
      cmres ← fd_action_ p cmres;
      ret ← (if (cmres =? CURLM_OK)%Z then info_loop_ fuel else mret false);
      if (ret : bool) then mret tt
      else if negb (cmres =? CURLM_OK)%Z then
        upd_mod (with_curlm_err cmres) ;; req_fail_
      else update_loop_ fuel a n (S i) cmres
  end.

Definition https_update (fuel : nat) (a : fds_arg) (nfds : nat) : M unit :=
  upd_mod (with_evs_len 0) ;;
  m ← get_mod;
  if decide (st m = st_stopped_) then must_add_ev_ 219 (lit "add_ev_(https_ev_stopped)") https_ev_stopped
  else if decide (st m = st_just_init_) then
    must_set_st_ 226 (lit "set_st_(st_err_) in update") st_idle_ ;;
    must_add_ev_ 229 (lit "add_ev_(https_ev_init)") https_ev_init
  else if negb (bool_decide (st m = st_pend_)) then mret tt
  else update_loop_ fuel a nfds 0 CURLM_OK.

(** ** Requests and settings *)
Definition https_set_timeout (timeout_s : Z) : M unit :=
  easy_setopt_ (CURLOPT_TIMEOUT timeout_s).

Definition https_set_verbosity (level : https_verbosity) : M unit :=
  match level with
  | https_verbosity_silent => easy_setopt_ (CURLOPT_VERBOSE 0)
  | https_verbosity_debug => easy_setopt_ (CURLOPT_VERBOSE 1)
  end.

Definition https_set_stop_strat (s : https_stop_strategy) : M unit := upd_mod (with_stop_strat s).

Definition https_req_json (method : https_req_method) (url data : list char) : M https_req_res :=
  m ← get_mod;
  if negb (bool_decide (st m = st_idle_)) then mret https_req_fail_other_pend
  else if is_stop_waiting m then mret https_req_fail_stopping
  else
    match method with
    | https_method_get => easy_setopt_ (CURLOPT_HTTPGET 1)
    | https_method_post => easy_setopt_ (CURLOPT_POST 1)
    end ;;
    easy_setopt_ (CURLOPT_URL url) ;;
    easy_setopt_ (CURLOPT_POSTFIELDS data) ;;
    add_handle_ ;;
    must_set_st_ 368 (lit "set_st_(st_pend_) in https_req_json") st_pend_ ;;
    mret https_req_ok.

Definition https_resp_status : M Z := m ← get_mod; mret (resp_status m).

Definition https_ev_ty (e : https_ev_type) : https_ev_type := e.

(** ** Calls of a client, as data *)
Inductive https_op :=
| Op_update (fuel : nat) (a : fds_arg) (nfds : nat)
| Op_req (method : https_req_method) (url data : list char)
| Op_stop_prep | Op_stop
| Op_set_timeout (s : Z) | Op_set_verbosity (l : https_verbosity)
| Op_set_stop_strat (s : https_stop_strategy).

Definition https_run_op (o : https_op) : M unit :=
  match o with
  | Op_update fuel a nfds => https_update fuel a nfds
  | Op_req method url data => https_req_json method url data ;; mret tt
  | Op_stop_prep => https_stop_prep ;; mret tt
  | Op_stop => https_stop ;; mret tt
  | Op_set_timeout s => https_set_timeout s
  | Op_set_verbosity l => https_set_verbosity l
  | Op_set_stop_strat s => https_set_stop_strat s
  end.
End https.
