(* ===== verification/HttpsProps.v ===== *)
(** * Properties of the HTTPS client

    The descriptor table implements a finite map; the invariant of the module
    and what every call does to it, for every libcurl that obeys [CurlLaws];
    the life cycle of a request; and where the module can get stuck. *)

From stdpp Require Import base list numbers strings option gmap.
From S2P Require Import Prelude Https.

(** ** The descriptor table as a finite map *)
Section table.
Context {W : Type}.
Implicit Types (m : https_mod W) (w : W).

Lemma get_mod_bind {B} (k : https_mod W -> CM (https_mod W * W) B) m w :
  (get_mod ≫= k) (m, w) = k m (m, w).
Proof. done. Qed.

Lemma upd_mod_bind {B} f (k : unit -> CM (https_mod W * W) B) m w :
  (upd_mod f ≫= k) (m, w) = k tt (f m, w).
Proof. done. Qed.

Definition table m : list pollfd := take (fds_len m) (fds m).

Definition entry_of (p : pollfd) : Z * Z := (fd p, events p).

(** Descriptor to requested events. *)
Definition watched m : gmap Z Z := list_to_map (entry_of <$> table m).

Record wf_fds m : Prop := {
  wf_fds_cap : length (fds m) = fds_maxlen_;
  wf_fds_len : fds_len m <= fds_maxlen_;
  wf_fds_nodup : NoDup (fd <$> table m)
}.

(** Only the table differs. *)
Definition table_frame m m' : Prop := exists l n, m' = with_fds_len n (with_fds l m).

Lemma table_frame_refl m : table_frame m m.
Proof. exists (fds m), (fds_len m). by destruct m. Qed.

Lemma table_frame_trans m1 m2 m3 : table_frame m1 m2 -> table_frame m2 m3 -> table_frame m1 m3.
Proof. intros (l1 & n1 & ->) (l2 & n2 & ->). by exists l2, n2. Qed.

Lemma table_length m : wf_fds m -> length (table m) = fds_len m.
Proof. intros [Hc Hl _]. unfold table. rewrite length_take. lia. Qed.

Lemma table_at m w i p : wf_fds m -> table m !! i = Some p -> fds_at i (m, w) = Ret (p, (m, w)).
Proof.
  intros Hwf Hi. unfold fds_at, get_mod, reads, mbind, cm_bind. cbn.
  unfold table in Hi. apply lookup_take_Some in Hi as [-> _]. done.
Qed.

Lemma find_fd_loop_run m w x n i : wf_fds m -> i + n = fds_len m ->
  find_fd_loop_ n i x (m, w) =
    Ret ((fun r => i + r.1) <$> list_find (fun p => fd p = x) (drop i (table m)), (m, w)).
Proof.
  intros Hwf. revert i. induction n as [|n IH]; intros i Hin; cbn [find_fd_loop_].
  - rewrite drop_ge; [done|]. rewrite table_length by done. lia.
  - destruct (lookup_lt_is_Some_2 (table m) i) as [p Hp]; [rewrite table_length by done; lia|].
    erewrite bind_Ret by by apply table_at. rewrite (drop_S _ _ _ Hp). cbn [list_find].
    destruct (Z.eqb_spec (fd p) x) as [E|E].
    + rewrite decide_True by done. cbn. by rewrite Nat.add_0_r.
    + rewrite decide_False by done. rewrite IH by lia. rewrite <- !option_fmap_compose.
      do 2 f_equal. destruct (list_find _ _) as [[j q]|]; cbn; [do 2 f_equal; lia|done].
Qed.

Lemma find_fd_run m w x : wf_fds m ->
  find_fd_ x (m, w) = Ret (fst <$> list_find (fun p => fd p = x) (table m), (m, w)).
Proof.
  intros Hwf. unfold find_fd_, get_mod, reads, mbind, cm_bind. cbn.
  rewrite find_fd_loop_run by (done || lia). by destruct (list_find _ _) as [[]|].
Qed.

Lemma watched_None m x : list_find (fun p => fd p = x) (table m) = None -> watched m !! x = None.
Proof.
  intros Hf. apply list_find_None in Hf. apply not_elem_of_list_to_map_1.
  rewrite <- list_fmap_compose. intros Hin. apply list_elem_of_fmap in Hin as (p & -> & Hp).
  rewrite Forall_forall in Hf. by apply (Hf p Hp).
Qed.

Lemma entries_nodup m : wf_fds m -> NoDup (entry_of <$> table m).*1.
Proof. intros [_ _ Hn]. by rewrite <- list_fmap_compose. Qed.

Lemma watched_Some m p i : wf_fds m -> table m !! i = Some p -> watched m !! fd p = Some (events p).
Proof.
  intros Hwf Hp. apply elem_of_list_to_map_1; [by apply entries_nodup|].
  apply list_elem_of_fmap. exists p. split; [done|]. by eapply list_elem_of_lookup_2.
Qed.

Lemma watched_size m : wf_fds m -> size (watched m) = fds_len m.
Proof.
  intros Hwf. unfold watched. rewrite <- (table_length m Hwf).
  pose proof (entries_nodup m Hwf) as Hn. revert Hn. generalize (table m) as l.
  induction l as [|p l IH]; intros Hn; [done|]. cbn in *. apply NoDup_cons in Hn as [Hp Hn].
  rewrite map_size_insert_None; [by rewrite IH|]. by apply not_elem_of_list_to_map_1.
Qed.

Lemma fds_put_run m w i p : i < length (fds m) ->
  fds_put i p (m, w) = Ret (tt, (with_fds (<[i := p]> (fds m)) m, w)).
Proof.
  intros Hi. unfold fds_put, get_mod, upd_mod, reads, modc, mbind, cm_bind. cbn. by rewrite decide_True.
Qed.

(** Adding, changing and deleting an entry of the table. *)
Lemma set_fd_new_run m w x ev : wf_fds m ->
  list_find (fun p => fd p = x) (table m) = None -> fds_len m < fds_maxlen_ ->
  exists m', set_fd_ x ev (m, w) = Ret (set_fd_ok_, (m', w)) /\ table_frame m m' /\ wf_fds m' /\
    table m' = table m ++ [{| fd := x; events := ev; revents := 0 |}].
Proof.
  intros Hwf Hf Hlt. pose proof Hwf as [Hc Hl Hn]. unfold set_fd_.
  erewrite bind_Ret by by apply find_fd_run. rewrite Hf. cbn [fmap option_fmap option_map].
  unfold add_fd_. rewrite (bind_Ret _ _ _ (Some (fds_len m))
    (with_fds_len (S (fds_len m)) (with_fds (<[fds_len m := {| fd := x; events := ev; revents := 0 |}]> (fds m)) m), w)).
  2:{ rewrite get_mod_bind, decide_True by done. cbv zeta. erewrite bind_Ret by (apply fds_put_run; lia). done. }
  set (p := {| fd := x; events := ev; revents := 0 |}).
  exists (with_fds_len (S (fds_len m)) (with_fds (<[fds_len m := p]> (fds m)) m)).
  assert (table (with_fds_len (S (fds_len m)) (with_fds (<[fds_len m := p]> (fds m)) m))
    = table m ++ [p]) as Ht by (unfold table; cbn; by rewrite take_insert_snoc by lia).
  split_and!; [done|by eexists _, _| |done].
  split; [by cbn; rewrite length_insert|cbn; lia|]. rewrite Ht, fmap_app. apply NoDup_app.
  split_and!; [done| |by apply NoDup_singleton]. intros y Hy. cbn. rewrite list_elem_of_singleton. intros ->.
  apply list_elem_of_fmap in Hy as (q & -> & Hq). apply list_find_None in Hf.
  rewrite Forall_forall in Hf. by apply (Hf q Hq).
Qed.

Lemma set_fd_old_run m w x ev i p : wf_fds m ->
  list_find (fun p => fd p = x) (table m) = Some (i, p) ->
  exists m', set_fd_ x ev (m, w) = Ret (set_fd_ok_, (m', w)) /\ table_frame m m' /\ wf_fds m' /\
    table m' = <[i := {| fd := x; events := ev; revents := revents p |}]> (table m).
Proof.
  intros Hwf Hf. pose proof Hwf as [Hc Hl Hn]. unfold set_fd_.
  erewrite bind_Ret by by apply find_fd_run. rewrite Hf. cbn [fmap option_fmap option_map fst].
  apply list_find_Some in Hf as (Hp & <- & _). erewrite bind_Ret by by apply table_at.
  assert (i < fds_len m) as Hi by (rewrite <- (table_length m Hwf); by eapply lookup_lt_Some).
  erewrite bind_Ret by (apply fds_put_run; lia). set (q := {| fd := _; events := _; revents := _ |}).
  assert (table (with_fds (<[i := q]> (fds m)) m) = <[i := q]> (table m)) as Ht.
  { unfold table. cbn. apply take_insert_lt. lia. }
  eexists; split_and!; [done|by exists (<[i := q]> (fds m)), (fds_len m); destruct m| |done].
  split; [by cbn; rewrite length_insert|done|]. rewrite Ht, list_fmap_insert. cbn.
  rewrite list_insert_id; [done|]. by rewrite list_lookup_fmap, Hp.
Qed.

Lemma set_fd_full_run m w x ev : wf_fds m ->
  list_find (fun p => fd p = x) (table m) = None -> fds_len m = fds_maxlen_ ->
  set_fd_ x ev (m, w) = Ret (set_fd_add_overflow_, (m, w)).
Proof.
  intros Hwf Hf Hl. unfold set_fd_. erewrite bind_Ret by by apply find_fd_run.
  rewrite Hf. cbn [fmap option_fmap option_map]. unfold add_fd_, get_mod, reads, mbind, cm_bind. cbn.
  by rewrite decide_False by lia.
Qed.

(** The shifting loop deletes an entry from the front part of the array. *)
Lemma shift_fds_run m w n i : 0 < i -> i + n <= length (fds m) ->
  exists l, shift_fds_ n i (m, w) = Ret (tt, (with_fds l m, w)) /\ length l = length (fds m) /\
    take (i + n - 1) l = take (i - 1) (fds m) ++ take n (drop i (fds m)).
Proof.
  revert m i. induction n as [|n IH]; intros m i Hi Hn; cbn [shift_fds_].
  - exists (fds m). split_and!; [by destruct m|done|]. rewrite take_0, app_nil_r. f_equal. lia.
  - destruct (lookup_lt_is_Some_2 (fds m) i) as [p Hp]; [lia|].
    unfold fds_at. erewrite bind_Ret by (rewrite get_mod_bind, Hp; done).
    erewrite bind_Ret by (apply fds_put_run; lia).
    destruct (IH (with_fds (<[i - 1 := p]> (fds m)) m) (S i)) as (l & Hr & Hl & Ht);
      [lia|cbn; rewrite length_insert; lia|].
    exists l. rewrite Hr. cbn in *. rewrite length_insert in Hl. split_and!; [done|done|].
    replace (i + S n - 1) with (i + n - 0) by lia. rewrite Ht.
    rewrite (drop_S _ _ _ Hp). replace (i - 0) with (S (i - 1)) by lia.
    rewrite take_insert_snoc by lia. rewrite drop_insert_lt by lia. cbn [take].
    by rewrite <- app_assoc.
Qed.

Lemma del_fd_run m w x i p : wf_fds m -> list_find (fun p => fd p = x) (table m) = Some (i, p) ->
  exists m', del_fd_ x (m, w) = Ret (del_fd_ok_, (m', w)) /\ table_frame m m' /\ wf_fds m' /\
    table m' = delete i (table m).
Proof.
  intros Hwf Hf. pose proof Hwf as [Hc Hl Hn]. unfold del_fd_.
  erewrite bind_Ret by by apply find_fd_run. rewrite Hf. cbn [fmap option_fmap option_map fst].
  apply list_find_Some in Hf as (Hp & <- & _).
  assert (i < fds_len m) as Hi by (rewrite <- (table_length m Hwf); by eapply lookup_lt_Some).
  destruct (shift_fds_run m w (fds_len m - (i + 1)) (i + 1)) as (l & Hr & Hlen & Ht); [lia..|].
  rewrite get_mod_bind. erewrite bind_Ret by exact Hr. rewrite upd_mod_bind.
  assert (table (with_fds_len (fds_len m - 1) (with_fds l m)) = delete i (table m)) as Hd.
  { unfold table. cbn. replace (i + 1 + (fds_len m - (i + 1)) - 1) with (fds_len m - 1) in Ht by lia.
    rewrite Ht. rewrite delete_take_drop. f_equal; [rewrite take_take; f_equal; lia|].
    rewrite skipn_firstn_comm. f_equal; [lia|]. f_equal; lia. }
  eexists; split_and!; [done|by eexists _, _| |done]. split; [cbn; congruence|cbn; lia|]. rewrite Hd.
  rewrite delete_take_drop, fmap_app, fmap_take, fmap_drop, <- delete_take_drop.
  eapply sublist_NoDup; [exact Hn|]. apply sublist_delete.
Qed.

Lemma del_fd_none_run m w x : wf_fds m -> list_find (fun p => fd p = x) (table m) = None ->
  del_fd_ x (m, w) = Ret (del_fd_not_found_, (m, w)).
Proof.
  intros Hwf Hf. unfold del_fd_. erewrite bind_Ret by by apply find_fd_run. by rewrite Hf.
Qed.

(** An entry anywhere in an association list is an insertion into the map. *)
Lemma list_to_map_middle (l1 l2 : list (Z * Z)) (x ev : Z) : x ∉ l1.*1 ->
  list_to_map (M:=gmap Z Z) (l1 ++ (x, ev) :: l2) = <[x := ev]> (list_to_map (l1 ++ l2)).
Proof.
  induction l1 as [|[y v] l1 IH]; intros Hx; [done|]. cbn in *.
  apply not_elem_of_cons in Hx as [Hy Hx]. rewrite IH by done. by apply insert_insert_ne.
Qed.

(** The table around the entry of a descriptor. *)
Lemma table_split m i p : wf_fds m -> table m !! i = Some p ->
  exists l1 l2, table m = l1 ++ p :: l2 /\ length l1 = i /\
    (fd p ∉ (entry_of <$> l1).*1) /\ (fd p ∉ (entry_of <$> (l1 ++ l2)).*1).
Proof.
  intros Hwf Hp. pose proof (wf_fds_nodup m Hwf) as Hn. apply list_elem_of_split_length in Hp as (l1 & l2 & E & ->).
  exists l1, l2. rewrite E in Hn. rewrite fmap_app, fmap_cons in Hn.
  apply NoDup_app in Hn as (_ & H1 & H2). apply NoDup_cons in H2 as [H2 _].
  rewrite <- !list_fmap_compose, fmap_app. split_and!; [done|done| |].
  - intros Hin. apply (H1 _ Hin). left.
  - rewrite elem_of_app. intros [Hin|Hin]; [|by apply H2]. apply (H1 _ Hin). left.
Qed.
End table.

(** The table operations on the map. *)
Lemma fd_table_ops {W} (m : https_mod W) (w : W) x ev : wf_fds m ->
  (exists r m', set_fd_ x ev (m, w) = Ret (r, (m', w)) /\ wf_fds m' /\ table_frame m m' /\
     match r with
     | set_fd_ok_ => watched m' = <[x := ev]> (watched m)
     | set_fd_add_overflow_ => m' = m /\ watched m !! x = None /\ size (watched m) = fds_maxlen_
     end) /\
  (exists r m', del_fd_ x (m, w) = Ret (r, (m', w)) /\ wf_fds m' /\ table_frame m m' /\
     match r with
     | del_fd_ok_ => is_Some (watched m !! x) /\ watched m' = delete x (watched m)
     | del_fd_not_found_ => m' = m /\ watched m !! x = None
     end).
Proof.
  intros Hwf. destruct (list_find (fun p => fd p = x) (table m)) as [[i p]|] eqn:Hf.
  - destruct (set_fd_old_run m w x ev i p Hwf Hf) as (m1 & H1 & Hfr1 & Hwf1 & Ht1).
    destruct (del_fd_run m w x i p Hwf Hf) as (m2 & H2 & Hfr2 & Hwf2 & Ht2).
    apply list_find_Some in Hf as (Hp & <- & _).
    pose proof (watched_Some m p i Hwf Hp) as Hin.
    destruct (table_split m i p Hwf Hp) as (l1 & l2 & E & <- & Hn1 & Hn2).
    unfold watched in *. rewrite E in *. split; eexists _, _; (split_and!; [done..|]).
    + rewrite Ht1, insert_app_r_alt, Nat.sub_diag by done. cbn [insert list_insert].
      rewrite !fmap_app, !fmap_cons. unfold entry_of at 2 5. cbn [fd events].
      rewrite !list_to_map_middle by done. by rewrite insert_insert_eq.
    + split; [by eexists|]. rewrite Ht2, delete_middle, (fmap_app _ l1 (p :: l2)), fmap_cons.
      change (entry_of p) with (fd p, events p). rewrite list_to_map_middle by done.
      rewrite <- fmap_app, delete_insert_id; [done|].
      by apply not_elem_of_list_to_map_1.
  - pose proof (watched_None m x Hf) as Hn. split.
    + destruct (decide (fds_len m < fds_maxlen_)) as [Hlt|Hge].
      * destruct (set_fd_new_run m w x ev Hwf Hf Hlt) as (m1 & H1 & Hfr1 & Hwf1 & Ht1).
        eexists _, _; split_and!; [done..|]. unfold watched. rewrite Ht1, fmap_app. cbn [fmap list_fmap].
        unfold entry_of at 2. cbn [fd events]. rewrite list_to_map_middle, app_nil_r; [done|].
        by apply not_elem_of_list_to_map_2.
      * pose proof (wf_fds_len m Hwf). assert (fds_len m = fds_maxlen_) as Hl by lia.
        exists set_fd_add_overflow_, m. split_and!; [by apply set_fd_full_run|done|apply table_frame_refl|done|done|].
        by rewrite watched_size.
    + exists del_fd_not_found_, m.
      split_and!; [by apply del_fd_none_run|done|apply table_frame_refl|done|done].
Qed.

(** C19. The descriptor table implements a finite map of at most 24 descriptors:
    [set_fd_] inserts the descriptor with its events, or reports an overflow and
    changes nothing exactly when the descriptor is new and 24 are watched;
    [del_fd_] deletes the descriptor, or reports that it is not there; the rest
    of the module and the world are untouched. *)
Theorem fd_table_refines {W} (m : https_mod W) (w : W) x ev : wf_fds m ->
  (exists r m', set_fd_ x ev (m, w) = Ret (r, (m', w)) /\ wf_fds m' /\ table_frame m m' /\
     match r with
     | set_fd_ok_ => watched m' = <[x := ev]> (watched m)
     | set_fd_add_overflow_ => m' = m /\ watched m !! x = None /\ size (watched m) = fds_maxlen_
     end) /\
  (exists r m', del_fd_ x (m, w) = Ret (r, (m', w)) /\ wf_fds m' /\ table_frame m m' /\
     match r with
     | del_fd_ok_ => is_Some (watched m !! x) /\ watched m' = delete x (watched m)
     | del_fd_not_found_ => m' = m /\ watched m !! x = None
     end).
Proof. intros Hwf. by apply fd_table_ops. Qed.

(** ** What the module relies on *)

(** A libcurl call makes socket callbacks only for descriptors other than
    [tfd]; [active] stays within [n] while it runs, whatever the callbacks
    return, and within [e] at its end. *)
Fixpoint tree_ok {W A} (active : W -> nat) (tfd : Z) (n e : nat) (r : curl_run W A) : Prop :=
  match r with
  | Curl_ret _ w => active w <= e
  | Curl_sock x _ w k => x <> tfd /\ active w <= n /\
      forall rc w', active w' <= n -> tree_ok active tfd n e (k rc w')
  | Curl_timer _ w k | Curl_write _ w k => active w <= n /\
      forall rc w', active w' <= n -> tree_ok active tfd n e (k rc w')
  end.

(** libcurl's contract, for a timer descriptor [tfd] of the program.  [active]
    counts the transfers that were added and whose end has not been reported:
    adding a handle adds one, every message of [curl_multi_info_read] reports
    the end of one, removing the handle leaves none, a new multi handle has
    none, and nothing else makes it grow. *)
Class CurlLaws {W} (E : curl_env W) (tfd : Z) := {
  active : W -> nat;
  law_action x ev w : tree_ok active tfd (active w) (active w) (curl_multi_socket_action E x ev w);
  law_add w : tree_ok active tfd (S (active w)) (S (active w)) (curl_multi_add_handle E w);
  law_remove w : tree_ok active tfd (active w) 0 (curl_multi_remove_handle E w);
  law_easy_cleanup w : tree_ok active tfd (active w) (active w) (curl_easy_cleanup E w);
  law_multi_cleanup w : tree_ok active tfd (active w) (active w) (curl_multi_cleanup E w);
  law_read_some w cm w' : curl_multi_info_read E w = (Some cm, w') -> active w' < active w;
  law_read_none w w' : curl_multi_info_read E w = (None, w') -> active w' <= active w;
  law_multi_init w : active (curl_multi_init E w).2 = 0;
  law_easy_setopt o w : active (curl_easy_setopt E o w) <= active w;
  law_multi_setopt o w : active (curl_multi_setopt E o w) <= active w;
  law_slist_append b t w : active (curl_slist_append E b t w).2 <= active w;
  law_slist_free w : active (curl_slist_free_all E w) <= active w;
  law_timer_create w : active (timerfd_create E w).2 <= active w;
  law_timer_settime x t w : active (timerfd_settime E x t w).2 <= active w;
  law_timer_read x w : active (read_timerfd E x w).2 <= active w;
  law_close x w : active (close_fd E x w) <= active w
}.

Section props.
Context {W : Type} (E : curl_env W) (tfd : Z) `{!CurlLaws E tfd}.
Implicit Types (m : https_mod W) (w : W).

(** The events reported by the last update. *)
Definition reported m : list https_ev_type := take (evs_len m) (evs m).

Record wf m : Prop := {
  wf_table : wf_fds m;
  wf_evs_cap : length (evs m) = evs_maxlen_;
  wf_evs_len : evs_len m <= evs_maxlen_;
  wf_timer : timerfd m = tfd;
  wf_cb f : data_cb m = Some f -> forall d w, active (f d w) <= active w
}.

(** *** Callbacks *)
Definition cb_post m (n : nat) {A} (_ : A) (s : https_mod W * W) : Prop :=
  wf s.1 /\ table_frame m s.1 /\ active s.2 <= n.

Lemma wf_frame m m' : wf m -> table_frame m m' -> wf_fds m' -> wf m'.
Proof. intros [] (l & n & ->) ?. by split. Qed.

Lemma set_fd_wp m w n x ev : wf m -> active w <= n -> wp (set_fd_ x ev) (cb_post m n) (m, w).
Proof.
  intros Hwf Hn. destruct (list_find (fun p => fd p = x) (table m)) as [[i p]|] eqn:Hf;
    [|destruct (decide (fds_len m < fds_maxlen_))].
  - destruct (set_fd_old_run m w x ev i p (wf_table m Hwf) Hf) as (m' & Hr & Hfr & Hwf' & _).
    eapply wp_run; [done|]. split; [by eapply wf_frame|done].
  - destruct (set_fd_new_run m w x ev (wf_table m Hwf) Hf) as (m' & Hr & Hfr & Hwf' & _); [done|].
    eapply wp_run; [done|]. split; [by eapply wf_frame|done].
  - eapply wp_run; [apply set_fd_full_run; [apply Hwf|done|]|].
    + pose proof (wf_fds_len m (wf_table m Hwf)). lia.
    + split; [done|]. split; [apply table_frame_refl|done].
Qed.

Lemma del_fd_wp m w n x : wf m -> active w <= n -> wp (del_fd_ x) (cb_post m n) (m, w).
Proof.
  intros Hwf Hn. destruct (list_find (fun p => fd p = x) (table m)) as [[i p]|] eqn:Hf.
  - destruct (del_fd_run m w x i p (wf_table m Hwf) Hf) as (m' & Hr & Hfr & Hwf' & _).
    eapply wp_run; [done|]. split; [by eapply wf_frame|done].
  - eapply wp_run; [apply del_fd_none_run; [apply Hwf|done]|].
    split; [done|]. split; [apply table_frame_refl|done].
Qed.

Lemma sock_cb_wp m w n x what : wf m -> active w <= n -> x <> tfd ->
  wp (sock_cb_ x what) (cb_post m n) (m, w).
Proof.
  intros Hwf Hn Hx. unfold sock_cb_, get_mod. wp_step. cbn [fst]. rewrite (wf_timer m Hwf).
  split; [by apply negb_true_iff, Z.eqb_neq|]. apply wp_if; intros _; wp_step.
  - eapply wp_mono; [by apply del_fd_wp|]. intros r s Hs. by destruct (decide _).
  - eapply wp_mono; [by apply set_fd_wp|]. intros r s Hs. by destruct (decide _).
Qed.

Lemma timer_cb_wp m w n ms : wf m -> active w <= n -> wp (timer_cb_ E ms) (cb_post m n) (m, w).
Proof.
  intros Hwf Hn. unfold timer_cb_, get_mod. wp_step. cbn [fst].
  assert (forall x t s, cb_post m n tt s -> wp (r ← sys (timerfd_settime E x t);
    if (r =? -1)%Z then mret (-1)%Z else mret 0%Z) (cb_post m n) s) as Hset.
  { intros x t [m1 w1] (H1 & H2 & H3). unfold sys, get_world, set_world. wp_step. cbn [fst snd].
    pose proof (law_timer_settime x t w1). cbn [snd] in H3.
    destruct (_ =? -1)%Z; wp_step; (split; [done|split; [done|cbn; lia]]). }
  apply wp_if; intros _; wp_step.
  - eapply wp_mono; [by apply set_fd_wp|]. intros r s Hs. wp_step. by apply Hset.
  - eapply wp_mono; [by apply del_fd_wp|]. intros r s Hs. wp_step. by apply Hset.
Qed.

Lemma write_cb_wp m w n data : wf m -> active w <= n -> wp (write_cb_ data) (cb_post m n) (m, w).
Proof.
  intros Hwf Hn. unfold write_cb_, get_mod. wp_step. cbn [fst]. destruct (data_cb m) as [f|] eqn:Hf.
  - unfold sys_, get_world, set_world. wp_step. cbn [fst snd]. pose proof (wf_cb m Hwf f Hf data w).
    split; [done|]. split; [apply table_frame_refl|cbn; lia].
  - wp_step. split; [done|]. split; [apply table_frame_refl|done].
Qed.

(** A libcurl call keeps the invariant; only the table changes. *)
Lemma run_curl_wp {A} (r : curl_run W A) m w n e : wf m -> tree_ok active tfd n e r ->
  wp (run_curl E r) (cb_post m e) (m, w).
Proof.
  revert m w. induction r as [a w0|x what w0 k IH|ms w0 k IH|data w0 k IH]; intros m w Hwf Hr;
    cbn [run_curl tree_ok] in *; unfold set_world, get_world; wp_step; cbn [fst].
  - split; [done|]. split; [apply table_frame_refl|done].
  - destruct Hr as (Hx & Hn & Hk). eapply wp_mono; [by apply sock_cb_wp|].
    intros rc [m1 w1] (H1 & H2 & H3). wp_step. cbn [snd]. eapply wp_mono; [by eapply IH, Hk|].
    intros a s (H4 & H5 & H6). split; [done|]. split; [by eapply table_frame_trans|done].
  - destruct Hr as (Hn & Hk). eapply wp_mono; [by apply timer_cb_wp|].
    intros rc [m1 w1] (H1 & H2 & H3). wp_step. cbn [snd]. eapply wp_mono; [by eapply IH, Hk|].
    intros a s (H4 & H5 & H6). split; [done|]. split; [by eapply table_frame_trans|done].
  - destruct Hr as (Hn & Hk). eapply wp_mono; [by apply write_cb_wp|].
    intros rc [m1 w1] (H1 & H2 & H3). wp_step. cbn [snd]. eapply wp_mono; [by eapply IH, Hk|].
    intros a s (H4 & H5 & H6). split; [done|]. split; [by eapply table_frame_trans|done].
Qed.

Lemma curl_call_wp {A} (f : W -> curl_run W A) m w n e : wf m -> tree_ok active tfd n e (f w) ->
  wp (curl_call E f) (cb_post m e) (m, w).
Proof.
  intros Hwf Hf. unfold curl_call, get_world. wp_step. cbn [snd]. by eapply run_curl_wp.
Qed.

(** *** Handles *)

(** The three objects of libcurl exist. *)
Definition live m : Prop := curl m = H_live /\ curlm m = H_live /\ json_hdrs m = H_live.

Lemma frame_live m m' : table_frame m m' -> live m -> live m'.
Proof. by intros (l & n & ->). Qed.

Lemma wp_need_curl (Q : unit -> https_mod W * W -> Prop) m w : live m -> Q tt (m, w) -> wp need_curl Q (m, w).
Proof. intros (H & _) HQ. unfold need_curl, get_mod. wp_step. cbn [fst]. rewrite decide_True by done. by wp_step. Qed.

Lemma wp_need_curlm (Q : unit -> https_mod W * W -> Prop) m w : live m -> Q tt (m, w) -> wp need_curlm Q (m, w).
Proof. intros (_ & H & _) HQ. unfold need_curlm, get_mod. wp_step. cbn [fst]. rewrite decide_True by done. by wp_step. Qed.

Lemma easy_setopt_wp o (Q : unit -> https_mod W * W -> Prop) m w : live m -> Q tt (m, curl_easy_setopt E o w) ->
  wp (easy_setopt_ E o) Q (m, w).
Proof. intros Hl HQ. unfold easy_setopt_. wp_step. by apply wp_need_curl. Qed.

Lemma multi_setopt_wp o (Q : unit -> https_mod W * W -> Prop) m w : live m -> Q tt (m, curl_multi_setopt E o w) ->
  wp (multi_setopt_ E o) Q (m, w).
Proof. intros Hl HQ. unfold multi_setopt_. wp_step. by apply wp_need_curlm. Qed.

Lemma socket_action_wp x ev m w n : wf m -> live m -> active w <= n -> wp (socket_action_ E x ev) (cb_post m n) (m, w).
Proof.
  intros Hwf Hl Hn. unfold socket_action_. wp_step. apply wp_need_curlm; [done|]. eapply wp_mono; [eapply curl_call_wp; [done|apply law_action]|].
  intros a s (H1 & H2 & H3). split; [done|]. split; [done|lia].
Qed.

Lemma remove_handle_wp m w : wf m -> live m -> wp (remove_handle_ E) (cb_post m 0) (m, w).
Proof.
  intros Hwf Hl. unfold remove_handle_. wp_step. apply wp_need_curlm; [done|]. wp_step. apply wp_need_curl; [done|].
  eapply curl_call_wp; [done|apply law_remove].
Qed.

Lemma add_handle_wp m w : wf m -> live m -> wp (add_handle_ E) (cb_post m (S (active w))) (m, w).
Proof.
  intros Hwf Hl. unfold add_handle_. wp_step. apply wp_need_curlm; [done|]. wp_step. apply wp_need_curl; [done|].
  eapply curl_call_wp; [done|apply law_add].
Qed.

(** *** Events and states *)
Lemma must_add_ev_run m w ty : wf m -> evs_len m < evs_maxlen_ ->
  exists m', (forall line msg, must_add_ev_ line msg ty (m, w) = Ret (tt, (m', w))) /\ wf m' /\ reported m' = reported m ++ [ty] /\
    evs_len m' = S (evs_len m) /\ st m' = st m /\ is_stop_waiting m' = is_stop_waiting m /\
    stop_strat m' = stop_strat m /\ (live m -> live m').
Proof.
  intros Hwf Hlt. pose proof Hwf as [Ht Hc Hl Htm Hcb].
  exists (with_evs_len (S (evs_len m)) (with_evs (<[evs_len m := ty]> (evs m)) m)).
  split_and!; [| |unfold reported; cbn; by rewrite take_insert_snoc by lia|done..].
  - intros line msg. unfold must_add_ev_, add_ev_, get_mod, upd_mod, reads, modc, mbind, cm_bind. cbn.
    rewrite decide_False by lia. by rewrite decide_True by lia.
  - split; cbn; [by destruct Ht; split|by rewrite length_insert|lia|done|done].
Qed.

Lemma must_set_st_run line msg s m w : must_set_st_ line msg s (m, w) = Ret (tt, (with_st s m, w)).
Proof. done. Qed.

Lemma wf_with_st s m : wf m -> wf (with_st s m).
Proof. intros [Ht ? ? ? ?]. split; try done. by destruct Ht; split. Qed.

Lemma req_fail_run m w : wf m -> evs_len m < evs_maxlen_ ->
  exists m', req_fail_ (m, w) = Ret (tt, (m', w)) /\ wf m' /\
    reported m' = reported m ++ [https_ev_req_fail] /\ evs_len m' = S (evs_len m) /\ st m' = st_err_ /\
    is_stop_waiting m' = is_stop_waiting m /\ stop_strat m' = stop_strat m /\ (live m -> live m').
Proof.
  intros Hwf Hlt. unfold req_fail_. erewrite bind_Ret by apply must_set_st_run.
  destruct (must_add_ev_run (with_st st_err_ m) w https_ev_req_fail) as (m' & H & H');
    [by apply wf_with_st|done|]. exists m'. by rewrite H.
Qed.

(** The settings a client sees do not change inside an update. *)
Definition same_wait m m' : Prop :=
  is_stop_waiting m' = is_stop_waiting m /\ stop_strat m' = stop_strat m.

Lemma frame_same_wait m m' : table_frame m m' -> same_wait m m' /\ st m' = st m /\ reported m' = reported m
  /\ evs_len m' = evs_len m.
Proof. by intros (l & n & ->). Qed.

(** Inside the loop of [https_update]: nothing has happened to the request, or
    it has failed and no transfer is left. *)
Definition mid m0 (s : https_mod W * W) : Prop :=
  (wf s.1 /\ live s.1) /\ same_wait m0 s.1 /\
  ((st s.1 = st_pend_ /\ evs_len s.1 = 0 /\ active s.2 <= 1) \/
   (st s.1 = st_err_ /\ evs_len s.1 = 1 /\ reported s.1 = [https_ev_req_fail] /\ active s.2 = 0)).

(** After the update of a pending request. *)
Inductive update_out m0 (s : https_mod W * W) : Prop :=
| Up_pending : st s.1 = st_pend_ -> reported s.1 = [] -> same_wait m0 s.1 -> active s.2 <= 1 -> update_out m0 s
| Up_done : st s.1 = st_idle_ -> reported s.1 = [https_ev_req_fin] -> is_stop_waiting m0 = false ->
    same_wait m0 s.1 -> active s.2 = 0 -> update_out m0 s
| Up_stopped : st s.1 = st_stopped_ -> reported s.1 = [https_ev_req_fin; https_ev_stopped] ->
    is_stop_waiting m0 = true -> is_stop_waiting s.1 = false -> stop_strat s.1 = stop_strat m0 ->
    active s.2 = 0 -> update_out m0 s
| Up_failed : st s.1 = st_err_ ->
    reported s.1 = [https_ev_req_fail] \/ reported s.1 = [https_ev_req_fail; https_ev_req_fail] ->
    same_wait m0 s.1 -> active s.2 <= 1 -> update_out m0 s.

Lemma mid_out m0 s : mid m0 s -> update_out m0 s.
Proof.
  intros ([Hwf _] & Hw & [(Hst & Hl & Ha)|(Hst & Hl & Hr & Ha)]).
  - apply Up_pending; try done. unfold reported. by rewrite Hl.
  - apply Up_failed; try done; [by left|lia].
Qed.

(** An action of libcurl from inside the loop. *)
Lemma mid_action m0 x ev s : mid m0 s -> wp (socket_action_ E x ev) (fun _ s' => mid m0 s') s.
Proof.
  destruct s as [m w]. intros ([Hwf Hlv] & [Hw1 Hw2] & Hc). cbn [fst snd] in *.
  eapply wp_mono; [by eapply socket_action_wp|]. intros a [m' w'] (Hwf' & Hfr & Ha). cbn [fst snd] in *.
  pose proof (frame_live _ _ Hfr Hlv). apply frame_same_wait in Hfr as ([Hs1 Hs2] & Hst & Hr & Hl). split; [done|].
  split; [split; cbn; congruence|]. cbn [fst snd] in *. rewrite Hst, Hr, Hl.
  destruct Hc as [(?&?&?)|(?&?&?&?)]; [left|right]; repeat split; try done; lia.
Qed.

Lemma req_done_wp m0 m w : wf m -> live m -> same_wait m0 m -> evs_len m = 0 -> active w = 0 ->
  wp (req_done_ E) (fun _ s => (wf s.1 /\ live s.1) /\ update_out m0 s) (m, w).
Proof.
  intros Hwf Hlv [Hw1 Hw2] Hl Ha. unfold req_done_, get_world. wp_step. apply wp_need_curl; [done|]. wp_step. cbn [snd].
  set (g := match curl_easy_getinfo_response_code E w with Some c => _ | None => _ end).
  assert (exists m1, g (m, w) = Ret (tt, (m1, w)) /\ (wf m1 /\ live m1) /\ same_wait m m1 /\ evs_len m1 = 0) as
    (m1 & Hg & [Hwf1 Hlv1] & Hw & Hl1).
  { subst g. destruct (curl_easy_getinfo_response_code E w).
    - eexists; split; [done|]. split; [|by repeat split]. destruct Hwf as [Ht ? ? ? ?]. split; [split; try done|done].
      by destruct Ht; split.
    - eexists; split; [done|]. split; [done|]. by split; [split|]. }
  clearbody g. destruct Hw as [Hw3 Hw4].
  eapply wp_run; [exact Hg|]. wp_step. eapply wp_run; [apply must_set_st_run|]. wp_step.
  destruct (must_add_ev_run (with_st st_idle_ m1) w https_ev_req_fin) as
    (m2 & Hr & Hwf2 & Hrep & Hlen & Hst & Hs1 & Hs2 & Hlv2); [by apply wf_with_st|cbn; rewrite Hl1; unfold evs_maxlen_; lia|].
  specialize (Hlv2 Hlv1). eapply wp_run; [apply Hr|]. wp_step. eapply wp_mono; [by apply remove_handle_wp|].
  intros _ [m3 w3] (Hwf3 & Hfr & Ha3). pose proof (frame_live _ _ Hfr Hlv2) as Hlv3. apply frame_same_wait in Hfr as ([Hf1 Hf2] & Hf3 & Hf4 & Hf5).
  cbn [fst snd] in *. unfold get_mod, upd_mod. wp_step. cbn [fst]. unfold reported in Hrep. cbn in *.
  rewrite Hl1 in Hrep. cbn in Hrep. destruct (is_stop_waiting m3) eqn:Hwait; wp_step.
  - eapply wp_run; [apply must_set_st_run|]. wp_step.
    destruct (must_add_ev_run (with_st st_stopped_ (with_is_stop_waiting false m3)) w3 https_ev_stopped) as
      (m4 & Hr4 & Hwf4 & Hrep4 & Hlen4 & Hst4 & Hs41 & Hs42 & Hlv4).
    + apply wf_with_st. destruct Hwf3 as [Ht ? ? ? ?]. split; try done. by destruct Ht; split.
    + cbn. rewrite Hf5, Hlen, Hl1. unfold evs_maxlen_; lia.
    + eapply wp_run; [apply Hr4|]. split; [by split; [|apply Hlv4]|]. apply Up_stopped; cbn; [done| |congruence|done|cbn in *; congruence|lia].
      rewrite Hrep4. change (reported (with_st _ _)) with (reported m3). rewrite Hf4. unfold reported. by rewrite Hrep.
  - split; [done|]. apply Up_done; cbn; [congruence| |congruence|split; congruence|lia].
    rewrite Hf4. exact Hrep.
Qed.

(** *** The loops of [https_update] *)
Lemma wf_with_err e m : wf m -> wf (with_curl_err e m) /\ wf (with_curlm_err e m).
Proof. intros [Ht ? ? ? ?]. split; (split; [by destruct Ht; split|done..]). Qed.

Lemma info_loop_wp m0 fuel s : mid m0 s -> active s.2 < fuel ->
  wp (info_loop_ E fuel)
    (fun ret s' => if (ret : bool) then (wf s'.1 /\ live s'.1) /\ update_out m0 s' else mid m0 s') s.
Proof.
  revert s. induction fuel as [|fuel IH]; intros [m w] Hmid Hfuel; [lia|]. cbn [info_loop_].
  pose proof Hmid as ([Hwf Hlv] & Hw & Hc). cbn [fst snd] in *. wp_step. apply wp_need_curlm; [done|].
  unfold sys, get_world, set_world. wp_step. cbn [fst snd] in *.
  destruct (curl_multi_info_read E w) as [[cm|] w'] eqn:Hread; cbn [fst snd] in *; wp_step.
  2:{ pose proof (law_read_none w w' Hread). split; [done|]. split; [done|]. cbn [fst snd].
      destruct Hc as [(?&?&?)|(?&?&?&?)]; [left|right]; repeat split; try done; lia. }
  pose proof (law_read_some w cm w' Hread) as Hlt.
  destruct Hc as [(Hst & Hl & Ha)|(_ & _ & _ & Ha)]; [|lia]. assert (active w' = 0) as Ha' by lia.
  destruct (_ =? _)%Z.
  - destruct (_ =? _)%Z; unfold upd_mod; wp_step; cbn [fst snd].
    + eapply wp_mono; [by apply (req_done_wp m0)|]. done.
    + destruct (req_fail_run (with_curl_err (result cm) m) w') as (m' & Hr & Hwf' & Hrep & Hlen & Hst' & Hs1 & Hs2 & Hlv');
        [by apply wf_with_err|cbn; rewrite Hl; unfold evs_maxlen_; lia|].
      eapply wp_run; [exact Hr|]. apply IH; [|cbn; lia]. split; [by split; [|apply Hlv']|]. split.
      { destruct Hw. split; cbn in *; congruence. }
      right. cbn [fst snd]. cbn [evs_len with_curl_err] in Hlen.
      replace (reported (with_curl_err (result cm) m)) with (@nil https_ev_type) in Hrep
        by (unfold reported; cbn; by rewrite Hl).
      by rewrite Hlen, Hl.
  - apply IH; [|cbn; lia]. split; [done|]. split; [done|]. left. cbn. split; [done|]. split; [done|lia].
Qed.

Lemma fd_action_wp m0 p cmres s : mid m0 s ->
  wp (fd_action_ E p cmres) (fun _ s' => mid m0 s') s.
Proof.
  destruct s as [m w]. intros Hmid. unfold fd_action_, get_mod. wp_step. cbn [fst].
  repeat (apply wp_if; intros _); [|by wp_step|].
  - unfold sys, get_world, set_world. wp_step. cbn [fst snd]. pose proof (law_timer_read (fd p) w) as Ha.
    apply mid_action. destruct Hmid as (Hwf & Hw & Hc). split; [done|]. split; [done|].
    cbn [fst snd] in *. destruct Hc as [(?&?&?)|(?&?&?&?)]; [left|right]; repeat split; try done; lia.
  - by apply mid_action.
Qed.

(** The array an update may be given. *)
Definition fds_room (a : fds_arg) (nfds : nat) : Prop :=
  match a with Fds_own => nfds <= fds_maxlen_ | Fds_copy l => nfds <= length l end.

Lemma fds_arg_at_wp a n i s (Q : pollfd -> _) : wf s.1 -> fds_room a n -> i < n ->
  (forall p, Q p s) -> wp (fds_arg_at a i) Q s.
Proof.
  destruct s as [m w]. intros Hwf Hroom Hi HQ. destruct a as [|l]; cbn [fds_arg_at fds_room] in *.
  - unfold fds_at, get_mod. wp_step. cbn [fst]. pose proof (wf_fds_cap m (wf_table m Hwf)).
    destruct (lookup_lt_is_Some_2 (fds m) i) as [p ->]; [lia|]. by wp_step.
  - destruct (lookup_lt_is_Some_2 l i) as [p ->]; [lia|]. by wp_step.
Qed.

Lemma update_loop_wp m0 fuel a n i s cmres : 2 <= fuel -> fds_room a (i + n) -> mid m0 s ->
  wp (update_loop_ E fuel a n i cmres) (fun _ s' => (wf s'.1 /\ live s'.1) /\ update_out m0 s') s.
Proof.
  intros Hfuel. revert i s cmres.
  induction n as [|n IH]; intros i s cmres Hroom Hmid; cbn [update_loop_].
  { wp_step. split; [apply Hmid|by apply mid_out]. }
  wp_step. eapply fds_arg_at_wp; [apply Hmid|exact Hroom|lia|]. intros p. wp_step.
  eapply wp_mono; [by apply (fd_action_wp m0)|]. intros cmres' s1 Hmid1. wp_step.
  destruct (cmres' =? CURLM_OK)%Z eqn:Hok.
  - eapply wp_mono; [apply (info_loop_wp m0); [done|]|].
    + destruct Hmid1 as (_ & _ & [(_&_&?)|(_&_&_&?)]); lia.
    + intros [] s2 H2; [by wp_step|]. cbn [negb]. apply IH; [|done].
      by replace (S i + n) with (i + S n) by lia.
  - wp_step. cbn [negb]. unfold upd_mod. wp_step. destruct s1 as [m1 w1], Hmid1 as ([Hwf1 Hlv1] & [Hw1 Hw2] & Hc).
    cbn [fst snd] in *. destruct (req_fail_run (with_curlm_err cmres' m1) w1) as
      (m' & Hr & Hwf' & Hrep & Hlen & Hst' & Hs1 & Hs2 & Hlv'); [by apply wf_with_err| |].
    { cbn. unfold evs_maxlen_. destruct Hc as [(_&->&_)|(_&->&_)]; lia. }
    eapply wp_run; [exact Hr|]. split; [by split; [|apply Hlv']|]. cbn in Hs1, Hs2.
    change (reported (with_curlm_err cmres' m1)) with (reported m1) in Hrep.
    apply Up_failed; cbn [fst snd]; [done| |split; congruence|].
    + rewrite Hrep. destruct Hc as [(_&Hl&_)|(_&_&->&_)]; [left|by right]. unfold reported. by rewrite Hl.
    + destruct Hc as [(_&_&?)|(_&_&_&?)]; lia.
Qed.

(** ** The invariant of the module in its world *)
Record hinv (s : https_mod W * W) : Prop := {
  hinv_wf : wf s.1;
  hinv_active : active s.2 <= 1;
  hinv_idle : st s.1 = st_just_init_ \/ st s.1 = st_idle_ -> active s.2 = 0;
  hinv_live : st s.1 <> st_uninit_ -> live s.1
}.

Lemma wf_with_evs_len0 m : wf m -> wf (with_evs_len 0 m).
Proof. intros [Ht ? ? ? ?]. split; try done; [by destruct Ht; split|cbn; lia]. Qed.

(** What an update reports and where it leads, by the state it starts from. *)
Definition update_spec m0 (s : https_mod W * W) : Prop :=
  match st m0 with
  | st_stopped_ => st s.1 = st_stopped_ /\ reported s.1 = [https_ev_stopped] /\ same_wait m0 s.1
  | st_just_init_ => st s.1 = st_idle_ /\ reported s.1 = [https_ev_init] /\ same_wait m0 s.1
  | st_pend_ => update_out m0 s
  | _ => st s.1 = st m0 /\ reported s.1 = [] /\ same_wait m0 s.1
  end.

Lemma update_wp fuel a nfds m w : hinv (m, w) -> 2 <= fuel -> fds_room a nfds ->
  wp (https_update E fuel a nfds) (fun _ s => hinv s /\ update_spec m s) (m, w).
Proof.
  intros [Hwf Ha Hidle Hlv] Hfuel Hroom. cbn [fst snd] in *. unfold https_update, get_mod, upd_mod. wp_step.
  cbn [fst snd]. change (st (with_evs_len 0 m)) with (st m). pose proof (wf_with_evs_len0 m Hwf) as Hwf0.
  unfold update_spec.
  destruct (decide (st m = st_stopped_)) as [Hst|]; [|destruct (decide (st m = st_just_init_)) as [Hst|]].
  - destruct (must_add_ev_run (with_evs_len 0 m) w https_ev_stopped) as
      (m' & Hr & Hwf' & Hrep & Hlen & Hst' & Hs1 & Hs2 & Hlv'); [done|cbn; unfold evs_maxlen_; lia|].
    eapply wp_run; [apply Hr|]. cbn in *. rewrite Hst in *. split; [split; cbn; [done|done| |by intros _; apply Hlv', Hlv]|done].
    rewrite Hst'. by intros [|].
  - wp_step. eapply wp_run; [apply must_set_st_run|].
    destruct (must_add_ev_run (with_st st_idle_ (with_evs_len 0 m)) w https_ev_init) as
      (m' & Hr & Hwf' & Hrep & Hlen & Hst' & Hs1 & Hs2 & Hlv'); [by apply wf_with_st|cbn; unfold evs_maxlen_; lia|].
    eapply wp_run; [apply Hr|]. cbn in *. rewrite Hst in *. split; [split; cbn; [done|done| |by intros _; apply Hlv', Hlv]|done].
    intros _. apply Hidle. by left.
  - destruct (decide (st m = st_pend_)) as [Hst|Hst].
    + rewrite (bool_decide_eq_true_2 _ Hst). cbn [negb]. rewrite Hst.
      eapply wp_mono; [apply (update_loop_wp m); [done|exact Hroom|]|].
      * split; [split; [done|]; apply Hlv; congruence|]. split; [done|]. by left.
      * intros _ s [[Hwf' Hlv'] Hout]. split; [|done]. split; [done|destruct Hout; lia| |done].
        intros Hs. destruct Hout as [H|H|H|H]; try done; rewrite H in Hs; by destruct Hs.
    + rewrite (bool_decide_eq_false_2 _ Hst). cbn [negb]. wp_step. split; [by split|].
      destruct (st m) eqn:E'; try done; (split; [exact E'|by split]).
Qed.

(** *** The other calls *)
Lemma sys_wp (f : W -> W) Q m w :
  wp (sys_ f) Q (m, w) <-> Q tt (m, f w).
Proof. done. Qed.

(** The answer to a request. *)
Definition req_code m : https_req_res :=
  if decide (st m = st_idle_) then
    if is_stop_waiting m then https_req_fail_stopping else https_req_ok
  else https_req_fail_other_pend.

Lemma req_json_wp method url data m w : hinv (m, w) ->
  wp (https_req_json E method url data)
    (fun r s => (hinv s /\ same_wait m s.1) /\ r = req_code m /\ st s.1 = (if decide (r = https_req_ok) then st_pend_ else st m)) (m, w).
Proof.
  intros Hinv. pose proof Hinv as [Hwf Ha Hidle Hlv]. cbn [fst snd] in *. unfold https_req_json, get_mod.
  wp_step. cbn [fst]. destruct (decide (st m = st_idle_)) as [Hst|Hst].
  2:{ rewrite (bool_decide_eq_false_2 _ Hst). cbn [negb]. wp_step. unfold req_code. by rewrite decide_False. }
  rewrite (bool_decide_eq_true_2 _ Hst). cbn [negb]. unfold req_code. rewrite decide_True by done.
  destruct (is_stop_waiting m); [by wp_step|].
  specialize (Hidle (or_intror Hst)). specialize (Hlv ltac:(congruence)).
  assert (forall w1 line msg, active w1 = 0 -> wp (easy_setopt_ E (CURLOPT_URL url) ;;
    easy_setopt_ E (CURLOPT_POSTFIELDS data) ;; add_handle_ E ;;
    must_set_st_ line msg st_pend_ ;; mret https_req_ok)
    (fun r s => (hinv s /\ same_wait m s.1) /\ r = https_req_ok /\ st s.1 = (if decide (r = https_req_ok) then st_pend_ else st m)) (m, w1)) as Hrest.
  { intros w1 line msg H1. wp_step. apply easy_setopt_wp; [done|]. wp_step. apply easy_setopt_wp; [done|]. wp_step.
    pose proof (law_easy_setopt (CURLOPT_URL url) w1) as H2.
    pose proof (law_easy_setopt (CURLOPT_POSTFIELDS data) (curl_easy_setopt E (CURLOPT_URL url) w1)) as H3.
    eapply wp_mono; [by apply add_handle_wp|].
    intros _ [m' w'] (Hwf' & Hfr & Ha'). wp_step. eapply wp_run; [apply must_set_st_run|]. wp_step.
    cbn [fst snd] in *. pose proof (frame_live _ _ Hfr Hlv) as Hlv'. split; [|by split].
    split; [|by apply frame_same_wait in Hfr as [? _]]. split; [by apply wf_with_st|cbn; lia|by intros [|]|by intros _]. }
  destruct method; wp_step; (apply easy_setopt_wp; [done|]); apply Hrest.
  - pose proof (law_easy_setopt (CURLOPT_HTTPGET 1) w). lia.
  - pose proof (law_easy_setopt (CURLOPT_POST 1) w). lia.
Qed.

Lemma wf_with_wait b m : wf m -> wf (with_is_stop_waiting b m).
Proof. intros [Ht ? ? ? ?]. split; try done. by destruct Ht; split. Qed.

Lemma stop_prep_wp m w : hinv (m, w) -> st m <> st_uninit_ ->
  wp (https_stop_prep E) (fun r s => hinv s /\ r = https_stop_prep_ok) (m, w).
Proof.
  intros [Hwf Ha Hidle Hlv] Hst0. cbn [fst snd] in *. specialize (Hlv Hst0).
  unfold https_stop_prep, get_mod, upd_mod. wp_step. cbn [fst]. destruct (stop_strat m).
  - set (msg := lit _). assert (forall s, wf s.1 -> live s.1 -> active s.2 <= 1 -> wp (must_set_st_ 149 msg st_stopped_ ;;
      modc (fun s => (with_is_stop_waiting false s.1, s.2)) ;; mret https_stop_prep_ok)
      (fun r s => hinv s /\ r = https_stop_prep_ok) s) as Hrest.
    { intros [m1 w1] H1 H2 H3. wp_step. eapply wp_run; [apply must_set_st_run|]. wp_step. split; [|done].
      split; cbn; [by apply wf_with_wait, wf_with_st|done|by intros [|]|done]. }
    destruct (decide _); wp_step; [|by apply (Hrest (m, w))].
    eapply wp_mono; [by apply remove_handle_wp|].
    intros _ s (H1 & H2 & H3). apply Hrest; [done|by eapply frame_live|lia].
  - destruct (is_stop_waiting m); cbn [negb]; [by wp_step|]. destruct (decide _) as [Hst|]; wp_step.
    + split; [|done]. split; cbn; [by apply wf_with_wait|done| |done]. rewrite Hst. by intros [|].
    + eapply wp_run; [apply must_set_st_run|]. wp_step. split; [|done].
      split; cbn; [by apply wf_with_st|done|by intros [|]|done].
Qed.

(** The objects of libcurl are gone. *)
Definition freed m : Prop := curl m = H_freed /\ curlm m = H_freed /\ json_hdrs m = H_freed.

Lemma wf_with_handle m : wf m -> wf (with_curl H_freed m) /\ wf (with_curlm H_freed m).
Proof. intros [Ht ? ? ? ?]. split; (split; [by destruct Ht; split|done..]). Qed.

(** [https_stop] of a stopped module frees everything, once. *)
Lemma release_wp m w : wf m -> live m -> active w <= 1 -> st m = st_stopped_ ->
  wp (https_stop E) (fun r s => (wf s.1 /\ freed s.1 /\ same_wait m s.1) /\ active s.2 <= 1 /\ r = https_stop_ok /\ st s.1 = st_uninit_) (m, w).
Proof.
  intros Hwf Hlv Ha Hst. unfold https_stop, get_mod, upd_mod. wp_step. cbn [fst]. rewrite decide_True by done. wp_step.
  unfold easy_cleanup_, multi_cleanup_, upd_mod. wp_step. cbn [fst snd]. apply wp_need_curl; [done|]. wp_step.
  eapply wp_mono; [eapply curl_call_wp; [by apply wf_with_st|apply law_easy_cleanup]|].
  intros _ [m1 w1] (H1 & F1 & A1). cbn [fst snd] in *. wp_step. cbn [fst snd].
  unfold need_curlm at 1, get_mod. wp_step. cbn [fst]. pose proof F1 as (l1 & n1 & ->).
  rewrite decide_True by (by destruct Hlv as (_ & ? & _)). wp_step.
  eapply wp_mono; [eapply curl_call_wp; [by apply wf_with_handle|apply law_multi_cleanup]|].
  intros _ [m2 w2] (H2 & F2 & A2). cbn [fst snd] in *. wp_step. cbn [fst snd].
  destruct F2 as (l2 & n2 & ->). unfold slist_free_all_, get_mod, upd_mod. wp_step. cbn [fst].
  destruct Hlv as (_ & _ & Hh). cbn [json_hdrs with_curlm with_curl with_st with_fds with_fds_len]. rewrite Hh. wp_step.
  rewrite sys_wp. wp_step. rewrite sys_wp. wp_step. cbn [fst snd].
  pose proof (law_slist_free w2). match goal with |- context [close_fd E ?x ?y] => pose proof (law_close x y) end.
  split; [|split; [lia|done]]. split; [|done].
  destruct H2 as [Ht ? ? ? ?]. split; try done. by destruct Ht; split.
Qed.

Lemma stop_wp m w : hinv (m, w) ->
  wp (https_stop E) (fun r s => hinv s /\
    (r = if decide (st m = st_stopped_) then https_stop_ok else https_stop_fail_no_prep) /\
    st s.1 = (if decide (st m = st_stopped_) then st_uninit_ else st m) /\ (st m = st_stopped_ -> freed s.1 /\ same_wait m s.1)) (m, w).
Proof.
  intros Hinv. pose proof Hinv as [Hwf Ha Hidle Hlv]. cbn [fst snd] in *. destruct (decide (st m = st_stopped_)) as [Hst|Hst].
  - eapply wp_mono; [apply release_wp; [done|apply Hlv; congruence|done|done]|].
    intros r s ((H1 & H2 & H6) & H3 & H4 & H5). split; [|done]. split; [done|lia|rewrite H5; by intros [|]|done].
  - unfold https_stop, get_mod. wp_step. cbn [fst]. rewrite decide_False by done. by wp_step.
Qed.

(** What a call needs of its arguments, and what the interface asks of the
    client: once [https_stop] has released the module, only the calls that do
    not touch libcurl are left. *)
Definition op_room (o : https_op) : Prop :=
  match o with
  | Op_update fuel a nfds => 2 <= fuel /\ fds_room a nfds
  | _ => True
  end.

Definition op_allowed m (o : https_op) : Prop :=
  match o with
  | Op_stop_prep | Op_set_timeout _ | Op_set_verbosity _ => st m <> st_uninit_
  | _ => True
  end.

Lemma setopt_wp o m w : hinv (m, w) -> st m <> st_uninit_ -> wp (easy_setopt_ E o) (fun _ s => hinv s) (m, w).
Proof.
  intros [Hwf Ha Hidle Hlv] Hst. apply easy_setopt_wp; [by apply Hlv|]. pose proof (law_easy_setopt o w). cbn [fst snd] in *.
  split; cbn; [done|lia| |done]. intros H'. specialize (Hidle H'). lia.
Qed.

Lemma https_op_wp o s : hinv s -> op_room o -> op_allowed s.1 o -> wp (https_run_op E o) (fun _ s' => hinv s') s.
Proof.
  destruct s as [m w]. intros Hinv Hroom Hal. destruct o as [fuel a nfds|mt url data| | |t|l|x]; cbn [https_run_op].
  - destruct Hroom as [Hf Hr]. eapply wp_mono; [by apply update_wp|]. by intros _ s [? _].
  - wp_step. eapply wp_mono; [by apply req_json_wp|]. by intros r s [[? _] _].
  - wp_step. eapply wp_mono; [by apply stop_prep_wp|]. by intros r s [? _].
  - wp_step. eapply wp_mono; [by apply stop_wp|]. by intros r s [? _].
  - by apply setopt_wp.
  - destruct l; by apply setopt_wp.
  - unfold https_set_stop_strat, upd_mod. wp_step. destruct Hinv as [[Ht ? ? ? ?] Ha Hidle]. cbn [fst snd] in *.
    split; cbn; try done. split; try done. by destruct Ht; split.
Qed.

(** The states a client reaches by calls it may make. *)
Inductive https_reach (s0 : https_mod W * W) : https_mod W * W -> Prop :=
| Hr_start : https_reach s0 s0
| Hr_call s o s' : https_reach s0 s -> op_room o -> op_allowed s.1 o -> https_run_op E o s = Ret (tt, s') -> https_reach s0 s'.

Lemma https_reach_hinv s0 s : https_reach s0 s -> hinv s0 -> hinv s.
Proof.
  induction 1 as [|s o s' _ IH Hroom Hal Hrun]; [done|]. intros H0. specialize (IH H0).
  destruct (wp_Ret _ _ _ (https_op_wp o s IH Hroom Hal)) as ([] & s1 & Hr & Hs1). congruence.
Qed.

(** The calls of a client in sequence. *)
Fixpoint https_run_ops (os : list https_op) : CM (https_mod W * W) unit :=
  match os with
  | [] => mret tt
  | o :: os => https_run_op E o ;; https_run_ops os
  end.

(** A sequence of calls that the client may make from a state. *)
Fixpoint ops_allowed (os : list https_op) (s : https_mod W * W) : Prop :=
  match os with
  | [] => True
  | o :: os => op_room o /\ op_allowed s.1 o /\ forall s', https_run_op E o s = Ret (tt, s') -> ops_allowed os s'
  end.

Lemma run_ops_reach os s0 s s' : https_reach s0 s -> ops_allowed os s -> https_run_ops os s = Ret (tt, s') -> https_reach s0 s'.
Proof.
  revert s. induction os as [|o os IH]; intros s Hr Hal Hrun; [by injection Hrun as <-|]. destruct Hal as (H1 & H2 & H3).
  cbn [https_run_ops] in Hrun. unfold mbind, cm_bind in Hrun. destruct (https_run_op E o s) as [[[] s1]| |] eqn:Ho; [|done..].
  apply (IH s1); [by eapply Hr_call|by apply H3|done].
Qed.

(** [https_init] when every resource can be had. *)
Lemma https_init_run cb m w :
  let w1 := (curl_easy_init E w).2 in
  let w2 := (curl_multi_init E w1).2 in
  let l1 := curl_slist_append E false (lit "Content-Type: application/json") w2 in
  let l2 := curl_slist_append E l1.1 (lit "Accept: application/json") l1.2 in
  (curl_easy_init E w).1 = true -> (curl_multi_init E w1).1 = true -> l2.1 = true ->
  (forall w, (timerfd_create E w).1 = tfd) -> tfd <> (-1)%Z ->
  length (evs m) = evs_maxlen_ -> length (fds m) = fds_maxlen_ ->
  (forall f, cb = Some f -> forall d w, active (f d w) <= active w) ->
  wp (https_init E cb) (fun r s => r = https_init_ok /\ hinv s /\ st s.1 = st_just_init_ /\
    reported s.1 = [] /\ is_stop_waiting s.1 = false /\ stop_strat s.1 = https_stop_strat_wait /\
    watched s.1 = ∅) (m, w).
Proof.
  intros w1 w2 l1 l2 He Hm Hl Ht Htfd Hevs Hfds Hcb.
  unfold https_init, upd_mod, sys, get_world, set_world. wp_step. cbn [fst snd].
  rewrite He. cbn [negb]. wp_step. cbn [fst snd]. fold w1. rewrite Hm. cbn [negb]. wp_step. cbn [fst snd].
  fold w2 l1 l2. rewrite Hl. cbn [negb]. wp_step.
  repeat (first [apply easy_setopt_wp|apply multi_setopt_wp]; [done|]; wp_step). cbn [fst snd].
  rewrite Ht. replace (-1 =? tfd)%Z with false by (symmetry; by apply Z.eqb_neq, not_eq_sym). wp_step.
  split; [done|]. split; [|done].
  assert (active w2 = 0) as Ha by apply law_multi_init.
  pose proof (law_slist_append false (lit "Content-Type: application/json") w2) as Ha1. fold l1 in Ha1.
  pose proof (law_slist_append l1.1 (lit "Accept: application/json") l1.2) as Ha2. fold l2 in Ha2.
  match goal with |- context [(?x, (timerfd_create E ?y).2)] => pose proof (law_timer_create y) as Ha3; set (wt := y) in * end.
  assert (active wt = 0) as Hwt.
  { subst wt. apply Nat.le_0_r. do 4 (eapply Nat.le_trans; [apply law_multi_setopt|]).
    do 4 (eapply Nat.le_trans; [apply law_easy_setopt|]). lia. }
  split; cbn [fst snd]; [|lia|intros _; lia|done].
  split; cbn; [|done|lia|done|exact Hcb]. split; cbn; [done|lia|apply NoDup_nil_2].
Qed.
End props.
