(* ===== verification/HttpsAnswers.v ===== *)
(** * What an update of the HTTPS client makes of libcurl's answers

    During an update libcurl answers two kinds of calls: an action on a
    descriptor with a code, a question for a message with a message or none.
    [served] says which calls an update must make for an array of descriptors,
    [answers_evs] and [answers_st] what it must report and where it must end,
    given the answers; [update_answers] shows that [https_update] does so.  The
    answers are observed through a world that keeps their history. *)

From stdpp Require Import base list numbers strings option.
From S2P Require Import Prelude Https HttpsProps.

(** ** Specification *)
Inductive curl_answer := A_action (fd ev code : Z) | A_msg (m : option CURLMsg).

(** The message reports the end of a transfer that succeeded. *)
Definition succeeded (cm : CURLMsg) : bool := (msg cm =? CURLMSG_DONE)%Z && (result cm =? CURLE_OK)%Z.
Definition failed (cm : CURLMsg) : bool := (msg cm =? CURLMSG_DONE)%Z && negb (result cm =? CURLE_OK)%Z.

(** The events due for the answers; [waits] tells whether a stop waits for the
    request.  A success or a refused action ends the update. *)
Fixpoint answers_evs (waits : bool) (l : list curl_answer) : list https_ev_type :=
  match l with
  | [] => []
  | A_action _ _ code :: l => if (code =? CURLM_OK)%Z then answers_evs waits l else [https_ev_req_fail]
  | A_msg None :: l => answers_evs waits l
  | A_msg (Some cm) :: l =>
      if succeeded cm then https_ev_req_fin :: (if waits then [https_ev_stopped] else [])
      else if failed cm then https_ev_req_fail :: answers_evs waits l
      else answers_evs waits l
  end.

(** The state the answers lead to from the state [s]. *)
Fixpoint answers_st (waits : bool) (s : st_) (l : list curl_answer) : st_ :=
  match l with
  | [] => s
  | A_action _ _ code :: l => if (code =? CURLM_OK)%Z then answers_st waits s l else st_err_
  | A_msg None :: l => answers_st waits s l
  | A_msg (Some cm) :: l =>
      if succeeded cm then if waits then st_stopped_ else st_idle_
      else answers_st waits (if failed cm then st_err_ else s) l
  end.

(** The action due for a descriptor: none for the timer when it has not fired. *)
Definition asked (tfd : Z) (p : pollfd) (code : Z) : list curl_answer :=
  if (fd p =? tfd)%Z then
    if (Z.land (revents p) POLLIN =? 0)%Z then [] else [A_action CURL_SOCKET_TIMEOUT 0 code]
  else [A_action (fd p) (revents_cev_ (revents p)) code].

(** A message that does not end the update. *)
Definition passed (a : curl_answer) : Prop := exists cm, a = A_msg (Some cm) /\ succeeded cm = false.

(** The calls due for the descriptors: for each in turn its action, then all
    messages libcurl has, until one reports success or an action is refused. *)
Inductive served (tfd : Z) : list pollfd -> list curl_answer -> Prop :=
| Sv_end : served tfd [] []
| Sv_next p ps ms l : Forall passed ms -> served tfd ps l ->
    served tfd (p :: ps) (asked tfd p CURLM_OK ++ ms ++ A_msg None :: l)
| Sv_done p ps ms cm : Forall passed ms -> succeeded cm = true ->
    served tfd (p :: ps) (asked tfd p CURLM_OK ++ ms ++ [A_msg (Some cm)])
| Sv_refused p ps code : code <> CURLM_OK -> asked tfd p code <> [] -> served tfd (p :: ps) (asked tfd p code).

(** Answers that do not end the update. *)
Definition goes_on (a : curl_answer) : Prop :=
  match a with A_action _ _ code => code = CURLM_OK | A_msg (Some cm) => succeeded cm = false | A_msg None => True end.

Lemma answers_evs_app waits l1 l2 : Forall goes_on l1 ->
  answers_evs waits (l1 ++ l2) = answers_evs waits l1 ++ answers_evs waits l2.
Proof.
  induction 1 as [|a l1 Ha _ IH]; [done|]. destruct a as [x ev code|[cm|]]; cbn in *; [|destruct (succeeded cm); [done|]|done].
  - by subst code.
  - rewrite IH. by destruct (failed cm).
Qed.

Lemma answers_st_app waits s l1 l2 : Forall goes_on l1 ->
  answers_st waits s (l1 ++ l2) = answers_st waits (answers_st waits s l1) l2.
Proof.
  intros H. revert s. induction H as [|a l1 Ha _ IH]; intros s; [done|].
  destruct a as [x ev code|[cm|]]; cbn in *; [subst code; apply IH|destruct (succeeded cm); [done|]; apply IH|apply IH].
Qed.

Lemma passed_goes_on ms : Forall passed ms -> Forall goes_on ms.
Proof. apply Forall_impl. by intros a (cm & -> & H). Qed.

(** ** The history of the answers *)

(** A call keeps the history while its callbacks run and leaves [post]. *)
Fixpoint tree_log {W A} (log : W -> list curl_answer) (l0 : list curl_answer) (post : A -> list curl_answer) (r : curl_run W A) : Prop :=
  match r with
  | Curl_ret a w => log w = post a
  | Curl_sock _ _ w k | Curl_timer _ w k | Curl_write _ w k =>
      log w = l0 /\ forall rc w', log w' = l0 -> tree_log log l0 post (k rc w')
  end.

(** The world records the answers to actions and questions, and nothing else. *)
Class CurlLog {W} (E : curl_env W) (log : W -> list curl_answer) : Prop := {
  log_action x ev w :
    tree_log log (log w) (fun code => log w ++ [A_action x ev code]) (curl_multi_socket_action E x ev w);
  log_remove w : tree_log log (log w) (fun _ => log w) (curl_multi_remove_handle E w);
  log_read w : log (curl_multi_info_read E w).2 = log w ++ [A_msg (curl_multi_info_read E w).1];
  log_timer_settime x t w : log (timerfd_settime E x t w).2 = log w;
  log_timer_read x w : log (read_timerfd E x w).2 = log w
}.

Section answers.
Context {W : Type} (E : curl_env W) (log : W -> list curl_answer) `{!CurlLog E log}.
Implicit Types (m : https_mod W) (w : W).

(** The client's data callback is no call of libcurl. *)
Definition cb_log m : Prop := forall f, data_cb m = Some f -> forall d w, log (f d w) = log w.

(** *** Callbacks change the table only *)
Definition only_table m w {A} (_ : A) (s : https_mod W * W) : Prop := table_frame m s.1 /\ s.2 = w.

Lemma find_fd_only n i x m w : pwp (find_fd_loop_ n i x) (fun _ s => s = (m, w)) (m, w).
Proof.
  revert i. induction n as [|n IH]; intros i; cbn [find_fd_loop_]; [by wp_step|]. unfold fds_at, get_mod. wp_step. cbn [fst].
  destruct (fds m !! i); wp_step; [|done]. apply pwp_if; intros _; [by wp_step|apply IH].
Qed.

Lemma fds_put_only i p m w : pwp (fds_put i p) (only_table m w) (m, w).
Proof.
  unfold fds_put, get_mod, upd_mod. wp_step. cbn [fst]. destruct (decide _); wp_step; [|done].
  split; [|done]. exists (<[i := p]> (fds m)), (fds_len m). by destruct m.
Qed.

Lemma only_table_trans {A B} m w (a : A) s (b : B) s' : only_table m w a s -> only_table s.1 s.2 b s' -> only_table m w b s'.
Proof. intros [H1 H2] [H3 H4]. split; [by eapply table_frame_trans|congruence]. Qed.

Lemma upd_fds_len_only n m w : only_table m w tt (with_fds_len n m, w).
Proof. split; [|done]. exists (fds m), n. by destruct m. Qed.

Lemma set_fd_only x ev m w : pwp (set_fd_ x ev) (only_table m w) (m, w).
Proof.
  unfold set_fd_, find_fd_, get_mod. wp_step. eapply pwp_mono; [apply find_fd_only|]. intros pos s ->. destruct pos as [pos|]; wp_step.
  - unfold fds_at, get_mod. wp_step. cbn [fst]. destruct (fds m !! pos); wp_step; [|done].
    eapply pwp_mono; [apply fds_put_only|]. intros [] s Hs. wp_step. exact Hs.
  - unfold add_fd_, get_mod, upd_mod. wp_step. cbn [fst]. destruct (decide _); wp_step; [|by split; [apply table_frame_refl|]].
    eapply pwp_mono; [apply fds_put_only|]. intros [] [m1 w1] Hs. wp_step. cbn [fst snd].
    destruct Hs as [H1 H2]. cbn in H1, H2. subst w1. split; [|done]. eapply table_frame_trans; [exact H1|]. apply (upd_fds_len_only _ _ w).
Qed.

Lemma shift_fds_only n i m w : pwp (shift_fds_ n i) (only_table m w) (m, w).
Proof.
  revert i m w. induction n as [|n IH]; intros i m w; cbn [shift_fds_]; [wp_step; by split; [apply table_frame_refl|]|].
  unfold fds_at, get_mod. wp_step. cbn [fst]. destruct (fds m !! i); wp_step; [|done].
  eapply pwp_mono; [apply fds_put_only|]. intros [] [m1 w1] Hs. eapply pwp_mono; [apply IH|].
  intros a s Hs'. by eapply only_table_trans.
Qed.

Lemma del_fd_only x m w : pwp (del_fd_ x) (only_table m w) (m, w).
Proof.
  unfold del_fd_, find_fd_, get_mod, upd_mod. wp_step. eapply pwp_mono; [apply find_fd_only|]. intros pos s ->.
  destruct pos as [pos|]; wp_step; [|by split; [apply table_frame_refl|]]. cbn [fst].
  eapply pwp_mono; [apply shift_fds_only|]. intros [] [m1 w1] Hs. wp_step. cbn [fst snd].
  destruct Hs as [H1 H2]. cbn in H1, H2. subst w1. split; [|done]. eapply table_frame_trans; [exact H1|]. apply (upd_fds_len_only _ _ w).
Qed.

(** What a callback or a call keeps: the module but for its table, the history
    up to [post]. *)
Definition logged m {A} (post : A -> list curl_answer) (a : A) (s : https_mod W * W) : Prop :=
  table_frame m s.1 /\ log s.2 = post a.

Lemma sock_cb_log x what m w : pwp (sock_cb_ x what) (logged m (fun _ => log w)) (m, w).
Proof.
  unfold sock_cb_, get_mod. wp_step. intros _. apply pwp_if; intros _; wp_step.
  - eapply pwp_mono; [apply del_fd_only|]. intros r s [H1 H2]. destruct (decide _); wp_step; (split; [done|by rewrite H2]).
  - eapply pwp_mono; [apply set_fd_only|]. intros r s [H1 H2]. destruct (decide _); wp_step; (split; [done|by rewrite H2]).
Qed.

Lemma timer_cb_log ms m w : pwp (timer_cb_ E ms) (logged m (fun _ => log w)) (m, w).
Proof.
  assert (forall x t s, only_table m w tt s -> pwp (r ← sys (timerfd_settime E x t);
    if (r =? -1)%Z then mret (-1)%Z else mret 0%Z) (logged m (fun _ => log w)) s) as Hset.
  { intros x t [m1 w1] [H1 H2]. unfold sys, get_world, set_world. wp_step. cbn [fst snd] in *. subst w1.
    destruct (_ =? -1)%Z; wp_step; (split; [done|apply log_timer_settime]). }
  unfold timer_cb_, get_mod. wp_step. cbn [fst]. apply pwp_if; intros _; wp_step.
  - eapply pwp_mono; [apply set_fd_only|]. intros r s Hs. wp_step. by apply Hset.
  - eapply pwp_mono; [apply del_fd_only|]. intros r s Hs. wp_step. by apply Hset.
Qed.

Lemma write_cb_log data m w : cb_log m -> pwp (write_cb_ data) (logged m (fun _ => log w)) (m, w).
Proof.
  intros Hcb. unfold write_cb_, get_mod. wp_step. cbn [fst]. destruct (data_cb m) as [f|] eqn:Hf.
  - unfold sys_, get_world, set_world. wp_step. cbn [fst snd]. split; [apply table_frame_refl|]. by apply (Hcb f).
  - wp_step. by split; [apply table_frame_refl|].
Qed.

Lemma cb_log_frame m m' : table_frame m m' -> cb_log m -> cb_log m'.
Proof. by intros (l & n & ->). Qed.

(** A call of libcurl leaves the history its tree says. *)
Lemma run_curl_log {A} (r : curl_run W A) l0 post m w : cb_log m -> tree_log log l0 post r ->
  pwp (run_curl E r) (logged m post) (m, w).
Proof.
  revert m w. induction r as [a w0|x what w0 k IH|ms w0 k IH|data w0 k IH]; intros m w Hcb Hr;
    cbn [run_curl tree_log] in *; unfold set_world, get_world; wp_step; cbn [fst].
  { by split; [apply table_frame_refl|]. }
  all: destruct Hr as [Hl Hk].
  all: eapply pwp_mono; [first [apply sock_cb_log|apply timer_cb_log|by apply write_cb_log]|].
  all: intros rc [m1 w1] [H1 H2]; wp_step; cbn [fst snd] in *.
  all: eapply pwp_mono; [apply IH; [by eapply cb_log_frame|apply Hk; congruence]|].
  all: intros a s [H3 H4]; split; [by eapply table_frame_trans|done].
Qed.

Lemma curl_call_log {A} (f : W -> curl_run W A) post m w : cb_log m -> tree_log log (log w) post (f w) ->
  pwp (curl_call E f) (logged m post) (m, w).
Proof. intros Hcb Hf. unfold curl_call, get_world. wp_step. cbn [snd]. by eapply run_curl_log. Qed.

Lemma pwp_need_curlm (Q : unit -> https_mod W * W -> Prop) m w : Q tt (m, w) -> pwp need_curlm Q (m, w).
Proof. intros HQ. unfold need_curlm, get_mod. wp_step. cbn [fst]. destruct (decide _); by wp_step. Qed.

Lemma pwp_need_curl (Q : unit -> https_mod W * W -> Prop) m w : Q tt (m, w) -> pwp need_curl Q (m, w).
Proof. intros HQ. unfold need_curl, get_mod. wp_step. cbn [fst]. destruct (decide _); by wp_step. Qed.

(** *** The loops of [https_update] *)

(** From [m0] with the answers [l]: the events and the state are those due. *)
Definition due (waits : bool) m0 (l : list curl_answer) m : Prop :=
  reported m = reported m0 ++ answers_evs waits l /\ st m = answers_st waits (st m0) l.

(** Nothing else the update looks at has changed. *)
Definition kept m0 m : Prop := is_stop_waiting m = is_stop_waiting m0 /\ data_cb m = data_cb m0 /\ timerfd m = timerfd m0.

Lemma frame_kept m m' : table_frame m m' -> kept m m' /\ reported m' = reported m /\ st m' = st m.
Proof. by intros (l & n & ->). Qed.

Lemma kept_trans m1 m2 m3 : kept m1 m2 -> kept m2 m3 -> kept m1 m3.
Proof. intros (? & ? & ?) (? & ? & ?). repeat split; congruence. Qed.

Lemma kept_cb m m' : kept m m' -> cb_log m -> cb_log m'.
Proof. intros (_ & H & _) Hcb f. rewrite H. apply Hcb. Qed.

Lemma due_nil waits m m' : reported m' = reported m -> st m' = st m -> due waits m [] m'.
Proof. intros H1 H2. split; [by rewrite app_nil_r|done]. Qed.

Lemma due_app waits m0 l1 m1 l2 m2 : Forall goes_on l1 -> due waits m0 l1 m1 -> due waits m1 l2 m2 -> due waits m0 (l1 ++ l2) m2.
Proof.
  intros Hg [H1 H2] [H3 H4]. split; [rewrite answers_evs_app by done; by rewrite H3, H1, app_assoc|].
  rewrite answers_st_app by done. by rewrite H4, H2.
Qed.

Lemma must_add_ev_due line msg ty m w : pwp (must_add_ev_ line msg ty)
  (fun _ s => s.2 = w /\ kept m s.1 /\ reported s.1 = reported m ++ [ty] /\ st s.1 = st m) (m, w).
Proof.
  unfold must_add_ev_, add_ev_, get_mod, upd_mod. wp_step. cbn [fst]. destruct (decide _); [exact I|].
  destruct (decide _) as [Hlt|]; wp_step; [|done]. intros _. cbn [fst snd]. split; [done|]. split; [done|]. split; [|done].
  unfold reported. cbn. by rewrite take_insert_snoc.
Qed.

Lemma must_set_st_due line msg x m w (Q : unit -> https_mod W * W -> Prop) : Q tt (with_st x m, w) -> pwp (must_set_st_ line msg x) Q (m, w).
Proof. done. Qed.

Lemma req_fail_due m w : pwp req_fail_
  (fun _ s => s.2 = w /\ kept m s.1 /\ reported s.1 = reported m ++ [https_ev_req_fail] /\ st s.1 = st_err_) (m, w).
Proof. unfold req_fail_. rewrite pwp_bind. apply must_set_st_due. eapply pwp_mono; [apply (must_add_ev_due _ _ _ (with_st st_err_ m))|]. done. Qed.

(** The end of a request, for a message of success. *)
Lemma req_done_due cm m w : cb_log m -> succeeded cm = true -> pwp (req_done_ E)
  (fun _ s => log s.2 = log w /\ due (is_stop_waiting m) m [A_msg (Some cm)] s.1) (m, w).
Proof.
  intros Hcb Hcm. unfold req_done_, get_world. wp_step. apply pwp_need_curl. wp_step. cbn [snd].
  assert (forall (k : unit -> CM (https_mod W * W) unit) Q, (forall m1, kept m m1 -> reported m1 = reported m -> pwp (k tt) Q (m1, w)) ->
    pwp (match curl_easy_getinfo_response_code E w with Some code => upd_mod (with_resp_status code) | None => mret tt end ≫= k) Q (m, w)) as Hcode.
  { intros k Q Hk. destruct (curl_easy_getinfo_response_code E w); unfold upd_mod; wp_step; by apply Hk. }
  rewrite <- pwp_bind. apply Hcode. intros m1 Hk1 Hr1. wp_step. apply must_set_st_due.
  wp_step. eapply pwp_mono; [apply (must_add_ev_due _ _ _ (with_st st_idle_ m1))|]. intros _ [m2 w2] (Hw2 & Hk2 & Hr2 & Hs2). cbn [fst snd] in *. subst w2. wp_step.
  assert (kept m m2) as Hk by (eapply kept_trans; [exact Hk1|exact Hk2]).
  unfold remove_handle_. wp_step. apply pwp_need_curlm. wp_step. apply pwp_need_curl.
  eapply pwp_mono; [eapply curl_call_log; [by eapply kept_cb|apply log_remove]|]. intros _ [m3 w3] [Hf Hl]. wp_step. cbn [fst snd] in *.
  apply frame_kept in Hf as ((Hw3 & _) & Hr3 & Hs3). destruct Hk as (Hw & _). unfold get_mod. wp_step. cbn [fst]. rewrite Hw3, Hw.
  unfold due. cbn [answers_evs answers_st]. rewrite Hcm. change (reported (with_st st_idle_ m1)) with (reported m1) in Hr2.
  destruct (is_stop_waiting m); unfold upd_mod; wp_step.
  - cbn [fst snd]. apply must_set_st_due. set (m4 := with_st st_stopped_ _).
    eapply pwp_mono; [apply (must_add_ev_due _ _ _ m4)|]. intros _ [m5 w5] (Hw5 & _ & Hr5 & Hs5). cbn [fst snd] in *. subst w5. split; [done|].
    split; [|done]. rewrite Hr5. change (reported m4) with (reported m3). by rewrite Hr3, Hr2, Hr1, <- app_assoc.
  - cbn [fst snd]. split; [done|]. split; [congruence|]. by rewrite Hs3, Hs2.
Qed.

(** The answers of a message loop: it ends with no message or with a success. *)
Definition read_all (ret : bool) (l : list curl_answer) : Prop :=
  exists ms, Forall passed ms /\
    if ret then exists cm, succeeded cm = true /\ l = ms ++ [A_msg (Some cm)] else l = ms ++ [A_msg None].

Lemma info_loop_due fuel m w : cb_log m -> pwp (info_loop_ E fuel)
  (fun ret s => exists l, log s.2 = log w ++ l /\ read_all ret l /\ due (is_stop_waiting m) m l s.1 /\
     ((ret : bool) = false -> kept m s.1)) (m, w).
Proof.
  revert m w. induction fuel as [|fuel IH]; intros m w Hcb; cbn [info_loop_]; [done|]. wp_step. apply pwp_need_curlm.
  unfold sys, get_world, set_world. wp_step. cbn [fst snd]. pose proof (log_read w) as Hlog.
  destruct (curl_multi_info_read E w) as [[cm|] w'] eqn:Hread; cbn [fst snd] in *; wp_step.
  2:{ exists [A_msg None]. split; [done|]. split; [by exists []|]. split; [split; [by rewrite app_nil_r|done]|]. done. }
  assert (forall m1 w1, kept m m1 -> log w1 = log w' -> succeeded cm = false -> due (is_stop_waiting m) m [A_msg (Some cm)] m1 ->
    pwp (info_loop_ E fuel) (fun ret s => exists l, log s.2 = log w ++ l /\ read_all ret l /\ due (is_stop_waiting m) m l s.1 /\
     ((ret : bool) = false -> kept m s.1)) (m1, w1)) as Hrest.
  { intros m1 w1 Hk Hw1 Hs Hd. eapply pwp_mono; [apply IH; by eapply kept_cb|].
    intros ret s (l & H1 & (ms & H2 & H3) & H4 & H5). exists (A_msg (Some cm) :: l).
    rewrite H1, Hw1, Hlog, <- app_assoc. split; [done|]. split.
    { exists (A_msg (Some cm) :: ms). split; [constructor; [by exists cm|done]|]. destruct ret; [|by subst l].
      destruct H3 as (cm' & H3 & ->). by exists cm'. }
    split; [|intros Hret; eapply kept_trans; [exact Hk|by apply H5]].
    apply (due_app _ _ [A_msg (Some cm)] m1); [by repeat constructor|done|]. destruct Hk as (<- & _). exact H4. }
  destruct (Z.eqb_spec (msg cm) CURLMSG_DONE) as [Hm|Hm].
  - destruct (Z.eqb_spec (result cm) CURLE_OK) as [Hr|Hr]; wp_step.
    + assert (succeeded cm = true) as Hs by (unfold succeeded; by rewrite Hm, Hr).
      eapply pwp_mono; [by apply (req_done_due cm)|]. intros _ s [H1 H2]. wp_step. exists [A_msg (Some cm)].
      rewrite H1, Hlog. split; [done|]. split; [|done]. exists []. split; [done|]. by exists cm.
    + unfold upd_mod. wp_step. cbn [fst snd]. eapply pwp_mono; [apply req_fail_due|].
      intros _ [m1 w1] (Hw1 & Hk & Hrep & Hst). cbn [fst snd] in *. subst w1.
      assert (succeeded cm = false) as Hs by (unfold succeeded; apply andb_false_iff; right; by apply Z.eqb_neq).
      assert (failed cm = true) as Hf by (unfold failed; apply andb_true_iff; split; [by apply Z.eqb_eq|by apply negb_true_iff, Z.eqb_neq]).
      apply Hrest; [done|done|done|]. split; cbn [answers_evs answers_st]; rewrite Hs, Hf; done.
  - assert (succeeded cm = false /\ failed cm = false) as [Hs Hf] by (unfold succeeded, failed; by rewrite (proj2 (Z.eqb_neq _ _) Hm)).
    apply Hrest; [done|done|done|]. split; cbn [answers_evs answers_st]; rewrite Hs, Hf; [by rewrite app_nil_r|done].
Qed.

(** One descriptor: its action, if one is due. *)
Lemma fd_action_due p m w : cb_log m -> pwp (fd_action_ E p CURLM_OK)
  (fun code s => table_frame m s.1 /\ log s.2 = log w ++ asked (timerfd m) p code /\
     (code <> CURLM_OK -> asked (timerfd m) p code <> [])) (m, w).
Proof.
  intros Hcb. unfold fd_action_, get_mod, asked. wp_step. cbn [fst].
  assert (forall x ev w1, log w1 = log w -> pwp (socket_action_ E x ev)
    (fun code s => table_frame m s.1 /\ log s.2 = log w ++ [A_action x ev code]) (m, w1)) as Hact.
  { intros x ev w1 Hw1. unfold socket_action_. wp_step. apply pwp_need_curlm.
    eapply pwp_mono; [eapply curl_call_log; [done|apply log_action]|]. intros code s [H1 H2]. by rewrite Hw1 in H2. }
  destruct (fd p =? timerfd m)%Z; [destruct (Z.land (revents p) POLLIN =? 0)%Z; cbn [negb]|]; wp_step.
  - rewrite app_nil_r. by split; [apply table_frame_refl|].
  - unfold sys, get_world, set_world. wp_step. cbn [fst snd]. eapply pwp_mono; [apply Hact, log_timer_read|]. by intros code s [H1 H2].
  - eapply pwp_mono; [by apply Hact|]. by intros code s [H1 H2].
Qed.

Lemma asked_goes_on tfd p : Forall goes_on (asked tfd p CURLM_OK).
Proof. unfold asked. destruct (_ =? _)%Z; [destruct (_ =? _)%Z|]; by repeat constructor. Qed.

Lemma asked_refused waits tfd p code m m' : code <> CURLM_OK -> asked tfd p code <> [] ->
  reported m' = reported m ++ [https_ev_req_fail] -> st m' = st_err_ -> due waits m (asked tfd p code) m'.
Proof.
  intros Hc Hne H1 H2. apply Z.eqb_neq in Hc. revert Hne. unfold asked, due.
  destruct (fd p =? tfd)%Z; [destruct (Z.land _ _ =? 0)%Z|]; cbn [answers_evs answers_st]; rewrite ?Hc; (done || by intros []).
Qed.

Lemma asked_due waits tfd p m m' : reported m' = reported m -> st m' = st m -> due waits m (asked tfd p CURLM_OK) m'.
Proof. intros H1 H2. unfold asked. destruct (_ =? _)%Z; [destruct (_ =? _)%Z|]; (split; [by rewrite app_nil_r|done]). Qed.

(** The descriptors an update looks at: the entries it finds in the array. *)
Definition from_array (a : fds_arg) (n i : nat) (ps : list pollfd) : Prop :=
  length ps = n /\ forall q, a = Fds_copy q -> ps = take n (drop i q).

(** The array is long enough. *)
Definition array_room (a : fds_arg) (n : nat) : Prop := forall q, a = Fds_copy q -> n <= length q.

Lemma from_array_rest a n i (p : pollfd) : array_room a (i + S n) -> exists ps, from_array a n (S i) ps.
Proof.
  intros Hroom. destruct a as [|q]; [exists (replicate n p); split; [apply length_replicate|done]|].
  exists (take n (drop (S i) q)). split; [|by intros ? [= <-]]. specialize (Hroom q eq_refl). rewrite length_take, length_drop. lia.
Qed.

Lemma update_loop_due fuel a n i m w : cb_log m -> array_room a (i + n) -> pwp (update_loop_ E fuel a n i CURLM_OK)
  (fun _ s => exists ps l, from_array a n i ps /\ log s.2 = log w ++ l /\ served (timerfd m) ps l /\
     due (is_stop_waiting m) m l s.1) (m, w).
Proof.
  revert i m w. induction n as [|n IH]; intros i m w Hcb Hroom; cbn [update_loop_].
  { wp_step. exists [], []. split; [done|]. split; [by rewrite app_nil_r|]. split; [constructor|by apply due_nil]. }
  wp_step. eapply (pwp_mono _ (fun p s => s = (m, w) /\ forall q, a = Fds_copy q -> q !! i = Some p)).
  { destruct a as [|q]; cbn [fds_arg_at]; unfold fds_at, get_mod; wp_step; [destruct (_ !! _); by wp_step|].
    destruct (q !! i) eqn:Hq; wp_step; [|done]. split; [done|]. by intros ? [= <-]. }
  intros p s [-> Hp]. assert (forall ps, from_array a n (S i) ps -> from_array a (S n) i (p :: ps)) as Hcons.
  { intros ps [H1 H2]. split; [cbn; by rewrite H1|]. intros q Hq. rewrite (drop_S q p i) by (by apply Hp). cbn [take]. by rewrite (H2 q). }
  destruct (from_array_rest a n i p Hroom) as [rest Hrest]. wp_step.
  eapply pwp_mono; [by apply fd_action_due|]. intros code [m1 w1] (Hf & Hl & Hne). cbn [fst snd] in *. wp_step.
  pose proof (cb_log_frame _ _ Hf Hcb) as Hcb1. apply frame_kept in Hf as (Hk1 & Hr1 & Hs1).
  destruct (Z.eqb_spec code CURLM_OK) as [->|Hcode].
  - eapply pwp_mono; [by apply info_loop_due|]. intros ret [m2 w2] (l1 & Hl1 & (ms & Hms & Hread) & Hd1 & Hk2). cbn [fst snd] in *.
    pose proof Hk1 as (Hw & _ & Ht). rewrite Hw in Hd1. rewrite Hl, <- app_assoc in Hl1.
    pose proof (due_app _ _ _ _ _ _ (asked_goes_on (timerfd m) p) (asked_due _ _ _ _ _ Hr1 Hs1) Hd1) as Hd.
    destruct ret.
    + wp_step. destruct Hread as (cm & Hcm & ->). exists (p :: rest), (asked (timerfd m) p CURLM_OK ++ ms ++ [A_msg (Some cm)]).
      split; [by apply Hcons|]. split; [done|]. split; [by constructor|done].
    + cbn [negb]. subst l1. assert (kept m m2) as Hk by (eapply kept_trans; [exact Hk1|by apply Hk2]).
      eapply pwp_mono; [apply IH; [by eapply kept_cb|by replace (S i + n) with (i + S n) by lia]|].
      intros _ s (ps & l & H1 & H2 & H3 & H4). exists (p :: ps), (asked (timerfd m) p CURLM_OK ++ ms ++ A_msg None :: l).
      destruct Hk as (Hw2 & _ & Ht2). rewrite Hw2 in H4. rewrite Ht2 in H3. rewrite H2, Hl1, <- !app_assoc.
      split; [by apply Hcons|]. split; [done|]. split; [by constructor|].
      assert (Forall goes_on (asked (timerfd m) p CURLM_OK ++ ms ++ [A_msg None])) as Hg.
      { rewrite !Forall_app. split_and!; [apply asked_goes_on|by apply passed_goes_on|by repeat constructor]. }
      pose proof (due_app _ _ _ _ _ _ Hg Hd H4) as Hd4. by rewrite <- !app_assoc in Hd4.
  - wp_step. cbn [negb]. unfold upd_mod. wp_step. cbn [fst snd]. eapply pwp_mono; [apply req_fail_due|].
    intros _ [m2 w2] (Hw2 & _ & Hr2 & Hs2). cbn [fst snd] in *. subst w2. change (reported (with_curlm_err code m1)) with (reported m1) in Hr2.
    exists (p :: rest), (asked (timerfd m) p code). split; [by apply Hcons|]. split; [done|].
    split; [constructor; auto|]. apply asked_refused; auto. congruence.
Qed.

(** An update of a pending request makes the calls due and does what the answers
    say. *)
Lemma update_answers fuel a n m w s : cb_log m -> array_room a n -> st m = st_pend_ ->
  https_update E fuel a n (m, w) = Ret (tt, s) ->
  exists ps l, from_array a n 0 ps /\ log s.2 = log w ++ l /\ served (timerfd m) ps l /\
    reported s.1 = answers_evs (is_stop_waiting m) l /\ st s.1 = answers_st (is_stop_waiting m) st_pend_ l.
Proof.
  intros Hcb Hroom Hst Hrun. revert Hrun. unfold https_update. rewrite upd_mod_bind, get_mod_bind.
  change (st (with_evs_len 0 m)) with (st m). rewrite Hst, !decide_False by done. intros Hrun.
  destruct (pwp_run _ _ _ _ _ (update_loop_due fuel a n 0 (with_evs_len 0 m) w Hcb Hroom) Hrun) as (ps & l & H1 & H2 & H3 & H4 & H5).
  exists ps, l. cbn [st with_evs_len] in H5. rewrite Hst in H5. done.
Qed.
End answers.
