(* ===== verification/HttpsLife.v ===== *)
(** * Life cycle of the HTTPS client

    The theorems on sequences of calls, a concrete libcurl on which their
    hypotheses hold, and the cases in which the module does not do what its
    interface says. *)

From stdpp Require Import base list numbers strings option gmap.
From S2P Require Import Prelude Https HttpsProps HttpsAnswers.

(** ** A concrete libcurl

    [sim] follows a script: every [curl_multi_socket_action] takes one step of
    it, makes that step's callbacks, returns its code, and puts the outcome of
    the transfer in the message queue if the step says so. *)
Inductive sim_cb := Sim_sock (fd what : Z) | Sim_timer (ms : Z) | Sim_write (data : list char).

Record sim_step := { ss_cbs : list sim_cb; ss_code : Z; ss_done : bool }.

Record sim := {
  sim_queue : list CURLMsg;         (** messages not yet read *)
  sim_flight : option Z;            (** the transfer in flight and its outcome *)
  sim_script : list sim_step;       (** what the next actions do *)
  sim_todo : list Z;                (** outcomes of the next transfers *)
  sim_log : list curl_answer;       (** the answers given so far *)
  sim_data : list char              (** what the data callback received *)
}.

Definition sim_with q f sc td lg d : sim :=
  {| sim_queue := q; sim_flight := f; sim_script := sc; sim_todo := td; sim_log := lg; sim_data := d |}.

Definition sim_active (w : sim) : nat := length (sim_queue w) + match sim_flight w with Some _ => 1 | None => 0 end.

(** Make the callbacks, then return, with [g] done to the world. *)
Fixpoint sim_tree {A} (cbs : list sim_cb) (a : A) (g : sim -> sim) (w : sim) : curl_run sim A :=
  match cbs with
  | [] => Curl_ret a (g w)
  | Sim_sock x what :: cbs => Curl_sock x what w (fun _ w => sim_tree cbs a g w)
  | Sim_timer ms :: cbs => Curl_timer ms w (fun _ w => sim_tree cbs a g w)
  | Sim_write d :: cbs => Curl_write d w (fun _ w => sim_tree cbs a g w)
  end.

(** A socket callback for the timer's descriptor is left out. *)
Definition sim_own (tfd : Z) (cb : sim_cb) : bool :=
  match cb with Sim_sock x _ => negb (x =? tfd)%Z | _ => true end.

Definition sim_action (tfd x ev : Z) (w : sim) : curl_run sim Z :=
  match sim_script w with
  | [] => Curl_ret CURLM_OK (sim_with (sim_queue w) (sim_flight w) [] (sim_todo w) (sim_log w ++ [A_action x ev CURLM_OK]) (sim_data w))
  | s :: sc =>
      let '(q, f) := match ss_done s, sim_flight w with
        | true, Some r => (sim_queue w ++ [{| msg := CURLMSG_DONE; result := r |}], None)
        | _, f => (sim_queue w, f)
        end in
      sim_tree (filter (fun cb => sim_own tfd cb) (ss_cbs s)) (ss_code s)
        (fun w => sim_with (sim_queue w) (sim_flight w) (sim_script w) (sim_todo w) (sim_log w ++ [A_action x ev (ss_code s)]) (sim_data w))
        (sim_with q f sc (sim_todo w) (sim_log w) (sim_data w))
  end.

Definition sim_add (w : sim) : curl_run sim unit :=
  match sim_flight w, sim_todo w with
  | None, r :: td =>
      sim_tree [Sim_timer 0] tt id (sim_with (sim_queue w) (Some r) (sim_script w) td (sim_log w) (sim_data w))
  | _, _ => Curl_ret tt w
  end.

Definition sim_read (w : sim) : option CURLMsg * sim :=
  match sim_queue w with
  | [] => (None, sim_with [] (sim_flight w) (sim_script w) (sim_todo w) (sim_log w ++ [A_msg None]) (sim_data w))
  | m :: q => (Some m, sim_with q (sim_flight w) (sim_script w) (sim_todo w) (sim_log w ++ [A_msg (Some m)]) (sim_data w))
  end.

Definition sim_empty (w : sim) : sim :=
  sim_with [] None (sim_script w) (sim_todo w) (sim_log w) (sim_data w).

Definition sim_env (tfd : Z) : curl_env sim := {|
  curl_easy_init w := (true, w);
  curl_multi_init w := (true, sim_empty w);
  curl_slist_append _ _ w := (true, w);
  curl_slist_free_all w := w;
  curl_easy_setopt _ w := w;
  curl_multi_setopt _ w := w;
  curl_easy_cleanup w := Curl_ret tt w;
  curl_multi_cleanup w := Curl_ret tt w;
  curl_multi_add_handle := sim_add;
  curl_multi_remove_handle w := Curl_ret tt (sim_empty w);
  curl_multi_socket_action := sim_action tfd;
  curl_multi_info_read := sim_read;
  curl_easy_getinfo_response_code _ := Some 200%Z;
  timerfd_create w := (tfd, w);
  timerfd_settime _ _ w := (0%Z, w);
  read_timerfd _ w := (8%Z, w);
  close_fd _ w := w
|}.

Lemma sim_tree_ok {A} tfd n e cbs (a : A) g w : (forall w, sim_active (g w) <= sim_active w) ->
  forallb (sim_own tfd) cbs = true -> sim_active w <= n -> n <= e ->
  tree_ok sim_active tfd n e (sim_tree cbs a g w).
Proof.
  intros Hg. revert w. induction cbs as [|cb cbs IH]; intros w Hcbs Hw Hn; cbn [sim_tree tree_ok]; [specialize (Hg w); lia|].
  cbn [forallb] in Hcbs. apply andb_true_iff in Hcbs as [Hcb Hcbs]. destruct cb; cbn [tree_ok sim_own] in *.
  - apply negb_true_iff, Z.eqb_neq in Hcb. split; [done|]. split; [done|]. intros _ w' Hw'. by apply IH.
  - split; [done|]. intros _ w' Hw'. by apply IH.
  - split; [done|]. intros _ w' Hw'. by apply IH.
Qed.

#[export] Instance sim_laws tfd : CurlLaws (sim_env tfd) tfd.
Proof.
  refine {| active := sim_active |}; try done; try (by cbn; lia).
  - intros x ev w. cbn. unfold sim_action. destruct (sim_script w) as [|s sc].
    { cbn. unfold sim_active. cbn. lia. }
    assert (forall l, forallb (sim_own tfd) (filter (fun cb => sim_own tfd cb) l) = true) as Hl.
    { intros l. apply forallb_forall. intros cb Hcb. apply list_elem_of_In, list_elem_of_filter in Hcb as [Hcb _].
      by destruct (sim_own tfd cb). }
    destruct (ss_done s), (sim_flight w) eqn:Hf; apply sim_tree_ok; try done; try apply Hl; try lia;
      unfold sim_active; cbn; rewrite ?Hf, ?length_app; cbn; lia.
  - intros w. cbn. unfold sim_add. destruct (sim_flight w) eqn:Hf, (sim_todo w); cbn; unfold sim_active; cbn;
      rewrite ?Hf; try lia. split; [lia|]. intros _ w' Hw'. cbn. lia.
  - intros w cm w'. cbn. unfold sim_read. destruct (sim_queue w) eqn:Hq; [done|]. intros [= <- <-].
    unfold sim_active. cbn. rewrite Hq. cbn. lia.
  - intros w w'. cbn. unfold sim_read. destruct (sim_queue w) eqn:Hq; [|done]. intros [= <-]. unfold sim_active. cbn. lia.
Defined.

Lemma sim_tree_log {A} cbs (a : A) g post w l0 : sim_log w = l0 -> (forall w, sim_log w = l0 -> sim_log (g w) = post a) ->
  tree_log sim_log l0 post (sim_tree cbs a g w).
Proof.
  intros Hw Hg. revert w Hw. induction cbs as [|[x what|ms|d] cbs IH]; intros w Hw; cbn [sim_tree tree_log]; auto.
Qed.

(** The simulation keeps the history of its answers. *)
#[export] Instance sim_logs tfd : CurlLog (sim_env tfd) sim_log.
Proof.
  split; try done.
  - intros x ev w. cbn. unfold sim_action. destruct (sim_script w) as [|s sc]; [done|].
    destruct (ss_done s), (sim_flight w); apply sim_tree_log; try done; by intros w' <-.
  - intros w. cbn. unfold sim_read. by destruct (sim_queue w).
Defined.

(** Memory before [https_init], and worlds for the examples: one transfer with
    outcome [r], one action that watches descriptor 7 and one that ends it. *)
Definition https_mem : https_mod sim := {|
  st := st_uninit_; stop_strat := https_stop_strat_wait; is_stop_waiting := false; curl_err := 0;
  curlm_err := 0; evs := replicate evs_maxlen_ https_ev_init; evs_len := 0; data_cb := None;
  resp_status := 0; fds := replicate fds_maxlen_ {| fd := 0; events := 0; revents := 0 |}; fds_len := 0;
  timerfd := 0; curl := H_null; curlm := H_null; json_hdrs := H_null |}.

Definition sim_cb_data (d : list char) (w : sim) : sim :=
  sim_with (sim_queue w) (sim_flight w) (sim_script w) (sim_todo w) (sim_log w) (sim_data w ++ d).

Definition sim_one (r : Z) : sim :=
  sim_with [] None
    [{| ss_cbs := [Sim_sock 7 CURL_POLL_IN]; ss_code := CURLM_OK; ss_done := false |};
     {| ss_cbs := [Sim_write (lit "ok"); Sim_sock 7 CURL_POLL_REMOVE; Sim_timer (-1)]; ss_code := CURLM_OK;
        ss_done := true |}] [r] [] [].

(** An idle module whose timer is descriptor 5, in such a world. *)
Definition idle_mod : https_mod sim :=
  with_st st_idle_ (with_timerfd 5%Z (with_curl H_live (with_curlm H_live (with_json_hdrs H_live
    (with_data_cb (Some sim_cb_data) https_mem))))).

Lemma idle_mod_wf : wf (sim_env 5) 5 idle_mod.
Proof.
  split; [split|..]; try (by cbn; unfold evs_maxlen_, fds_maxlen_; lia || done); [apply NoDup_nil_2|].
  intros f. cbn. by intros [= <-].
Defined.

Lemma idle_mod_hinv r : hinv (sim_env 5) 5 (idle_mod, sim_one r).
Proof. split; [apply idle_mod_wf|cbn; lia|done|done]. Defined.

(** What [poll] reports: the timer fired, the socket is readable. *)
Definition timer_fired : pollfd := {| fd := 5; events := POLLIN; revents := POLLIN |}.
Definition sock_ready : pollfd := {| fd := 7; events := POLLIN; revents := POLLIN |}.

(** A request, a stop that waits for it, the two updates that finish both. *)
Definition session : list https_op :=
  [Op_req https_method_get (lit "https://example.org") (lit "{}"); Op_stop_prep;
   Op_update 2 (Fds_copy [timer_fired]) 1; Op_update 2 (Fds_copy [sock_ready]) 1; Op_stop].

(** The states a session leads to. *)
Definition session_state (os : list https_op) (s : https_mod sim * sim) : option (https_mod sim * sim) :=
  snd <$> ret_of (https_run_ops (sim_env 5) os s).

(** The same module with the request sent and a stop waiting. *)
Definition waiting_mod : https_mod sim := with_st st_pend_ (with_is_stop_waiting true idle_mod).

Definition flying (r : Z) : sim :=
  sim_with [] (Some r) [{| ss_cbs := []; ss_code := CURLM_OK; ss_done := true |}] [] [] [].


Lemma fd_table_refines_witness :
  (exists r m', set_fd_ 7 POLLIN (idle_mod, sim_one 0) = Ret (r, (m', sim_one 0)) /\ wf_fds m' /\
     table_frame idle_mod m' /\
     match r with
     | set_fd_ok_ => watched m' = <[7%Z := POLLIN]> (watched idle_mod)
     | set_fd_add_overflow_ => m' = idle_mod /\ watched idle_mod !! 7%Z = None /\ size (watched idle_mod) = fds_maxlen_
     end) /\
  (exists r m', del_fd_ 7 (idle_mod, sim_one 0) = Ret (r, (m', sim_one 0)) /\ wf_fds m' /\ table_frame idle_mod m' /\
     match r with
     | del_fd_ok_ => is_Some (watched idle_mod !! 7%Z) /\ watched m' = delete 7%Z (watched idle_mod)
     | del_fd_not_found_ => m' = idle_mod /\ watched idle_mod !! 7%Z = None
     end).
Proof. apply (fd_table_refines idle_mod (sim_one 0) 7 POLLIN), (wf_table _ _ _ idle_mod_wf). Defined.

(** ** Safety and life cycle *)

(** C15. Safety of the HTTPS client: for every libcurl that obeys its contract,
    from a state that satisfies the invariant, in every state that calls of the
    client lead to - updates on the module's own table or on a copy of at least
    [nfds] entries, requests, stops, settings, and once [https_stop] has released
    the module only those of them that do not touch libcurl - the invariant holds
    and every such call returns: no [SOB_PANIC], no access outside the event array
    or the descriptor table, no endless message loop, no use of a handle that is
    NULL or was freed, nothing freed twice. *)
Theorem https_calls_safe {W} (E : curl_env W) tfd `{!CurlLaws E tfd} s0 s :
  hinv E tfd s0 -> https_reach E s0 s ->
  hinv E tfd s /\ forall o, op_room o -> op_allowed s.1 o -> exists s', https_run_op E o s = Ret (tt, s').
Proof.
  intros H0 Hr. pose proof (https_reach_hinv E tfd s0 s Hr H0) as Hs. split; [done|]. intros o Hroom Hal.
  destruct (wp_Ret _ _ _ (https_op_wp E tfd o s Hs Hroom Hal)) as ([] & s' & Hrun & _). by exists s'.
Qed.

(** The last state of the session is reached. *)
Lemma session_reach s : session_state session (idle_mod, sim_one CURLE_OK) = Some s ->
  https_reach (sim_env 5) (idle_mod, sim_one CURLE_OK) s.
Proof.
  intros Hs. apply (run_ops_reach _ session _ (idle_mod, sim_one CURLE_OK)); [apply Hr_start| |].
  2:{ unfold session_state in Hs. vm_compute in Hs. injection Hs as <-. vm_compute. reflexivity. }
  clear Hs.
  unfold session. repeat (split; [cbn; lia|split; [done|intros s' H; vm_compute in H; injection H as <-]]). done.
Defined.

Lemma https_calls_safe_witness : exists s, st s.1 = st_uninit_ /\ curl s.1 = H_freed /\
  hinv (sim_env 5) 5 s /\ forall o, op_room o -> op_allowed s.1 o -> exists s', https_run_op (sim_env 5) o s = Ret (tt, s').
Proof.
  destruct (session_state session (idle_mod, sim_one CURLE_OK)) as [s|] eqn:Hs; [|by vm_compute in Hs].
  pose proof (session_reach s Hs) as Hr. exists s.
  assert (st s.1 = st_uninit_ /\ curl s.1 = H_freed) as [H1 H2] by (vm_compute in Hs; by injection Hs as <-).
  split; [done|]. split; [done|].
  apply (https_calls_safe (sim_env 5) 5 (idle_mod, sim_one CURLE_OK) s); [apply idle_mod_hinv|exact Hr].
Defined.

(** What the interface must rule out: [https_stop_prep] does not look at the
    state, so that after a stop the next pair of [https_stop_prep] and
    [https_stop] frees the handles again; a setting after a stop uses a freed
    handle. *)
Theorem https_use_after_stop {W} (E : curl_env W) tfd `{!CurlLaws E tfd} m w :
  hinv E tfd (m, w) -> st m = st_stopped_ -> is_stop_waiting m = false ->
  https_run_ops E [Op_stop; Op_stop_prep; Op_stop] (m, w) = Undef /\
  forall t, https_run_ops E [Op_stop; Op_set_timeout t] (m, w) = Undef.
Proof.
  intros Hinv Hst Hw. destruct (wp_Ret _ _ _ (stop_wp E tfd m w Hinv)) as (r & [m1 w1] & Hr & _ & _ & Hs1 & Hf).
  rewrite decide_True in Hs1 by done. destruct (Hf Hst) as [(Hc & _) [Hw1 Hstr]]. cbn [fst] in *.
  assert (https_run_op E Op_stop (m, w) = Ret (tt, (m1, w1))) as Hstop by (cbn [https_run_op]; by rewrite (bind_Ret _ _ _ _ _ Hr)).
  assert (exists m2, https_run_op E Op_stop_prep (m1, w1) = Ret (tt, (m2, w1)) /\ st m2 = st_stopped_ /\ curl m2 = H_freed) as (m2 & Hprep & Hs2 & Hc2).
  { cbn [https_run_op]. unfold https_stop_prep, get_mod, reads, mbind, cm_bind. cbn [fst].
    destruct (stop_strat m1); cbn; [rewrite decide_False by congruence; by eexists|]. rewrite Hw1, Hw. cbn.
    rewrite decide_False by congruence. by eexists. }
  split.
  - cbn [https_run_ops]. rewrite (bind_Ret _ _ _ _ _ Hstop), (bind_Ret _ _ _ _ _ Hprep). cbn [https_run_op].
    unfold https_stop, easy_cleanup_, need_curl, get_mod, upd_mod, reads, modc, mbind, cm_bind. cbn.
    rewrite decide_True by done. cbn. by rewrite Hc2.
  - intros t. cbn [https_run_ops]. rewrite (bind_Ret _ _ _ _ _ Hstop). cbn [https_run_op].
    unfold https_set_timeout, easy_setopt_, need_curl, get_mod, reads, mbind, cm_bind. cbn. by rewrite Hc.
Qed.

Lemma https_use_after_stop_witness :
  https_run_ops (sim_env 5) [Op_stop; Op_stop_prep; Op_stop] (with_st st_stopped_ idle_mod, sim_one 0) = Undef /\
  forall t, https_run_ops (sim_env 5) [Op_stop; Op_set_timeout t] (with_st st_stopped_ idle_mod, sim_one 0) = Undef.
Proof.
  apply (https_use_after_stop (sim_env 5) 5); [|done|done].
  split; [apply wf_with_st, idle_mod_wf|cbn; lia|by intros [|]|done].
Defined.

(** The session ends in a stopped and released module: the request was
    answered, its data delivered, the table is empty. *)
Example session_result :
  (fun '(_, (m, w)) => (st m, resp_status m, sim_data w, watched m !! 7%Z)) <$>
    ret_of (https_run_ops (sim_env 5) session (idle_mod, sim_one CURLE_OK)) =
  Some (st_uninit_, 200%Z, lit "ok", None).
Proof. vm_compute. reflexivity. Qed.

(** C26. Initialisation: when libcurl's handles, the header list and the timer
    can be created, [https_init] returns [https_init_ok] on any memory and
    establishes the invariant, with nothing watched, no event and no stop
    pending; the first update then reports [https_ev_init]. *)
Theorem https_init_establishes {W} (E : curl_env W) tfd `{!CurlLaws E tfd} cb m w :
  (forall w, (curl_easy_init E w).1 = true) -> (forall w, (curl_multi_init E w).1 = true) ->
  (forall b t w, (curl_slist_append E b t w).1 = true) -> (forall w, (timerfd_create E w).1 = tfd) ->
  tfd <> (-1)%Z -> length (evs m) = evs_maxlen_ -> length (fds m) = fds_maxlen_ ->
  (forall f, cb = Some f -> forall d w, active (f d w) <= active w) ->
  exists s, https_init E cb (m, w) = Ret (https_init_ok, s) /\ hinv E tfd s /\ reported s.1 = [] /\
    watched s.1 = ∅ /\ is_stop_waiting s.1 = false /\
    exists s', https_update E 2 Fds_own 0 s = Ret (tt, s') /\ reported s'.1 = [https_ev_init] /\
      st s'.1 = st_idle_.
Proof.
  intros H1 H2 H3 H4 H5 H6 H7 H8.
  destruct (wp_Ret _ _ _ (https_init_run E tfd cb m w (H1 _) (H2 _) (H3 _ _ _) H4 H5 H6 H7 H8))
    as (r & [m1 w1] & Hr & -> & Hinv & Hst & Hrep & Hw & _ & Hwa).
  exists (m1, w1). split; [done|]. split; [done|]. split; [done|]. split; [done|]. split; [done|].
  destruct (wp_Ret _ _ _ (update_wp E tfd 2 Fds_own 0 m1 w1 Hinv ltac:(lia) ltac:(cbn; unfold fds_maxlen_; lia)))
    as ([] & s' & Hu & _ & Hs). unfold update_spec in Hs. cbn [fst] in Hst. rewrite Hst in Hs.
  exists s'. by destruct Hs as (? & ? & _).
Qed.

Lemma https_init_establishes_witness :
  exists s, https_init (sim_env 5) (Some sim_cb_data) (https_mem, sim_one 0) = Ret (https_init_ok, s) /\
    hinv (sim_env 5) 5 s /\ reported s.1 = [] /\ watched s.1 = ∅ /\ is_stop_waiting s.1 = false /\
    exists s', https_update (sim_env 5) 2 Fds_own 0 s = Ret (tt, s') /\ reported s'.1 = [https_ev_init] /\
      st s'.1 = st_idle_.
Proof. apply (https_init_establishes (sim_env 5) 5); try done. by intros f [= <-]. Defined.



(** C27. One request at a time: [https_req_json] is accepted exactly when the
    module is idle and no stop is waiting, and then the request is pending; in
    every other case it says why and neither the module nor libcurl sees
    anything of it. *)
Theorem https_req_gate {W} (E : curl_env W) tfd `{!CurlLaws E tfd} method url data m w :
  hinv E tfd (m, w) ->
  if decide (st m = st_idle_) then
    if is_stop_waiting m then
      https_req_json E method url data (m, w) = Ret (https_req_fail_stopping, (m, w))
    else exists s, https_req_json E method url data (m, w) = Ret (https_req_ok, s) /\ st s.1 = st_pend_
  else https_req_json E method url data (m, w) = Ret (https_req_fail_other_pend, (m, w)).
Proof.
  intros Hinv. pose proof (req_json_wp E tfd method url data m w Hinv) as Hwp.
  destruct (decide (st m = st_idle_)) as [Hst|Hst]; [destruct (is_stop_waiting m) eqn:Hw|].
  - unfold https_req_json. rewrite get_mod_bind, (bool_decide_eq_true_2 _ Hst), Hw. done.
  - apply wp_Ret in Hwp as (r & s & Hr & _ & -> & Hs). exists s.
    assert (req_code m = https_req_ok) as Hc by (unfold req_code; by rewrite decide_True, Hw).
    rewrite Hc in *. by rewrite decide_True in Hs.
  - unfold https_req_json. by rewrite get_mod_bind, (bool_decide_eq_false_2 _ Hst).
Qed.

Lemma https_req_gate_witness :
  exists s, https_req_json (sim_env 5) https_method_post (lit "u") (lit "d") (idle_mod, sim_one 0) =
    Ret (https_req_ok, s) /\ st s.1 = st_pend_.
Proof. apply (https_req_gate (sim_env 5) 5 https_method_post (lit "u") (lit "d") idle_mod (sim_one 0)), idle_mod_hinv. Defined.

Lemma easy_setopt_run {W} (E : curl_env W) o m w : curl m = H_live -> easy_setopt_ E o (m, w) = Ret (tt, (m, curl_easy_setopt E o w)).
Proof. intros H. unfold easy_setopt_, need_curl, get_mod, reads, mbind, cm_bind. cbn. by rewrite H. Qed.

(** C35. A stop that waits for a request is never finished when the request
    fails: from the error state with the wait set and the handle in place,
    whatever sequence of updates, requests, stops and settings follows - unless
    the strategy is changed to abort - the module stays in that state, never reports [https_ev_stopped],
    and [https_stop] refuses with [https_stop_fail_no_prep]. *)
Theorem https_stop_stuck {W} (E : curl_env W) os m w :
  st m = st_err_ -> curl m = H_live -> is_stop_waiting m = true -> stop_strat m = https_stop_strat_wait ->
  https_ev_stopped ∉ reported m -> Forall (fun o => o <> Op_set_stop_strat https_stop_strat_abort) os ->
  exists m' w', https_run_ops E os (m, w) = Ret (tt, (m', w')) /\ st m' = st_err_ /\
    is_stop_waiting m' = true /\ https_stop E (m', w') = Ret (https_stop_fail_no_prep, (m', w')) /\
    https_ev_stopped ∉ reported m'.
Proof.
  intros Hst Hlv Hw Hs Hev Hos.
  assert (forall m w, st m = st_err_ -> https_stop E (m, w) = Ret (https_stop_fail_no_prep, (m, w))) as Hstop.
  { intros m1 w1 H1. unfold https_stop. rewrite get_mod_bind, decide_False by (rewrite H1; done). done. }
  assert (forall o, o <> Op_set_stop_strat https_stop_strat_abort -> forall m w, st m = st_err_ ->
    curl m = H_live -> is_stop_waiting m = true -> stop_strat m = https_stop_strat_wait ->
    exists w', https_run_op E o (m, w) = Ret (tt, (match o with Op_update _ _ _ => with_evs_len 0 m | _ => m end, w')))
    as Hstep.
  { intros o Ho m1 w1 H1 Hl H2 H3. destruct o as [fuel a n|mt url data| | |t|l|x]; cbn [https_run_op].
    - exists w1. unfold https_update. rewrite upd_mod_bind, get_mod_bind. change (st (with_evs_len 0 m1)) with (st m1).
      rewrite H1. done.
    - exists w1. unfold https_req_json, mbind, cm_bind, get_mod, reads. cbn. by rewrite H1.
    - exists w1. unfold https_stop_prep, mbind, cm_bind, get_mod, reads. cbn. by rewrite H3, H2.
    - exists w1. by rewrite (bind_Ret _ _ _ _ _ (Hstop m1 w1 H1)).
    - eexists. unfold https_set_timeout. by rewrite easy_setopt_run.
    - destruct l; eexists; cbn [https_set_verbosity]; by rewrite easy_setopt_run.
    - destruct x; [done|]. eexists. unfold https_set_stop_strat, upd_mod, modc. cbn. rewrite <- H3. by destruct m1. }
  revert m w Hst Hlv Hw Hs Hev. induction Hos as [|o os Ho _ IH]; intros m w Hst Hlv Hw Hs Hev; cbn [https_run_ops].
  - exists m, w. split; [done|]. split; [done|]. split; [done|]. split; [by apply Hstop|done].
  - destruct (Hstep o Ho m w Hst Hlv Hw Hs) as (w' & Hr). rewrite (bind_Ret _ _ _ _ _ Hr).
    destruct o; try (by apply IH). apply (IH (with_evs_len 0 m)); try done. apply not_elem_of_nil.
Qed.

(** The request fails while a stop waits for it: the hypotheses are reached. *)
Definition failed_waiting : option (https_mod sim * sim) :=
  snd <$> ret_of (https_update (sim_env 5) 2 (Fds_copy [sock_ready]) 1 (waiting_mod, flying 7)).

Lemma https_stop_stuck_witness :
  match failed_waiting with
  | Some (m, w) =>
      reported m = [https_ev_req_fail] /\
      exists m' w', https_run_ops (sim_env 5) [Op_update 2 Fds_own 0; Op_stop_prep; Op_stop; Op_update 2 Fds_own 0] (m, w) =
        Ret (tt, (m', w')) /\ st m' = st_err_ /\ is_stop_waiting m' = true /\
        https_stop (sim_env 5) (m', w') = Ret (https_stop_fail_no_prep, (m', w')) /\
        https_ev_stopped ∉ reported m'
  | None => False
  end.
Proof.
  destruct failed_waiting as [[m w]|] eqn:E; vm_compute in E; [|done]. injection E as <- <-. split; [done|].
  apply (https_stop_stuck (sim_env 5)); try done; [|by repeat constructor].
  vm_compute. intros H. apply list_elem_of_singleton in H. done.
Defined.

(** ** Time and poll flags *)

Lemma timer_spec_time ms :
  it_interval_sec (timer_spec_ ms) = 0%Z /\ it_interval_nsec (timer_spec_ ms) = 0%Z /\
  (0 <= it_value_nsec (timer_spec_ ms) < 10 ^ 9)%Z /\
  let ns := (it_value_sec (timer_spec_ ms) * 10 ^ 9 + it_value_nsec (timer_spec_ ms))%Z in
  if (0 <=? ms)%Z then (0 < ns)%Z /\ ns = Z.max 1 (ms * 10 ^ 6) else ns = 0%Z.
Proof.
  unfold timer_spec_. destruct (Z.leb_spec 0 ms) as [H0|H0]; [|by cbn].
  destruct (Z.ltb_spec 0 ms) as [H1|H1]; cbn -[Z.pow Z.mul Z.quot Z.rem].
  - rewrite Z.quot_div_nonneg, Z.rem_mod_nonneg by lia. pose proof (Z.mod_pos_bound ms 1000 ltac:(lia)).
    pose proof (Z.div_mod ms 1000 ltac:(lia)). change (10 ^ 9)%Z with 1000000000%Z. change (10 ^ 6)%Z with 1000000%Z.
    split; [done|]. split; [done|]. split; [lia|]. split; lia.
  - assert (ms = 0%Z) as -> by lia. done.
Qed.

(** C29. The timer is armed as libcurl asked: for a timeout of [ms] >= 0 the
    relative time given to [timerfd_settime] is a valid one, is never the zero
    that would disarm the timer, and is [ms] milliseconds (one nanosecond for
    0); the timer then is polled for input, unless the table is full.  For a
    negative timeout it is disarmed and no longer polled. *)
Theorem timer_cb_arms {W} (E : curl_env W) tfd `{!CurlLaws E tfd} ms m w :
  wf E tfd m -> fds_len m < fds_maxlen_ ->
  exists rc m' w', timer_cb_ E ms (m, w) = Ret (rc, (m', w')) /\
    w' = (timerfd_settime E tfd (timer_spec_ ms) w).2 /\
    (rc = if ((timerfd_settime E tfd (timer_spec_ ms) w).1 =? -1)%Z then (-1)%Z else 0%Z) /\
    it_interval_sec (timer_spec_ ms) = 0%Z /\ it_interval_nsec (timer_spec_ ms) = 0%Z /\
    (0 <= it_value_nsec (timer_spec_ ms) < 10 ^ 9)%Z /\
    let ns := (it_value_sec (timer_spec_ ms) * 10 ^ 9 + it_value_nsec (timer_spec_ ms))%Z in
    if (0 <=? ms)%Z then
      watched m' = <[tfd := POLLIN]> (watched m) /\ (0 < ns)%Z /\ ns = Z.max 1 (ms * 10 ^ 6)
    else watched m' = delete tfd (watched m) /\ ns = 0%Z.
Proof.
  intros Hwf Hroom. pose proof (timer_spec_time ms) as (Hi1 & Hi2 & Hns & Htime).
  assert (forall m1, (r ← sys (timerfd_settime E tfd (timer_spec_ ms));
      if (r =? -1)%Z then mret (-1)%Z else mret 0%Z) (m1, w) =
    Ret (if ((timerfd_settime E tfd (timer_spec_ ms) w).1 =? -1)%Z then (-1)%Z else 0%Z,
      (m1, (timerfd_settime E tfd (timer_spec_ ms) w).2))) as Hrun.
  { intros m1. unfold sys, get_world, set_world, reads, modc, mbind, cm_bind, mret, cm_ret. cbn [fst snd].
    by destruct (_ =? -1)%Z. }
  unfold timer_cb_. rewrite get_mod_bind, (wf_timer _ _ _ Hwf).
  destruct (fd_table_ops m w tfd POLLIN (wf_table _ _ _ Hwf)) as
    [(r1 & m1 & Hset & _ & _ & H1) (r2 & m2 & Hdel & _ & _ & H2)].
  destruct (0 <=? ms)%Z.
  - eexists _, m1, _. rewrite (bind_Ret _ _ _ tt (m1, w)) by (by rewrite (bind_Ret _ _ _ _ _ Hset)).
    split; [apply Hrun|]. do 5 (split; [done|]). split; [|done]. destruct r1; [|done].
    destruct H1 as (_ & _ & Hsz). rewrite watched_size in Hsz; [lia|apply Hwf].
  - eexists _, m2, _. rewrite (bind_Ret _ _ _ tt (m2, w)) by (by rewrite (bind_Ret _ _ _ _ _ Hdel)).
    split; [apply Hrun|]. do 5 (split; [done|]). split; [|done]. destruct r2; [|by destruct H2].
    destruct H2 as [-> H2]. by rewrite delete_id.
Qed.

Lemma timer_cb_arms_witness :
  exists rc m' w', timer_cb_ (sim_env 5) 1500 (idle_mod, sim_one 0) = Ret (rc, (m', w')) /\
    w' = (timerfd_settime (sim_env 5) 5 (timer_spec_ 1500) (sim_one 0)).2 /\
    (rc = if ((timerfd_settime (sim_env 5) 5 (timer_spec_ 1500) (sim_one 0)).1 =? -1)%Z then (-1)%Z else 0%Z) /\
    it_interval_sec (timer_spec_ 1500) = 0%Z /\ it_interval_nsec (timer_spec_ 1500) = 0%Z /\
    (0 <= it_value_nsec (timer_spec_ 1500) < 10 ^ 9)%Z /\
    let ns := (it_value_sec (timer_spec_ 1500) * 10 ^ 9 + it_value_nsec (timer_spec_ 1500))%Z in
    watched m' = <[5%Z := POLLIN]> (watched idle_mod) /\ (0 < ns)%Z /\ ns = Z.max 1 (1500 * 10 ^ 6).
Proof.
  apply (timer_cb_arms (sim_env 5) 5 1500 idle_mod (sim_one 0)); [apply idle_mod_wf|cbn; unfold fds_maxlen_; lia].
Defined.

(** C36. The flags handed to libcurl for a socket are not those [poll] reported:
    for a value with one flag the error flag is always among them - a socket
    that is only readable is reported as readable, writable and failed - and a
    value with several flags is reported as nothing at all. *)
Theorem revents_cev_wrong rev :
  rev ∈ [POLLIN; POLLOUT; POLLERR; POLLHUP; POLLNVAL] ->
  Z.land (revents_cev_ rev) CURL_CSELECT_ERR = CURL_CSELECT_ERR /\
  revents_cev_ POLLIN = Z.lor (Z.lor CURL_CSELECT_IN CURL_CSELECT_OUT) CURL_CSELECT_ERR /\
  forall rev', rev' ∈ [POLLIN; POLLOUT; POLLERR; POLLHUP; POLLNVAL] -> rev' <> rev ->
    revents_cev_ (Z.lor rev rev') = 0%Z.
Proof.
  rewrite !list_elem_of_In. intros Hin. split; [|split; [done|]].
  - by destruct Hin as [<-|[<-|[<-|[<-|[<-|[]]]]]].
  - intros rev' Hin'. rewrite list_elem_of_In in Hin'.
    by destruct Hin as [<-|[<-|[<-|[<-|[<-|[]]]]]], Hin' as [<-|[<-|[<-|[<-|[<-|[]]]]]].
Qed.

Lemma revents_cev_wrong_witness :
  Z.land (revents_cev_ POLLIN) CURL_CSELECT_ERR = CURL_CSELECT_ERR /\
  revents_cev_ POLLIN = Z.lor (Z.lor CURL_CSELECT_IN CURL_CSELECT_OUT) CURL_CSELECT_ERR /\
  forall rev', rev' ∈ [POLLIN; POLLOUT; POLLERR; POLLHUP; POLLNVAL] -> rev' <> POLLIN ->
    revents_cev_ (Z.lor POLLIN rev') = 0%Z.
Proof. apply (revents_cev_wrong POLLIN). left. Defined.

(** ** The table that changes under the loop *)

(** Three sockets are ready; handling the first one removes it from the table. *)
Definition three_mod : https_mod sim :=
  with_st st_pend_ (with_fds_len 3 (with_fds
    (map (fun x => {| fd := x; events := POLLIN; revents := POLLIN |}) [7; 8; 9]%Z
     ++ replicate 21 {| fd := 0; events := 0; revents := 0 |}) idle_mod)).

Definition three_world : sim :=
  sim_with [] (Some 0%Z) [{| ss_cbs := [Sim_sock 7 CURL_POLL_REMOVE]; ss_code := CURLM_OK; ss_done := false |}] [] [] [].

Definition acted_on (a : fds_arg) : option (list Z) :=
  (fun s => omap (fun x => match x with A_action x _ _ => Some x | _ => None end) (sim_log s.2.2)) <$> ret_of (https_update (sim_env 5) 2 a 3 (three_mod, three_world)).

(** Passing the module's own table to [https_update], as the demo does, is
    not the same as passing a copy of it: when handling a descriptor removes it,
    the entries behind it move under the loop, so that the next ready socket is
    skipped and the last one is handled twice. *)
Example https_own_table_skips :
  acted_on (Fds_copy (take 3 (fds three_mod))) = Some [7; 8; 9]%Z /\
  acted_on Fds_own = Some [7; 9; 9]%Z.
Proof. vm_compute. done. Qed.
