(* ===== verification/HttpsDemo.v ===== *)
(** * The demo program of the HTTPS client ([src/src/https.c], lines 566-698)

    It starts the module, makes one request, waits for its end and stops.  Its
    three event loops run until an event is there, however long that takes: the
    model runs at most [n] turns of each and says when the program is still
    waiting, and the theorem is about every [n].  [poll] writes the [revents] of
    the module's own table and lets the world go on; it is an action on the
    whole state. *)

From stdpp Require Import base list numbers strings option gmap.
From S2P Require Import Prelude Https HttpsProps HttpsLife.

(** How an event loop ends: at a label, with [return 1], or not yet. *)
Inductive loop_end (L : Type) := Goto (l : L) | Return1 | Waits.
Arguments Goto {L} l.
Arguments Return1 {L}.
Arguments Waits {L}.

(** The program has ended with a status, or is still waiting. *)
Inductive demo_end := Exit (status : Z) | Running.

(** The labels of [main]. *)
Inductive label := L_init | L_req_done | L_req_fail | L_stopped.

(** The [switch] of each loop: [None] is [continue]. *)
Definition on_init_ (e : https_ev_type) : option (loop_end label) :=
  match https_ev_ty e with
  | https_ev_init => Some (Goto L_init)
  | https_ev_init_fail => Some Return1
  | _ => None
  end.
Definition on_req_ (e : https_ev_type) : option (loop_end label) :=
  match https_ev_ty e with
  | https_ev_stopped => Some (Goto L_stopped)
  | https_ev_req_fin => Some (Goto L_req_done)
  | https_ev_req_fail => Some (Goto L_req_fail)
  | _ => None
  end.
Definition on_stop_ (e : https_ev_type) : option (loop_end label) :=
  match https_ev_ty e with https_ev_stopped => Some (Goto L_stopped) | _ => None end.

(** The [for] loop over the events. *)
Fixpoint evs_switch_ (h : https_ev_type -> option (loop_end label)) (l : list https_ev_type) : option (loop_end label) :=
  match l with
  | [] => None
  | e :: l => match h e with Some r => Some r | None => evs_switch_ h l end
  end.

Section demo.
Context {W : Type} (E : curl_env W) (fuel : nat) (poll : nat -> CM (https_mod W * W) Z).
Abbreviation M := (CM (https_mod W * W)) (only parsing).

Fixpoint ev_loop_ (h : https_ev_type -> option (loop_end label)) (n : nat) : M (loop_end label) :=
  match n with
  | O => mret Waits
  | S n =>
      p ← https_pollfds;
      failed ← (if decide (0 < (p : fds_arg * nat).2) then r ← poll p.2; mret (r =? -1)%Z else mret false);
      if (failed : bool) then mret Return1
      else
        https_update E fuel p.1 p.2 ;;
        e ← https_events;
        match evs_switch_ h (take (e : list https_ev_type * nat).2 e.1) with
        | Some r => mret r
        | None => ev_loop_ h n
        end
  end.

(** From the label [stopped] on. *)
Definition demo_stopped_ : M demo_end :=
  r ← https_stop E; mret (if decide (r = https_stop_ok) then Exit 0 else Exit 1).

(** From the label [req_fail] on. *)
Definition demo_stop_ (n : nat) : M demo_end :=
  r ← https_stop_prep E;
  if negb (bool_decide (r = https_stop_prep_ok)) then mret (Exit 1)
  else
    e ← ev_loop_ on_stop_ n;
    match e with
    | Goto _ => demo_stopped_
    | Return1 => mret (Exit 1)
    | Waits => mret Running
    end.

(** The request. *)
Definition demo_call_ : M https_req_res :=
  https_req_json E https_method_get (lit "https://echo.free.beeceptor.com")
    (lit "{" ++ [ch_quote] ++ lit "a" ++ [ch_quote] ++ lit ": 42, " ++ [ch_quote] ++ lit "b" ++ [ch_quote] ++ lit ": " ++
     [ch_quote] ++ lit "hi" ++ [ch_quote] ++ lit "}").

(** From the label [init] on. *)
Definition demo_req_ (n : nat) : M demo_end :=
  r ← demo_call_;
  if negb (bool_decide (r = https_req_ok)) then mret (Exit 1)
  else
    e ← ev_loop_ on_req_ n;
    match e with
    | Goto L_stopped => demo_stopped_
    | Goto L_req_done => https_resp_status ;; demo_stop_ n
    | Goto _ => demo_stop_ n
    | Return1 => mret (Exit 1)
    | Waits => mret Running
    end.

Definition demo_main (cb : option (list char -> W -> W)) (n : nat) : M demo_end :=
  r ← https_init E cb;
  if negb (bool_decide (r = https_init_ok)) then mret (Exit 1)
  else
    https_set_verbosity E https_verbosity_debug ;;
    https_set_timeout E 2 ;;
    e ← ev_loop_ on_init_ n;
    match e with
    | Goto _ => demo_req_ n
    | Return1 => mret (Exit 1)
    | Waits => mret Running
    end.

(** *** For the theorem: how the program waits *)

(** A turn of a loop but for the events: poll what there is to poll, update. *)
Definition turn_ : M unit :=
  p ← https_pollfds;
  (if decide (0 < (p : fds_arg * nat).2) then poll p.2 ;; mret tt else mret tt) ;;
  https_update E fuel p.1 p.2.

Fixpoint turns_ (k : nat) : M unit :=
  match k with
  | O => mret tt
  | S k => turn_ ;; turns_ k
  end.

(** The program up to its request, when all goes well. *)
Definition until_request_ (cb : option (list char -> W -> W)) : M https_req_res :=
  https_init E cb ;;
  https_set_verbosity E https_verbosity_debug ;;
  https_set_timeout E 2 ;;
  turn_ ;;
  demo_call_.
End demo.

(** ** Proof *)
Section props.
Context {W : Type} (E : curl_env W) (tfd : Z) `{!CurlLaws E tfd} (fuel : nat) (poll : nat -> CM (https_mod W * W) Z).
Implicit Types (m : https_mod W) (w : W) (s : https_mod W * W).

(** [poll] does not fail, keeps the invariant and the state of the module. *)
Definition poll_ok : Prop := forall k m w, hinv E tfd (m, w) ->
  wp (poll k) (fun r s => r <> (-1)%Z /\ hinv E tfd s /\ st s.1 = st m /\ is_stop_waiting s.1 = is_stop_waiting m /\
    stop_strat s.1 = stop_strat m) (m, w).

Context (Hpoll : poll_ok) (Hfuel : 2 <= fuel).

(** The state between two turns: no stop waits. *)
Definition demo_at (x : st_) s : Prop :=
  hinv E tfd s /\ st s.1 = x /\ is_stop_waiting s.1 = false /\ stop_strat s.1 = https_stop_strat_wait.

(** What a turn does to a state the program can be in, and what it reports. *)
Definition turned (x : st_) s' : Prop :=
  match x with
  | st_just_init_ => demo_at st_idle_ s' /\ reported s'.1 = [https_ev_init]
  | st_pend_ =>
      (demo_at st_pend_ s' /\ reported s'.1 = []) \/
      (demo_at st_idle_ s' /\ reported s'.1 = [https_ev_req_fin]) \/
      (demo_at st_err_ s' /\ exists l, reported s'.1 = https_ev_req_fail :: l)
  | st_stopped_ => demo_at st_stopped_ s' /\ reported s'.1 = [https_ev_stopped]
  | _ => demo_at x s' /\ reported s'.1 = []
  end.

(** The update of a state that differs at most in what [poll] wrote. *)
Lemma update_turned x k s : demo_at x s -> k <= fds_maxlen_ ->
  exists s', https_update E fuel Fds_own k s = Ret (tt, s') /\ turned x s'.
Proof.
  destruct s as [m w]. intros (Hinv & Hst & Hw & Hs) Hk. cbn [fst] in *.
  destruct (wp_Ret _ _ _ (update_wp E tfd fuel Fds_own k m w Hinv Hfuel Hk)) as ([] & s' & Hr & Hinv' & Hsp). exists s'. split; [done|].
  unfold update_spec in Hsp. rewrite Hst in Hsp. unfold turned, demo_at.
  destruct x; try (destruct Hsp as (H1 & H2 & H3 & H4); by rewrite H3, H4, H1, H2, ?Hst).
  destruct Hsp as [H1 H2 [H3 H4] _|H1 H2 _ [H3 H4] _|_ _ H3 _ _ _|H1 H2 [H3 H4] _].
  - left. by rewrite H3, H4.
  - right; left. by rewrite H3, H4.
  - congruence.
  - right; right. rewrite H3, H4. split; [done|]. destruct H2 as [->| ->]; by eexists.
Qed.

(** A turn, and what a loop makes of it. *)
Lemma turn_run x s : demo_at x s ->
  exists s', turn_ E fuel poll s = Ret (tt, s') /\ turned x s' /\
    forall h n, ev_loop_ E fuel poll h (S n) s =
      (match evs_switch_ h (reported s'.1) with Some r => mret r | None => ev_loop_ E fuel poll h n end) s'.
Proof.
  destruct s as [m w]. intros Hat. pose proof Hat as (Hinv & Hst & Hw & Hs). cbn [fst] in *.
  assert (fds_len m <= fds_maxlen_) as Hlen by apply Hinv.
  set (k := if decide (st m = st_pend_) then fds_len m else 0).
  assert (https_pollfds (m, w) = Ret ((Fds_own, k), (m, w))) as Hp by (unfold https_pollfds, k; rewrite get_mod_bind; by destruct (decide _)).
  assert (exists s1, demo_at x s1 /\
    (if decide (0 < k) then poll k ;; mret tt else mret tt) (m, w) = Ret (tt, s1) /\
    (if decide (0 < k) then r ← poll k; mret (r =? -1)%Z else mret false) (m, w) = Ret (false, s1)) as (s1 & Hat1 & Hp1 & Hp2).
  { destruct (decide (0 < k)); [|by exists (m, w)]. destruct (wp_Ret _ _ _ (Hpoll k m w Hinv)) as (r & s1 & Hr & Hne & H1 & H2 & H3 & H4).
    exists s1. apply Z.eqb_neq in Hne. unfold demo_at. rewrite H2, H3, H4, (bind_Ret _ _ _ _ _ Hr), (bind_Ret _ _ _ _ _ Hr), Hne. done. }
  assert (k <= fds_maxlen_) as Hk by (unfold k; destruct (decide _); lia).
  destruct (update_turned x k s1 Hat1 Hk) as ([m2 w2] & Hu & Ht). exists (m2, w2). split; [|split; [done|]].
  - unfold turn_. rewrite (bind_Ret _ _ _ _ _ Hp). cbn [fst snd]. by rewrite (bind_Ret _ _ _ _ _ Hp1).
  - intros h n. cbn [ev_loop_]. rewrite (bind_Ret _ _ _ _ _ Hp). cbn [fst snd]. rewrite (bind_Ret _ _ _ _ _ Hp2).
    rewrite (bind_Ret _ _ _ _ _ Hu). reflexivity.
Qed.

(** A request that is over stays over. *)
Definition over s : Prop := exists x, (x = st_idle_ \/ x = st_err_ \/ x = st_stopped_) /\ demo_at x s.

Lemma turns_over k s : over s -> exists s', turns_ E fuel poll k s = Ret (tt, s') /\ over s'.
Proof.
  revert s. induction k as [|k IH]; intros s (x & Hx & Hat); cbn [turns_]; [by exists s; split; [|exists x]|].
  destruct (turn_run x s Hat) as (s1 & Hr & Ht & _). rewrite (bind_Ret _ _ _ _ _ Hr). apply IH. exists x. split; [done|].
  by destruct Hx as [->|[->| ->]]; destruct Ht.
Qed.

Lemma turns_app k j s : turns_ E fuel poll (k + j) s = (turns_ E fuel poll k ;; turns_ E fuel poll j) s.
Proof.
  revert s. induction k as [|k IH]; intros s; [done|]. cbn [Nat.add turns_]. unfold mbind, cm_bind.
  destruct (turn_ E fuel poll s) as [[[] s1]| |]; [|done..]. apply IH.
Qed.

(** A pending request is pending or over after any number of turns. *)
Lemma turns_pending k s : demo_at st_pend_ s ->
  exists s', turns_ E fuel poll k s = Ret (tt, s') /\ (demo_at st_pend_ s' \/ over s').
Proof.
  revert s. induction k as [|k IH]; intros s Hat; [by exists s; split; [|left]|]. cbn [turns_].
  destruct (turn_run st_pend_ s Hat) as (s1 & Hr & Ht & _). rewrite (bind_Ret _ _ _ _ _ Hr).
  destruct Ht as [[H1 _]|Ht]; [by apply IH|].
  destruct (turns_over k s1) as (s2 & H2 & H3); [|by exists s2; split; [|right]].
  destruct Ht as [[H1 _]|[H1 _]]; eexists; (split; [|exact H1]); auto.
Qed.

(** Once over, always over. *)
Lemma turns_ended k n s s2 s' : demo_at st_pend_ s -> k <= n -> turns_ E fuel poll k s = Ret (tt, s2) -> st s2.1 <> st_pend_ ->
  turns_ E fuel poll n s = Ret (tt, s') -> st s'.1 <> st_pend_.
Proof.
  intros Hat Hk Hr2 Hst Hr. destruct (turns_pending k s Hat) as (s3 & Hr3 & H3). rewrite Hr2 in Hr3. injection Hr3 as <-.
  destruct H3 as [(_ & H3 & _)|H3]; [done|]. destruct (turns_over (n - k) s2 H3) as (s4 & Hr4 & x & Hx & _ & H4 & _).
  replace n with (k + (n - k)) in Hr by lia. rewrite turns_app, (bind_Ret _ _ _ _ _ Hr2), Hr4 in Hr. injection Hr as <-.
  rewrite H4. by destruct Hx as [->|[->| ->]].
Qed.

(** The loop for the request: it is over and this was reported, or it is still
    pending after as many turns. *)
Lemma req_loop_run k s : demo_at st_pend_ s ->
  exists e s', ev_loop_ E fuel poll on_req_ k s = Ret (e, s') /\
    match e with
    | Waits => demo_at st_pend_ s' /\ turns_ E fuel poll k s = Ret (tt, s')
    | Goto L_req_done => demo_at st_idle_ s'
    | Goto L_req_fail => demo_at st_err_ s'
    | _ => False
    end.
Proof.
  revert s. induction k as [|k IH]; intros s Hat; [by exists Waits, s|].
  destruct (turn_run st_pend_ s Hat) as (s1 & Hr & Ht & Hl). rewrite Hl. cbn [turns_]. rewrite (bind_Ret _ _ _ _ _ Hr).
  destruct Ht as [[H1 ->]|[[H1 ->]|[H1 [l ->]]]]; cbn.
  - by apply IH.
  - by eexists _, s1.
  - by eexists _, s1.
Qed.

(** The program is done: status 0, and everything was released. *)
Definition finished (r : outcome (demo_end * (https_mod W * W))) : Prop :=
  exists s, r = Ret (Exit 0, s) /\ st s.1 = st_uninit_ /\ freed s.1.

Lemma stopped_run s : demo_at st_stopped_ s -> finished (demo_stopped_ E s).
Proof.
  destruct s as [m w]. intros (Hinv & Hst & _). destruct (wp_Ret _ _ _ (stop_wp E tfd m w Hinv)) as (r & s & Hr & _ & H1 & H2 & H3).
  cbn [fst] in Hst. rewrite decide_True in H1 by done. rewrite decide_True in H2 by done. subst r. exists s. unfold demo_stopped_. rewrite (bind_Ret _ _ _ _ _ Hr).
  split; [done|]. split; [done|]. by apply H3.
Qed.

Lemma stop_run n s x : x = st_idle_ \/ x = st_err_ -> demo_at x s -> finished (demo_stop_ E fuel poll (S n) s).
Proof.
  destruct s as [m w]. intros Hx (Hinv & Hst & Hw & Hs). cbn [fst] in *.
  assert (st m <> st_uninit_ /\ st m <> st_pend_) as [Hu Hp] by (rewrite Hst; by destruct Hx as [->| ->]).
  assert (https_stop_prep E (m, w) = Ret (https_stop_prep_ok, (with_st st_stopped_ m, w))) as Hprep.
  { unfold https_stop_prep. rewrite get_mod_bind, Hs, Hw. cbn [negb]. by rewrite decide_False. }
  pose proof (stop_prep_wp E tfd m w Hinv Hu) as Hi. apply wp_Ret in Hi as (r & s & Hr & Hinv' & _). rewrite Hprep in Hr. injection Hr as <- <-.
  unfold demo_stop_. rewrite (bind_Ret _ _ _ _ _ Hprep). rewrite bool_decide_eq_true_2 by done. cbn [negb].
  destruct (turn_run st_stopped_ (with_st st_stopped_ m, w)) as (s1 & _ & [H1 H2] & Hl); [done|].
  assert (ev_loop_ E fuel poll on_stop_ (S n) (with_st st_stopped_ m, w) = Ret (Goto L_stopped, s1)) as He by (by rewrite Hl, H2).
  rewrite (bind_Ret _ _ _ _ _ He). by apply stopped_run.
Qed.

(** From the request on. *)
Lemma req_run n s : demo_at st_pend_ s ->
  finished ((e ← ev_loop_ E fuel poll on_req_ (S n); match e with
    | Goto L_stopped => demo_stopped_ E
    | Goto L_req_done => https_resp_status ;; demo_stop_ E fuel poll (S n)
    | Goto _ => demo_stop_ E fuel poll (S n)
    | Return1 => mret (Exit 1)
    | Waits => mret Running
    end) s) \/
  exists s', (e ← ev_loop_ E fuel poll on_req_ (S n); match e with
    | Goto L_stopped => demo_stopped_ E
    | Goto L_req_done => https_resp_status ;; demo_stop_ E fuel poll (S n)
    | Goto _ => demo_stop_ E fuel poll (S n)
    | Return1 => mret (Exit 1)
    | Waits => mret Running
    end) s = Ret (Running, s') /\ demo_at st_pend_ s' /\ turns_ E fuel poll (S n) s = Ret (tt, s').
Proof.
  intros Hat. destruct (req_loop_run (S n) s Hat) as (e & s' & Hr & He). rewrite (bind_Ret _ _ _ _ _ Hr).
  destruct e as [[]| |]; try done.
  - left. destruct s' as [m w]. change (finished (demo_stop_ E fuel poll (S n) (m, w))). eapply stop_run; [|exact He]. auto.
  - left. eapply stop_run; [|exact He]. auto.
  - right. by exists s'.
Qed.
End props.

(** ** Claim *)

(** C25. The demo program with libcurl's handles, the header list and the timer
    to be had, a [poll] that does not fail, and any libcurl that obeys its
    contract: after [n] turns of its loops it has ended with status 0 and
    everything released, or it is still waiting, and then its state is the one
    that [n] turns - each a [poll] of the table and an update - from the request
    on lead to, with the request pending.  So once the request is over, with
    success or failure, the program ends.  In no case does it panic or run into
    undefined behaviour. *)
Theorem https_demo_ends {W} (E : curl_env W) tfd `{!CurlLaws E tfd} fuel poll cb n m w :
  poll_ok E tfd poll -> 2 <= fuel ->
  (forall w, (curl_easy_init E w).1 = true) -> (forall w, (curl_multi_init E w).1 = true) ->
  (forall b t w, (curl_slist_append E b t w).1 = true) -> (forall w, (timerfd_create E w).1 = tfd) ->
  tfd <> (-1)%Z -> length (evs m) = evs_maxlen_ -> length (fds m) = fds_maxlen_ ->
  (forall f, cb = Some f -> forall d w, active (f d w) <= active w) ->
  exists s1, until_request_ E fuel poll cb (m, w) = Ret (https_req_ok, s1) /\ st s1.1 = st_pend_ /\
  exists e s, demo_main E fuel poll cb (S n) (m, w) = Ret (e, s) /\
    match e with
    | Exit z => z = 0%Z /\ st s.1 = st_uninit_ /\ freed s.1
    | Running => st s.1 = st_pend_ /\ turns_ E fuel poll (S n) s1 = Ret (tt, s)
    end /\
    forall k s2, k <= S n -> turns_ E fuel poll k s1 = Ret (tt, s2) -> st s2.1 <> st_pend_ -> e = Exit 0.
Proof.
  intros Hpoll Hfuel H1 H2 H3 H4 H5 H6 H7 H8.
  destruct (wp_Ret _ _ _ (https_init_run E tfd cb m w (H1 _) (H2 _) (H3 _ _ _) H4 H5 H6 H7 H8)) as (r & [m1 w1] & Hr & -> & Hinv & Hst & _ & Hw & Hs & _).
  cbn [fst] in *.
  assert (forall o w1, hinv E tfd (m1, w1) -> exists w2, easy_setopt_ E o (m1, w1) = Ret (tt, (m1, w2)) /\ hinv E tfd (m1, w2)) as Hopt.
  { intros o w2 Hi. exists (curl_easy_setopt E o w2). assert (curl m1 = H_live) as Hl by (apply Hi; cbn; congruence).
    rewrite easy_setopt_run by done. split; [done|]. destruct (wp_Ret _ _ _ (setopt_wp E tfd o m1 w2 Hi ltac:(congruence))) as ([] & s & Hrun & Hi').
    rewrite easy_setopt_run in Hrun by done. by injection Hrun as <-. }
  destruct (Hopt (CURLOPT_VERBOSE 1) w1 Hinv) as (w2 & Ho1 & Hi2), (Hopt (CURLOPT_TIMEOUT 2) w2 Hi2) as (w3 & Ho2 & Hi3).
  destruct (turn_run E tfd fuel poll Hpoll Hfuel st_just_init_ (m1, w3)) as ([m4 w4] & Ht & [Hat Hrep] & Hl); [done|].
  pose proof Hat as (Hi4 & Hst4 & Hw4 & Hs4). cbn [fst] in *.
  assert (exists s1, demo_call_ E (m4, w4) = Ret (https_req_ok, s1) /\ demo_at E tfd st_pend_ s1) as (s1 & Hcall & Hat1).
  { unfold demo_call_. match goal with |- context [https_req_json E ?x ?u ?d] => destruct (wp_Ret _ _ _ (req_json_wp E tfd x u d m4 w4 Hi4)) as (r & s1 & Hrun & [G1 [G2 G3]] & G4 & G5) end.
    unfold req_code in G4. rewrite decide_True, Hw4 in G4 by done. subst r. exists s1. split; [done|]. unfold demo_at. by rewrite G2, G3, G5. }
  exists s1. split; [|split; [apply Hat1|]].
  { unfold until_request_. rewrite (bind_Ret _ _ _ _ _ Hr). cbn [https_set_verbosity]. unfold https_set_timeout.
    by rewrite (bind_Ret _ _ _ _ _ Ho1), (bind_Ret _ _ _ _ _ Ho2), (bind_Ret _ _ _ _ _ Ht). }
  unfold demo_main. rewrite (bind_Ret _ _ _ _ _ Hr), bool_decide_eq_true_2 by done. cbn [negb https_set_verbosity]. unfold https_set_timeout.
  rewrite (bind_Ret _ _ _ _ _ Ho1), (bind_Ret _ _ _ _ _ Ho2).
  assert (ev_loop_ E fuel poll on_init_ (S n) (m1, w3) = Ret (Goto L_init, (m4, w4))) as He by (cbn [fst] in Hrep; by rewrite Hl, Hrep).
  rewrite (bind_Ret _ _ _ _ _ He). unfold demo_req_. rewrite (bind_Ret _ _ _ _ _ Hcall), bool_decide_eq_true_2 by done. cbn [negb].
  destruct (req_run E tfd fuel poll Hpoll Hfuel n s1 Hat1) as [(s & -> & Hf)|(s & -> & (_ & Hp & _) & Hturns)].
  - exists (Exit 0), s. split; [done|]. split; [done|]. done.
  - exists Running, s. split; [done|]. split; [done|]. intros k s2 Hk Hr2 Hne. exfalso.
    by apply (turns_ended E tfd fuel poll Hpoll Hfuel k (S n) s1 s2 s Hat1 Hk Hr2 Hne Hturns).
Qed.

(** [poll] with every descriptor of the table readable. *)
Definition ready_poll (_ : nat) : CM (https_mod sim * sim) Z :=
  upd_mod (fun m => with_fds ((fun p => {| fd := fd p; events := events p; revents := POLLIN |}) <$> fds m) m) ;; mret 1%Z.

Lemma ready_poll_ok tfd : poll_ok (sim_env tfd) tfd ready_poll.
Proof.
  intros k m w [[[T1 T2 T3] H2 H3 H4 H5] H6 H7 H8]. unfold ready_poll, upd_mod. wp_step. cbn [fst snd].
  split; [done|]. split; [|done]. split; [|done|done|done]. split; [|done..]. split; cbn; [by rewrite length_fmap|done|].
  unfold table in *. cbn. rewrite <- fmap_take, <- list_fmap_compose. exact T3.
Qed.

(** The request succeeds after two turns: the program ends with status 0. *)
Lemma https_demo_ends_witness :
  exists s, demo_main (sim_env 5) 2 ready_poll (Some sim_cb_data) 5 (https_mem, sim_one CURLE_OK) = Ret (Exit 0, s) /\
    st s.1 = st_uninit_ /\ freed s.1.
Proof.
  destruct (https_demo_ends (sim_env 5) 5 2 ready_poll (Some sim_cb_data) 4 https_mem (sim_one CURLE_OK)) as
    (s1 & Hs1 & _ & e & s & Hr & He & Hend);
    [apply ready_poll_ok|lia|done|done|done|done|lia|done|done|by intros f [= <-]|].
  assert (exists s2, turns_ (sim_env 5) 2 ready_poll 2 s1 = Ret (tt, s2) /\ st s2.1 <> st_pend_) as (s2 & H2 & H3).
  { vm_compute in Hs1. injection Hs1 as <-. eexists. split; [vm_compute; reflexivity|]. discriminate. }
  rewrite (Hend 2 s2 ltac:(lia) H2 H3) in Hr, He. exists s. split; [exact Hr|]. destruct He as [_ He]. exact He.
Defined.

(** What it leaves: the answer's status and data. *)
Example demo_run :
  (fun '(e, (m, w)) => (e, resp_status m, sim_data w)) <$>
    ret_of (demo_main (sim_env 5) 2 ready_poll (Some sim_cb_data) 5 (https_mem, sim_one CURLE_OK)) =
  Some (Exit 0, 200%Z, lit "ok").
Proof. vm_compute. reflexivity. Qed.
