(* ===== verification/AfsChild.v ===== *)
(** * Worker process of the asynchronous file system ([src/src/afs.c], lines 1246-1541)

    Every open file of [afs] belongs to a worker process, which executes one
    command at a time.  The command and its result are in memory shared with the
    parent ([proc_shared_], followed by the buffer [rw_buf]); a byte over a
    socket tells the other side to look.

    The kernel is a record [os_env] of functions on an abstract world [W].  The
    worker's [read] on the socket blocks until the parent writes, and the parent
    may have changed the shared memory by then: [os_wait] gives back the shared
    memory along with its result. *)

From stdpp Require Import base list numbers strings option.
From S2P Require Import Prelude.

(** ** Data *)

(** [struct sob_fail]; its [file] is always that of [afs.c]. *)
Record sob_fail := { fail_line : Z; the_errno : Z; fail_msg : list char }.

Inductive proc_cmd_ :=
| proc_cmd_none_ | proc_cmd_exit_ | proc_cmd_open_ | proc_cmd_close_ | proc_cmd_fsync_
| proc_cmd_write_ | proc_cmd_readall_ | proc_cmd_mkdir_ | proc_cmd_write_fsync_close_.
#[export] Instance proc_cmd_eq_dec : EqDecision proc_cmd_.
Proof. solve_decision. Defined.

Inductive proc_res_ := proc_res_none_ | proc_res_ok_ | proc_res_fail_.
#[export] Instance proc_res_eq_dec : EqDecision proc_res_.
Proof. solve_decision. Defined.

Inductive proc_child_st_ := proc_child_st_not_started_ | proc_child_st_idle_ | proc_child_st_busy_.
#[export] Instance proc_child_st_eq_dec : EqDecision proc_child_st_.
Proof. solve_decision. Defined.

Record proc_shared_ := {
  cmd : proc_cmd_;
  write_len : nat;
  open_flags : Z;
  res : proc_res_;
  child_st : proc_child_st_;
  written : nat;
  read_len : nat;
  sh_fail : sob_fail
}.

Definition with_cmd v (c : proc_shared_) : proc_shared_ :=
  {| cmd := v; write_len := write_len c; open_flags := open_flags c; res := res c;
     child_st := child_st c; written := written c; read_len := read_len c;
     sh_fail := sh_fail c |}.
Definition with_write_len v (c : proc_shared_) : proc_shared_ :=
  {| cmd := cmd c; write_len := v; open_flags := open_flags c; res := res c;
     child_st := child_st c; written := written c; read_len := read_len c;
     sh_fail := sh_fail c |}.
Definition with_open_flags v (c : proc_shared_) : proc_shared_ :=
  {| cmd := cmd c; write_len := write_len c; open_flags := v; res := res c;
     child_st := child_st c; written := written c; read_len := read_len c;
     sh_fail := sh_fail c |}.
Definition with_res v (c : proc_shared_) : proc_shared_ :=
  {| cmd := cmd c; write_len := write_len c; open_flags := open_flags c; res := v;
     child_st := child_st c; written := written c; read_len := read_len c;
     sh_fail := sh_fail c |}.
Definition with_child_st v (c : proc_shared_) : proc_shared_ :=
  {| cmd := cmd c; write_len := write_len c; open_flags := open_flags c; res := res c;
     child_st := v; written := written c; read_len := read_len c; sh_fail := sh_fail c |}.
Definition with_written v (c : proc_shared_) : proc_shared_ :=
  {| cmd := cmd c; write_len := write_len c; open_flags := open_flags c; res := res c;
     child_st := child_st c; written := v; read_len := read_len c;
     sh_fail := sh_fail c |}.
Definition with_read_len v (c : proc_shared_) : proc_shared_ :=
  {| cmd := cmd c; write_len := write_len c; open_flags := open_flags c; res := res c;
     child_st := child_st c; written := written c; read_len := v; sh_fail := sh_fail c |}.
Definition with_sh_fail v (c : proc_shared_) : proc_shared_ :=
  {| cmd := cmd c; write_len := write_len c; open_flags := open_flags c; res := res c;
     child_st := child_st c; written := written c; read_len := read_len c;
     sh_fail := v |}.

(** Constants of the kernel interface (Linux). *)
Definition EINTR : Z := 4.
Definition EEXIST : Z := 17.
Definition O_RDONLY : Z := 0.
Definition O_DIRECTORY : Z := 65536.
Definition S_IFMT : Z := 61440.
Definition S_IFDIR : Z := 16384.

(** The system calls of the worker.  [errno] is a function of the world; the
    result of [close] is ignored by the source. *)
Record os_env (W : Type) := {
  os_errno : W -> Z;
  os_open : list char -> Z -> W -> Z * W;
  os_close : Z -> W -> W;
  os_fsync : Z -> W -> Z * W;
  os_write : Z -> list char -> W -> Z * W;
  os_read : Z -> nat -> W -> Z * list char * W;
  os_mkdir : list char -> W -> Z * W;
  os_stat_mode : list char -> W -> option Z * W;
  os_realpath : list char -> W -> option (list char) * W;
  os_wait : Z -> proc_shared_ * list char -> W -> Z * (proc_shared_ * list char) * W;
  os_notify : Z -> W -> Z * W
}.
Arguments os_errno {W} _.
Arguments os_open {W} _.
Arguments os_close {W} _.
Arguments os_fsync {W} _.
Arguments os_write {W} _.
Arguments os_read {W} _.
Arguments os_mkdir {W} _.
Arguments os_stat_mode {W} _.
Arguments os_realpath {W} _.
Arguments os_wait {W} _.
Arguments os_notify {W} _.

(** The worker's memory: the shared record, the shared buffer, its local file
    descriptor, and the world. *)
Record child (W : Type) := { c_sh : proc_shared_; c_rw : list char; c_fd : Z; c_w : W }.
Arguments c_sh {W} _.
Arguments c_rw {W} _.
Arguments c_fd {W} _.
Arguments c_w {W} _.

Section child.
Context {W : Type} (E : os_env W).
Abbreviation M := (CM (child W)) (only parsing).

Definition upd_sh (f : proc_shared_ -> proc_shared_) : M unit :=
  modc (fun c => {| c_sh := f (c_sh c); c_rw := c_rw c; c_fd := c_fd c; c_w := c_w c |}).
Definition set_rw (b : list char) : M unit :=
  modc (fun c => {| c_sh := c_sh c; c_rw := b; c_fd := c_fd c; c_w := c_w c |}).
Definition set_fd (x : Z) : M unit :=
  modc (fun c => {| c_sh := c_sh c; c_rw := c_rw c; c_fd := x; c_w := c_w c |}).
Definition set_w (w : W) : M unit :=
  modc (fun c => {| c_sh := c_sh c; c_rw := c_rw c; c_fd := c_fd c; c_w := w |}).

(** A system call. *)
Definition csys {A} (f : W -> A * W) : M A := w ← reads c_w; set_w (f w).2 ;; mret (f w).1.
Definition csys_ (f : W -> W) : M unit := w ← reads c_w; set_w (f w).
Definition c_errno : M Z := reads (fun c => os_errno E (c_w c)).

(** [SOB_AFS_PROC_C_FAIL_] at a line of the source. *)
Definition c_fail (line : Z) (msg : list char) : M unit :=
  e ← c_errno; upd_sh (with_sh_fail {| fail_line := line; the_errno := e; fail_msg := msg |}).

(** The C string at an offset of the buffer. *)
Definition rw_str (off : nat) : M (list char) :=
  b ← reads c_rw; match cstr (drop off b) with Some s => mret s | None => undef end.

(** [len] bytes at an offset of the buffer. *)
Definition rw_bytes (off len : nat) : M (list char) :=
  b ← reads c_rw; if decide (off + len <= length b) then mret (take len (drop off b)) else undef.

(** ** Commands *)
Definition proc_child_open_ : M proc_res_ :=
  x ← reads c_fd;
  if negb (x =? -1)%Z then c_fail 1341 (lit "already open (no errno)") ;; mret proc_res_fail_
  else
    path ← rw_str 0;
    s ← reads c_sh;
    x ← csys (os_open E path (open_flags s));
    set_fd x ;;
    if (x =? -1)%Z then c_fail 1346 (lit "open") ;; mret proc_res_fail_
    else mret proc_res_ok_.

Definition proc_child_close_ : M proc_res_ :=
  x ← reads c_fd;
  if (x =? -1)%Z then c_fail 1357 (lit "not open (no errno)") ;; mret proc_res_fail_
  else csys_ (os_close E x) ;; set_fd (-1)%Z ;; mret proc_res_ok_.

Definition proc_child_fsync_ : M proc_res_ :=
  x ← reads c_fd;
  if (x =? -1)%Z then c_fail 1369 (lit "not open (no errno)") ;; mret proc_res_fail_
  else
    r ← csys (os_fsync E x);
    if (r =? -1)%Z then c_fail 1373 (lit "fsync") ;; mret proc_res_fail_
    else mret proc_res_ok_.

(** The writing loop of [proc_child_write_] and [proc_child_write_fsync_close_]:
    [len] bytes from offset [off] on are left; true when all of them were
    written, false when [write] failed.  A count outside [0..len] moves the
    pointer out of the buffer.  [fuel] bounds the number of calls; running out
    of it counts as undefined. *)
Fixpoint write_loop_ (fuel : nat) (x : Z) (off len : nat) : M bool :=
  match fuel with
  | O => undef
  | S fuel =>
      data ← rw_bytes off len;
      n ← csys (os_write E x data);
      if (n =? Z.of_nat len)%Z then
        upd_sh (fun s => with_written (written s + len) s) ;; mret true
      else if negb (n =? -1)%Z then
        if ((0 <=? n) && (n <=? Z.of_nat len))%Z then
          upd_sh (fun s => with_written (written s + Z.to_nat n) s) ;;
          write_loop_ fuel x (off + Z.to_nat n) (len - Z.to_nat n)
        else undef
      else
        e ← c_errno;
        if (e =? EINTR)%Z then write_loop_ fuel x off len else mret false
  end.

Definition proc_child_write_ (fuel : nat) : M proc_res_ :=
  x ← reads c_fd;
  if (x =? -1)%Z then c_fail 1385 (lit "not open (no errno)") ;; mret proc_res_fail_
  else
    s ← reads c_sh;
    upd_sh (with_written 0) ;;
    ok ← write_loop_ fuel x 0 (write_len s);
    if (ok : bool) then mret proc_res_ok_
    else c_fail 1405 (lit "write") ;; mret proc_res_fail_.

(** [read] fills the front of the buffer. *)
Definition proc_child_readall_ : M proc_res_ :=
  x ← reads c_fd;
  if (x =? -1)%Z then c_fail 1418 (lit "not open (no errno)") ;; mret proc_res_fail_
  else
    upd_sh (with_read_len 0) ;;
    b ← reads c_rw;
    r ← csys (os_read E x (length b));
    set_rw (splice b 0 (take (length b) r.2)) ;;
    if (r.1 <? 0)%Z then c_fail 1424 (lit "read") ;; mret proc_res_fail_
    else upd_sh (with_read_len (Z.to_nat r.1)) ;; mret proc_res_ok_.

(** Open a directory, [fsync] it, close it. *)
Definition fsync_dir_ (path : list char) (open_line fsync_line : Z) : M bool :=
  d ← csys (os_open E path (Z.lor O_RDONLY O_DIRECTORY));
  if (d =? -1)%Z then c_fail open_line (lit "open dir") ;; mret false
  else
    r ← csys (os_fsync E d);
    if negb (r =? 0)%Z then
      csys_ (os_close E d) ;; c_fail fsync_line (lit "fsync dir") ;; mret false
    else csys_ (os_close E d) ;; mret true.

Definition proc_child_mkdir_ : M proc_res_ :=
  path ← rw_str 0;
  r ← csys (os_mkdir E path);
  e ← c_errno;
  if negb (r =? 0)%Z then
    if (e =? EEXIST)%Z then
      m ← csys (os_stat_mode E path);
      match m with
      | None => c_fail 1444 (lit "stat after EEXIST") ;; mret proc_res_fail_
      | Some mode =>
          if negb (Z.land mode S_IFMT =? S_IFDIR)%Z then
            c_fail 1448 (lit "file with same name as dir (no errno)") ;; mret proc_res_fail_
          else mret proc_res_ok_
      end
    else c_fail 1454 (lit "mkdir") ;; mret proc_res_fail_
  else
    ok ← fsync_dir_ path 1466 1471;
    if negb (ok : bool) then mret proc_res_fail_ else
    parent ← csys (os_realpath E path);
    match parent with
    | None => c_fail 1478 (lit "realpath") ;; mret proc_res_fail_
    | Some parent =>
        ok ← fsync_dir_ parent 1484 1489;
        if (ok : bool) then mret proc_res_ok_ else mret proc_res_fail_
    end.

Definition proc_child_write_fsync_close_ (fuel : nat) : M proc_res_ :=
  s ← reads c_sh;
  upd_sh (with_written 0) ;;
  path ← rw_str (write_len s);
  x ← csys (os_open E path (open_flags s));
  if (x =? -1)%Z then c_fail 1506 (lit "open") ;; mret proc_res_fail_
  else
    ok ← write_loop_ fuel x 0 (write_len s);
    if negb (ok : bool) then
      c_fail 1525 (lit "write") ;; csys_ (os_close E x) ;; mret proc_res_fail_
    else
      r ← csys (os_fsync E x);
      if (r =? -1)%Z then
        csys_ (os_close E x) ;; c_fail 1534 (lit "fsync") ;; mret proc_res_fail_
      else csys_ (os_close E x) ;; mret proc_res_ok_.

(** ** The worker *)

(** The command in the shared memory is executed, lines 1273-1309; true when it
    is the command to exit. *)
Definition child_exec_ (fuel : nat) : M bool :=
  upd_sh (with_child_st proc_child_st_busy_) ;;
  upd_sh (with_res proc_res_none_) ;;
  s ← reads c_sh;
  r ← match cmd s with
      | proc_cmd_none_ => mret proc_res_ok_
      | proc_cmd_exit_ => mret proc_res_ok_
      | proc_cmd_open_ => proc_child_open_
      | proc_cmd_close_ => proc_child_close_
      | proc_cmd_fsync_ => proc_child_fsync_
      | proc_cmd_write_ => proc_child_write_ fuel
      | proc_cmd_readall_ => proc_child_readall_
      | proc_cmd_mkdir_ => proc_child_mkdir_
      | proc_cmd_write_fsync_close_ => proc_child_write_fsync_close_ fuel
      end;
  upd_sh (with_res r) ;;
  upd_sh (with_child_st proc_child_st_idle_) ;;
  mret (bool_decide (cmd s = proc_cmd_exit_)).

(** [while (1) write(parent_fd, ...)]: true when the byte was written. *)
Fixpoint notify_loop_ (fuel : nat) (parent_fd : Z) : M bool :=
  match fuel with
  | O => undef
  | S fuel =>
      n ← csys (os_notify E parent_fd);
      if negb (n =? 1)%Z then
        e ← c_errno;
        if (e =? EINTR)%Z then notify_loop_ fuel parent_fd else mret false
      else mret true
  end.

(** Wait for the parent's byte: its result, and the shared memory it left. *)
Definition wait_parent_ (parent_fd : Z) : M Z :=
  s ← reads c_sh;
  b ← reads c_rw;
  r ← csys (os_wait E parent_fd (s, b));
  upd_sh (fun _ => r.2.1) ;;
  set_rw r.2.2 ;;
  mret r.1.

(** The loop of the worker; its result is the exit status. *)
Fixpoint worker_loop_ (fuel : nat) (parent_fd : Z) : M Z :=
  match fuel with
  | O => undef
  | S fuel =>
      n ← wait_parent_ parent_fd;
      if negb (n =? 1)%Z then
        e ← c_errno;
        if (e =? EINTR)%Z then worker_loop_ fuel parent_fd else mret 1%Z
      else
        should_exit ← child_exec_ fuel;
        ok ← notify_loop_ fuel parent_fd;
        if negb (ok : bool) then
          c_fail 1318 (lit "write") ;;
          upd_sh (with_child_st proc_child_st_not_started_) ;;
          mret 127%Z
        else if (should_exit : bool) then
          upd_sh (with_child_st proc_child_st_not_started_) ;; mret 0%Z
        else worker_loop_ fuel parent_fd
  end.

Definition proc_child_worker_ (fuel : nat) (parent_fd : Z) : M Z :=
  set_fd (-1)%Z ;;
  s ← reads c_sh;
  if negb (bool_decide (child_st s = proc_child_st_not_started_)) then mret 126%Z
  else
    upd_sh (with_child_st proc_child_st_idle_) ;;
    worker_loop_ fuel parent_fd.
End child.
