(* ===== verification/AfsChildProps.v ===== *)
(** * Properties of the worker process

    What the worker does to the file system, seen as the sequence of its system
    calls: an environment is wrapped so that it records them. *)

From stdpp Require Import base list numbers strings option.
From S2P Require Import Prelude AfsChild.

(** ** Recording system calls *)
Inductive sysev :=
| Sys_open (path : list char) (flags : Z) (r : Z)
| Sys_close (x : Z)
| Sys_fsync (x : Z) (r : Z)
| Sys_write (x : Z) (data : list char) (n : Z)
| Sys_read (x : Z) (n : Z)
| Sys_mkdir (path : list char) (r : Z)
| Sys_stat (path : list char)
| Sys_realpath (path : list char) (r : option (list char)).

Section logged.
Context {W : Type}.

(** The same environment; the second part of the world lists the calls made. *)
Definition logged (E : os_env W) : os_env (W * list sysev) := {|
  os_errno w := os_errno E w.1;
  os_open p f w := let r := os_open E p f w.1 in (r.1, (r.2, w.2 ++ [Sys_open p f r.1]));
  os_close x w := (os_close E x w.1, w.2 ++ [Sys_close x]);
  os_fsync x w := let r := os_fsync E x w.1 in (r.1, (r.2, w.2 ++ [Sys_fsync x r.1]));
  os_write x d w := let r := os_write E x d w.1 in (r.1, (r.2, w.2 ++ [Sys_write x d r.1]));
  os_read x n w := let r := os_read E x n w.1 in (r.1, (r.2, w.2 ++ [Sys_read x r.1.1]));
  os_mkdir p w := let r := os_mkdir E p w.1 in (r.1, (r.2, w.2 ++ [Sys_mkdir p r.1]));
  os_stat_mode p w := let r := os_stat_mode E p w.1 in (r.1, (r.2, w.2 ++ [Sys_stat p]));
  os_realpath p w := let r := os_realpath E p w.1 in (r.1, (r.2, w.2 ++ [Sys_realpath p r.1]));
  os_wait x s w := let r := os_wait E x s w.1 in (r.1, (r.2, w.2));
  os_notify x w := let r := os_notify E x w.1 in (r.1, (r.2, w.2))
|}.
End logged.

(** The kernel's [write]: it fails, or takes at least one byte of a nonempty
    request and no more than there are; [intr] bounds the number of times it
    can still be interrupted by a signal. *)
Class WriteLaws {W} (E : os_env W) := {
  intr : W -> nat;
  law_write x d w :
    let r := os_write E x d w in
    (r.1 = (-1)%Z /\ (os_errno E r.2 = EINTR -> intr r.2 < intr w)) \/
    ((0 <= r.1 <= Z.of_nat (length d))%Z /\ (d <> [] -> (0 < r.1)%Z) /\ intr r.2 <= intr w);
  law_intr_open p f w : intr (os_open E p f w).2 <= intr w
}.

Section props.
Context {W : Type} (E : os_env W) `{!WriteLaws E}.
Abbreviation L := (W * list sysev)%type (only parsing).
Implicit Types (c : child (W * list sysev)).

Definition log c : list sysev := (c_w c).2.

(** All calls are writes to [x]. *)
Definition is_write (x : Z) (e : sysev) : Prop :=
  match e with Sys_write y _ _ => y = x | _ => False end.

(** The bytes a sequence of writes put into the file. *)
Definition taken (e : sysev) : list char :=
  match e with Sys_write _ d n => take (Z.to_nat n) d | _ => [] end.

(** Only the world, the count and the failure report differ. *)
Definition same_mem c c' : Prop :=
  c_rw c' = c_rw c /\ c_fd c' = c_fd c /\ write_len (c_sh c') = write_len (c_sh c) /\
  open_flags (c_sh c') = open_flags (c_sh c) /\ cmd (c_sh c') = cmd (c_sh c) /\
  read_len (c_sh c') = read_len (c_sh c) /\ child_st (c_sh c') = child_st (c_sh c).

Lemma same_mem_refl c : same_mem c c.
Proof. by repeat split. Qed.

Lemma same_mem_trans c1 c2 c3 : same_mem c1 c2 -> same_mem c2 c3 -> same_mem c1 c3.
Proof. intros (?&?&?&?&?&?&?) (?&?&?&?&?&?&?). repeat split; congruence. Qed.

(** One call of the loop. *)
Lemma csys_run {W'} {A} (f : W' -> A * W') (c : child W') :
  csys f c = Ret ((f (c_w c)).1, {| c_sh := c_sh c; c_rw := c_rw c; c_fd := c_fd c; c_w := (f (c_w c)).2 |}).
Proof. done. Qed.

Lemma wp_csys {W'} {A} (f : W' -> A * W') Q (c : child W') :
  wp (csys f) Q c <->
  Q (f (c_w c)).1 {| c_sh := c_sh c; c_rw := c_rw c; c_fd := c_fd c; c_w := (f (c_w c)).2 |}.
Proof. done. Qed.

Lemma wp_csys_ {W'} (f : W' -> W') Q (c : child W') :
  wp (csys_ f) Q c <-> Q tt {| c_sh := c_sh c; c_rw := c_rw c; c_fd := c_fd c; c_w := f (c_w c) |}.
Proof. done. Qed.

Lemma wp_c_fail {W'} (E' : os_env W') line msg Q (c : child W') :
  wp (c_fail E' line msg) Q c <->
  Q tt {| c_sh := with_sh_fail {| fail_line := line; the_errno := os_errno E' (c_w c); fail_msg := msg |} (c_sh c);
          c_rw := c_rw c; c_fd := c_fd c; c_w := c_w c |}.
Proof. done. Qed.

(** The writing loop: it ends; all its calls are writes; what they took is what
    the count grew by, a prefix of the bytes asked for, and all of them when it
    reports success. *)
Lemma write_loop_wp fuel x off len c :
  off + len <= length (c_rw c) -> len + intr (c_w c).1 < fuel ->
  wp (write_loop_ (logged E) fuel x off len)
    (fun ok c' => same_mem c c' /\ exists ws, log c' = log c ++ ws /\ Forall (is_write x) ws /\
       (ws ≫= taken) `prefix_of` take len (drop off (c_rw c)) /\
       written (c_sh c') = written (c_sh c) + length (ws ≫= taken) /\
       (ok = true -> (ws ≫= taken) = take len (drop off (c_rw c)))) c.
Proof.
  revert off len c. induction fuel as [|fuel IH]; intros off len c Hoff Hfuel; [lia|].
  cbn [write_loop_]. unfold rw_bytes. wp_step. rewrite decide_True by done. wp_step. rewrite wp_csys.
  set (data := take len (drop off (c_rw c))).
  assert (length data = len) as Hdl by (subst data; rewrite length_take, length_drop; lia).
  cbn [logged os_write]. destruct (os_write E x data (c_w c).1) as [n w'] eqn:Hw. cbn [fst snd].
  pose proof (law_write x data (c_w c).1) as Hlaw. rewrite Hw in Hlaw. cbn [fst snd] in Hlaw. rewrite Hdl in Hlaw.
  destruct (Z.eqb_spec n (Z.of_nat len)) as [->|Hne].
  - unfold upd_sh. wp_step. split; [by repeat split|]. exists [Sys_write x data (Z.of_nat len)]. cbn [mbind list_bind taken].
    rewrite app_nil_r, Nat2Z.id, take_ge by lia. split; [done|]. split; [by apply Forall_singleton|].
    split; [done|]. split; [cbn; lia|done].
  - destruct (Z.eqb_spec n (-1)) as [->|Hn1]; cbn [negb].
    + unfold c_errno. wp_step. cbn [c_w logged os_errno fst]. destruct (Z.eqb_spec (os_errno E w') EINTR) as [He|He].
      * destruct Hlaw as [[_ Hi]|[Hi _]]; [|lia]. specialize (Hi He).
        eapply wp_mono; [apply IH; cbn; lia|]. cbn [c_rw c_sh c_w log].
        intros ok c' (Hs & ws & Hl & Hws & Hp & Hwr & Hok). split; [done|].
        exists (Sys_write x data (-1) :: ws). cbn [mbind list_bind taken]. change (Z.to_nat (-1)) with 0.
        rewrite take_0. cbn [app]. unfold log in *. cbn [c_w snd] in Hl. rewrite Hl, <- app_assoc.
        split; [done|]. split; [by constructor|]. done.
      * wp_step. split; [by repeat split|]. exists [Sys_write x data (-1)]. cbn [mbind list_bind taken].
        change (Z.to_nat (-1)) with 0. rewrite take_0. cbn [app length].
        split; [done|]. split; [by apply Forall_singleton|]. split; [apply prefix_nil|]. split; [cbn; lia|done].
    + destruct Hlaw as [[? _]|(Hr & Hpos & Hi)]; [done|].
      rewrite (proj2 (Z.leb_le 0 n)), (proj2 (Z.leb_le n (Z.of_nat len))) by lia. cbn [andb].
      assert (0 < n)%Z as Hn0.
      { apply Hpos. intros Hd. rewrite Hd in Hdl. cbn in Hdl. lia. }
      unfold upd_sh. wp_step. eapply wp_mono; [apply IH; cbn; lia|]. cbn [c_rw c_sh c_w log].
      intros ok c' (Hs & ws & Hl & Hws & Hp & Hwr & Hok). split; [by eapply same_mem_trans; [|exact Hs]; repeat split|].
      exists (Sys_write x data n :: ws). cbn [mbind list_bind taken]. unfold log in *. cbn [c_w snd] in Hl.
      rewrite Hl, <- app_assoc.
      assert (data = take (Z.to_nat n) data ++ take (len - Z.to_nat n) (drop (off + Z.to_nat n) (c_rw c))) as Hsplit.
      { rewrite <- (take_drop (Z.to_nat n) data) at 1. f_equal. subst data. rewrite skipn_firstn_comm, drop_drop. done. }
      split; [done|]. split; [by constructor|]. split; [rewrite Hsplit at 2; by apply prefix_app|].
      split; [|intros Ht; rewrite (Hok Ht); by rewrite Hsplit at 2].
      rewrite Hwr, length_app, length_take. cbn. lia.
Qed.

(** The shape of the calls of [proc_child_write_fsync_close_] after a successful
    [open]: writes, then the end. *)
Definition wfc_calls (rw : list char) (wl : nat) (x : Z) (r : proc_res_) (wr : nat) (evs : list sysev) : Prop :=
  exists ws tail, evs = ws ++ tail /\ Forall (is_write x) ws /\ (ws ≫= taken) `prefix_of` take wl rw /\
    wr = length (ws ≫= taken) /\
    ((r = proc_res_ok_ /\ (ws ≫= taken) = take wl rw /\ exists v, v <> (-1)%Z /\ tail = [Sys_fsync x v; Sys_close x]) \/
     (r = proc_res_fail_ /\ (tail = [Sys_close x] \/ tail = [Sys_fsync x (-1)%Z; Sys_close x]))).

Lemma wfc_wp fuel path c :
  cstr (drop (write_len (c_sh c)) (c_rw c)) = Some path -> write_len (c_sh c) <= length (c_rw c) ->
  write_len (c_sh c) + intr (c_w c).1 < fuel ->
  wp (proc_child_write_fsync_close_ (logged E) fuel)
    (fun r c' => same_mem c c' /\ exists x evs, log c' = log c ++ Sys_open path (open_flags (c_sh c)) x :: evs /\
       ((x = (-1)%Z /\ evs = [] /\ r = proc_res_fail_ /\ written (c_sh c') = 0) \/
        (x <> (-1)%Z /\ wfc_calls (c_rw c) (write_len (c_sh c)) x r (written (c_sh c')) evs))) c.
Proof.
  intros Hpath Hlen Hfuel. unfold proc_child_write_fsync_close_, upd_sh, rw_str. wp_step. cbn [c_rw c_sh c_fd c_w].
  rewrite Hpath. wp_step. rewrite wp_csys. cbn [c_rw c_sh c_fd c_w logged os_open fst snd open_flags with_written].
  destruct (os_open E path (open_flags (c_sh c)) (c_w c).1) as [x w1] eqn:Ho. cbn [fst snd].
  assert (intr w1 <= intr (c_w c).1) as Hi by (pose proof (law_intr_open path (open_flags (c_sh c)) (c_w c).1) as H;
    by rewrite Ho in H).
  destruct (Z.eqb_spec x (-1)) as [->|Hx].
  { wp_step. rewrite wp_c_fail. wp_step. split; [by repeat split|]. by exists (-1)%Z, []; split; [|left]. }
  wp_step. eapply wp_mono; [apply write_loop_wp; cbn; lia|]. cbn [c_rw c_sh c_fd c_w write_len with_written written].
  intros ok c1 (Hs & ws & Hl & Hws & Hp & Hwr & Hok). unfold log in *. cbn [c_w snd] in Hl.
  rewrite drop_0 in *. assert (same_mem c c1) as Hs1 by (eapply same_mem_trans; [|exact Hs]; by repeat split).
  assert (forall tail r (c' : child (W * list sysev)), same_mem c1 c' -> (c_w c').2 = (c_w c1).2 ++ tail ->
    written (c_sh c') = written (c_sh c1) ->
    ((r = proc_res_ok_ /\ (ws ≫= taken) = take (write_len (c_sh c)) (c_rw c) /\
        exists v, v <> (-1)%Z /\ tail = [Sys_fsync x v; Sys_close x]) \/
     (r = proc_res_fail_ /\ (tail = [Sys_close x] \/ tail = [Sys_fsync x (-1)%Z; Sys_close x]))) ->
    same_mem c c' /\ exists x' evs, (c_w c').2 = (c_w c).2 ++ Sys_open path (open_flags (c_sh c)) x' :: evs /\
       ((x' = (-1)%Z /\ evs = [] /\ r = proc_res_fail_ /\ written (c_sh c') = 0) \/
        (x' <> (-1)%Z /\ wfc_calls (c_rw c) (write_len (c_sh c)) x' r (written (c_sh c')) evs))) as Hend.
  { intros tail r c' Hs' Hl' Hw' Hr. split; [by eapply same_mem_trans|]. exists x, (ws ++ tail).
    rewrite Hl', Hl, <- !app_assoc. split; [done|]. right. split; [done|]. exists ws, tail. by rewrite Hw', Hwr. }
  destruct ok; cbn [negb]; wp_step.
  - rewrite wp_csys. cbn [logged os_fsync fst snd c_w c_rw c_sh c_fd].
    destruct (os_fsync E x (c_w c1).1) as [v w2]. cbn [fst snd]. destruct (Z.eqb_spec v (-1)) as [->|Hv]; wp_step;
      rewrite wp_csys_; cbn [logged os_close fst snd c_w c_rw c_sh c_fd]; wp_step; rewrite ?wp_c_fail; wp_step.
    + apply (Hend [Sys_fsync x (-1)%Z; Sys_close x]); [by repeat split|cbn; by rewrite <- app_assoc|done|right; by split; [|right]].
    + apply (Hend [Sys_fsync x v; Sys_close x]); [by repeat split|cbn; by rewrite <- app_assoc|done|].
      left. split; [done|]. split; [by apply Hok|]. by exists v.
  - rewrite wp_c_fail. wp_step. rewrite wp_csys_. cbn [logged os_close fst snd c_w c_rw c_sh c_fd]. wp_step.
    apply (Hend [Sys_close x]); [by repeat split|done|done|right; by split; [|left]].
Qed.

Lemma child_write_wp fuel c : c_fd c <> (-1)%Z -> write_len (c_sh c) <= length (c_rw c) ->
  write_len (c_sh c) + intr (c_w c).1 < fuel ->
  wp (proc_child_write_ (logged E) fuel)
    (fun r c' => same_mem c c' /\ exists ws, log c' = log c ++ ws /\ Forall (is_write (c_fd c)) ws /\
       (ws ≫= taken) `prefix_of` take (write_len (c_sh c)) (c_rw c) /\ written (c_sh c') = length (ws ≫= taken) /\
       r <> proc_res_none_ /\ (r = proc_res_ok_ -> (ws ≫= taken) = take (write_len (c_sh c)) (c_rw c))) c.
Proof.
  intros Hx Hlen Hfuel. unfold proc_child_write_, upd_sh. wp_step. rewrite (proj2 (Z.eqb_neq _ _) Hx). wp_step.
  eapply wp_mono; [apply write_loop_wp; cbn; lia|]. cbn [c_rw c_sh c_fd c_w write_len with_written written log].
  intros ok c1 (Hs & ws & Hl & Hws & Hp & Hwr & Hok). rewrite drop_0 in *.
  assert (same_mem c c1) as Hs1 by (eapply same_mem_trans; [|exact Hs]; by repeat split).
  destruct ok; wp_step.
  - split; [done|]. exists ws. repeat split; try done. intros _. by apply Hok.
  - rewrite wp_c_fail. wp_step. split; [by eapply same_mem_trans; [exact Hs1|]; repeat split|].
    exists ws. repeat split; done.
Qed.
End props.

(** ** A small kernel

    Its [write] follows a script: an entry [None] is an interruption, [Some k]
    takes at most [k] bytes (at least one), and with no entry left it takes all. *)
Record disk := { d_script : list (option nat); d_errno : Z }.

Definition disk_write (d : list char) (w : disk) : Z * disk :=
  match d_script w with
  | [] => (Z.of_nat (length d), w)
  | None :: sc => ((-1)%Z, {| d_script := sc; d_errno := EINTR |})
  | Some k :: sc => (Z.of_nat (Nat.min (length d) (S k)), {| d_script := sc; d_errno := d_errno w |})
  end.

Definition disk_env : os_env disk := {|
  os_errno := d_errno;
  os_open _ _ w := (3%Z, w);
  os_close _ w := w;
  os_fsync _ w := (0%Z, w);
  os_write _ := disk_write;
  os_read _ _ w := (0%Z, [], w);
  os_mkdir _ w := (0%Z, w);
  os_stat_mode _ w := (Some S_IFDIR, w);
  os_realpath p w := (Some (lit "/home/" ++ p), w);
  os_wait _ m w := (1%Z, m, w);
  os_notify _ w := (1%Z, w)
|}.

#[export] Instance disk_laws : WriteLaws disk_env.
Proof.
  refine {| intr w := length (d_script w) |}; [|done].
  intros x d w. cbn. unfold disk_write. destruct (d_script w) as [|[k|] sc] eqn:Hs; cbn; rewrite ?Hs.
  - right. split; [lia|]. split; [|done]. intros Hd. destruct d; [done|]. cbn. lia.
  - right. split; [lia|]. split; [|lia]. intros Hd. destruct d; [done|]. cbn. lia.
  - left. split; [done|]. lia.
Defined.

(** A worker whose buffer holds five bytes of data and then a path. *)
Definition disk_child (wl : nat) (x : Z) (sc : list (option nat)) : child (disk * list sysev) := {|
  c_sh := {| cmd := proc_cmd_write_; write_len := wl; open_flags := 577; res := proc_res_none_;
             child_st := proc_child_st_busy_; written := 0; read_len := 0;
             sh_fail := {| fail_line := 0; the_errno := 0; fail_msg := [] |} |};
  c_rw := lit "helloname" ++ [ch_nul; ch_nul]; c_fd := x;
  c_w := ({| d_script := sc; d_errno := 0 |}, []) |}.

(** C17. Writing a whole file is durable when it is reported as done: the command
    ends, and on success the calls are exactly an [open] of the path behind the
    data, writes that together put the first [write_len] bytes of the buffer
    into the file in order, an [fsync] that did not fail, and the [close] - in
    that order; [written] is then [write_len].  On failure nothing but a prefix
    of the data was written, [written] says how much, and a descriptor that was
    opened is closed. *)
Theorem child_write_fsync_close_durable {W} (E : os_env W) `{!WriteLaws E} fuel path (c : child (W * list sysev)) :
  cstr (drop (write_len (c_sh c)) (c_rw c)) = Some path -> write_len (c_sh c) <= length (c_rw c) ->
  write_len (c_sh c) + intr (c_w c).1 < fuel ->
  exists r c' x evs, proc_child_write_fsync_close_ (logged E) fuel c = Ret (r, c') /\
    log c' = log c ++ Sys_open path (open_flags (c_sh c)) x :: evs /\ c_rw c' = c_rw c /\
    ((x = (-1)%Z /\ evs = [] /\ r = proc_res_fail_ /\ written (c_sh c') = 0) \/
     (x <> (-1)%Z /\ wfc_calls (c_rw c) (write_len (c_sh c)) x r (written (c_sh c')) evs)).
Proof.
  intros Hp Hl Hf. destruct (wp_Ret _ _ _ (wfc_wp E fuel path c Hp Hl Hf)) as (r & c' & Hr & (Hrw & _) & x & evs & Hlog & H).
  by exists r, c', x, evs.
Qed.

Lemma child_write_fsync_close_durable_witness :
  exists r c' x evs,
    proc_child_write_fsync_close_ (logged disk_env) 10 (disk_child 5 (-1) [Some 1; None; Some 0]) = Ret (r, c') /\
    log c' = log (disk_child 5 (-1) [Some 1; None; Some 0]) ++ Sys_open (lit "name") 577 x :: evs /\
    c_rw c' = c_rw (disk_child 5 (-1) [Some 1; None; Some 0]) /\
    ((x = (-1)%Z /\ evs = [] /\ r = proc_res_fail_ /\ written (c_sh c') = 0) \/
     (x <> (-1)%Z /\ wfc_calls (lit "helloname" ++ [ch_nul; ch_nul]) 5 x r (written (c_sh c')) evs)).
Proof.
  apply (child_write_fsync_close_durable disk_env 10 (lit "name") (disk_child 5 (-1) [Some 1; None; Some 0]));
    [reflexivity|cbn; lia|cbn; lia].
Defined.

(** C22. A write command ends, and it ends with success only when the calls
    put all [write_len] bytes of the buffer into the open file, in order, however
    the kernel splits or interrupts them; [written] counts the bytes the file
    got, after a failure too. *)
Theorem child_write_all {W} (E : os_env W) `{!WriteLaws E} fuel (c : child (W * list sysev)) :
  c_fd c <> (-1)%Z -> write_len (c_sh c) <= length (c_rw c) -> write_len (c_sh c) + intr (c_w c).1 < fuel ->
  exists r c' ws, proc_child_write_ (logged E) fuel c = Ret (r, c') /\ log c' = log c ++ ws /\
    Forall (is_write (c_fd c)) ws /\ (ws ≫= taken) `prefix_of` take (write_len (c_sh c)) (c_rw c) /\
    written (c_sh c') = length (ws ≫= taken) /\
    (r = proc_res_ok_ -> written (c_sh c') = write_len (c_sh c) /\ (ws ≫= taken) = take (write_len (c_sh c)) (c_rw c)).
Proof.
  intros Hx Hl Hf. destruct (wp_Ret _ _ _ (child_write_wp E fuel c Hx Hl Hf)) as
    (r & c' & Hr & _ & ws & H1 & H2 & H3 & H4 & _ & H5).
  exists r, c', ws. repeat split; try done; [|by apply H5].
  rewrite H4, H5, length_take by done. lia.
Qed.

Lemma child_write_all_witness :
  exists r c' ws, proc_child_write_ (logged disk_env) 10 (disk_child 5 3 [None; Some 1]) = Ret (r, c') /\
    log c' = log (disk_child 5 3 [None; Some 1]) ++ ws /\
    Forall (is_write 3) ws /\ (ws ≫= taken) `prefix_of` take 5 (lit "helloname" ++ [ch_nul; ch_nul]) /\
    written (c_sh c') = length (ws ≫= taken) /\
    (r = proc_res_ok_ -> written (c_sh c') = 5 /\ (ws ≫= taken) = take 5 (lit "helloname" ++ [ch_nul; ch_nul])).
Proof.
  apply (child_write_all disk_env 10 (disk_child 5 3 [None; Some 1])); [done|cbn; lia|cbn; lia].
Defined.

(** The calls of the two commands on the small kernel. *)
Example child_calls :
  (fun r => (r.1, log r.2)) <$> ret_of (proc_child_write_fsync_close_ (logged disk_env) 10
      (disk_child 5 (-1) [Some 1; None])) =
    Some (proc_res_ok_, [Sys_open (lit "name") 577 3; Sys_write 3 (lit "hello") 2; Sys_write 3 (lit "llo") (-1);
      Sys_write 3 (lit "llo") 3; Sys_fsync 3 0; Sys_close 3]).
Proof. vm_compute. reflexivity. Qed.

(** ** Directories *)
Section mkdir.
Context {W : Type} (E : os_env W).
Implicit Types (c : child (W * list sysev)).

Lemma fsync_dir_pwp path l1 l2 c :
  pwp (fsync_dir_ (logged E) path l1 l2) (fun ok c' => c_rw c' = c_rw c /\ (ok = true ->
    exists d v, d <> (-1)%Z /\ v = 0%Z /\
      log c' = log c ++ [Sys_open path (Z.lor O_RDONLY O_DIRECTORY) d; Sys_fsync d v; Sys_close d])) c.
Proof.
  unfold fsync_dir_, pwp, csys, csys_, c_fail, c_errno, upd_sh, set_w, getc, reads, modc, mbind, cm_bind, mret, cm_ret.
  cbn. destruct (os_open E path _ _) as [d w1]. cbn. destruct (Z.eqb_spec d (-1)) as [->|Hd]; cbn; [done|].
  destruct (os_fsync E d w1) as [v w2]. cbn. destruct (Z.eqb_spec v 0) as [->|Hv]; cbn; [|done].
  split; [done|]. intros _. exists d, 0%Z. unfold log. cbn. by rewrite <- !app_assoc.
Qed.
End mkdir.

(** C37. A directory that the worker creates and reports as done is synced twice,
    and its parent never: the calls are the [mkdir], then [open]/[fsync]/[close]
    of the path itself, then of what [realpath] makes of the same path. *)
Theorem child_mkdir_syncs_itself {W} (E : os_env W) path (c c' : child (W * list sysev)) :
  cstr (c_rw c) = Some path -> (os_mkdir E path (c_w c).1).1 = 0%Z ->
  proc_child_mkdir_ (logged E) c = Ret (proc_res_ok_, c') ->
  exists rp d1 d2, log c' = log c ++
    [Sys_mkdir path 0; Sys_open path (Z.lor O_RDONLY O_DIRECTORY) d1; Sys_fsync d1 0; Sys_close d1;
     Sys_realpath path (Some rp); Sys_open rp (Z.lor O_RDONLY O_DIRECTORY) d2; Sys_fsync d2 0; Sys_close d2].
Proof.
  intros Hp Hm Hr.
  assert (pwp (proc_child_mkdir_ (logged E)) (fun r c' => r = proc_res_ok_ -> exists rp d1 d2, log c' = log c ++
    [Sys_mkdir path 0; Sys_open path (Z.lor O_RDONLY O_DIRECTORY) d1; Sys_fsync d1 0; Sys_close d1;
     Sys_realpath path (Some rp); Sys_open rp (Z.lor O_RDONLY O_DIRECTORY) d2; Sys_fsync d2 0; Sys_close d2]) c) as Hwp;
    [|by apply (pwp_run _ _ _ _ _ Hwp Hr)].
  unfold proc_child_mkdir_, rw_str, csys, c_errno, set_w. autorewrite with cm. rewrite drop_0, Hp. autorewrite with cm.
  cbn [logged os_mkdir fst snd c_w]. rewrite Hm. cbn [Z.eqb negb]. autorewrite with cm.
  eapply pwp_mono; [apply fsync_dir_pwp|]. intros ok c1 [Hrw Hok]. destruct ok; cbn [negb]; [|done].
  destruct (Hok eq_refl) as (d1 & v1 & _ & -> & Hl1). autorewrite with cm. cbn [logged os_realpath fst snd c_w].
  destruct (os_realpath E path (c_w c1).1) as [[rp|] w2] eqn:Hrp; cbn [fst snd].
  2:{ unfold c_fail, c_errno, upd_sh. by autorewrite with cm. }
  autorewrite with cm. eapply pwp_mono; [apply fsync_dir_pwp|]. intros ok c2 [_ Hok2].
  destruct ok; autorewrite with cm; [|done]. intros _. destruct (Hok2 eq_refl) as (d2 & v2 & _ & -> & Hl2).
  exists rp, d1, d2. rewrite Hl2. unfold log in *. cbn [c_w snd] in *. rewrite Hl1. by rewrite <- !app_assoc.
Qed.

Lemma child_mkdir_syncs_itself_witness :
  exists c', proc_child_mkdir_ (logged disk_env) (disk_child 0 (-1) []) = Ret (proc_res_ok_, c') /\
  exists rp d1 d2, log c' = log (disk_child 0 (-1) []) ++
    [Sys_mkdir (lit "helloname") 0; Sys_open (lit "helloname") (Z.lor O_RDONLY O_DIRECTORY) d1; Sys_fsync d1 0; Sys_close d1;
     Sys_realpath (lit "helloname") (Some rp); Sys_open rp (Z.lor O_RDONLY O_DIRECTORY) d2; Sys_fsync d2 0; Sys_close d2].
Proof.
  eexists. split; [vm_compute; reflexivity|].
  apply (child_mkdir_syncs_itself disk_env (lit "helloname") (disk_child 0 (-1) [])); vm_compute; reflexivity.
Defined.
