(* ===== verification/AfsProc.v ===== *)
(** * Worker processes as the parent sees them ([src/src/afs.c], lines 856-1244)

    [proc_] is the parent's record of one worker: its state, the events of the
    last update, and the memory mapping it shares with the worker.  The pointers
    [shared], [rw_buf] and [mmap_start] of the source always point into the same
    mapping or are all NULL: [p_mapped] holds the contents of that mapping (the
    shared record and the buffer behind it), [p_mmap_start] its address.

    The worker runs concurrently and changes the mapping between two calls of
    the parent.  [AfsProto] says which of the two writes when, stores of the parent
    into the memory of a busy worker included.

    The kernel as the parent uses it is the record [os_penv]. *)

From stdpp Require Import base list numbers strings option.
From S2P Require Import Prelude AfsChild.

(** ** Data *)
Inductive afs_event :=
| afs_ev_init | afs_ev_init_fail | afs_ev_stop | afs_ev_stop_fail | afs_ev_open | afs_ev_open_fail
| afs_ev_close | afs_ev_close_fail | afs_ev_fsync | afs_ev_fsync_fail | afs_ev_write | afs_ev_write_fail
| afs_ev_readall | afs_ev_readall_fail | afs_ev_mkdir | afs_ev_mkdir_fail
| afs_ev_write_fsync_close | afs_ev_write_fsync_close_fail.
#[export] Instance afs_event_eq_dec : EqDecision afs_event.
Proof. solve_decision. Defined.

Inductive afs_res := afs_fail_bad_arg | afs_fail_bad_fd | afs_fail_alloc | afs_fail | afs_ok.
#[export] Instance afs_res_eq_dec : EqDecision afs_res.
Proof. solve_decision. Defined.

(** The two members of the union both start with [len]; [data] is a pointer
    into the mapping of the worker. *)
Record afs_ev := { ev_ty : afs_event; ev_fd : Z; ev_len : nat; ev_data : Z }.

Inductive proc_st_ := proc_st_uninit_ | proc_st_init_pend_ | proc_st_avail_ | proc_st_busy_ | proc_st_dead_.
#[export] Instance proc_st_eq_dec : EqDecision proc_st_.
Proof. solve_decision. Defined.

Record pollfd := { pfd_fd : Z; pfd_events : Z; pfd_revents : Z }.

Definition POLLIN : Z := 1.
Definition POLLERR : Z := 8.
Definition POLLHUP : Z := 16.

(** [sizeof(struct proc_shared_)] and [PAGESIZE] on the target. *)
Definition sizeof_proc_shared_ : nat := 72.
Definition PAGESIZE : nat := 4096.
Definition rw_buf_len_ : nat := PAGESIZE * 3 - sizeof_proc_shared_.
Definition proc_evs_maxlen_ : nat := 3.
Definition evs_pfds_prealloc_len_ : nat := 2.
Definition O_NONBLOCK : Z := 2048.

Record proc_ := {
  p_fail : sob_fail;
  p_is_stop_req : bool;
  p_st : proc_st_;
  p_evs : list afs_ev;
  p_evs_len : nat;
  p_mapped : option (proc_shared_ * list char);
  p_rw_buf_len : nat;
  p_mmap_start : Z;
  p_mmap_len : nat;
  p_pid : Z;
  p_fd : Z
}.

Definition with_p_fail v (c : proc_) : proc_ :=
  {| p_fail := v; p_is_stop_req := p_is_stop_req c; p_st := p_st c; p_evs := p_evs c;
     p_evs_len := p_evs_len c; p_mapped := p_mapped c; p_rw_buf_len := p_rw_buf_len c;
     p_mmap_start := p_mmap_start c; p_mmap_len := p_mmap_len c; p_pid := p_pid c;
     p_fd := p_fd c |}.
Definition with_p_is_stop_req v (c : proc_) : proc_ :=
  {| p_fail := p_fail c; p_is_stop_req := v; p_st := p_st c; p_evs := p_evs c;
     p_evs_len := p_evs_len c; p_mapped := p_mapped c; p_rw_buf_len := p_rw_buf_len c;
     p_mmap_start := p_mmap_start c; p_mmap_len := p_mmap_len c; p_pid := p_pid c;
     p_fd := p_fd c |}.
Definition with_p_st v (c : proc_) : proc_ :=
  {| p_fail := p_fail c; p_is_stop_req := p_is_stop_req c; p_st := v; p_evs := p_evs c;
     p_evs_len := p_evs_len c; p_mapped := p_mapped c; p_rw_buf_len := p_rw_buf_len c;
     p_mmap_start := p_mmap_start c; p_mmap_len := p_mmap_len c; p_pid := p_pid c;
     p_fd := p_fd c |}.
Definition with_p_evs v (c : proc_) : proc_ :=
  {| p_fail := p_fail c; p_is_stop_req := p_is_stop_req c; p_st := p_st c; p_evs := v;
     p_evs_len := p_evs_len c; p_mapped := p_mapped c; p_rw_buf_len := p_rw_buf_len c;
     p_mmap_start := p_mmap_start c; p_mmap_len := p_mmap_len c; p_pid := p_pid c;
     p_fd := p_fd c |}.
Definition with_p_evs_len v (c : proc_) : proc_ :=
  {| p_fail := p_fail c; p_is_stop_req := p_is_stop_req c; p_st := p_st c;
     p_evs := p_evs c; p_evs_len := v; p_mapped := p_mapped c;
     p_rw_buf_len := p_rw_buf_len c; p_mmap_start := p_mmap_start c;
     p_mmap_len := p_mmap_len c; p_pid := p_pid c; p_fd := p_fd c |}.
Definition with_p_mapped v (c : proc_) : proc_ :=
  {| p_fail := p_fail c; p_is_stop_req := p_is_stop_req c; p_st := p_st c;
     p_evs := p_evs c; p_evs_len := p_evs_len c; p_mapped := v;
     p_rw_buf_len := p_rw_buf_len c; p_mmap_start := p_mmap_start c;
     p_mmap_len := p_mmap_len c; p_pid := p_pid c; p_fd := p_fd c |}.
Definition with_p_rw_buf_len v (c : proc_) : proc_ :=
  {| p_fail := p_fail c; p_is_stop_req := p_is_stop_req c; p_st := p_st c;
     p_evs := p_evs c; p_evs_len := p_evs_len c; p_mapped := p_mapped c;
     p_rw_buf_len := v; p_mmap_start := p_mmap_start c; p_mmap_len := p_mmap_len c;
     p_pid := p_pid c; p_fd := p_fd c |}.
Definition with_p_mmap_start v (c : proc_) : proc_ :=
  {| p_fail := p_fail c; p_is_stop_req := p_is_stop_req c; p_st := p_st c;
     p_evs := p_evs c; p_evs_len := p_evs_len c; p_mapped := p_mapped c;
     p_rw_buf_len := p_rw_buf_len c; p_mmap_start := v; p_mmap_len := p_mmap_len c;
     p_pid := p_pid c; p_fd := p_fd c |}.
Definition with_p_mmap_len v (c : proc_) : proc_ :=
  {| p_fail := p_fail c; p_is_stop_req := p_is_stop_req c; p_st := p_st c;
     p_evs := p_evs c; p_evs_len := p_evs_len c; p_mapped := p_mapped c;
     p_rw_buf_len := p_rw_buf_len c; p_mmap_start := p_mmap_start c; p_mmap_len := v;
     p_pid := p_pid c; p_fd := p_fd c |}.
Definition with_p_pid v (c : proc_) : proc_ :=
  {| p_fail := p_fail c; p_is_stop_req := p_is_stop_req c; p_st := p_st c;
     p_evs := p_evs c; p_evs_len := p_evs_len c; p_mapped := p_mapped c;
     p_rw_buf_len := p_rw_buf_len c; p_mmap_start := p_mmap_start c;
     p_mmap_len := p_mmap_len c; p_pid := v; p_fd := p_fd c |}.
Definition with_p_fd v (c : proc_) : proc_ :=
  {| p_fail := p_fail c; p_is_stop_req := p_is_stop_req c; p_st := p_st c;
     p_evs := p_evs c; p_evs_len := p_evs_len c; p_mapped := p_mapped c;
     p_rw_buf_len := p_rw_buf_len c; p_mmap_start := p_mmap_start c;
     p_mmap_len := p_mmap_len c; p_pid := p_pid c; p_fd := v |}.

(** The system calls of the parent.  [p_fork] is [None] when it fails and the
    worker's pid in the parent; the other side of a successful [fork] is
    [AfsChild.proc_child_worker_].  [p_mmap] gives the address of a new
    anonymous mapping, which is zero-filled.  Results the source ignores are
    left out. *)
Record os_penv (W : Type) := {
  p_errno : W -> Z;
  p_pagesize : nat;
  p_socketpair : W -> option (Z * Z) * W;
  p_getfd : Z -> W -> Z * W;
  p_setfd : Z -> Z -> W -> W;
  p_mmap : nat -> W -> option Z * W;
  p_munmap : Z -> nat -> W -> W;
  p_fork : W -> option Z * W;
  p_close : Z -> W -> W;
  p_write1 : Z -> W -> Z * W;
  p_read1 : Z -> W -> W;
  p_kill : Z -> W -> W;
  p_waitpid : Z -> W -> Z * W;
  p_malloc : nat -> W -> bool * W
}.
Arguments p_errno {W} _.
Arguments p_pagesize {W} _.
Arguments p_socketpair {W} _.
Arguments p_getfd {W} _.
Arguments p_setfd {W} _.
Arguments p_mmap {W} _.
Arguments p_munmap {W} _.
Arguments p_fork {W} _.
Arguments p_close {W} _.
Arguments p_write1 {W} _.
Arguments p_read1 {W} _.
Arguments p_kill {W} _.
Arguments p_waitpid {W} _.
Arguments p_malloc {W} _.

(** The event a failing command is reported as. *)
Definition proc_cmd_fail_ev_ (c : proc_cmd_) : afs_event :=
  match c with
  | proc_cmd_none_ => afs_ev_init_fail
  | proc_cmd_exit_ => afs_ev_stop_fail
  | proc_cmd_open_ => afs_ev_open_fail
  | proc_cmd_close_ => afs_ev_close_fail
  | proc_cmd_fsync_ => afs_ev_fsync_fail
  | proc_cmd_write_ => afs_ev_write_fail
  | proc_cmd_readall_ => afs_ev_readall_fail
  | proc_cmd_mkdir_ => afs_ev_mkdir_fail
  | proc_cmd_write_fsync_close_ => afs_ev_write_fsync_close_fail
  end.

Section proc.
Context {W : Type} (E : os_penv W) (fuel : nat).
Abbreviation M := (CM (proc_ * W)) (only parsing).

Definition get_proc : M proc_ := reads fst.
Definition upd_proc (f : proc_ -> proc_) : M unit := modc (fun s => (f s.1, s.2)).
Definition psys {A} (f : W -> A * W) : M A :=
  w ← reads snd; modc (fun s => (s.1, (f w).2)) ;; mret (f w).1.
Definition psys_ (f : W -> W) : M unit := modc (fun s => (s.1, f s.2)).
Definition proc_errno : M Z := reads (fun s => p_errno E s.2).

(** [SOB_AFS_PROC_FAIL_] at a line of the source. *)
Definition proc_fail (line : Z) (msg : list char) : M unit :=
  e ← proc_errno; upd_proc (with_p_fail {| fail_line := line; the_errno := e; fail_msg := msg |}).

(** [p->shared->...]: NULL is not to be dereferenced. *)
Definition get_shared : M proc_shared_ :=
  p ← get_proc; match p_mapped p with Some m => mret m.1 | None => undef end.
Definition upd_shared (f : proc_shared_ -> proc_shared_) : M unit :=
  p ← get_proc;
  match p_mapped p with
  | Some m => upd_proc (with_p_mapped (Some (f m.1, m.2)))
  | None => undef
  end.

(** ** Events *)

(** The index of the new event; [None] is the source's NULL. *)
Definition proc_add_ev_ (ty : afs_event) : M (option nat) :=
  p ← get_proc;
  if decide (p_evs_len p < proc_evs_maxlen_) then
    match p_evs p !! p_evs_len p with
    | Some old =>
        upd_proc (with_p_evs_len (S (p_evs_len p))) ;;
        upd_proc (with_p_evs (<[p_evs_len p :=
          {| ev_ty := ty; ev_fd := -1; ev_len := ev_len old; ev_data := ev_data old |}]> (p_evs p))) ;;
        mret (Some (p_evs_len p))
    | None => undef
    end
  else mret None.

(** [SOB_AFS_PROC_CHECK_EV_(stmt)] at a line of the source, where [stmt] is
    [proc_add_ev_(p, ty)] or the pointer it gave. *)
Definition must_add_ev_ (line : Z) (stmt : list char) (ty : afs_event) : M nat :=
  r ← proc_add_ev_ ty;
  match r with Some i => mret i | None => sob_panic (lit "afs.c") line (lit "add_ev " ++ stmt) end.

(** Change the event at an index. *)
Definition upd_ev (i : nat) (f : afs_ev -> afs_ev) : M unit :=
  p ← get_proc;
  match p_evs p !! i with
  | Some e => upd_proc (with_p_evs (<[i := f e]> (p_evs p)))
  | None => undef
  end.

Definition proc_evs_ : M (list afs_ev) := p ← get_proc; mret (take (p_evs_len p) (p_evs p)).
Definition proc_fd_ (p : proc_) : Z := p_fd p.

(** ** Talking to the worker *)
Fixpoint notify_child_loop_ (n : nat) : M afs_res :=
  match n with
  | O => undef
  | S n =>
      p ← get_proc;
      r ← psys (p_write1 E (p_fd p));
      if (r =? 1)%Z then mret afs_ok
      else
        e ← proc_errno;
        if (e =? EINTR)%Z then notify_child_loop_ n
        else
          proc_fail 1196 (lit "write") ;;
          upd_proc (with_p_st proc_st_dead_) ;;
          mret afs_fail
  end.

Definition proc_notify_child_ : M afs_res := notify_child_loop_ fuel.

Definition proc_send_cmd_ (c : proc_cmd_) : M afs_res :=
  p ← get_proc;
  if negb (bool_decide (p_st p = proc_st_avail_)) then
    proc_fail 1174 (lit "bad st (no errno)") ;; mret afs_fail
  else
    s ← get_shared;
    if negb (bool_decide (child_st s = proc_child_st_idle_)) then
      proc_fail 1179 (lit "bad child st (no errno)") ;; mret afs_fail
    else
      upd_proc (with_p_st proc_st_busy_) ;;
      upd_shared (with_cmd c) ;;
      proc_notify_child_.

Definition proc_open_ : M afs_res := proc_send_cmd_ proc_cmd_open_.
Definition proc_close_ : M afs_res := proc_send_cmd_ proc_cmd_close_.
Definition proc_fsync_ : M afs_res := proc_send_cmd_ proc_cmd_fsync_.
Definition proc_write_ : M afs_res := proc_send_cmd_ proc_cmd_write_.
Definition proc_readall_ : M afs_res := proc_send_cmd_ proc_cmd_readall_.
Definition proc_mkdir_ : M afs_res := proc_send_cmd_ proc_cmd_mkdir_.
Definition proc_write_fsync_close_ : M afs_res := proc_send_cmd_ proc_cmd_write_fsync_close_.

(** [while (1) waitpid(...)] *)
Fixpoint waitpid_loop_ (n : nat) : M unit :=
  match n with
  | O => undef
  | S n =>
      p ← get_proc;
      r ← psys (p_waitpid E (p_pid p));
      e ← proc_errno;
      if ((r =? -1) && (e =? EINTR))%Z then waitpid_loop_ n else mret tt
  end.

Definition proc_destroy_child_ : M unit :=
  p ← get_proc;
  (if (0 <? p_pid p)%Z then
     psys_ (p_kill E (p_pid p)) ;; waitpid_loop_ fuel ;; upd_proc (with_p_pid 0%Z)
   else mret tt) ;;
  psys_ (p_close E (p_fd p)) ;;
  upd_proc (with_p_fd (-1)%Z) ;;
  psys_ (p_munmap E (p_mmap_start p) (p_mmap_len p)) ;;
  upd_proc (with_p_mmap_start 0%Z) ;;
  upd_proc (with_p_mmap_len 0) ;;
  upd_proc (with_p_rw_buf_len 0) ;;
  upd_proc (with_p_mapped None) ;;
  upd_proc (with_p_st proc_st_uninit_).

(** ** Start *)

(** [mmap_len]: the shared record and the buffer, rounded up to whole pages. *)
Definition mmap_len_ (pgs : nat) : nat := ((sizeof_proc_shared_ + rw_buf_len_ - 1) / pgs + 1) * pgs.

(** The record the parent stores into the zero-filled mapping. *)
Definition shared_init_ : proc_shared_ := {|
  cmd := proc_cmd_none_; write_len := 0; open_flags := 0; res := proc_res_none_;
  child_st := proc_child_st_not_started_; written := 0; read_len := 0;
  sh_fail := {| fail_line := 0; the_errno := 0; fail_msg := [] |} |}.

Definition proc_init_ : M afs_res :=
  let pgs := p_pagesize E in
  upd_proc (with_p_evs_len 0) ;;
  upd_proc (with_p_is_stop_req false) ;;
  upd_proc (with_p_pid 0%Z) ;;
  sv ← psys (p_socketpair E);
  match sv with
  | None => proc_fail 869 (lit "socketpair") ;; mret afs_fail
  | Some (sv0, sv1) =>
      f0 ← psys (p_getfd E sv0);
      psys_ (p_setfd E sv0 (Z.lor f0 O_NONBLOCK)) ;;
      f1 ← psys (p_getfd E sv1);
      psys_ (p_setfd E sv1 (Z.land f1 (Z.lnot O_NONBLOCK))) ;;
      let len := mmap_len_ pgs in
      upd_proc (with_p_mmap_len len) ;;
      start ← psys (p_mmap E len);
      match start with
      | None =>
          proc_fail 881 (lit "mmap") ;;
          psys_ (p_close E sv0) ;; psys_ (p_close E sv1) ;; mret afs_fail
      | Some start =>
          upd_proc (with_p_mmap_start start) ;;
          let rw_len := len - sizeof_proc_shared_ in
          upd_proc (with_p_mapped (Some (shared_init_, replicate rw_len 0%Z))) ;;
          upd_proc (with_p_rw_buf_len rw_len) ;;
          pid ← psys (p_fork E);
          match pid with
          | None =>
              proc_fail 900 (lit "fork") ;;
              psys_ (p_close E sv0) ;; psys_ (p_close E sv1) ;;
              psys_ (p_munmap E start len) ;;
              upd_proc (with_p_mmap_start 0%Z) ;;
              upd_proc (with_p_mmap_len 0) ;;
              upd_proc (with_p_rw_buf_len 0) ;;
              upd_proc (with_p_mapped None) ;;
              mret afs_fail
          | Some pid =>
              psys_ (p_close E sv1) ;;
              upd_proc (with_p_pid pid) ;;
              upd_proc (with_p_fd sv0) ;;
              upd_proc (with_p_st proc_st_init_pend_) ;;
              upd_shared (with_cmd proc_cmd_none_) ;;
              proc_notify_child_
          end
      end
  end.

(** ** Update *)
Definition hup_ (revents : Z) : bool :=
  negb (Z.land revents POLLHUP =? 0)%Z || negb (Z.land revents POLLERR =? 0)%Z.
Definition in_ (revents : Z) : bool := negb (Z.land revents POLLIN =? 0)%Z.

Definition proc_update_init_pend_ (revents : Z) : M afs_res :=
  p ← get_proc;
  if p_is_stop_req p then
    upd_proc (with_p_is_stop_req false) ;;
    proc_destroy_child_ ;;
    must_add_ev_ 1045 (lit "proc_add_ev_(p, afs_ev_init_fail)") afs_ev_init_fail ;;
    must_add_ev_ 1046 (lit "proc_add_ev_(p, afs_ev_stop)") afs_ev_stop ;;
    mret afs_fail
  else if hup_ revents then
    proc_destroy_child_ ;;
    must_add_ev_ 1052 (lit "proc_add_ev_(p, afs_ev_init_fail)") afs_ev_init_fail ;;
    proc_fail 1053 (lit "child died (no errno)") ;;
    mret afs_fail
  else if in_ revents then
    psys_ (p_read1 E (p_fd p)) ;;
    s ← get_shared;
    if decide (res s = proc_res_ok_) then
      upd_proc (with_p_st proc_st_avail_) ;;
      must_add_ev_ 1060 (lit "proc_add_ev_(p, afs_ev_init)") afs_ev_init ;;
      mret afs_ok
    else
      proc_destroy_child_ ;;
      must_add_ev_ 1064 (lit "proc_add_ev_(p, afs_ev_init_fail)") afs_ev_init_fail ;;
      proc_fail 1065 (lit "child failed cmd_none (no errno)") ;;
      mret afs_fail
  else mret afs_ok.

Definition proc_update_avail_ (revents : Z) : M afs_res :=
  if hup_ revents then
    proc_destroy_child_ ;; proc_fail 1077 (lit "child died (no errno)") ;; mret afs_fail
  else mret afs_ok.

(** The event of a command that succeeded, filled in from the shared record. *)
Definition done_ev_ (c : proc_cmd_) (s : proc_shared_) (rw_buf : Z) (e : afs_ev) : afs_ev :=
  let ty t := {| ev_ty := t; ev_fd := ev_fd e; ev_len := ev_len e; ev_data := ev_data e |} in
  match c with
  | proc_cmd_open_ => ty afs_ev_open
  | proc_cmd_close_ => ty afs_ev_close
  | proc_cmd_fsync_ => ty afs_ev_fsync
  | proc_cmd_write_ =>
      {| ev_ty := afs_ev_write; ev_fd := ev_fd e; ev_len := written s; ev_data := ev_data e |}
  | proc_cmd_readall_ =>
      {| ev_ty := afs_ev_readall; ev_fd := ev_fd e; ev_len := read_len s; ev_data := rw_buf |}
  | proc_cmd_mkdir_ => ty afs_ev_mkdir
  | proc_cmd_write_fsync_close_ =>
      {| ev_ty := afs_ev_write_fsync_close; ev_fd := ev_fd e; ev_len := written s; ev_data := ev_data e |}
  | proc_cmd_none_ | proc_cmd_exit_ => e
  end.

(** The worker answered: lines 1096-1154. *)
Definition proc_update_answer_ : M afs_res :=
  s ← get_shared;
  exited ←
    (if decide (res s = proc_res_ok_) then
       match cmd s with
       | proc_cmd_none_ => upd_shared (with_cmd proc_cmd_none_) ;; mret false
       | proc_cmd_exit_ =>
           must_add_ev_ 1100 (lit "ev") afs_ev_init ;;
           upd_proc (with_p_is_stop_req false) ;;
           proc_destroy_child_ ;;
           p ← get_proc;
           (if p_is_stop_req p then must_add_ev_ 1110 (lit "proc_add_ev_(p, afs_ev_stop)") afs_ev_stop ;; mret tt else mret tt) ;;
           proc_fail 1113 (lit "exit successful (no errno)") ;;
           mret true
       | c =>
           i ← must_add_ev_ 1100 (lit "ev") afs_ev_init;
           p ← get_proc;
           upd_ev i (done_ev_ c s (p_mmap_start p + Z.of_nat sizeof_proc_shared_)) ;;
           upd_shared (with_cmd proc_cmd_none_) ;;
           mret false
       end
     else
       upd_proc (with_p_fail (sh_fail s)) ;;
       must_add_ev_ 1146 (lit "proc_add_ev_(p, proc_cmd_fail_ev_(p->shared->cmd))") (proc_cmd_fail_ev_ (cmd s)) ;;
       mret false);
  if (exited : bool) then mret afs_fail
  else
    upd_proc (with_p_st proc_st_avail_) ;;
    p ← get_proc;
    if p_is_stop_req p then proc_send_cmd_ proc_cmd_exit_ else mret afs_ok.

Definition proc_update_busy_ (revents : Z) : M afs_res :=
  if hup_ revents then
    s ← get_shared;
    must_add_ev_ 1087 (lit "proc_add_ev_(p, proc_cmd_fail_ev_(p->shared->cmd))") (proc_cmd_fail_ev_ (cmd s)) ;;
    proc_destroy_child_ ;;
    proc_fail 1090 (lit "child died (no errno)") ;;
    mret afs_fail
  else if in_ revents then
    p ← get_proc;
    psys_ (p_read1 E (p_fd p)) ;;
    proc_update_answer_
  else mret afs_ok.

Definition proc_update_dead_ : M afs_res :=
  p ← get_proc;
  (if p_is_stop_req p then
     upd_proc (with_p_is_stop_req false) ;; must_add_ev_ 1164 (lit "proc_add_ev_(p, afs_ev_stop_fail)") afs_ev_stop_fail ;; mret tt
   else mret tt) ;;
  proc_destroy_child_ ;;
  proc_fail 1167 (lit "child is dead (no errno)") ;;
  mret afs_fail.

(** The poll result of the worker's socket: the last entry with its descriptor. *)
Definition revents_of_ (x : Z) (fds : list pollfd) : Z :=
  if negb (x =? -1)%Z then
    foldl (fun r f => if (pfd_fd f =? x)%Z then pfd_revents f else r) 0%Z fds
  else 0%Z.

Definition proc_update_ (fds : list pollfd) : M afs_res :=
  p ← get_proc;
  let revents := revents_of_ (p_fd p) fds in
  upd_proc (with_p_evs_len 0) ;;
  match p_st p with
  | proc_st_init_pend_ => proc_update_init_pend_ revents
  | proc_st_busy_ => proc_update_busy_ revents
  | proc_st_avail_ => proc_update_avail_ revents
  | proc_st_dead_ => proc_update_dead_
  | proc_st_uninit_ =>
      (if p_is_stop_req p then
         upd_proc (with_p_is_stop_req false) ;; must_add_ev_ 991 (lit "proc_add_ev_(p, afs_ev_stop)") afs_ev_stop ;; mret tt
       else mret tt) ;;
      proc_fail 993 (lit "uninit (no errno)") ;;
      mret afs_fail
  end.

(** ** Stop *)
Definition proc_stop_prep_ : M afs_res :=
  p ← get_proc;
  if negb (p_is_stop_req p) then
    upd_proc (with_p_is_stop_req true) ;;
    if decide (p_st p = proc_st_avail_) then proc_send_cmd_ proc_cmd_exit_
    else if decide (p_st p = proc_st_busy_) then mret afs_ok
    else proc_fail 1021 (lit "bad st (no errno)") ;; mret afs_fail
  else proc_fail 1025 (lit "stop_prep already pending (no errno)") ;; mret afs_fail.

Definition proc_stop_ : M afs_res :=
  p ← get_proc;
  if negb (bool_decide (p_st p = proc_st_uninit_)) then
    proc_fail 1034 (lit "not ready to stop (no errno)") ;; mret afs_fail
  else mret afs_ok.
End proc.
