(* ===== verification/AfsProcProps.v ===== *)
(** * Properties of the parent's side of a worker

    The invariant of [proc_] and what every call does to it, for every content
    of the shared memory - the worker is not trusted - and every kernel that
    obeys [ParentLaws]. *)

From stdpp Require Import base list numbers strings option.
From S2P Require Import Prelude AfsChild AfsProc.

(** Signals interrupt a call only finitely often: [pintr] bounds how often they
    still can, an interrupted [write] or [waitpid] uses one of them up, and no
    other call adds any.  [fork] gives the parent a positive pid, a new socket
    is not -1 and a mapping is not NULL. *)
Class ParentLaws {W} (E : os_penv W) := {
  pintr : W -> nat;
  law_pagesize : 0 < p_pagesize E;
  law_socketpair w : pintr (p_socketpair E w).2 <= pintr w;
  law_socketpair_fd w x y : (p_socketpair E w).1 = Some (x, y) -> (0 <= x /\ 0 <= y)%Z;
  law_getfd x w : pintr (p_getfd E x w).2 <= pintr w;
  law_setfd x f w : pintr (p_setfd E x f w) <= pintr w;
  law_mmap n w : pintr (p_mmap E n w).2 <= pintr w;
  law_mmap_addr n w a : (p_mmap E n w).1 = Some a -> (0 < a)%Z;
  law_munmap a n w : pintr (p_munmap E a n w) <= pintr w;
  law_fork w : pintr (p_fork E w).2 <= pintr w;
  law_fork_pid w pid : (p_fork E w).1 = Some pid -> (0 < pid)%Z;
  law_pclose x w : pintr (p_close E x w) <= pintr w;
  law_pwrite x w : let r := p_write1 E x w in
    pintr r.2 <= pintr w /\ (r.1 <> 1%Z -> p_errno E r.2 = EINTR -> pintr r.2 < pintr w);
  law_pread x w : pintr (p_read1 E x w) <= pintr w;
  law_kill x w : pintr (p_kill E x w) <= pintr w;
  law_waitpid x w : let r := p_waitpid E x w in
    pintr r.2 <= pintr w /\ (r.1 = (-1)%Z -> p_errno E r.2 = EINTR -> pintr r.2 < pintr w);
  law_malloc n w : pintr (p_malloc E n w).2 <= pintr w
}.

(** A worker that exists has its mapping and its socket; one that does not has
    neither. *)
Record pwf (p : proc_) : Prop := {
  pwf_evs_cap : length (p_evs p) = proc_evs_maxlen_;
  pwf_evs_len : p_evs_len p <= proc_evs_maxlen_;
  pwf_mem :
    match p_st p with
    | proc_st_uninit_ => p_mapped p = None /\ p_fd p = (-1)%Z /\ p_mmap_start p = 0%Z /\ p_rw_buf_len p = 0
    | _ => exists s rw, p_mapped p = Some (s, rw) /\ length rw = p_rw_buf_len p /\ p_fd p <> (-1)%Z /\ (0 < p_mmap_start p)%Z
    end
}.

Definition p_reported (p : proc_) : list afs_ev := take (p_evs_len p) (p_evs p).

(** The types of the events of the last update. *)
Definition p_types (p : proc_) : list afs_event := ev_ty <$> p_reported p.

Section props.
Context {W : Type} (E : os_penv W) `{!ParentLaws E} (fuel : nat).
Implicit Types (p : proc_) (w : W).

Lemma psys_wp {A} (f : W -> A * W) Q p w : wp (psys f) Q (p, w) <-> Q (f w).1 (p, (f w).2).
Proof. done. Qed.

Lemma psys'_wp (f : W -> W) Q p w : wp (psys_ f) Q (p, w) <-> Q tt (p, f w).
Proof. done. Qed.

Lemma upd_proc_wp f Q p w : wp (upd_proc f) Q (p, w) <-> Q tt (f p, w).
Proof. done. Qed.

Lemma get_proc_wp Q p w : wp get_proc Q (p, w) <-> Q p (p, w).
Proof. done. Qed.

Lemma proc_fail_wp line msg Q p w :
  wp (proc_fail E line msg) Q (p, w) <->
  Q tt (with_p_fail {| fail_line := line; the_errno := p_errno E w; fail_msg := msg |} p, w).
Proof. done. Qed.

Lemma get_shared_wp s rw Q p w : p_mapped p = Some (s, rw) -> wp get_shared Q (p, w) <-> Q s (p, w).
Proof. intros H. unfold get_shared, get_proc. wp_step. cbn [fst]. rewrite H. by wp_step. Qed.

Lemma upd_shared_wp f s rw Q p w : p_mapped p = Some (s, rw) ->
  wp (upd_shared f) Q (p, w) <-> Q tt (with_p_mapped (Some (f s, rw)) p, w).
Proof. intros H. unfold upd_shared, get_proc. wp_step. cbn [fst]. by rewrite H. Qed.

(** Everything but the failure report is the same. *)
Definition but_fail p p' : Prop := exists f, p' = with_p_fail f p.

Lemma pwf_but_fail p p' : but_fail p p' -> pwf p -> pwf p'.
Proof. intros [f ->] []. by split. Qed.

Lemma but_fail_refl p : but_fail p p.
Proof. exists (p_fail p). by destruct p. Qed.

(** *** Events *)
Lemma must_add_ev_wp line stmt ty Q p w : length (p_evs p) = proc_evs_maxlen_ -> p_evs_len p < proc_evs_maxlen_ ->
  (forall l e, length l = proc_evs_maxlen_ -> take (S (p_evs_len p)) l = p_reported p ++ [e] -> ev_ty e = ty ->
     ev_fd e = (-1)%Z ->
     Q (p_evs_len p) (with_p_evs l (with_p_evs_len (S (p_evs_len p)) p), w)) ->
  wp (must_add_ev_ line stmt ty) Q (p, w).
Proof.
  intros Hc Hl HQ. unfold must_add_ev_, proc_add_ev_. wp_step. rewrite get_proc_wp. rewrite decide_True by done.
  destruct (lookup_lt_is_Some_2 (p_evs p) (p_evs_len p)) as [old Ho]; [lia|]. rewrite Ho. wp_step.
  rewrite upd_proc_wp. wp_step. rewrite upd_proc_wp. wp_step. eapply HQ.
  - by rewrite length_insert.
  - unfold p_reported. by rewrite take_insert_snoc by lia.
  - done.
  - done.
Qed.

(** *** The worker is told, or killed *)
Lemma notify_loop_wp n p w : pintr w < n ->
  wp (notify_child_loop_ E n) (fun r s => pintr s.2 <= pintr w /\
    ((r = afs_ok /\ s.1 = p) \/ (r = afs_fail /\ exists f, s.1 = with_p_st proc_st_dead_ (with_p_fail f p)))) (p, w).
Proof.
  revert w. induction n as [|n IH]; intros w Hn; [lia|]. cbn [notify_child_loop_]. wp_step. rewrite get_proc_wp.
  wp_step. rewrite psys_wp. destruct (law_pwrite (p_fd p) w) as [H1 H2].
  destruct (p_write1 E (p_fd p) w) as [r w1]. cbn [fst snd] in *.
  destruct (Z.eqb_spec r 1) as [->|Hr]; [by wp_step; auto|]. unfold proc_errno. wp_step. cbn [snd].
  destruct (Z.eqb_spec (p_errno E w1) EINTR) as [He|He].
  - specialize (H2 Hr He). eapply wp_mono; [apply IH; lia|]. intros a s [H3 H4]. split; [lia|done].
  - wp_step. rewrite proc_fail_wp. wp_step. rewrite upd_proc_wp. wp_step. cbn [fst snd]. eauto 10.
Qed.

Lemma waitpid_loop_wp n p w : pintr w < n ->
  wp (waitpid_loop_ E n) (fun _ s => s.1 = p /\ pintr s.2 <= pintr w) (p, w).
Proof.
  revert w. induction n as [|n IH]; intros w Hn; [lia|]. cbn [waitpid_loop_]. wp_step. rewrite get_proc_wp.
  wp_step. rewrite psys_wp. destruct (law_waitpid (p_pid p) w) as [H1 H2].
  destruct (p_waitpid E (p_pid p) w) as [r w1]. cbn [fst snd] in *. unfold proc_errno. wp_step. cbn [snd].
  destruct (Z.eqb_spec r (-1)) as [Hr|]; cbn [andb]; [|by wp_step].
  destruct (Z.eqb_spec (p_errno E w1) EINTR) as [He|]; [|by wp_step].
  specialize (H2 Hr He). eapply wp_mono; [apply IH; lia|]. intros a s [H3 H4]. split; [done|lia].
Qed.

(** A destroyed worker: nothing of it is left but its events. *)
Definition destroyed p p' : Prop :=
  pwf p' /\ p_st p' = proc_st_uninit_ /\ p_evs p' = p_evs p /\ p_evs_len p' = p_evs_len p /\
  p_is_stop_req p' = p_is_stop_req p.

Lemma destroy_wp p w : length (p_evs p) = proc_evs_maxlen_ -> p_evs_len p <= proc_evs_maxlen_ -> pintr w < fuel ->
  wp (proc_destroy_child_ E fuel) (fun _ s => destroyed p s.1 /\ pintr s.2 <= pintr w) (p, w).
Proof.
  intros Hc Hl Hf. unfold proc_destroy_child_. wp_step. rewrite get_proc_wp. wp_step.
  assert (forall q w', p_evs q = p_evs p -> p_evs_len q = p_evs_len p -> p_is_stop_req q = p_is_stop_req p ->
    pintr w' <= pintr w ->
    wp (psys_ (p_close E (p_fd p)) ;; upd_proc (with_p_fd (-1)%Z) ;;
        psys_ (p_munmap E (p_mmap_start p) (p_mmap_len p)) ;; upd_proc (with_p_mmap_start 0%Z) ;;
        upd_proc (with_p_mmap_len 0) ;; upd_proc (with_p_rw_buf_len 0) ;; upd_proc (with_p_mapped None) ;;
        upd_proc (with_p_st proc_st_uninit_)) (fun _ s => destroyed p s.1 /\ pintr s.2 <= pintr w) (q, w')) as Hrest.
  { intros q w' H1 H2 H3 H4. repeat (wp_step; rewrite ?psys'_wp, ?upd_proc_wp). cbn [fst snd].
    pose proof (law_pclose (p_fd p) w'). pose proof (law_munmap (p_mmap_start p) (p_mmap_len p) (p_close E (p_fd p) w')).
    split; [|lia]. split; [|done]. split; cbn; [congruence|lia|done]. }
  destruct (0 <? p_pid p)%Z; wp_step; [|by apply Hrest].
  rewrite psys'_wp. wp_step. pose proof (law_kill (p_pid p) w).
  eapply wp_mono; [apply waitpid_loop_wp; lia|]. intros _ [q w2] [Hq H2]. cbn [fst snd] in *. subst q. wp_step.
  rewrite upd_proc_wp. apply Hrest; [done..|lia].
Qed.

(** *** What an update reports *)

(** The event of a command that succeeded; the answer to the command to exit
    keeps the placeholder the event was created with. *)
Definition done_types (c : proc_cmd_) : list afs_event :=
  match c with
  | proc_cmd_none_ => []
  | proc_cmd_exit_ => [afs_ev_init]
  | proc_cmd_open_ => [afs_ev_open]
  | proc_cmd_close_ => [afs_ev_close]
  | proc_cmd_fsync_ => [afs_ev_fsync]
  | proc_cmd_write_ => [afs_ev_write]
  | proc_cmd_readall_ => [afs_ev_readall]
  | proc_cmd_mkdir_ => [afs_ev_mkdir]
  | proc_cmd_write_fsync_close_ => [afs_ev_write_fsync_close]
  end.

Definition update_types p (rev : Z) : list afs_event :=
  match p_st p, p_mapped p with
  | proc_st_init_pend_, Some (s, _) =>
      if p_is_stop_req p then [afs_ev_init_fail; afs_ev_stop]
      else if hup_ rev then [afs_ev_init_fail]
      else if in_ rev then [if decide (res s = proc_res_ok_) then afs_ev_init else afs_ev_init_fail]
      else []
  | proc_st_busy_, Some (s, _) =>
      if hup_ rev then [proc_cmd_fail_ev_ (cmd s)]
      else if in_ rev then
        if decide (res s = proc_res_ok_) then done_types (cmd s) else [proc_cmd_fail_ev_ (cmd s)]
      else []
  | proc_st_dead_, _ => if p_is_stop_req p then [afs_ev_stop_fail] else []
  | proc_st_uninit_, _ => if p_is_stop_req p then [afs_ev_stop] else []
  | _, _ => []
  end.

(** What a call of the update leaves behind. *)
Definition upd_post p rev w (r : afs_res) (s : proc_ * W) : Prop :=
  pwf s.1 /\ pintr s.2 <= pintr w /\ p_types s.1 = update_types p rev /\
  (r = afs_ok -> p_st s.1 <> proc_st_uninit_) /\
  (r <> afs_ok -> p_st s.1 = proc_st_uninit_ \/
     (p_st p = proc_st_busy_ /\ p_is_stop_req p = true /\ (p_st s.1 = proc_st_dead_ \/ p_st s.1 = proc_st_avail_))).

Lemma p_types_snoc p l e : take (S (p_evs_len p)) l = p_reported p ++ [e] ->
  p_types (with_p_evs l (with_p_evs_len (S (p_evs_len p)) p)) = p_types p ++ [ev_ty e].
Proof. intros H. unfold p_types, p_reported in *. cbn. by rewrite H, fmap_app. Qed.

(** The worker waits for a command. *)
Definition ready p : Prop :=
  p_st p = proc_st_avail_ /\ exists sh rw, p_mapped p = Some (sh, rw) /\ child_st sh = proc_child_st_idle_.

Lemma proc_send_cmd_wp c p w : pwf p -> pintr w < fuel ->
  wp (proc_send_cmd_ E fuel c) (fun r s => pwf s.1 /\ pintr s.2 <= pintr w /\ p_evs s.1 = p_evs p /\
    p_evs_len s.1 = p_evs_len p /\ p_is_stop_req s.1 = p_is_stop_req p /\
    ((r = afs_ok /\ p_st p = proc_st_avail_ /\ p_st s.1 = proc_st_busy_ /\
       exists sh rw, p_mapped p = Some (sh, rw) /\ p_mapped s.1 = Some (with_cmd c sh, rw) /\
         child_st sh = proc_child_st_idle_) \/
     (r = afs_fail /\ ((p_st p = proc_st_avail_ /\ p_st s.1 = proc_st_dead_) \/ but_fail p s.1) /\
       (ready p -> p_st s.1 = proc_st_dead_)))) (p, w).
Proof.
  intros Hwf Hf. pose proof Hwf as [Hc Hl Hm]. unfold proc_send_cmd_. wp_step. rewrite get_proc_wp.
  destruct (decide (p_st p = proc_st_avail_)) as [Hst|Hst].
  2:{ rewrite (bool_decide_eq_false_2 _ Hst). cbn [negb]. wp_step. rewrite proc_fail_wp. wp_step. cbn [fst snd].
      split; [by eapply pwf_but_fail; [|exact Hwf]; eexists|]. do 4 (split; [done|]). right. split; [done|].
      split; [right; by eexists|]. by intros [? _]. }
  rewrite (bool_decide_eq_true_2 _ Hst). cbn [negb]. rewrite Hst in Hm. destruct Hm as (sh & rw & Hmap & Hrw & Hfd & Ha).
  wp_step. rewrite (get_shared_wp sh rw) by done. destruct (decide (child_st sh = proc_child_st_idle_)) as [Hi|Hi].
  2:{ rewrite (bool_decide_eq_false_2 _ Hi). cbn [negb]. wp_step. rewrite proc_fail_wp. wp_step. cbn [fst snd].
      split; [by eapply pwf_but_fail; [|exact Hwf]; eexists|]. do 4 (split; [done|]). right. split; [done|].
      split; [right; by eexists|]. intros (_ & sh' & rw' & Hm' & Hi'). congruence. }
  rewrite (bool_decide_eq_true_2 _ Hi). cbn [negb]. wp_step. rewrite upd_proc_wp. wp_step.
  rewrite (upd_shared_wp _ sh rw) by done. eapply wp_mono; [apply (notify_loop_wp fuel); done|].
  intros r [q w1] [Hw1 Hr]. cbn [fst snd] in *. destruct Hr as [[-> ->]|[-> [f ->]]].
  - split; [split; cbn; [done|done|eauto 10]|]. do 4 (split; [done|]). left. do 3 (split; [done|]). by exists sh, rw.
  - split; [split; cbn; [done|done|eauto 10]|]. do 4 (split; [done|]). right. split; [done|]. by split; [left|].
Qed.

(** The state after one more event. *)
Definition ev_added (ty : afs_event) p p' : Prop :=
  pwf p' /\ p_types p' = p_types p ++ [ty] /\ exists l, p' = with_p_evs l (with_p_evs_len (S (p_evs_len p)) p).

Lemma add_ev_wp line stmt ty Q p w : pwf p -> p_evs_len p < proc_evs_maxlen_ ->
  (forall p', ev_added ty p p' -> Q (p_evs_len p) (p', w)) -> wp (must_add_ev_ line stmt ty) Q (p, w).
Proof.
  intros [Hc Hl Hm] Hlt HQ. apply must_add_ev_wp; [done..|]. intros l e Hlen Ht Hty _. apply HQ.
  split; [by split; cbn; [|lia|]|]. split; [|by eexists]. rewrite (p_types_snoc p l e Ht). by rewrite Hty.
Qed.

Lemma p_types_nil p : p_evs_len p = 0 -> p_types p = [].
Proof. intros H. unfold p_types, p_reported. by rewrite H. Qed.

(** The end of an update that destroys the worker and then reports [tys]. *)
Lemma destroyed_post p rev w q w1 : pwf q -> p_st q = proc_st_uninit_ -> pintr w1 <= pintr w ->
  p_types q = update_types p rev -> upd_post p rev w afs_fail (q, w1).
Proof. intros H1 H2 H3 H4. split; [done|]. split; [done|]. split; [done|]. split; [done|]. intros _. by left. Qed.

Lemma p_types_frame p q : p_evs q = p_evs p -> p_evs_len q = p_evs_len p -> p_types q = p_types p.
Proof. intros H1 H2. unfold p_types, p_reported. by rewrite H1, H2. Qed.

(** Destroy the worker, report one event, note the failure. *)
Lemma destroy_report_wp eline stmt ty line msg rev p0 p w w0 : length (p_evs p) = proc_evs_maxlen_ -> p_evs_len p = 0 ->
  pintr w < fuel -> pintr w <= pintr w0 -> update_types p0 rev = [ty] ->
  wp (proc_destroy_child_ E fuel ;; must_add_ev_ eline stmt ty ;; proc_fail E line msg ;; mret afs_fail) (upd_post p0 rev w0) (p, w).
Proof.
  intros Hc He Hf Hw Hty. wp_step. eapply wp_mono; [apply destroy_wp; [done|rewrite He; lia|done]|].
  intros _ [q w1] [(Hq & Hst1 & Hev & Hevl & _) Hw1]. cbn [fst snd] in *. wp_step.
  apply add_ev_wp; [done|rewrite Hevl, He; unfold proc_evs_maxlen_; lia|]. intros q1 (Hq1 & Ht1 & l & ->). wp_step.
  rewrite proc_fail_wp. wp_step. apply destroyed_post; [by eapply pwf_but_fail; [eexists|]|done|lia|].
  change (p_types (with_p_fail _ ?x)) with (p_types x). rewrite Ht1, Hty, p_types_nil; [done|congruence].
Qed.

Lemma upd_init_pend_wp rev p w : pwf p -> p_st p = proc_st_init_pend_ -> p_evs_len p = 0 -> pintr w < fuel ->
  wp (proc_update_init_pend_ E fuel rev) (upd_post p rev w) (p, w).
Proof.
  intros Hwf Hst He Hf. pose proof Hwf as [Hc Hl Hm]. rewrite Hst in Hm.
  destruct Hm as (sh & rw & Hmap & Hrw & Hfd & Ha).
  pose proof (eq_refl (update_types p rev)) as Hty. unfold update_types at 2 in Hty. rewrite Hst, Hmap in Hty.
  unfold proc_update_init_pend_. wp_step. rewrite get_proc_wp. destruct (p_is_stop_req p) eqn:Hstop.
  - wp_step. rewrite upd_proc_wp. wp_step. eapply wp_mono; [apply destroy_wp; cbn; done|].
    intros _ [q w1] [(Hq & Hst1 & Hev & Hevl & _) Hw1]. cbn [fst snd with_p_is_stop_req p_evs p_evs_len] in *.
    wp_step. apply add_ev_wp; [done|rewrite Hevl, He; unfold proc_evs_maxlen_; lia|]. intros q1 (Hq1 & Ht1 & l & ->).
    wp_step. apply add_ev_wp; [done|cbn; rewrite Hevl, He; unfold proc_evs_maxlen_; lia|].
    intros q2 (Hq2 & Ht2 & l2 & ->). wp_step. apply destroyed_post; [done|done|done|].
    rewrite Ht2, Ht1, Hty, p_types_nil; [done|congruence].
  - destruct (hup_ rev); [by apply destroy_report_wp|]. destruct (in_ rev).
    2:{ wp_step. split; [done|]. split; [done|]. split; [by rewrite Hty, p_types_nil|]. cbn. by rewrite Hst. }
    wp_step. rewrite psys'_wp. wp_step. rewrite (get_shared_wp sh rw) by done. pose proof (law_pread (p_fd p) w) as Hrd.
    destruct (decide (res sh = proc_res_ok_)); [|by apply destroy_report_wp; [done..|lia|lia|]].
    wp_step. rewrite upd_proc_wp. wp_step.
    apply add_ev_wp; [split; cbn; eauto 10|cbn; rewrite He; unfold proc_evs_maxlen_; lia|].
    intros q1 (Hq1 & Ht1 & l & ->). wp_step. split; [done|]. split; [done|]. split; [|done].
    cbn [fst]. rewrite Ht1, Hty, p_types_nil; done.
Qed.

Lemma upd_avail_wp rev p w : pwf p -> p_st p = proc_st_avail_ -> p_evs_len p = 0 -> pintr w < fuel ->
  wp (proc_update_avail_ E fuel rev) (upd_post p rev w) (p, w).
Proof.
  intros Hwf Hst He Hf. pose proof Hwf as [Hc Hl Hm].
  assert (update_types p rev = []) as Hty by (unfold update_types; by rewrite Hst).
  unfold proc_update_avail_. destruct (hup_ rev); wp_step.
  - eapply wp_mono; [by apply destroy_wp|]. intros _ [q w1] [(Hq & Hst1 & Hev & Hevl & _) Hw1]. cbn [fst snd] in *.
    wp_step. rewrite proc_fail_wp. wp_step. apply destroyed_post; [by eapply pwf_but_fail; [eexists|]|done|done|].
    rewrite Hty. apply p_types_nil. cbn. congruence.
  - split; [done|]. split; [done|]. split; [by rewrite Hty, p_types_nil|]. cbn. by rewrite Hst.
Qed.

Lemma upd_dead_wp rev p w : pwf p -> p_st p = proc_st_dead_ -> p_evs_len p = 0 -> pintr w < fuel ->
  wp (proc_update_dead_ E fuel) (upd_post p rev w) (p, w).
Proof.
  intros Hwf Hst He Hf. pose proof Hwf as [Hc Hl Hm].
  assert (update_types p rev = if p_is_stop_req p then [afs_ev_stop_fail] else []) as Hty
    by (unfold update_types; by rewrite Hst).
  unfold proc_update_dead_. wp_step. rewrite get_proc_wp.
  assert (forall q, pwf q -> p_types q = update_types p rev -> wp (proc_destroy_child_ E fuel ;;
    proc_fail E 1167 (lit "child is dead (no errno)") ;; mret afs_fail) (upd_post p rev w) (q, w)) as Hrest.
  { intros q [Hqc Hql Hqm] Hqt. wp_step. eapply wp_mono; [by apply destroy_wp|].
    intros _ [q1 w1] [(Hq & Hst1 & Hev & Hevl & _) Hw1]. cbn [fst snd] in *. wp_step. rewrite proc_fail_wp. wp_step.
    apply destroyed_post; [by eapply pwf_but_fail; [eexists|]|done|done|]. rewrite <- Hqt. by apply p_types_frame. }
  destruct (p_is_stop_req p); wp_step;
    [|pose proof (Hrest p Hwf ltac:(by rewrite Hty, p_types_nil)) as H'; autorewrite with cm in H'; exact H'].
  rewrite upd_proc_wp. wp_step. apply add_ev_wp; [by split; cbn|cbn; rewrite He; unfold proc_evs_maxlen_; lia|].
  intros q1 (Hq1 & Ht1 & l & ->). wp_step.
  pose proof (Hrest _ Hq1 ltac:(by rewrite Ht1, Hty, p_types_nil)) as H'. autorewrite with cm in H'. exact H'.
Qed.

(** The worker is available again, and told to exit if a stop was requested. *)
Lemma answer_end_wp rev p w0 q w : pwf q -> p_st p = proc_st_busy_ -> p_st q = proc_st_busy_ ->
  p_types q = update_types p rev -> p_is_stop_req q = p_is_stop_req p -> pintr w < fuel -> pintr w <= pintr w0 ->
  wp (upd_proc (with_p_st proc_st_avail_) ;; p ← get_proc;
      if p_is_stop_req p then proc_send_cmd_ E fuel proc_cmd_exit_ else mret afs_ok) (upd_post p rev w0) (q, w).
Proof.
  intros [Hc Hl Hm] Hp Hq Hty Hs Hf Hw. wp_step. rewrite upd_proc_wp. wp_step. rewrite get_proc_wp. cbn [with_p_st p_is_stop_req].
  rewrite Hq in Hm. assert (pwf (with_p_st proc_st_avail_ q)) as Hwf by by split.
  rewrite Hs. destruct (p_is_stop_req p) eqn:Hstop.
  - eapply wp_mono; [by apply proc_send_cmd_wp|].
    intros r [q1 w1] (Hq1 & Hw1 & He & Hel & _ & Hr). cbn [fst snd] in *.
    split; [done|]. split; [cbn; lia|]. split; [rewrite <- Hty; by apply p_types_frame|]. cbn [fst].
    destruct Hr as [(-> & _ & -> & _)|(-> & [[_ ->]|[f ->]] & _)]; (split; [done|]); [done|..]; intros _; right;
      (split; [done|]); (split; [done|]); [by left|by right].
  - wp_step. split; [done|]. split; [done|]. split; [done|]. cbn. done.
Qed.

Lemma answer_wp rev p w : pwf p -> p_st p = proc_st_busy_ -> p_evs_len p = 0 -> hup_ rev = false -> in_ rev = true ->
  forall w1, pintr w1 < fuel -> pintr w1 <= pintr w ->
  wp (proc_update_answer_ E fuel) (upd_post p rev w) (p, w1).
Proof.
  intros Hwf Hst He Hh Hin w1 Hf Hw. pose proof Hwf as [Hc Hl Hm]. rewrite Hst in Hm.
  destruct Hm as (sh & rw & Hmap & Hrw & Hfd & Ha).
  pose proof (eq_refl (update_types p rev)) as Hty. unfold update_types at 2 in Hty. rewrite Hst, Hmap, Hh, Hin in Hty.
  pose proof (answer_end_wp rev p w) as Hend.
  unfold proc_update_answer_. rewrite wp_bind, (get_shared_wp sh rw), wp_bind by done.
  destruct (decide (res sh = proc_res_ok_)) as [Hres|Hres].
  2:{ wp_step. rewrite upd_proc_wp. wp_step.
      apply add_ev_wp; [split; cbn; [done|done|rewrite Hst; eauto 10]|cbn; rewrite He; unfold proc_evs_maxlen_; lia|].
      intros q (Hq & Ht & l & ->). wp_step.
      pose proof (Hend _ w1 Hq Hst Hst ltac:(by rewrite Ht, Hty, p_types_nil) eq_refl Hf Hw) as H'.
      autorewrite with cm in H'. exact H'. }
  assert (forall c, cmd sh = c -> c <> proc_cmd_none_ -> c <> proc_cmd_exit_ ->
    wp (i ← must_add_ev_ 1100 (lit "ev") afs_ev_init; p ← get_proc;
        upd_ev i (done_ev_ c sh (p_mmap_start p + Z.of_nat sizeof_proc_shared_)) ;;
        upd_shared (with_cmd proc_cmd_none_) ;; mret false)
      (fun ex s => wp (if (ex : bool) then mret afs_fail
        else upd_proc (with_p_st proc_st_avail_) ;; p ← get_proc;
          if p_is_stop_req p then proc_send_cmd_ E fuel proc_cmd_exit_ else mret afs_ok) (upd_post p rev w) s) (p, w1)) as Hcmd.
  { intros c Hcm Hn Hx. rewrite wp_bind. apply must_add_ev_wp; [done|rewrite He; unfold proc_evs_maxlen_; lia|].
    intros l e Hlen Ht _ _. rewrite He in *. unfold p_reported in Ht. rewrite He in Ht. cbn in Ht.
    destruct l as [|e0 l]; [done|]. cbn in Ht. injection Ht as ->.
    rewrite wp_bind, get_proc_wp, wp_bind. unfold upd_ev. rewrite wp_bind, get_proc_wp. cbn [with_p_evs with_p_evs_len p_evs lookup list_lookup].
    rewrite upd_proc_wp, wp_bind, (upd_shared_wp _ sh rw), wp_ret by done.
    apply Hend; [|done|done| |done|done|done].
    - split; cbn; [done|unfold proc_evs_maxlen_; lia|rewrite Hst; eauto 10].
    - rewrite Hty, Hcm. unfold p_types, p_reported. cbn. by destruct c. }
  destruct (cmd sh) eqn:Hcm; try (by apply Hcmd).
  - rewrite wp_bind, (upd_shared_wp _ sh rw), wp_ret by done. apply Hend; [|done|done| |done|done|done].
    + split; cbn; [done|done|rewrite Hst; eauto 10].
    + rewrite Hty. by apply p_types_nil.
  - wp_step. apply add_ev_wp; [done|rewrite He; unfold proc_evs_maxlen_; lia|]. intros q (Hq & Ht & l & ->).
    wp_step. rewrite upd_proc_wp. wp_step. destruct Hq as [Hqc Hql _].
    eapply wp_mono; [by apply destroy_wp|]. intros _ [q w2] [(Hq & Hst1 & Hev & Hevl & Hsr) Hw2].
    cbn [fst snd] in *. wp_step. rewrite get_proc_wp. cbn in Hsr. rewrite Hsr. wp_step. rewrite proc_fail_wp. wp_step.
    apply destroyed_post; [by eapply pwf_but_fail; [eexists|]|done|lia|].
    rewrite (p_types_nil p He) in Ht. cbn [app] in Ht. rewrite Hty. cbn [done_types]. rewrite <- Ht. by apply p_types_frame.
Qed.

Lemma upd_busy_wp rev p w : pwf p -> p_st p = proc_st_busy_ -> p_evs_len p = 0 -> pintr w < fuel ->
  wp (proc_update_busy_ E fuel rev) (upd_post p rev w) (p, w).
Proof.
  intros Hwf Hst He Hf. pose proof Hwf as [Hc Hl Hm]. rewrite Hst in Hm.
  destruct Hm as (sh & rw & Hmap & Hrw & Hfd & Ha).
  unfold proc_update_busy_. destruct (hup_ rev) eqn:Hh; [|destruct (in_ rev) eqn:Hin].
  - wp_step. rewrite (get_shared_wp sh rw) by done. wp_step.
    apply add_ev_wp; [done|rewrite He; unfold proc_evs_maxlen_; lia|]. intros q (Hq & Ht & l & ->). wp_step.
    destruct Hq as [Hqc Hql _]. eapply wp_mono; [by apply destroy_wp|].
    intros _ [q w1] [(Hq & Hst1 & Hev & Hevl & _) Hw1]. cbn [fst snd] in *. wp_step. rewrite proc_fail_wp. wp_step.
    apply destroyed_post; [by eapply pwf_but_fail; [eexists|]|done|done|].
    assert (update_types p rev = [proc_cmd_fail_ev_ (cmd sh)]) as -> by (unfold update_types; by rewrite Hst, Hmap, Hh).
    rewrite (p_types_nil p He) in Ht. cbn [app] in Ht. rewrite <- Ht. by apply p_types_frame.
  - wp_step. rewrite get_proc_wp. wp_step. rewrite psys'_wp. pose proof (law_pread (p_fd p) w).
    apply answer_wp; [done..|lia|lia].
  - wp_step. split; [done|]. split; [done|]. split; [|cbn; by rewrite Hst].
    cbn [fst]. unfold update_types. by rewrite Hst, Hmap, Hh, Hin, p_types_nil.
Qed.

Lemma proc_update_wp fds p w : pwf p -> pintr w < fuel ->
  wp (proc_update_ E fuel fds) (upd_post p (revents_of_ (p_fd p) fds) w) (p, w).
Proof.
  intros Hwf Hf. pose proof Hwf as [Hc Hl Hm]. unfold proc_update_. wp_step. rewrite get_proc_wp. wp_step.
  rewrite upd_proc_wp. set (p0 := with_p_evs_len 0 p). set (rev := revents_of_ (p_fd p) fds).
  assert (pwf p0) as Hwf0 by (split; cbn; [done|lia|done]).
  assert (forall r s, upd_post p0 rev w r s -> upd_post p rev w r s) as Hm0 by done.
  destruct (p_st p) eqn:Hst.
  - assert (update_types p rev = if p_is_stop_req p then [afs_ev_stop] else []) as Hty
      by (unfold update_types; by rewrite Hst).
    assert (pwf (with_p_is_stop_req false p0)) as Hwf1 by (split; cbn; [done|lia|by rewrite Hst]).
    destruct (p_is_stop_req p); wp_step.
    + rewrite upd_proc_wp. wp_step. apply add_ev_wp; [done|cbn; unfold proc_evs_maxlen_; lia|].
      intros q (Hq & Ht & l & ->). wp_step. rewrite proc_fail_wp. wp_step.
      apply destroyed_post; [by eapply pwf_but_fail; [eexists|]|done|done|]. rewrite Hty.
      change (p_types (with_p_fail _ ?x)) with (p_types x). by rewrite Ht, p_types_nil.
    + rewrite proc_fail_wp. wp_step. apply destroyed_post; [by eapply pwf_but_fail; [eexists|]|done|done|].
      rewrite Hty. by apply p_types_nil.
  - eapply wp_mono; [by apply upd_init_pend_wp|exact Hm0].
  - eapply wp_mono; [by apply upd_avail_wp|exact Hm0].
  - eapply wp_mono; [by apply upd_busy_wp|exact Hm0].
  - eapply wp_mono; [by apply (upd_dead_wp rev)|exact Hm0].
Qed.

(** *** Start and stop *)
Lemma mmap_len_spec pgs : 0 < pgs ->
  (exists k, mmap_len_ pgs = k * pgs) /\ sizeof_proc_shared_ + rw_buf_len_ <= mmap_len_ pgs /\
  mmap_len_ pgs < sizeof_proc_shared_ + rw_buf_len_ + pgs.
Proof.
  intros Hp. unfold mmap_len_. set (n := sizeof_proc_shared_ + rw_buf_len_).
  assert (0 < n) by (subst n; unfold sizeof_proc_shared_; lia).
  pose proof (Nat.div_mod_eq (n - 1) pgs) as H1. pose proof (Nat.mod_upper_bound (n - 1) pgs ltac:(lia)) as H2.
  split; [by eexists|]. rewrite Nat.mul_add_distr_r. lia.
Qed.

(** A worker that has just been started. *)
Definition started p : Prop :=
  pwf p /\ p_st p = proc_st_init_pend_ /\ p_evs_len p = 0 /\ p_is_stop_req p = false /\ (0 < p_pid p)%Z /\
  p_mapped p = Some (shared_init_, replicate (p_rw_buf_len p) 0%Z) /\
  p_rw_buf_len p + sizeof_proc_shared_ = p_mmap_len p /\ p_mmap_len p = mmap_len_ (p_pagesize E).

Lemma proc_init_wp p w : length (p_evs p) = proc_evs_maxlen_ -> pintr w < fuel ->
  wp (proc_init_ E fuel) (fun r s => pintr s.2 <= pintr w /\ length (p_evs s.1) = proc_evs_maxlen_ /\
    p_evs_len s.1 = 0 /\ ((r = afs_ok /\ started s.1) \/
      (r = afs_fail /\ (p_st s.1 = p_st p \/ (pwf s.1 /\ p_st s.1 = proc_st_dead_))))) (p, w).
Proof.
  intros Hc Hf. unfold proc_init_. repeat (wp_step; rewrite ?upd_proc_wp, ?psys_wp).
  pose proof (law_socketpair w) as H1. pose proof (law_socketpair_fd w) as Hsv.
  destruct (p_socketpair E w) as [[[sv0 sv1]|] w1]; cbn [fst snd] in *; wp_step.
  2:{ rewrite proc_fail_wp. wp_step. cbn [fst snd]. auto 10. }
  destruct (Hsv sv0 sv1 eq_refl) as [Hsv0 _]. rewrite psys_wp. repeat (wp_step; rewrite ?upd_proc_wp, ?psys_wp, ?psys'_wp).
  set (w2 := p_setfd E sv0 _ _). set (w3 := p_setfd E sv1 _ _).
  assert (pintr w2 <= pintr w) as Hw2.
  { etransitivity; [apply law_setfd|]. etransitivity; [apply law_getfd|done]. }
  assert (pintr w3 <= pintr w) as Hw3.
  { etransitivity; [apply law_setfd|]. etransitivity; [apply law_getfd|done]. }
  clearbody w3. clear w2 Hw2. set (len := mmap_len_ (p_pagesize E)).
  pose proof (law_mmap len w3) as H4. pose proof (law_mmap_addr len w3) as Haddr.
  destruct (p_mmap E len w3) as [[start|] w4]; cbn [fst snd] in *; wp_step.
  2:{ rewrite proc_fail_wp. wp_step. rewrite psys'_wp. wp_step. rewrite psys'_wp. wp_step. cbn [fst snd].
      pose proof (law_pclose sv0 w4). pose proof (law_pclose sv1 (p_close E sv0 w4)). split; [lia|]. auto 10. }
  rewrite upd_proc_wp. wp_step. rewrite upd_proc_wp. wp_step. rewrite upd_proc_wp. wp_step. rewrite psys_wp.
  pose proof (law_fork w4) as H5. pose proof (law_fork_pid w4) as Hpid.
  destruct (p_fork E w4) as [[pid|] w5]; cbn [fst snd] in *; wp_step.
  2:{ rewrite proc_fail_wp. repeat (wp_step; rewrite ?psys'_wp, ?upd_proc_wp). cbn [fst snd].
      pose proof (law_pclose sv0 w5). pose proof (law_pclose sv1 (p_close E sv0 w5)).
      pose proof (law_munmap start len (p_close E sv1 (p_close E sv0 w5))). split; [lia|]. auto 10. }
  rewrite psys'_wp. wp_step. do 3 (rewrite upd_proc_wp; wp_step).
  erewrite upd_shared_wp by reflexivity. pose proof (law_pclose sv1 w5).
  eapply wp_mono; [apply notify_loop_wp; lia|]. intros r [q w6] [Hw6 Hr]. cbn [fst snd] in *.
  pose proof (mmap_len_spec (p_pagesize E) law_pagesize) as (_ & Hlen & _). fold len in Hlen.
  assert (sizeof_proc_shared_ <= len) as Hlen' by (unfold rw_buf_len_, PAGESIZE, sizeof_proc_shared_ in *; lia).
  split; [lia|]. destruct Hr as [[-> ->]|[-> [f ->]]].
  - split; [done|]. split; [done|]. left. split; [done|]. split; [|split; [done|]].
    + split; cbn; [done|lia|]. eexists _, _. split; [done|]. rewrite length_replicate.
      split; [done|]. split; [lia|by apply Haddr].
    + cbn. split; [done|]. split; [done|]. split; [by apply Hpid|]. split; [done|]. split; [lia|done].
  - split; [done|]. split; [done|]. right. split; [done|]. right. split; [|done].
    split; cbn; [done|lia|]. eexists _, _. split; [done|]. rewrite length_replicate. split; [done|]. split; [lia|by apply Haddr].
Qed.

Lemma proc_stop_prep_wp p w : pwf p -> pintr w < fuel ->
  wp (proc_stop_prep_ E fuel) (fun r s => pwf s.1 /\ pintr s.2 <= pintr w /\ p_is_stop_req s.1 = true) (p, w).
Proof.
  intros Hwf Hf. pose proof Hwf as [Hc Hl Hm]. unfold proc_stop_prep_. wp_step. rewrite get_proc_wp.
  assert (pwf (with_p_is_stop_req true p)) as Hwf1 by by split.
  destruct (p_is_stop_req p) eqn:Hs; cbn [negb]; wp_step.
  { rewrite proc_fail_wp. wp_step. split; [by eapply pwf_but_fail; [eexists|]|]. by split. }
  rewrite upd_proc_wp. destruct (decide _); [|destruct (decide _)].
  - eapply wp_mono; [by apply proc_send_cmd_wp|]. intros r s (H1 & H2 & _ & _ & H3 & _). by split.
  - wp_step. split; [done|]. by split.
  - wp_step. rewrite proc_fail_wp. wp_step. split; [by eapply pwf_but_fail; [eexists|]|]. by split.
Qed.
End props.

(** ** A small kernel

    [k_intr] calls are still interrupted; then every call succeeds, or, when
    [k_broken] is set, the write of a byte fails. *)
Record kernel := { k_intr : nat; k_errno : Z; k_broken : bool }.

Definition k_call (ok : Z) (w : kernel) : Z * kernel :=
  match k_intr w with
  | S n => ((-1)%Z, {| k_intr := n; k_errno := EINTR; k_broken := k_broken w |})
  | O => if k_broken w then ((-1)%Z, {| k_intr := 0; k_errno := 32; k_broken := true |}) else (ok, w)
  end.

Definition kernel_env : os_penv kernel := {|
  p_errno := k_errno;
  p_pagesize := 4096;
  p_socketpair w := (Some (4, 5)%Z, w);
  p_getfd _ w := (0%Z, w);
  p_setfd _ _ w := w;
  p_mmap _ w := (Some 65536%Z, w);
  p_munmap _ _ w := w;
  p_fork w := (Some 100%Z, w);
  p_close _ w := w;
  p_write1 _ := k_call 1;
  p_read1 _ w := w;
  p_kill _ w := w;
  p_waitpid _ := k_call 100;
  p_malloc _ w := (true, w)
|}.

#[export] Instance kernel_laws : ParentLaws kernel_env.
Proof.
  refine {| pintr := k_intr |}; cbn; try done; try lia; try (intros; simplify_eq; lia).
  - intros _ w. unfold k_call. destruct (k_intr w) eqn:Hi; [destruct (k_broken w)|]; cbn; rewrite ?Hi; split; try lia; done.
  - intros _ w. unfold k_call. destruct (k_intr w) eqn:Hi; [destruct (k_broken w)|]; cbn; rewrite ?Hi; split; try lia; done.
Defined.

Definition ev0 : afs_ev := {| ev_ty := afs_ev_init; ev_fd := 0; ev_len := 0; ev_data := 0 |}.
Definition fail0 : sob_fail := {| fail_line := 0; the_errno := 0; fail_msg := [] |}.

(** A worker in state [t] whose shared record holds command [c] and result [r]. *)
Definition worker (t : proc_st_) (stop : bool) (c : proc_cmd_) (r : proc_res_) : proc_ := {|
  p_fail := fail0; p_is_stop_req := stop; p_st := t; p_evs := replicate 3 ev0; p_evs_len := 0;
  p_mapped := Some ({| cmd := c; write_len := 0; open_flags := 0; res := r; child_st := proc_child_st_idle_;
                       written := 7; read_len := 0; sh_fail := fail0 |}, replicate 8 0%Z);
  p_rw_buf_len := 8; p_mmap_start := 65536; p_mmap_len := 80; p_pid := 100; p_fd := 4 |}.

Lemma worker_pwf t stop c r : t <> proc_st_uninit_ -> pwf (worker t stop c r).
Proof.
  intros Ht. split; cbn; [done|lia|]. destruct t; try done; (eexists _, _; split; [done|]; by cbn).
Defined.

(** ** Updates *)

(** C18. An update of a worker, whatever the worker left in the shared memory:
    it returns - no NULL dereference, no overflow of the event array, and the
    loops end - with the invariant kept, and reports exactly the events of
    [update_types].  When it reports success the worker still exists; when it
    reports failure the worker has been killed, reaped and its mapping and
    socket released - except that it can be left as it is when it was to be told
    to exit and that failed. *)
Theorem proc_update_reports {W} (E : os_penv W) `{!ParentLaws E} fuel fds p w : pwf p -> pintr w < fuel ->
  exists r p' w', proc_update_ E fuel fds (p, w) = Ret (r, (p', w')) /\ pwf p' /\
    p_types p' = update_types p (revents_of_ (p_fd p) fds) /\
    (r = afs_ok -> p_st p' <> proc_st_uninit_) /\
    (r <> afs_ok -> p_st p' = proc_st_uninit_ \/
       (p_st p = proc_st_busy_ /\ p_is_stop_req p = true /\ (p_st p' = proc_st_dead_ \/ p_st p' = proc_st_avail_))).
Proof.
  intros Hwf Hf. destruct (wp_Ret _ _ _ (proc_update_wp E fuel fds p w Hwf Hf)) as
    (r & [p' w'] & Hr & H1 & _ & H2 & H3 & H4). by exists r, p', w'.
Qed.

Lemma proc_update_reports_witness :
  exists r p' w', proc_update_ kernel_env 3 [{| pfd_fd := 4; pfd_events := POLLIN; pfd_revents := POLLIN |}]
      (worker proc_st_busy_ false proc_cmd_write_ proc_res_ok_, {| k_intr := 2; k_errno := 0; k_broken := false |}) =
      Ret (r, (p', w')) /\ pwf p' /\ p_types p' = [afs_ev_write] /\
    (r = afs_ok -> p_st p' <> proc_st_uninit_) /\
    (r <> afs_ok -> p_st p' = proc_st_uninit_ \/
       (proc_st_busy_ = proc_st_busy_ /\ false = true /\ (p_st p' = proc_st_dead_ \/ p_st p' = proc_st_avail_))).
Proof.
  apply (proc_update_reports kernel_env 3 [{| pfd_fd := 4; pfd_events := POLLIN; pfd_revents := POLLIN |}]
    (worker proc_st_busy_ false proc_cmd_write_ proc_res_ok_)); [by apply worker_pwf|cbn; lia].
Defined.

(** C28. Starting a worker: whatever the memory held, [proc_init_] returns, and
    when it reports success the worker is waiting to be heard of, and its mapping
    is a whole number of pages with room for the shared record and a zeroed
    buffer of at least [rw_buf_len_] bytes, less than a page more. *)
Theorem proc_init_maps {W} (E : os_penv W) `{!ParentLaws E} fuel p w :
  length (p_evs p) = proc_evs_maxlen_ -> pintr w < fuel ->
  exists r p' w', proc_init_ E fuel (p, w) = Ret (r, (p', w')) /\
    (r = afs_ok -> pwf p' /\ p_st p' = proc_st_init_pend_ /\ p_types p' = [] /\
       p_mapped p' = Some (shared_init_, replicate (p_rw_buf_len p') 0%Z) /\
       (exists k, p_mmap_len p' = k * p_pagesize E) /\ p_mmap_len p' = sizeof_proc_shared_ + p_rw_buf_len p' /\
       rw_buf_len_ <= p_rw_buf_len p' < rw_buf_len_ + p_pagesize E).
Proof.
  intros Hc Hf. destruct (wp_Ret _ _ _ (proc_init_wp E fuel p w Hc Hf)) as (r & [p' w'] & Hr & _ & _ & _ & H).
  exists r, p', w'. split; [done|]. intros ->. destruct H as [[_ (H1 & H2 & H3 & _ & _ & H4 & H5 & H6)]|[? _]]; [|done].
  destruct (mmap_len_spec (p_pagesize E) law_pagesize) as (H7 & H8 & H9). cbn [fst] in *. rewrite <- H6 in *.
  split; [done|]. split; [done|]. split; [by apply p_types_nil|]. split; [done|]. split; [done|]. split; [lia|].
  split; [unfold rw_buf_len_ in *; lia|lia].
Qed.

Lemma proc_init_maps_witness :
  exists r p' w', proc_init_ kernel_env 3
      (worker proc_st_uninit_ true proc_cmd_exit_ proc_res_ok_, {| k_intr := 2; k_errno := 0; k_broken := false |}) =
      Ret (r, (p', w')) /\
    (r = afs_ok -> pwf p' /\ p_st p' = proc_st_init_pend_ /\ p_types p' = [] /\
       p_mapped p' = Some (shared_init_, replicate (p_rw_buf_len p') 0%Z) /\
       (exists k, p_mmap_len p' = k * p_pagesize kernel_env) /\ p_mmap_len p' = sizeof_proc_shared_ + p_rw_buf_len p' /\
       rw_buf_len_ <= p_rw_buf_len p' < rw_buf_len_ + p_pagesize kernel_env).
Proof. apply (proc_init_maps kernel_env 3); [done|cbn; lia]. Defined.

(** C38. The end of a requested stop is not reported: when the worker has
    acknowledged the command to exit, the update clears the request before it
    asks whether there was one, so that [afs_ev_stop] is never among its events;
    the placeholder [afs_ev_init] is. *)
Theorem proc_exit_unreported {W} (E : os_penv W) `{!ParentLaws E} fuel fds p w s rw :
  pwf p -> pintr w < fuel -> p_st p = proc_st_busy_ -> p_mapped p = Some (s, rw) -> cmd s = proc_cmd_exit_ ->
  res s = proc_res_ok_ -> hup_ (revents_of_ (p_fd p) fds) = false -> in_ (revents_of_ (p_fd p) fds) = true ->
  exists r p' w', proc_update_ E fuel fds (p, w) = Ret (r, (p', w')) /\ p_types p' = [afs_ev_init].
Proof.
  intros Hwf Hf Hst Hm Hc Hres Hh Hi. destruct (wp_Ret _ _ _ (proc_update_wp E fuel fds p w Hwf Hf)) as
    (r & [p' w'] & Hr & _ & _ & H2 & _). exists r, p', w'. split; [done|]. cbn [fst] in H2. rewrite H2.
  unfold update_types. rewrite Hst, Hm, Hh, Hi, decide_True by done. by rewrite Hc.
Qed.

Lemma proc_exit_unreported_witness :
  exists r p' w', proc_update_ kernel_env 3 [{| pfd_fd := 4; pfd_events := POLLIN; pfd_revents := POLLIN |}]
      (worker proc_st_busy_ true proc_cmd_exit_ proc_res_ok_, {| k_intr := 0; k_errno := 0; k_broken := false |}) =
      Ret (r, (p', w')) /\ p_types p' = [afs_ev_init].
Proof.
  eapply (proc_exit_unreported kernel_env 3 [{| pfd_fd := 4; pfd_events := POLLIN; pfd_revents := POLLIN |}]
    (worker proc_st_busy_ true proc_cmd_exit_ proc_res_ok_)); [by apply worker_pwf|cbn; lia|done..].
Defined.

(** An update can report failure for a worker it has not destroyed: when a
    stop is pending, the worker answers a command, and it cannot be told to exit,
    the result is [afs_fail] - on which the caller frees the record - while the
    process, its socket and its mapping are still there. *)
Example proc_stop_leaks :
  (fun '(r, (p, _)) => (r, p_st p, p_pid p, p_fd p, p_mmap_start p)) <$>
    ret_of (proc_update_ kernel_env 1 [{| pfd_fd := 4; pfd_events := POLLIN; pfd_revents := POLLIN |}]
      (worker proc_st_busy_ true proc_cmd_close_ proc_res_ok_, {| k_intr := 0; k_errno := 0; k_broken := true |})) =
  Some (afs_fail, proc_st_dead_, 100%Z, 4%Z, 65536%Z).
Proof. vm_compute. reflexivity. Qed.
