(* ===== verification/AfsProto.v ===== *)
(** * The parent and its worker together

    The calls of the parent ([AfsProc]) and the commands of the worker
    ([AfsChild]) as one transition system: the two sides share the mapping and a
    pair of byte streams, and take steps in any order.  The parent's kernel is any
    one that obeys [ParentLaws] and [ChanLaws]; the worker may die at any moment,
    and [poll] reports a hang-up once it is gone.  The theorems say that every
    command that was sent is executed at most once and reported exactly once, in
    order, and with the worker's own result unless the worker was found gone; and
    that a worker that is alive answers. *)

From stdpp Require Import base list numbers strings option relations.
From S2P Require Import Prelude AfsChild AfsChildProps AfsProc AfsProcProps.

(** ** What a command of the worker keeps *)
Section keeps.
Context {W : Type} (E : os_env W).
Implicit Types (c : child W).

(** The command stays in place, the buffer keeps its size, there is a result. *)
Definition keeps c (r : proc_res_) c' : Prop :=
  cmd (c_sh c') = cmd (c_sh c) /\ length (c_rw c') = length (c_rw c) /\ r <> proc_res_none_.

Ltac kstep := unfold csys, csys_, c_fail, c_errno, rw_str, rw_bytes, upd_sh, set_fd, set_rw, set_w; autorewrite with cm;
  cbv beta; cbn [c_sh c_rw c_fd c_w fst snd].
Ltac kif := match goal with
  | |- pwp (if ?b then _ else _) _ _ => destruct b
  | |- pwp (match ?o with Some _ => _ | None => _ end) _ _ => destruct o
  end.
Ltac kdone := by repeat split; cbn; rewrite ?length_app, ?length_take, ?length_drop; (lia || done).
Ltac kauto := repeat first [progress kstep | kif | kdone].

Lemma keeps_trans c c1 r c2 :
  cmd (c_sh c1) = cmd (c_sh c) -> length (c_rw c1) = length (c_rw c) -> keeps c1 r c2 -> keeps c r c2.
Proof. intros H1 H2 (H3 & H4 & H5). by repeat split; [congruence|congruence|]. Qed.

Lemma write_loop_keeps fuel x off len c :
  pwp (write_loop_ E fuel x off len)
    (fun _ c' => cmd (c_sh c') = cmd (c_sh c) /\ length (c_rw c') = length (c_rw c)) c.
Proof.
  revert off len c. induction fuel as [|fuel IH]; intros off len c; cbn [write_loop_]; [done|]. kstep.
  destruct (decide _); kstep; [|done]. destruct (_ =? Z.of_nat len)%Z; kstep; [done|].
  destruct (negb _); [destruct (_ && _)|]; kstep; [|done|].
  - eapply pwp_mono; [apply IH|]. done.
  - destruct (_ =? EINTR)%Z; kstep; [|done]. eapply pwp_mono; [apply IH|]. done.
Qed.

Lemma fsync_dir_keeps path l1 l2 c :
  pwp (fsync_dir_ E path l1 l2)
    (fun _ c' => cmd (c_sh c') = cmd (c_sh c) /\ length (c_rw c') = length (c_rw c)) c.
Proof. unfold fsync_dir_. kstep. destruct (_ =? -1)%Z; kstep; [done|]. destruct (negb _); kstep; done. Qed.

Lemma open_keeps c : pwp (proc_child_open_ E) (keeps c) c.
Proof. unfold proc_child_open_. kauto. Qed.

Lemma close_keeps c : pwp (proc_child_close_ E) (keeps c) c.
Proof. unfold proc_child_close_. kauto. Qed.

Lemma fsync_keeps c : pwp (proc_child_fsync_ E) (keeps c) c.
Proof. unfold proc_child_fsync_. kauto. Qed.

Lemma write_keeps fuel c : pwp (proc_child_write_ E fuel) (keeps c) c.
Proof.
  unfold proc_child_write_. kstep. destruct (_ =? -1)%Z; kstep; [kdone|].
  eapply pwp_mono; [apply write_loop_keeps|]. cbn [c_sh c_rw with_written cmd].
  intros ok c1 [H1 H2]. destruct ok; kstep; (split; [done|]; split; done).
Qed.

Lemma readall_keeps c : pwp (proc_child_readall_ E) (keeps c) c.
Proof.
  unfold proc_child_readall_. kstep. destruct (_ =? -1)%Z; kstep; [kdone|].
  destruct (_ <? 0)%Z; kstep; (split; [done|]; split; [|done]); cbn [c_rw];
    (apply splice_length; cbn; rewrite length_take; lia).
Qed.

Lemma mkdir_keeps c : pwp (proc_child_mkdir_ E) (keeps c) c.
Proof.
  unfold proc_child_mkdir_. kstep. destruct (cstr _); kstep; [|done]. destruct (negb _).
  - destruct (_ =? EEXIST)%Z; kstep; [|kdone]. destruct (fst _); [|kauto]. destruct (negb _); kauto.
  - kstep. eapply pwp_mono; [apply fsync_dir_keeps|]. cbn [c_sh c_rw]. intros ok c1 [H1 H2].
    destruct (negb ok); kstep; [by split|]. destruct (fst _); kstep; [|by split].
    eapply pwp_mono; [apply fsync_dir_keeps|]. cbn [c_sh c_rw]. intros ok2 c2 [H3 H4].
    destruct ok2; kstep; (split; [congruence|]; split; [congruence|done]).
Qed.

Lemma wfc_keeps fuel c : pwp (proc_child_write_fsync_close_ E fuel) (keeps c) c.
Proof.
  unfold proc_child_write_fsync_close_. kstep. destruct (cstr _); kstep; [|done]. destruct (_ =? -1)%Z; kstep; [kdone|].
  eapply pwp_mono; [apply write_loop_keeps|]. cbn [c_sh c_rw with_written cmd]. intros ok c1 [H1 H2].
  destruct (negb ok); kstep; [by split|]. destruct (_ =? -1)%Z; kstep; by split.
Qed.

(** Executing the command: it is still there, the worker is idle again, there is
    a result, and the commands that do nothing succeed. *)
Definition executed c (ex : bool) c' : Prop :=
  cmd (c_sh c') = cmd (c_sh c) /\ length (c_rw c') = length (c_rw c) /\
  child_st (c_sh c') = proc_child_st_idle_ /\ res (c_sh c') <> proc_res_none_ /\
  ex = bool_decide (cmd (c_sh c) = proc_cmd_exit_) /\
  (cmd (c_sh c) = proc_cmd_none_ \/ cmd (c_sh c) = proc_cmd_exit_ -> res (c_sh c') = proc_res_ok_).

Lemma child_exec_pwp fuel c : pwp (child_exec_ E fuel) (executed c) c.
Proof.
  unfold child_exec_. kstep. set (c1 := {| c_sh := with_res _ _; c_rw := _; c_fd := _; c_w := _ |}).
  change (cmd (with_res proc_res_none_ (with_child_st proc_child_st_busy_ (c_sh c)))) with (cmd (c_sh c)).
  assert (forall (m : CM (child W) proc_res_), pwp m (keeps c1) c1 ->
    (cmd (c_sh c) = proc_cmd_none_ \/ cmd (c_sh c) = proc_cmd_exit_ -> pwp m (fun r _ => r = proc_res_ok_) c1) ->
    pwp m (fun r s => pwp (modc (fun c0 => {| c_sh := with_res r (c_sh c0); c_rw := c_rw c0; c_fd := c_fd c0; c_w := c_w c0 |}) ;;
      modc (fun c0 => {| c_sh := with_child_st proc_child_st_idle_ (c_sh c0); c_rw := c_rw c0; c_fd := c_fd c0; c_w := c_w c0 |}) ;;
      mret (bool_decide (cmd (c_sh c) = proc_cmd_exit_))) (executed c) s) c1) as H.
  { intros m Hk Hok. unfold pwp in *. destruct (m c1) as [[r s]| |]; [|done..]. destruct Hk as (H1 & H2 & H3).
    autorewrite with cm. cbn. split; [done|]. split; [done|]. split; [done|]. split; [done|]. split; [done|].
    intros Hc. by apply Hok. }
  destruct (cmd (c_sh c)) eqn:Hc; apply H; try done; try (by intros [|]).
  - apply open_keeps.
  - apply close_keeps.
  - apply fsync_keeps.
  - apply write_keeps.
  - apply readall_keeps.
  - apply mkdir_keeps.
  - apply wfc_keeps.
Qed.
End keeps.

(** ** The channel

    The socket pair as two counters of bytes on their way.  The rest of the
    parent's kernel is a parameter [P] with any state [K]: its calls may fail and
    be interrupted.  All the theorems use of the socket is that a write that takes
    its byte puts it on the way, that one that does not leaves the channel as it
    was, and that a read takes a byte that is there. *)
Record chan := { up : nat; down : nat }.

Definition chan_sent (ch : chan) : chan := {| up := S (up ch); down := down ch |}.
Definition chan_read (ch : chan) : chan := {| up := up ch; down := pred (down ch) |}.

Class ChanLaws {K} (P : os_penv (chan * K)) := {
  law_chan_write x c :
    (p_write1 P x c).2.1 = if decide ((p_write1 P x c).1 = 1%Z) then chan_sent c.1 else c.1;
  law_chan_read x c : 0 < down c.1 -> (p_read1 P x c).1 = chan_read c.1
}.

(** ** The parent's calls and the channel *)

(** What a call that returned left behind. *)
Lemma wp_out {S A} (m : CM S A) Q s a s' : wp m Q s -> m s = Ret (a, s') -> Q a s'.
Proof. unfold wp. by intros ? H; rewrite H in *. Qed.

Section parent.
Context {K : Type} (P : os_penv (chan * K)) `{!ParentLaws P, !ChanLaws P} (fuel : nat).
Implicit Types (p : proc_) (c : chan * K) (sh : proc_shared_) (rw : list char).

Lemma notify_chan_wp n p c : pintr c < n ->
  wp (notify_child_loop_ P n) (fun r s =>
    (r = afs_ok /\ s.1 = p /\ s.2.1 = chan_sent c.1) \/
    (r = afs_fail /\ (exists f, s.1 = with_p_st proc_st_dead_ (with_p_fail f p)) /\ s.2.1 = c.1)) (p, c).
Proof.
  revert c. induction n as [|n IH]; intros c Hn; [lia|]. cbn [notify_child_loop_]. wp_step. rewrite get_proc_wp.
  wp_step. rewrite psys_wp. pose proof (law_chan_write (p_fd p) c) as Hch.
  destruct (law_pwrite (p_fd p) c) as [H1 H2]. destruct (p_write1 P (p_fd p) c) as [r c1]. cbn [fst snd] in *.
  destruct (Z.eqb_spec r 1) as [->|Hr].
  { wp_step. left. cbn [fst snd]. by rewrite Hch, decide_True. }
  rewrite decide_False in Hch by done. unfold proc_errno. wp_step. cbn [snd].
  destruct (Z.eqb_spec (p_errno P c1) EINTR) as [He|He].
  - specialize (H2 Hr He). eapply wp_mono; [apply IH; lia|]. cbn beta. intros a s. by rewrite Hch.
  - wp_step. rewrite proc_fail_wp. wp_step. rewrite upd_proc_wp. wp_step. cbn [fst snd]. right. eauto.
Qed.

(** What telling the worker a command does: it is told, the socket fails, or the
    parent finds the worker in no state to be told. *)
Inductive told (cm : proc_cmd_) p (ch : chan) : afs_res -> proc_ -> chan -> Prop :=
| T_ok p' sh rw : p_st p = proc_st_avail_ -> p_mapped p = Some (sh, rw) -> child_st sh = proc_child_st_idle_ ->
    p_st p' = proc_st_busy_ -> p_mapped p' = Some (with_cmd cm sh, rw) -> told cm p ch afs_ok p' (chan_sent ch)
| T_dead p' sh rw : p_st p = proc_st_avail_ -> p_mapped p = Some (sh, rw) ->
    p_st p' = proc_st_dead_ -> p_mapped p' = Some (with_cmd cm sh, rw) -> told cm p ch afs_fail p' ch
| T_refused p' : p_st p' = p_st p -> p_mapped p' = p_mapped p -> told cm p ch afs_fail p' ch.

Lemma send_chan_wp cm p c : pwf p -> pintr c < fuel ->
  wp (proc_send_cmd_ P fuel cm) (fun r s => told cm p c.1 r s.1 s.2.1) (p, c).
Proof.
  intros [_ _ Hm] Hf. unfold proc_send_cmd_. wp_step. rewrite get_proc_wp.
  destruct (decide (p_st p = proc_st_avail_)) as [Hst|Hst].
  2:{ rewrite (bool_decide_eq_false_2 _ Hst). cbn [negb]. wp_step. rewrite proc_fail_wp. wp_step. by apply T_refused. }
  rewrite (bool_decide_eq_true_2 _ Hst). cbn [negb]. rewrite Hst in Hm. destruct Hm as (sh & rw & Hmap & _).
  wp_step. rewrite (get_shared_wp sh rw) by done. destruct (decide (child_st sh = proc_child_st_idle_)) as [Hi|Hi].
  2:{ rewrite (bool_decide_eq_false_2 _ Hi). cbn [negb]. wp_step. rewrite proc_fail_wp. wp_step. by apply T_refused. }
  rewrite (bool_decide_eq_true_2 _ Hi). cbn [negb]. wp_step. rewrite upd_proc_wp. wp_step.
  rewrite (upd_shared_wp _ sh rw) by done. eapply wp_mono; [by apply (notify_chan_wp fuel)|].
  intros r [q c1] [(-> & -> & ->)|(-> & [f ->] & ->)]; cbn [fst snd]; [by eapply T_ok|by eapply T_dead].
Qed.

(** A stop request tells the worker to exit or only sets the flag. *)
Lemma stop_chan_wp p c : pwf p -> pintr c < fuel ->
  wp (proc_stop_prep_ P fuel) (fun r s => told proc_cmd_exit_ p c.1 r s.1 s.2.1 \/
    (p_st s.1 = p_st p /\ p_mapped s.1 = p_mapped p /\ s.2.1 = c.1)) (p, c).
Proof.
  intros [Hc Hl Hm] Hf. unfold proc_stop_prep_. wp_step. rewrite get_proc_wp.
  destruct (p_is_stop_req p); cbn [negb]; wp_step; [rewrite proc_fail_wp; wp_step; by right|].
  rewrite upd_proc_wp. destruct (decide _); [|destruct (decide _); wp_step].
  - eapply wp_mono; [by apply (send_chan_wp _ (with_p_is_stop_req true p))|]. intros r [q c1] Ht. left. cbn [fst snd] in *.
    destruct Ht; [by eapply T_ok|by eapply T_dead|by apply T_refused].
  - by right.
  - rewrite proc_fail_wp. wp_step. by right.
Qed.

(** What an update does, [rev] being what [poll] reported: the worker is
    destroyed, nothing happens, the worker has started, or its answer is taken
    (and it may be told to exit). *)
Inductive updated p (ch : chan) (rev : Z) : proc_ -> chan -> Prop :=
| U_gone p' ch' : p_st p' = proc_st_uninit_ ->
    (p_st p = proc_st_avail_ -> hup_ rev = true) ->
    (p_st p = proc_st_busy_ -> hup_ rev = false -> in_ rev = true /\
       exists sh rw, p_mapped p = Some (sh, rw) /\ cmd sh = proc_cmd_exit_ /\ res sh = proc_res_ok_) ->
    updated p ch rev p' ch'
| U_quiet p' : hup_ rev = false -> p_st p = proc_st_avail_ \/ in_ rev = false ->
    p_st p' = p_st p -> p_mapped p' = p_mapped p -> updated p ch rev p' ch
| U_started p' : hup_ rev = false -> in_ rev = true -> p_st p = proc_st_init_pend_ ->
    p_st p' = proc_st_avail_ -> p_mapped p' = p_mapped p -> updated p ch rev p' (chan_read ch)
| U_answer p1 p' ch' sh sh1 rw r : hup_ rev = false -> in_ rev = true -> p_st p = proc_st_busy_ ->
    p_mapped p = Some (sh, rw) -> cmd sh <> proc_cmd_exit_ \/ res sh <> proc_res_ok_ ->
    p_st p1 = proc_st_avail_ -> p_mapped p1 = Some (sh1, rw) -> child_st sh1 = child_st sh ->
    (p' = p1 /\ ch' = chan_read ch) \/ told proc_cmd_exit_ p1 (chan_read ch) r p' ch' ->
    updated p ch rev p' ch'.

Abbreviation uwp m p0 ch rev p c := (wp m (fun _ s => updated p0 ch rev s.1 s.2.1) (p, c)) (only parsing).

Lemma destroy_uwp (k : CM (proc_ * (chan * K)) afs_res) p0 ch rev p c : pintr c < fuel ->
  length (p_evs p) = proc_evs_maxlen_ -> p_evs_len p <= proc_evs_maxlen_ ->
  (forall q c', pwf q -> p_st q = proc_st_uninit_ -> p_evs_len q = p_evs_len p ->
     wp k (fun _ s => updated p0 ch rev s.1 s.2.1) (q, c')) ->
  uwp (proc_destroy_child_ P fuel ;; k) p0 ch rev p c.
Proof.
  intros Hf Hc Hl Hk. wp_step. eapply wp_mono; [by apply destroy_wp|].
  intros _ [q c'] [(H1 & H2 & _ & H3 & _) _]. by apply Hk.
Qed.

(** After the worker is destroyed only events and the failure are noted. *)
Lemma gone_uwp p ch rev q c : p_st q = proc_st_uninit_ -> (p_st p = proc_st_avail_ -> hup_ rev = true) ->
  (p_st p = proc_st_busy_ -> hup_ rev = false -> in_ rev = true /\
     exists sh rw, p_mapped p = Some (sh, rw) /\ cmd sh = proc_cmd_exit_ /\ res sh = proc_res_ok_) ->
  forall line msg, uwp (proc_fail P line msg ;; mret afs_fail) p ch rev q c.
Proof. intros H1 H2 H3 line msg. wp_step. rewrite proc_fail_wp. wp_step. by apply U_gone. Qed.

Lemma init_uwp p c rev : pwf p -> pintr c < fuel -> p_st p = proc_st_init_pend_ -> p_evs_len p = 0 ->
  (hup_ rev = false -> in_ rev = true -> 0 < down c.1) -> uwp (proc_update_init_pend_ P fuel rev) p c.1 rev p c.
Proof.
  intros Hwf Hf Hst He Hrev. pose proof Hwf as [Hc Hl Hm]. rewrite Hst in Hm. destruct Hm as (sh & rw & Hmap & Hrw & Hfd & Ha).
  assert (forall l line msg q c', pwf q -> p_st q = proc_st_uninit_ -> p_evs_len q = 0 ->
    uwp (must_add_ev_ l (lit "proc_add_ev_(p, afs_ev_init_fail)") afs_ev_init_fail ;; proc_fail P line msg ;; mret afs_fail)
      p c.1 rev q c') as Hgone.
  { intros l line msg q c' Hq Hqs Hqe. wp_step. apply add_ev_wp; [done|rewrite Hqe; unfold proc_evs_maxlen_; lia|].
    intros q1 (_ & _ & ? & ->). apply (gone_uwp p c.1 rev); cbn; congruence. }
  unfold proc_update_init_pend_. wp_step. rewrite get_proc_wp. destruct (p_is_stop_req p).
  - wp_step. rewrite upd_proc_wp. apply destroy_uwp; [done|done|done|]. intros q c' Hq Hqs Hqe. cbn in Hqe.
    wp_step. apply add_ev_wp; [done|rewrite Hqe, He; unfold proc_evs_maxlen_; lia|]. intros q1 (Hq1 & _ & ? & ->).
    wp_step. apply add_ev_wp; [done|cbn; rewrite Hqe, He; unfold proc_evs_maxlen_; lia|]. intros q2 (_ & _ & ? & ->).
    wp_step. apply U_gone; cbn; congruence.
  - destruct (hup_ rev) eqn:Hh; [|destruct (in_ rev) eqn:Hi].
    + apply destroy_uwp; [done..|]. intros q c' Hq Hqs Hqe. apply Hgone; congruence.
    + wp_step. rewrite psys'_wp. wp_step. rewrite (get_shared_wp sh rw) by done.
      pose proof (law_chan_read (p_fd p) c (Hrev eq_refl eq_refl)) as Hr. pose proof (law_pread (p_fd p) c) as Hin.
      destruct (decide (res sh = proc_res_ok_)).
      * wp_step. rewrite upd_proc_wp. wp_step.
        apply add_ev_wp; [split; cbn; eauto 10|cbn; rewrite He; unfold proc_evs_maxlen_; lia|]. intros q1 (_ & _ & ? & ->).
        wp_step. cbn [snd]. rewrite Hr. by apply U_started.
      * apply destroy_uwp; [lia|done..|]. intros q c' Hq Hqs Hqe. apply Hgone; congruence.
    + wp_step. apply U_quiet; auto.
Qed.

(** The end of an answered command. *)
Lemma answer_end_uwp p ch rev q c sh sh1 rw : pwf (with_p_st proc_st_avail_ q) -> pintr c < fuel -> c.1 = chan_read ch ->
  hup_ rev = false -> in_ rev = true -> p_st p = proc_st_busy_ -> p_mapped p = Some (sh, rw) ->
  cmd sh <> proc_cmd_exit_ \/ res sh <> proc_res_ok_ -> p_mapped q = Some (sh1, rw) -> child_st sh1 = child_st sh ->
  uwp (upd_proc (with_p_st proc_st_avail_) ;; p ← get_proc;
       if p_is_stop_req p then proc_send_cmd_ P fuel proc_cmd_exit_ else mret afs_ok) p ch rev q c.
Proof.
  intros Hwf Hf Hc Hh Hi Hst Hm Hne Hq Hcs. wp_step. rewrite upd_proc_wp. wp_step. rewrite get_proc_wp.
  destruct (p_is_stop_req _).
  - eapply wp_mono; [by apply send_chan_wp|]. intros r [q1 c1] Ht. cbn [fst snd] in *. rewrite Hc in Ht.
    eapply (U_answer _ _ _ (with_p_st proc_st_avail_ q) _ _ sh sh1 rw r); eauto.
  - wp_step. cbn [fst snd]. eapply (U_answer _ _ _ (with_p_st proc_st_avail_ q) _ _ sh sh1 rw afs_ok); eauto.
Qed.

Lemma answer_uwp p c rev c1 : pwf p -> pintr c1 < fuel -> p_st p = proc_st_busy_ -> p_evs_len p = 0 ->
  hup_ rev = false -> in_ rev = true -> c1.1 = chan_read c.1 -> uwp (proc_update_answer_ P fuel) p c.1 rev p c1.
Proof.
  intros Hwf Hf Hst He Hh Hi Hc1. pose proof Hwf as [Hc Hl Hm]. rewrite Hst in Hm. destruct Hm as (sh & rw & Hmap & Hrw & Hfd & Ha).
  assert (forall q sh1, length (p_evs q) = proc_evs_maxlen_ -> p_evs_len q <= proc_evs_maxlen_ ->
    p_mapped q = Some (sh1, rw) -> p_rw_buf_len q = p_rw_buf_len p -> p_fd q = p_fd p -> p_mmap_start q = p_mmap_start p ->
    child_st sh1 = child_st sh -> cmd sh <> proc_cmd_exit_ \/ res sh <> proc_res_ok_ ->
    uwp (upd_proc (with_p_st proc_st_avail_) ;; p ← get_proc;
         if p_is_stop_req p then proc_send_cmd_ P fuel proc_cmd_exit_ else mret afs_ok) p c.1 rev q c1) as Hend.
  { intros q sh1 H1 H2 H3 H4 H5 H6 H7 H8. eapply (answer_end_uwp p c.1 rev q c1 sh sh1 rw); try done.
    split; cbn; [done|done|]. exists sh1, rw. rewrite H4, H5, H6. done. }
  unfold proc_update_answer_. rewrite wp_bind, (get_shared_wp sh rw), wp_bind by done.
  destruct (decide (res sh = proc_res_ok_)) as [Hres|Hres].
  2:{ wp_step. rewrite upd_proc_wp. wp_step.
      apply must_add_ev_wp; [done|cbn; rewrite He; unfold proc_evs_maxlen_; lia|]. intros l e Hlen _ _ _. wp_step.
      pose proof (fun q => Hend q sh) as H'. autorewrite with cm in H'.
      apply H'; cbn; try done; [rewrite He; unfold proc_evs_maxlen_; lia|by right]. }
  destruct (decide (cmd sh = proc_cmd_exit_)) as [Hx|Hx].
  - rewrite Hx. wp_step. apply add_ev_wp; [done|rewrite He; unfold proc_evs_maxlen_; lia|]. intros q (Hq & _ & l & ->).
    wp_step. rewrite upd_proc_wp. destruct Hq as [Hqc Hql _]. wp_step.
    eapply wp_mono; [by apply destroy_wp|]. intros _ [q w2] [(Hq & Hst1 & Hev & Hevl & Hsr) Hw2]. cbn [fst snd] in *.
    wp_step. rewrite get_proc_wp. cbn in Hsr. rewrite Hsr. wp_step. rewrite proc_fail_wp. wp_step.
    apply U_gone; cbn; [done|congruence|]. eauto 10.
  - assert (forall cm : proc_cmd_, cm <> proc_cmd_none_ ->
      wp (i ← must_add_ev_ 1100 (lit "ev") afs_ev_init; p ← get_proc;
          upd_ev i (done_ev_ cm sh (p_mmap_start p + Z.of_nat sizeof_proc_shared_)) ;;
          upd_shared (with_cmd proc_cmd_none_) ;; mret false)
        (fun ex s => wp (if (ex : bool) then mret afs_fail
          else upd_proc (with_p_st proc_st_avail_) ;; p ← get_proc;
            if p_is_stop_req p then proc_send_cmd_ P fuel proc_cmd_exit_ else mret afs_ok)
          (fun _ s => updated p c.1 rev s.1 s.2.1) s) (p, c1)) as Hcmd.
    { intros cm _. rewrite wp_bind. apply must_add_ev_wp; [done|rewrite He; unfold proc_evs_maxlen_; lia|].
      intros l e Hlen _ _ _. rewrite He in *. destruct l as [|e0 l]; [done|].
      rewrite wp_bind, get_proc_wp, wp_bind. unfold upd_ev. rewrite wp_bind, get_proc_wp.
      cbn [with_p_evs with_p_evs_len p_evs lookup list_lookup].
      rewrite upd_proc_wp, wp_bind, (upd_shared_wp _ sh rw), wp_ret by done.
      apply (Hend _ (with_cmd proc_cmd_none_ sh)); cbn; try done; [unfold proc_evs_maxlen_; lia|by left]. }
    destruct (cmd sh) eqn:Hcm; try (by apply Hcmd); try done.
    rewrite wp_bind, (upd_shared_wp _ sh rw), wp_ret by done. apply (Hend _ (with_cmd proc_cmd_none_ sh)); cbn; try done; by left.
Qed.

Lemma busy_uwp p c rev : pwf p -> pintr c < fuel -> p_st p = proc_st_busy_ -> p_evs_len p = 0 ->
  (hup_ rev = false -> in_ rev = true -> 0 < down c.1) -> uwp (proc_update_busy_ P fuel rev) p c.1 rev p c.
Proof.
  intros Hwf Hf Hst He Hrev. pose proof Hwf as [Hc Hl Hm]. rewrite Hst in Hm. destruct Hm as (sh & rw & Hmap & Hrw & Hfd & Ha).
  unfold proc_update_busy_. destruct (hup_ rev) eqn:Hh; [|destruct (in_ rev) eqn:Hi].
  - wp_step. rewrite (get_shared_wp sh rw) by done. wp_step.
    apply add_ev_wp; [done|rewrite He; unfold proc_evs_maxlen_; lia|]. intros q (Hq & _ & l & ->). destruct Hq as [Hqc Hql _].
    apply destroy_uwp; [done..|]. intros q c' _ Hqs _. apply (gone_uwp p c.1 rev); congruence.
  - wp_step. rewrite get_proc_wp. wp_step. rewrite psys'_wp. pose proof (law_pread (p_fd p) c).
    apply answer_uwp; [done|lia|done..|]. by apply law_chan_read, Hrev.
  - wp_step. apply U_quiet; auto.
Qed.

Lemma update_chan_wp fds p c : pwf p -> pintr c < fuel ->
  (hup_ (revents_of_ (p_fd p) fds) = false -> in_ (revents_of_ (p_fd p) fds) = true -> 0 < down c.1) ->
  uwp (proc_update_ P fuel fds) p c.1 (revents_of_ (p_fd p) fds) p c.
Proof.
  intros Hwf Hf Hrev. pose proof Hwf as [Hc Hl Hm]. unfold proc_update_. wp_step. rewrite get_proc_wp. wp_step.
  rewrite upd_proc_wp. set (p0 := with_p_evs_len 0 p). set (rev := revents_of_ (p_fd p) fds) in *.
  assert (pwf p0) as Hwf0 by (split; cbn; [done|lia|done]).
  assert (forall q q1 (c1 : chan), updated q c.1 rev q1 c1 -> q = p0 -> updated p c.1 rev q1 c1) as Hext.
  { intros q q1 c1 Hu ->. destruct Hu; [by apply U_gone|by apply U_quiet|by apply U_started|by eapply U_answer]. }
  destruct (p_st p) eqn:Hst.
  - assert (forall q, p_st q = proc_st_uninit_ ->
      uwp (proc_fail P 993 (lit "uninit (no errno)") ;; mret afs_fail) p c.1 rev q c) as Hend
      by (intros q Hq; apply gone_uwp; congruence).
    destruct (p_is_stop_req p); autorewrite with cm in *; [|by apply Hend].
    rewrite upd_proc_wp. wp_step. apply add_ev_wp; [split; cbn; [done|lia|by rewrite Hst]|cbn; unfold proc_evs_maxlen_; lia|].
    intros q (_ & _ & l & ->). wp_step. by apply Hend.
  - eapply wp_mono; [by apply (init_uwp p0 c rev Hwf0 Hf Hst eq_refl Hrev)|]. intros r s Hu. exact (Hext _ _ _ Hu eq_refl).
  - unfold proc_update_avail_. destruct (hup_ rev) eqn:Hh.
    + apply destroy_uwp; [done|done|cbn; lia|]. intros q c' _ Hqs _. apply (gone_uwp p c.1 rev); congruence.
    + wp_step. apply U_quiet; auto.
  - eapply wp_mono; [by apply (busy_uwp p0 c rev Hwf0 Hf Hst eq_refl Hrev)|]. intros r s Hu. exact (Hext _ _ _ Hu eq_refl).
  - assert (forall q, length (p_evs q) = proc_evs_maxlen_ -> p_evs_len q <= proc_evs_maxlen_ ->
      uwp (proc_destroy_child_ P fuel ;; proc_fail P 1167 (lit "child is dead (no errno)") ;; mret afs_fail) p c.1 rev q c) as Hend.
    { intros q H1 H2. apply destroy_uwp; [done..|]. intros q1 c' _ Hqs _. apply gone_uwp; congruence. }
    unfold proc_update_dead_. wp_step. rewrite get_proc_wp. change (p_is_stop_req p0) with (p_is_stop_req p).
    destruct (p_is_stop_req p); rewrite wp_bind; [|apply Hend; cbn; [done|lia]]. wp_step.
    rewrite upd_proc_wp. wp_step. apply must_add_ev_wp; [done|cbn; unfold proc_evs_maxlen_; lia|]. intros l e Hlen _ _ _.
    rewrite wp_ret. apply Hend; cbn; [done|unfold proc_evs_maxlen_; lia].
Qed.
End parent.

(** ** The system *)

(** Where the worker is: not yet running, waiting for a byte, executing the
    command, about to answer (and then to exit), about to end after its last
    answer, gone. *)
Inductive phase := Ph_start | Ph_wait | Ph_run | Ph_notify (ex : bool) | Ph_leave | Ph_gone.

(** The commands the parent sent, what the worker executed with which result,
    what the updates made while a command was under way reported, and whether the
    worker died before its time. *)
Record log := {
  l_sent : list proc_cmd_; l_ran : list (proc_cmd_ * proc_res_); l_seen : list afs_event; l_died : bool }.

Definition log_sent (c : proc_cmd_) (l : log) : log :=
  {| l_sent := l_sent l ++ [c]; l_ran := l_ran l; l_seen := l_seen l; l_died := l_died l |}.
(** The command that does nothing, which starts the worker, is not recorded. *)
Definition log_ran (c : proc_cmd_) (r : proc_res_) (l : log) : log :=
  if decide (c = proc_cmd_none_) then l
  else {| l_sent := l_sent l; l_ran := l_ran l ++ [(c, r)]; l_seen := l_seen l; l_died := l_died l |}.
Definition log_seen (evs : list afs_event) (l : log) : log :=
  {| l_sent := l_sent l; l_ran := l_ran l; l_seen := l_seen l ++ evs; l_died := l_died l |}.
Definition log_died (l : log) : log :=
  {| l_sent := l_sent l; l_ran := l_ran l; l_seen := l_seen l; l_died := true |}.
(** An update from [p] to [p'] on what [poll] reported: its events answer the
    command under way, if there is one, and having taken an answer it may have
    told the worker to exit. *)
Definition log_update (p : proc_) (rev : Z) (p' : proc_) (l : log) : log :=
  let l1 := if decide (p_st p = proc_st_busy_) then log_seen (p_types p') l else l in
  if decide (p_st p = proc_st_busy_ /\ in_ rev = true /\ p_st p' = proc_st_busy_) then log_sent proc_cmd_exit_ l1 else l1.

(** Both sides: the parent's record with the shared mapping in it, the channel
    and the rest of the parent's kernel, the worker with its file and the world
    it works on. *)
Record sys_st (K W : Type) := {
  s_p : proc_; s_ch : chan; s_k : K; s_ph : phase; s_fd : Z; s_w : W; s_log : log }.
Arguments Build_sys_st {K W} s_p s_ch s_k s_ph s_fd s_w s_log.
Arguments s_p {K W} _.
Arguments s_ch {K W} _.
Arguments s_k {K W} _.
Arguments s_ph {K W} _.
Arguments s_fd {K W} _.
Arguments s_w {K W} _.
Arguments s_log {K W} _.

(** What [poll] reported for the parent's end of the socket, at this moment or
    some time before it: a hang-up or an error only when the worker is gone, and
    otherwise something to read only when a byte is there. *)
Definition polled (ph : phase) (ch : chan) (rev : Z) : Prop :=
  (hup_ rev = true -> ph = Ph_gone) /\ (hup_ rev = false -> in_ rev = true -> 0 < down ch).

(** What it reports at this moment. *)
Definition polled_now (ph : phase) (ch : chan) (rev : Z) : Prop :=
  (hup_ rev = true <-> ph = Ph_gone) /\ (hup_ rev = false -> in_ rev = true <-> 0 < down ch).

Section proto.
Context {K W : Type} (P : os_penv (chan * K)) `{!ParentLaws P, !ChanLaws P} (E : os_env W).
Implicit Types (s : sys_st K W) (p : proc_) (sh : proc_shared_) (rw : list char) (l : log).

(** The worker.  While it executes a command it stores into every part of the
    mapping but the command ([W_work]); the command is executed undisturbed
    ([W_exec]), or, when the parent stores into the mapping meanwhile, with any
    outcome that has a result ([W_raced]). *)
Inductive worker_step : sys_st K W -> sys_st K W -> Prop :=
| W_start p ch k x w l sh rw :
    p_mapped p = Some (sh, rw) -> child_st sh = proc_child_st_not_started_ ->
    worker_step (Build_sys_st p ch k Ph_start x w l)
      (Build_sys_st (with_p_mapped (Some (with_child_st proc_child_st_idle_ sh, rw)) p) ch k Ph_wait (-1)%Z w l)
| W_take p u d k x w l m :
    p_mapped p = Some m ->
    worker_step (Build_sys_st p {| up := S u; down := d |} k Ph_wait x w l)
      (Build_sys_st p {| up := u; down := d |} k Ph_run x w l)
| W_work p ch k x w l sh rw sh' rw' x' w' :
    p_mapped p = Some (sh, rw) -> cmd sh' = cmd sh -> length rw' = length rw ->
    worker_step (Build_sys_st p ch k Ph_run x w l)
      (Build_sys_st (with_p_mapped (Some (sh', rw')) p) ch k Ph_run x' w' l)
| W_exec p ch k x w l sh rw fuel ex c' :
    p_mapped p = Some (sh, rw) ->
    child_exec_ E fuel {| c_sh := sh; c_rw := rw; c_fd := x; c_w := w |} = Ret (ex, c') ->
    worker_step (Build_sys_st p ch k Ph_run x w l)
      (Build_sys_st (with_p_mapped (Some (c_sh c', c_rw c')) p) ch k (Ph_notify ex) (c_fd c') (c_w c')
        (log_ran (cmd sh) (res (c_sh c')) l))
| W_raced p ch k x w l sh rw ex c' :
    p_mapped p = Some (sh, rw) ->
    executed {| c_sh := sh; c_rw := rw; c_fd := x; c_w := w |} ex c' ->
    worker_step (Build_sys_st p ch k Ph_run x w l)
      (Build_sys_st (with_p_mapped (Some (c_sh c', c_rw c')) p) ch k (Ph_notify ex) (c_fd c') (c_w c')
        (log_ran (cmd sh) (res (c_sh c')) l))
| W_notify p u d k x w l ex m :
    p_mapped p = Some m ->
    worker_step (Build_sys_st p {| up := u; down := d |} k (Ph_notify ex) x w l)
      (Build_sys_st p {| up := u; down := S d |} k (if (ex : bool) then Ph_leave else Ph_wait) x w l)
| W_leave p ch k x w l sh rw :
    p_mapped p = Some (sh, rw) ->
    worker_step (Build_sys_st p ch k Ph_leave x w l)
      (Build_sys_st (with_p_mapped (Some (with_child_st proc_child_st_not_started_ sh, rw)) p) ch k Ph_gone x w l).

(** The parent: it stores into the mapping at any time, sends a command, requests
    a stop, or updates with what [poll] reported.  An update that destroys the
    worker kills it. *)
Inductive parent_step : sys_st K W -> sys_st K W -> Prop :=
| P_mem p ch k ph x w l sh rw n fl rw' :
    p_mapped p = Some (sh, rw) -> length rw' = length rw ->
    parent_step (Build_sys_st p ch k ph x w l)
      (Build_sys_st (with_p_mapped (Some (with_write_len n (with_open_flags fl sh), rw')) p) ch k ph x w l)
| P_send p ch k ph x w l fuel c r p' ch' k' :
    pintr (ch, k) < fuel -> c <> proc_cmd_none_ ->
    proc_send_cmd_ P fuel c (p, (ch, k)) = Ret (r, (p', (ch', k'))) ->
    parent_step (Build_sys_st p ch k ph x w l)
      (Build_sys_st p' ch' k' ph x w (if decide (r = afs_ok) then log_sent c l else l))
| P_stop p ch k ph x w l fuel r p' ch' k' :
    pintr (ch, k) < fuel ->
    proc_stop_prep_ P fuel (p, (ch, k)) = Ret (r, (p', (ch', k'))) ->
    parent_step (Build_sys_st p ch k ph x w l)
      (Build_sys_st p' ch' k' ph x w
        (if decide (p_st p = proc_st_avail_ /\ p_st p' = proc_st_busy_) then log_sent proc_cmd_exit_ l else l))
| P_update p ch k ph x w l fuel fds r p' ch' k' :
    pintr (ch, k) < fuel -> polled ph ch (revents_of_ (p_fd p) fds) ->
    proc_update_ P fuel fds (p, (ch, k)) = Ret (r, (p', (ch', k'))) ->
    parent_step (Build_sys_st p ch k ph x w l)
      (Build_sys_st p' ch' k' (if decide (p_st p' = proc_st_uninit_) then Ph_gone else ph) x w
        (log_update p (revents_of_ (p_fd p) fds) p' l)).

(** Either side takes a step; the worker dies, killed or because a call of its
    failed, leaving any state behind; the rest of the parent's kernel changes. *)
Inductive step : sys_st K W -> sys_st K W -> Prop :=
| S_worker s s' : worker_step s s' -> step s s'
| S_parent s s' : parent_step s s' -> step s s'
| S_die p ch k ph x w l sh rw st :
    p_mapped p = Some (sh, rw) -> ph <> Ph_gone ->
    step (Build_sys_st p ch k ph x w l)
      (Build_sys_st (with_p_mapped (Some (with_child_st st sh, rw)) p) ch k Ph_gone x w (log_died l))
| S_kernel p ch k ph x w l k' : step (Build_sys_st p ch k ph x w l) (Build_sys_st p ch k' ph x w l).

(** ** The invariant *)

(** The events a command that ran is reported with. *)
Definition answer_types (a : proc_cmd_ * proc_res_) : list afs_event :=
  if decide (a.2 = proc_res_ok_) then done_types a.1 else [proc_cmd_fail_ev_ a.1].

(** Where the byte and the command are while the worker starts. *)
Inductive init_at (died : bool) : phase -> chan -> proc_shared_ -> Prop :=
| In_start sh : child_st sh = proc_child_st_not_started_ -> init_at died Ph_start {| up := 1; down := 0 |} sh
| In_asked sh : child_st sh = proc_child_st_idle_ -> init_at died Ph_wait {| up := 1; down := 0 |} sh
| In_runs sh : init_at died Ph_run {| up := 0; down := 0 |} sh
| In_ran sh : child_st sh = proc_child_st_idle_ -> init_at died (Ph_notify false) {| up := 0; down := 0 |} sh
| In_answered sh : child_st sh = proc_child_st_idle_ -> init_at died Ph_wait {| up := 0; down := 1 |} sh
| In_gone ch sh : died = true -> down ch <= 1 -> init_at died Ph_gone ch sh.

(** The same for a command; [false] as long as it has not been executed. *)
Inductive busy_at (died : bool) : phase -> chan -> proc_shared_ -> bool -> Prop :=
| Bu_asked sh : child_st sh = proc_child_st_idle_ -> busy_at died Ph_wait {| up := 1; down := 0 |} sh false
| Bu_runs sh : busy_at died Ph_run {| up := 0; down := 0 |} sh false
| Bu_lost ch sh : died = true -> down ch = 0 -> busy_at died Ph_gone ch sh false
| Bu_ran sh : child_st sh = proc_child_st_idle_ ->
    busy_at died (Ph_notify (bool_decide (cmd sh = proc_cmd_exit_))) {| up := 0; down := 0 |} sh true
| Bu_answered sh : child_st sh = proc_child_st_idle_ -> cmd sh <> proc_cmd_exit_ ->
    busy_at died Ph_wait {| up := 0; down := 1 |} sh true
| Bu_leaves sh : cmd sh = proc_cmd_exit_ -> busy_at died Ph_leave {| up := 0; down := 1 |} sh true
| Bu_gone ch sh : died = true \/ cmd sh = proc_cmd_exit_ -> down ch <= 1 -> busy_at died Ph_gone ch sh true.

(** Where an idle worker is. *)
Inductive avail_at (died : bool) : phase -> chan -> proc_shared_ -> Prop :=
| Av_waits sh : child_st sh = proc_child_st_idle_ -> avail_at died Ph_wait {| up := 0; down := 0 |} sh
| Av_gone ch sh : died = true -> down ch = 0 -> avail_at died Ph_gone ch sh.

(** Everything sent was executed and reported. *)
Definition all_seen l : Prop := l_sent l = (l_ran l).*1 /\ l_seen l = (l_ran l ≫= answer_types).

(** The last command sent was reported as failed because the worker was gone: it
    had not been executed, or its answer was not looked at. *)
Definition cut_short l : Prop := exists ran0 q c,
  l_ran l = ran0 ++ q /\ length q <= 1 /\ l_seen l = (ran0 ≫= answer_types) ++ [proc_cmd_fail_ev_ c] /\
  (l_died l = true \/ c = proc_cmd_exit_) /\
  (q = [] /\ l_sent l = (l_ran l).*1 ++ [c] \/ q.*1 = [c] /\ l_sent l = (l_ran l).*1).

Inductive linked p ch ph l : Prop :=
| L_init sh rw : p_st p = proc_st_init_pend_ -> p_mapped p = Some (sh, rw) -> cmd sh = proc_cmd_none_ ->
    init_at (l_died l) ph ch sh -> all_seen l -> linked p ch ph l
| L_avail sh rw : p_st p = proc_st_avail_ -> p_mapped p = Some (sh, rw) ->
    avail_at (l_died l) ph ch sh -> all_seen l -> linked p ch ph l
| L_sent sh rw : p_st p = proc_st_busy_ -> p_mapped p = Some (sh, rw) -> cmd sh <> proc_cmd_none_ ->
    busy_at (l_died l) ph ch sh false -> l_sent l = (l_ran l).*1 ++ [cmd sh] ->
    l_seen l = (l_ran l ≫= answer_types) -> linked p ch ph l
| L_ran sh rw ran0 : p_st p = proc_st_busy_ -> p_mapped p = Some (sh, rw) -> cmd sh <> proc_cmd_none_ ->
    busy_at (l_died l) ph ch sh true -> (cmd sh = proc_cmd_exit_ -> res sh = proc_res_ok_) ->
    l_ran l = ran0 ++ [(cmd sh, res sh)] -> l_sent l = (l_ran l).*1 -> l_seen l = (ran0 ≫= answer_types) -> linked p ch ph l
| L_dead sh rw : p_st p = proc_st_dead_ -> p_mapped p = Some (sh, rw) -> ph = Ph_wait /\ up ch = 0 \/ ph = Ph_gone ->
    all_seen l -> linked p ch ph l
| L_gone : p_st p = proc_st_uninit_ -> ph = Ph_gone -> all_seen l \/ cut_short l -> linked p ch ph l.

Definition inv s : Prop := pwf (s_p s) /\ linked (s_p s) (s_ch s) (s_ph s) (s_log s).

Lemma linked_ext p p' ch ph l : p_st p' = p_st p -> p_mapped p' = p_mapped p -> linked p ch ph l -> linked p' ch ph l.
Proof.
  intros H1 H2 [sh rw|sh rw|sh rw|sh rw ran0|sh rw|]; rewrite <- H1, <- ?H2 in *;
    [eapply L_init|eapply L_avail|eapply L_sent|eapply L_ran|eapply L_dead|apply L_gone]; eassumption.
Qed.

Lemma pwf_remap p sh rw sh' rw' : pwf p -> p_mapped p = Some (sh, rw) -> length rw' = length rw ->
  pwf (with_p_mapped (Some (sh', rw')) p).
Proof.
  intros [Hc Hl Hm] Hmap Hlen. split; cbn; [done..|]. destruct (p_st p).
  1: destruct Hm as [? _]; congruence.
  all: destruct Hm as (s1 & rw1 & H1 & H2 & H3 & H4); rewrite Hmap in H1; injection H1 as -> ->;
    eexists _, _; split; [done|]; split; [congruence|done].
Qed.

Lemma mapped_alive p m : pwf p -> p_mapped p = Some m -> p_st p <> proc_st_uninit_.
Proof. intros [_ _ Hm] Hmap Hst. rewrite Hst, Hmap in Hm. by destruct Hm. Qed.

(** The cases of [linked] that a worker or a memory step with a mapping meets. *)
Ltac lcases Hl Hm Hne :=
  destruct Hl as [sh1 rw1 H1 H2 H3 H4 H5|sh1 rw1 H1 H2 H4 H5|sh1 rw1 H1 H2 H3 H4 H5 H6
    |sh1 rw1 r0 H1 H2 H3 H4 H5 H6 H7 H8|sh1 rw1 H1 H2 H4 H5|H1 H2 H3]; [..|done];
  try (rewrite Hm in H2; injection H2 as <- <-).

(** *** The worker *)
Lemma exec_linked p ch ph l sh rw ex c' x (w : W) : p_mapped p = Some (sh, rw) -> ph = Ph_run ->
  executed {| c_sh := sh; c_rw := rw; c_fd := x; c_w := w |} ex c' -> pwf p -> linked p ch ph l ->
  linked (with_p_mapped (Some (c_sh c', c_rw c')) p) ch (Ph_notify ex) (log_ran (cmd sh) (res (c_sh c')) l).
Proof.
  intros Hm -> (Hc & Hlen & Hst & Hres & -> & Hok) Hwf Hl. pose proof (mapped_alive _ _ Hwf Hm) as Hne. cbn in *. unfold log_ran.
  lcases Hl Hm Hne; inversion H4; subst.
  - rewrite decide_True by done. eapply L_init; cbn; try done; [congruence|]. rewrite H3. by constructor.
  - rewrite decide_False by done. eapply (L_ran _ _ _ _ (c_sh c') (c_rw c') (l_ran l)); cbn; try done.
    + congruence.
    + rewrite <- Hc. by apply Bu_ran.
    + intros He. apply Hok. right. congruence.
    + by rewrite Hc.
    + by rewrite fmap_app.
  - by destruct H.
  - done.
Qed.

Lemma worker_step_inv s s' : worker_step s s' -> inv s -> inv s'.
Proof.
  intros Hs [Hwf Hl]. destruct Hs as [p ch k x w l sh rw Hm Hc|p u d k x w l m Hm|p ch k x w l sh rw sh' rw' x' w' Hm Hc Hlen
    |p ch k x w l sh rw fuel ex c' Hm Hex|p ch k x w l sh rw ex c' Hm Hex|p u d k x w l ex m Hm|p ch k x w l sh rw Hm];
    unfold inv in *; cbn [s_p s_ch s_ph s_log] in *; pose proof (mapped_alive _ _ Hwf Hm) as Hne.
  - split; [by eapply pwf_remap|]. lcases Hl Hm Hne; inversion H4; subst; try done; [|by destruct H].
    eapply L_init; cbn; try done. by constructor.
  - split; [done|]. lcases Hl Hm Hne; inversion H4; subst; try done.
    + eapply L_init; cbn; try done. constructor.
    + eapply L_sent; cbn; try done. constructor.
    + by destruct H.
  - split; [by eapply pwf_remap|]. lcases Hl Hm Hne; inversion H4; subst; try done.
    + eapply L_init; cbn; try done; [congruence|]. constructor.
    + eapply L_sent; cbn; try done; [congruence| |congruence]. constructor.
    + by destruct H.
  - pose proof (pwp_run _ _ _ _ _ (child_exec_pwp E fuel _) Hex) as Hx.
    split; [eapply pwf_remap; [done..|]; apply Hx|]. by eapply exec_linked.
  - split; [eapply pwf_remap; [done..|]; apply Hex|]. by eapply exec_linked.
  - split; [done|]. lcases Hl Hm Hne; inversion H4; subst; try done.
    + eapply L_init; cbn; try done. by constructor.
    + eapply L_ran; cbn; try done. destruct (bool_decide_reflect (cmd sh1 = proc_cmd_exit_)); by constructor.
    + by destruct H.
  - split; [by eapply pwf_remap|]. lcases Hl Hm Hne; inversion H4; subst; try done; [|by destruct H].
    eapply L_ran; cbn; try done. apply Bu_gone; [by right|done].
Qed.

(** *** The parent *)
Lemma mem_linked p ch ph l sh rw n fl rw' : pwf p -> p_mapped p = Some (sh, rw) -> linked p ch ph l ->
  linked (with_p_mapped (Some (with_write_len n (with_open_flags fl sh), rw')) p) ch ph l.
Proof.
  intros Hwf Hm Hl. pose proof (mapped_alive _ _ Hwf Hm) as Hne. lcases Hl Hm Hne.
  - eapply L_init; cbn; try done. inversion H4; by constructor.
  - eapply L_avail; cbn; try done. inversion H4; by constructor.
  - eapply L_sent; cbn; try done. inversion H4; by constructor.
  - eapply L_ran; cbn; try done. inversion H4; subst; try (by constructor). by apply (Bu_ran _ (with_write_len n (with_open_flags fl sh))).
  - by eapply L_dead; cbn.
Qed.

(** An idle worker is told a command. *)
Lemma told_linked cm p ch r p' ch' ph l : told cm p ch r p' ch' -> cm <> proc_cmd_none_ -> linked p ch ph l ->
  linked p' ch' ph (if decide (p_st p = proc_st_avail_ /\ p_st p' = proc_st_busy_) then log_sent cm l else l) /\
  (r = afs_ok <-> p_st p = proc_st_avail_ /\ p_st p' = proc_st_busy_).
Proof.
  intros Ht Hc Hl. destruct Ht as [p' sh rw T1 T2 T3 T4 T5|p' sh rw T1 T2 T3 T4|p' T1 T2].
  - rewrite decide_True by done. split; [|done].
    destruct Hl as [sh1 rw1 H1|sh1 rw1 H1 H2 H4 [H5 H6]|sh1 rw1 H1|sh1 rw1 r0 H1|sh1 rw1 H1|H1]; try congruence.
    rewrite T2 in H2. injection H2 as <- <-. eapply L_sent; cbn; try done; [|by rewrite H5].
    inversion H4; subst; by constructor.
  - rewrite decide_False by (intros [_ ?]; congruence). split; [|split; [done|intros [_ ?]; congruence]].
    destruct Hl as [sh1 rw1 H1|sh1 rw1 H1 H2 H4 H5|sh1 rw1 H1|sh1 rw1 r0 H1|sh1 rw1 H1|H1]; try congruence.
    eapply L_dead; try done. inversion H4; subst; auto.
  - rewrite decide_False by (intros [? ?]; congruence). split; [|split; [done|intros [? ?]; congruence]].
    by eapply linked_ext.
Qed.

Lemma log_seen_nil l : log_seen [] l = l.
Proof. destruct l. unfold log_seen. cbn. by rewrite app_nil_r. Qed.

(** The worker is destroyed: its last command was reported, or is cut short. *)
Lemma gone_linked p ch rev p' ch' ph l : p_st p' = proc_st_uninit_ -> polled ph ch rev ->
  (p_st p = proc_st_busy_ -> hup_ rev = false -> in_ rev = true) ->
  p_types p' = update_types p rev -> linked p ch ph l -> linked p' ch' Ph_gone (log_update p rev p' l).
Proof.
  intros Hu [Hh Hin] Hb Hty Hl. apply L_gone; [done|done|]. unfold log_update.
  rewrite (decide_False (P := _ /\ _)) by (intros (_ & _ & ?); congruence).
  destruct Hl as [sh rw H1 H2 H3 H4 H5|sh rw H1 H2 H4 H5|sh rw H1 H2 H3 H4 H5 H6|sh rw r0 H1 H2 H3 H4 H5 H6 H7 H8
    |sh rw H1 H2 H3 H4|H1 H2 H3]; try (rewrite decide_False by congruence; auto; fail).
  - rewrite decide_True by done. right. destruct (hup_ rev) eqn:Hr.
    2:{ pose proof (Hin eq_refl (Hb H1 eq_refl)). inversion H4; subst; cbn in *; lia. }
    rewrite (Hh eq_refl) in H4. inversion H4; subst. exists (l_ran l), [], (cmd sh). unfold update_types in Hty.
    rewrite H1, H2, Hr in Hty. cbn. rewrite Hty, H6, app_nil_r. auto 10.
  - rewrite decide_True by done. unfold update_types in Hty. rewrite H1, H2 in Hty. destruct (hup_ rev) eqn:Hr.
    + right. rewrite (Hh eq_refl) in H4. inversion H4; subst. exists r0, [(cmd sh, res sh)], (cmd sh). cbn.
      rewrite Hty, H8. auto 10.
    + left. rewrite (Hb H1 eq_refl) in Hty. split; [done|]. cbn. rewrite H8, H6, bind_app, Hty. cbn. by rewrite app_nil_r.
Qed.

(** The answer to a command is taken: everything is reported. *)
Lemma answered_linked p p1 p' ch rev ph l sh sh1 rw : p_st p = proc_st_busy_ -> hup_ rev = false -> in_ rev = true ->
  polled ph ch rev -> p_mapped p = Some (sh, rw) -> cmd sh <> proc_cmd_exit_ \/ res sh <> proc_res_ok_ ->
  p_st p1 = proc_st_avail_ -> p_mapped p1 = Some (sh1, rw) -> child_st sh1 = child_st sh ->
  p_types p' = update_types p rev -> linked p ch ph l -> linked p1 (chan_read ch) ph (log_seen (p_types p') l).
Proof.
  intros Hst Hr Hi [_ Hin] Hm Hne Hp1 Hm1 Hc Hty Hl. specialize (Hin Hr Hi).
  destruct Hl as [sh2 rw2 H1|sh2 rw2 H1|sh2 rw2 H1 H2 H3 H4|sh2 rw2 r0 H1 H2 H3 H4 H5 H6 H7 H8|sh2 rw2 H1|H1]; try congruence.
  { inversion H4; subst; cbn in *; lia. }
  rewrite Hm in H2. injection H2 as <- <-. eapply L_avail; [done|done| |].
  - inversion H4; subst; cbn in *; try lia.
    + apply Av_waits. congruence.
    + by destruct Hne as [?|[]]; [|apply H5].
    + apply Av_gone; cbn; [|lia]. destruct H as [?|He]; [done|]. by destruct Hne as [?|[]]; [|apply H5].
  - split; [done|]. cbn. rewrite H8, H6, bind_app, Hty. unfold update_types. rewrite Hst, Hm, Hr, Hi. cbn. by rewrite app_nil_r.
Qed.

Lemma update_linked p ch rev p' ch' ph l : pwf p -> updated p ch rev p' ch' -> polled ph ch rev ->
  p_types p' = update_types p rev -> linked p ch ph l ->
  linked p' ch' (if decide (p_st p' = proc_st_uninit_) then Ph_gone else ph) (log_update p rev p' l).
Proof.
  intros Hwf Hu Hp Hty Hl.
  destruct Hu as [p' ch' U1 U2 U3|p' U1 U2 U3 U4|p' U1 U2 U3 U4 U5|p1 p' ch' sh sh1 rw r U1 U2 U3 U4 U5 U6 U7 U8 U9].
  - rewrite decide_True by done. eapply gone_linked; try done. intros Hb Hh. by apply U3.
  - assert (log_update p rev p' l = l) as ->.
    { unfold log_update. rewrite (decide_False (P := _ /\ _)) by (intros (? & ? & ?); destruct U2; congruence).
      destruct (decide _) as [Hb|]; [|done]. rewrite Hty. unfold update_types. rewrite Hb.
      destruct U2 as [U2|U2]; [congruence|]. destruct (p_mapped p) as [[]|]; rewrite ?U1, ?U2; apply log_seen_nil. }
    apply linked_ext with (p := p); [done|done|]. rewrite U3. destruct (decide _) as [Hg|]; [|done].
    destruct Hl; try congruence. by apply L_gone.
  - unfold log_update. rewrite (decide_False (P := _ /\ _)) by (intros (? & _ & _); congruence). rewrite !decide_False by congruence.
    destruct Hp as [_ Hin]. specialize (Hin U1 U2).
    destruct Hl as [sh rw H1 H2 H3 H4 H5|sh rw H1|sh rw H1|sh rw r0 H1|sh rw H1|H1]; try congruence.
    eapply L_avail; [done|rewrite U5; exact H2| |done]. inversion H4; subst; cbn in *; try lia; constructor; cbn; (done || lia).
  - pose proof (answered_linked p p1 p' ch rev ph l sh sh1 rw U3 U1 U2 Hp U4 U5 U6 U7 U8 Hty Hl) as Ha.
    unfold log_update. rewrite (decide_True (P := p_st p = _)) by done. destruct U9 as [[-> ->]|Ht].
    + rewrite (decide_False (P := p_st p1 = _)) by congruence. rewrite decide_False by (intros (_ & _ & ?); congruence). done.
    + destruct (told_linked _ _ _ _ _ _ _ _ Ht ltac:(done) Ha) as [Hl' _].
      rewrite (decide_False (P := p_st p' = _)) by (inversion Ht; congruence).
      destruct (decide (p_st p' = proc_st_busy_)) as [Hb|Hb].
      * rewrite decide_True by done. by rewrite decide_True in Hl' by done.
      * rewrite decide_False by tauto. by rewrite decide_False in Hl' by tauto.
Qed.

Lemma parent_step_inv s s' : parent_step s s' -> inv s -> inv s'.
Proof.
  intros Hs [Hwf Hl]. destruct Hs as [p ch k ph x w l sh rw n fl rw' Hm Hlen|p ch k ph x w l fuel c r p' ch' k' Hf Hc Hr
    |p ch k ph x w l fuel r p' ch' k' Hf Hr|p ch k ph x w l fuel fds r p' ch' k' Hf Hp Hr];
    unfold inv in *; cbn [s_p s_ch s_ph s_log] in *.
  - split; [by eapply pwf_remap|by eapply mem_linked].
  - split; [by apply (wp_out _ _ _ _ _ (proc_send_cmd_wp P fuel c p (ch, k) Hwf Hf) Hr)|].
    pose proof (wp_out _ _ _ _ _ (send_chan_wp P fuel c p (ch, k) Hwf Hf) Hr) as Ht. cbn [fst snd] in Ht.
    destruct (told_linked _ _ _ _ _ _ _ _ Ht Hc Hl) as [Hl' Hok]. 
    by destruct (decide (r = afs_ok)); [rewrite decide_True in Hl' by tauto|rewrite decide_False in Hl' by tauto].
  - split; [by apply (wp_out _ _ _ _ _ (proc_stop_prep_wp P fuel p (ch, k) Hwf Hf) Hr)|].
    pose proof (wp_out _ _ _ _ _ (stop_chan_wp P fuel p (ch, k) Hwf Hf) Hr) as [Ht|(H1 & H2 & H3)]; cbn [fst snd] in *.
    + apply (told_linked _ _ _ _ _ _ _ _ Ht ltac:(done) Hl).
    + subst. rewrite decide_False by (intros [? ?]; congruence). by eapply linked_ext.
  - destruct (wp_out _ _ _ _ _ (proc_update_wp P fuel fds p (ch, k) Hwf Hf) Hr) as (Hwf' & _ & Hty & _). split; [done|].
    pose proof (wp_out _ _ _ _ _ (update_chan_wp P fuel fds p (ch, k) Hwf Hf (proj2 Hp)) Hr) as Hu. by apply update_linked with ch.
Qed.

Lemma step_inv s s' : step s s' -> inv s -> inv s'.
Proof.
  intros Hs. destruct Hs as [s s' Hs|s s' Hs|p ch k ph x w l sh rw st Hm Hph|]; [by eapply worker_step_inv|by eapply parent_step_inv| |done].
  intros [Hwf Hl]. unfold inv in *. cbn [s_p s_ch s_ph s_log] in *. pose proof (mapped_alive _ _ Hwf Hm) as Hne.
  split; [by eapply pwf_remap|]. lcases Hl Hm Hne.
  - eapply L_init; cbn; try done. constructor; [done|]. inversion H4; subst; cbn; lia.
  - eapply L_avail; cbn; try done. constructor; [done|]. inversion H4; subst; cbn; lia.
  - eapply L_sent; cbn; try done. constructor; [done|]. inversion H4; subst; cbn; lia.
  - eapply L_ran; cbn; try done. constructor; [by left|]. inversion H4; subst; cbn; lia.
  - eapply L_dead; cbn; try done. by right.
Qed.

Lemma steps_inv s s' : rtc step s s' -> inv s -> inv s'.
Proof. induction 1 as [|s1 s2 s3 H12 _ IH]; [done|]. intros H. by apply IH, (step_inv s1). Qed.

(** What the invariant says of the log. *)
Lemma linked_sent p ch ph l : linked p ch ph l -> exists q, length q <= 1 /\ l_sent l = (l_ran l).*1 ++ q.
Proof.
  intros [sh rw _ _ _ _ [H _]|sh rw _ _ _ [H _]|sh rw _ _ _ _ H _|sh rw r0 _ _ _ _ _ _ H _|sh rw _ _ _ [H _]
    |_ _ [[H _]|(r0 & q & c & _ & _ & _ & _ & [[_ H]|[_ H]])]];
    first [by exists [cmd sh]|by exists [c]|by exists []; rewrite app_nil_r; split; [cbn; lia|]].
Qed.

Lemma linked_seen p ch ph l : linked p ch ph l -> exists ran0 q tail, length q <= 1 /\ l_ran l = ran0 ++ q /\
  l_seen l = (ran0 ≫= answer_types) ++ tail /\
  ((tail = [] /\ (q = [] \/ p_st p = proc_st_busy_)) \/
   (p_st p = proc_st_uninit_ /\ exists c, tail = [proc_cmd_fail_ev_ c] /\ last (l_sent l) = Some c /\
      (l_died l = true \/ c = proc_cmd_exit_))).
Proof.
  intros [sh rw _ _ _ _ [_ H]|sh rw _ _ _ [_ H]|sh rw _ _ _ _ _ H|sh rw r1 Hb _ _ _ _ H1 _ H2|sh rw _ _ _ [_ H]
    |Hu _ [[_ H]|(r0 & q & c & H1 & H2 & H3 & H4 & H5)]];
    try (exists (l_ran l), [], []; rewrite !app_nil_r; split; [cbn; lia|]; by auto 10).
  - exists r1, [(cmd sh, res sh)], []. rewrite app_nil_r. auto 10.
  - exists r0, q, [proc_cmd_fail_ev_ c]. do 3 (split; [done|]). right. split; [done|]. exists c. split; [done|]. split; [|done].
    destruct H5 as [[_ H5]|[Hq H5]]; rewrite H5; [apply last_snoc|]. by rewrite H1, fmap_app, Hq, last_snoc.
Qed.

(** *** Progress *)

(** The command under way has been answered: the byte is there, or, when it was
    the command to exit, the worker is gone. *)
Definition answered s : Prop := exists sh rw ran0,
  p_st (s_p s) = proc_st_busy_ /\ p_mapped (s_p s) = Some (sh, rw) /\
  l_ran (s_log s) = ran0 ++ [(cmd sh, res sh)] /\ l_seen (s_log s) = (ran0 ≫= answer_types) /\
  l_sent (s_log s) = (l_ran (s_log s)).*1 /\
  (cmd sh <> proc_cmd_exit_ /\ s_ph s = Ph_wait /\ 0 < down (s_ch s) \/ cmd sh = proc_cmd_exit_ /\ s_ph s = Ph_gone).

Lemma leave_run s : inv s -> p_st (s_p s) = proc_st_busy_ -> s_ph s = Ph_leave ->
  exists s', rtc worker_step s s' /\ answered s' /\ l_sent (s_log s') = l_sent (s_log s).
Proof.
  destruct s as [p ch k ph x w l]. cbn. intros [_ Hl] Hst ->. cbn in *.
  destruct Hl as [sh rw H1|sh rw H1|sh rw H1 H2 H3 H4|sh rw r0 H1 H2 H3 H4 H5 H6 H7 H8|sh rw H1|H1]; try congruence; inversion H4; subst.
  eexists. split; [by apply rtc_once, (W_leave p _ k x w l sh rw)|]. split; [|done].
  exists (with_child_st proc_child_st_not_started_ sh), rw, r0. cbn. auto 10.
Qed.

(** Once executed, the command is answered by the worker's own steps. *)
Lemma answer_run s : inv s -> p_st (s_p s) = proc_st_busy_ -> up (s_ch s) = 0 -> s_ph s <> Ph_run -> s_ph s <> Ph_gone ->
  exists s', rtc worker_step s s' /\ answered s' /\ l_sent (s_log s') = l_sent (s_log s).
Proof.
  intros Hinv Hst Hu Hr Hg. destruct s as [p ch k ph x w l]. pose proof Hinv as [_ Hl]. cbn in *.
  destruct Hl as [sh rw H1|sh rw H1|sh rw H1 H2 H3 H4|sh rw r0 H1 H2 H3 H4 H5 H6 H7 H8|sh rw H1|H1]; try congruence;
    inversion H4; subst; try done.
  - pose proof (W_notify p 0 0 k x w l (bool_decide (cmd sh = proc_cmd_exit_)) _ H2) as Hs.
    destruct (bool_decide_reflect (cmd sh = proc_cmd_exit_)) as [He|He].
    + destruct (leave_run _ (worker_step_inv _ _ Hs Hinv) Hst eq_refl) as (s' & Hs' & Ha). exists s'.
      split; [by eapply rtc_l; [exact Hs|]|exact Ha].
    + eexists. split; [by apply rtc_once|]. split; [|done]. exists sh, rw, r0. cbn. auto 10 with lia.
  - eexists. split; [apply rtc_refl|]. split; [|done]. exists sh, rw, r0. cbn. auto 10 with lia.
  - by apply leave_run.
Qed.

(** The command under way is executed. *)
Lemma exec_run s : inv s -> p_st (s_p s) = proc_st_busy_ -> s_ph s = Ph_run ->
  (forall sh rw, p_mapped (s_p s) = Some (sh, rw) ->
     exists fuel ex c', child_exec_ E fuel {| c_sh := sh; c_rw := rw; c_fd := s_fd s; c_w := s_w s |} = Ret (ex, c')) ->
  exists s', rtc worker_step s s' /\ answered s' /\ l_sent (s_log s') = l_sent (s_log s).
Proof.
  destruct s as [p ch k ph x w l]. cbn. intros Hinv Hst -> Hex. pose proof Hinv as [_ Hl]. cbn in *.
  destruct Hl as [sh rw H1|sh rw H1|sh rw H1 H2 H3 H4|sh rw r0 H1 H2 H3 H4 H5 H6 H7 H8|sh rw H1|H1]; try congruence; inversion H4; subst.
  destruct (Hex sh rw H2) as (fuel & ex & c' & Hc). pose proof (W_exec p {| up := 0; down := 0 |} k x w l sh rw fuel ex c' H2 Hc) as Hs.
  destruct (answer_run _ (worker_step_inv _ _ Hs Hinv)) as (s' & Hs' & Ha & Hsent); [done|done|done|done|].
  exists s'. split; [by eapply rtc_l; [exact Hs|]|]. split; [done|]. rewrite Hsent. cbn. unfold log_ran. by case_decide.
Qed.

Lemma progress_run s : inv s -> p_st (s_p s) = proc_st_busy_ -> s_ph s <> Ph_gone ->
  (forall sh rw, p_mapped (s_p s) = Some (sh, rw) ->
     exists fuel ex c', child_exec_ E fuel {| c_sh := sh; c_rw := rw; c_fd := s_fd s; c_w := s_w s |} = Ret (ex, c')) ->
  exists s', rtc worker_step s s' /\ answered s' /\ l_sent (s_log s') = l_sent (s_log s).
Proof.
  intros Hinv Hst Hg Hex. assert ({s_ph s = Ph_run} + {s_ph s <> Ph_run}) as [Hr|Hr] by (destruct (s_ph s); auto); [by apply exec_run|].
  destruct (decide (up (s_ch s) = 0)) as [Hu|Hu]; [by apply answer_run|].
  destruct s as [p ch k ph x w l]. pose proof Hinv as [_ Hl]. cbn in *.
  destruct Hl as [sh rw H1|sh rw H1|sh rw H1 H2 H3 H4|sh rw r0 H1 H2 H3 H4 H5 H6 H7 H8|sh rw H1|H1]; try congruence;
    inversion H4; subst; cbn in *; try done.
  pose proof (W_take p 0 0 k x w l _ H2) as Hs.
  destruct (exec_run _ (worker_step_inv _ _ Hs Hinv) Hst eq_refl Hex) as (s' & Hs' & Ha).
  exists s'. split; [by eapply rtc_l; [exact Hs|]|exact Ha].
Qed.

(** What the update reports after an answer, [poll] having been asked now. *)
Lemma report_run s fuel fds : inv s -> answered s -> pintr (s_ch s, s_k s) < fuel ->
  polled_now (s_ph s) (s_ch s) (revents_of_ (p_fd (s_p s)) fds) ->
  exists r p' c' ran0 a, proc_update_ P fuel fds (s_p s, (s_ch s, s_k s)) = Ret (r, (p', c')) /\
    l_ran (s_log s) = ran0 ++ [a] /\ l_seen (s_log s) = (ran0 ≫= answer_types) /\
    p_types p' = if decide (a.1 = proc_cmd_exit_) then [afs_ev_stop_fail] else answer_types a.
Proof.
  intros [Hwf _] (sh & rw & r0 & H1 & H2 & H3 & H4 & H5 & H6) Hf [Hh Hi].
  destruct (wp_Ret _ _ _ (proc_update_wp P fuel fds (s_p s) (s_ch s, s_k s) Hwf Hf)) as (r & [p' c'] & Hr & _ & _ & Hty & _).
  exists r, p', c', r0, (cmd sh, res sh). split; [done|]. split; [done|]. split; [done|]. cbn [fst] in *. rewrite Hty.
  unfold update_types. rewrite H1, H2. destruct H6 as [(Hx & Hp & Hd)|[Hx Hp]].
  - assert (hup_ (revents_of_ (p_fd (s_p s)) fds) = false) as Hh0.
    { destruct (hup_ _); [|done]. assert (s_ph s = Ph_gone) by by apply Hh. congruence. }
    rewrite Hh0, (proj2 (Hi Hh0) Hd). cbn [fst]. by rewrite (decide_False (P := cmd sh = proc_cmd_exit_)).
  - by rewrite (proj2 Hh Hp), Hx.
Qed.
End proto.

(** ** The reachable states *)

(** A worker that has just been started: its byte is on the way. *)
Definition initial {K W} (p : proc_) (k : K) (w : W) : sys_st K W :=
  Build_sys_st p {| up := 1; down := 0 |} k Ph_start (-1)%Z w {| l_sent := []; l_ran := []; l_seen := []; l_died := false |}.

Lemma reached_inv {K W} (P : os_penv (chan * K)) `{!ParentLaws P, !ChanLaws P} (E : os_env W) p k w s :
  pwf p -> p_st p = proc_st_init_pend_ -> p_mapped p = Some (shared_init_, replicate (p_rw_buf_len p) 0%Z) ->
  rtc (step P E) (initial p k w) s -> inv s.
Proof.
  intros Hwf Hst Hm Hs. apply (steps_inv P E _ _ Hs). split; [done|]. cbn. eapply L_init; try done. by constructor.
Qed.

(** ** A concrete system *)

(** The small kernel of [AfsProcProps] with the channel: a write may be
    interrupted some times, and may fail. *)
Definition link_env : os_penv (chan * kernel) := {|
  p_errno c := k_errno c.2;
  p_pagesize := 4096;
  p_socketpair c := (Some (4, 5)%Z, c);
  p_getfd _ c := (0%Z, c);
  p_setfd _ _ c := c;
  p_mmap _ c := (Some 65536%Z, c);
  p_munmap _ _ c := c;
  p_fork c := (Some 100%Z, c);
  p_close _ c := c;
  p_write1 _ c := let r := k_call 1 c.2 in (r.1, (if decide (r.1 = 1%Z) then chan_sent c.1 else c.1, r.2));
  p_read1 _ c := (chan_read c.1, c.2);
  p_kill _ c := c;
  p_waitpid _ c := let r := k_call 100 c.2 in (r.1, (c.1, r.2));
  p_malloc _ c := (true, c)
|}.

#[local] Instance link_laws : ParentLaws link_env.
Proof.
  refine {| pintr c := k_intr c.2 |}; cbn; try done; try lia; try (intros; simplify_eq; lia).
  - intros _ [ch w]. unfold k_call. cbn. destruct (k_intr w) eqn:Hi; [destruct (k_broken w)|]; cbn; rewrite ?Hi; split; try lia; done.
  - intros _ [ch w]. unfold k_call. cbn. destruct (k_intr w) eqn:Hi; [destruct (k_broken w)|]; cbn; rewrite ?Hi; split; try lia; done.
Defined.

#[local] Instance link_chan_laws : ChanLaws link_env.
Proof. by split. Defined.

(** A small worker that has just been started. *)
Definition fresh_worker : proc_ := {|
  p_fail := fail0; p_is_stop_req := false; p_st := proc_st_init_pend_; p_evs := replicate 3 ev0; p_evs_len := 0;
  p_mapped := Some (shared_init_, replicate 8 0%Z); p_rw_buf_len := 8; p_mmap_start := 65536; p_mmap_len := 80;
  p_pid := 100; p_fd := 4 |}.

Lemma fresh_worker_pwf : pwf fresh_worker.
Proof. split; cbn; [done|lia|]. by eexists _, _. Defined.

Definition quiet_disk : disk := {| d_script := []; d_errno := 0 |}.
(** One more call is interrupted. *)
Definition busy_kernel : kernel := {| k_intr := 1; k_errno := 0; k_broken := false |}.
Definition poll_in : list pollfd := [{| pfd_fd := 4; pfd_events := POLLIN; pfd_revents := POLLIN |}].
Definition poll_hup : list pollfd := [{| pfd_fd := 4; pfd_events := POLLIN; pfd_revents := Z.lor POLLIN POLLHUP |}].

Ltac worker_does tac := eapply rtc_l; [apply S_worker; tac|].
Ltac parent_does tac := eapply rtc_l; [apply S_parent; tac|].
Ltac worker_executes :=
  worker_does ltac:(eapply (W_exec _ _ _ _ _ _ _ _ _ 2); [vm_compute; reflexivity|vm_compute; reflexivity]).
Ltac is_polled := split; [vm_compute; by intros ?|vm_compute; by auto with lia].
Ltac parent_updates fds :=
  parent_does ltac:(eapply (P_update _ _ _ _ _ _ _ _ 2 fds); [vm_compute; lia|is_polled|vm_compute; reflexivity]).

(** The worker starts, is heard of, and is told to open a file, the write of the
    byte being interrupted once. *)
Lemma asked_run : exists s, rtc (step link_env disk_env) (initial fresh_worker busy_kernel quiet_disk) s /\
  p_st (s_p s) = proc_st_busy_ /\ s_ph s = Ph_wait /\ l_sent (s_log s) = [proc_cmd_open_] /\ l_seen (s_log s) = [] /\
  k_intr (s_k s) = 0 /\ p_fd (s_p s) = 4%Z /\
  forall sh rw, p_mapped (s_p s) = Some (sh, rw) ->
     exists fuel ex c', child_exec_ disk_env fuel {| c_sh := sh; c_rw := rw; c_fd := s_fd s; c_w := s_w s |} = Ret (ex, c').
Proof.
  eexists. split.
  - worker_does ltac:(eapply W_start; vm_compute; reflexivity).
    worker_does ltac:(eapply W_take; vm_compute; reflexivity).
    worker_executes.
    worker_does ltac:(eapply W_notify; vm_compute; reflexivity).
    parent_updates poll_in.
    parent_does ltac:(eapply (P_send _ _ _ _ _ _ _ _ 2 proc_cmd_open_); [vm_compute; lia|done|vm_compute; reflexivity]).
    apply rtc_refl.
  - do 6 (split; [vm_compute; reflexivity|]). vm_compute. intros sh rw H. injection H as <- <-. exists 2. eexists _, _. vm_compute. reflexivity.
Defined.

(** It opens the file and answers; a stop is requested, the worker ends, and the
    parent finds the hang-up. *)
Lemma ended_run : exists s, rtc (step link_env disk_env) (initial fresh_worker busy_kernel quiet_disk) s /\
  l_sent (s_log s) = [proc_cmd_open_; proc_cmd_exit_] /\
  l_ran (s_log s) = [(proc_cmd_open_, proc_res_ok_); (proc_cmd_exit_, proc_res_ok_)] /\
  l_seen (s_log s) = [afs_ev_open; afs_ev_stop_fail] /\ l_died (s_log s) = false.
Proof.
  eexists. split.
  - worker_does ltac:(eapply W_start; vm_compute; reflexivity).
    worker_does ltac:(eapply W_take; vm_compute; reflexivity).
    worker_executes.
    worker_does ltac:(eapply W_notify; vm_compute; reflexivity).
    parent_updates poll_in.
    parent_does ltac:(eapply (P_send _ _ _ _ _ _ _ _ 2 proc_cmd_open_); [vm_compute; lia|done|vm_compute; reflexivity]).
    worker_does ltac:(eapply W_take; vm_compute; reflexivity).
    worker_executes.
    worker_does ltac:(eapply W_notify; vm_compute; reflexivity).
    parent_updates poll_in.
    parent_does ltac:(eapply (P_stop _ _ _ _ _ _ _ _ 2); [vm_compute; lia|vm_compute; reflexivity]).
    worker_does ltac:(eapply W_take; vm_compute; reflexivity).
    worker_executes.
    worker_does ltac:(eapply W_notify; vm_compute; reflexivity).
    worker_does ltac:(eapply W_leave; vm_compute; reflexivity).
    parent_updates poll_hup.
    apply rtc_refl.
  - do 3 (split; [vm_compute; reflexivity|]). vm_compute. reflexivity.
Defined.

(** ** The theorems *)

(** C8. The protocol between the parent and a worker, for every kernel of the
    parent that obeys the laws - its calls may fail and be interrupted -, whatever
    the order in which the two take their steps: the worker waiting, executing,
    answering and ending, dying at any moment, the parent sending commands,
    storing into the mapping at any time, requesting a stop, and updating with
    what [poll] reported then or before.  The worker executes the commands that
    were sent, each once and in their order, at most one being under way.  The
    parent's updates report the outcomes of the executed commands, each once and
    in their order; at most one executed command is not reported with its outcome:
    the one still under way, or the last one sent, which is reported as failed
    when the worker was found hung up - and then the worker died, or the command
    was the one to exit - and nothing follows it.  A parent that finds the worker
    available has seen everything reported, and can send it a command unless the
    write fails or the worker died. *)
Theorem afs_proto_exactly_once {K W} (P : os_penv (chan * K)) `{!ParentLaws P, !ChanLaws P} (E : os_env W) p k w s :
  pwf p -> p_st p = proc_st_init_pend_ -> p_mapped p = Some (shared_init_, replicate (p_rw_buf_len p) 0%Z) ->
  rtc (step P E) (initial p k w) s ->
  (exists q, length q <= 1 /\ l_sent (s_log s) = (l_ran (s_log s)).*1 ++ q) /\
  (exists ran0 q tail, length q <= 1 /\ l_ran (s_log s) = ran0 ++ q /\
     l_seen (s_log s) = (ran0 ≫= answer_types) ++ tail /\
     ((tail = [] /\ (q = [] \/ p_st (s_p s) = proc_st_busy_)) \/
      (p_st (s_p s) = proc_st_uninit_ /\ exists c, tail = [proc_cmd_fail_ev_ c] /\ last (l_sent (s_log s)) = Some c /\
         (l_died (s_log s) = true \/ c = proc_cmd_exit_)))) /\
  (p_st (s_p s) = proc_st_avail_ ->
     l_sent (s_log s) = (l_ran (s_log s)).*1 /\ l_seen (s_log s) = (l_ran (s_log s) ≫= answer_types) /\
     forall c fuel, pintr (s_ch s, s_k s) < fuel ->
       exists r p' w', proc_send_cmd_ P fuel c (s_p s, (s_ch s, s_k s)) = Ret (r, (p', w')) /\
         (r = afs_ok \/ p_st p' = proc_st_dead_ \/ l_died (s_log s) = true)).
Proof.
  intros Hwf Hst Hm Hsteps. pose proof (reached_inv P E p k w s Hwf Hst Hm Hsteps) as [Hwf' Hl].
  split; [by apply (linked_sent _ _ _ _ Hl)|]. split; [by apply (linked_seen _ _ _ _ Hl)|].
  intros Hav. destruct Hl as [sh rw H1|sh rw H1 H2 H4 [H5 H6]|sh rw H1|sh rw r0 H1|sh rw H1|H1]; try congruence.
  split; [done|]. split; [done|]. intros c fuel Hf.
  destruct (wp_Ret _ _ _ (proc_send_cmd_wp P fuel c (s_p s) (s_ch s, s_k s) Hwf' Hf)) as
    (r & [p' w'] & Hr & _ & _ & _ & _ & _ & Hres). exists r, p', w'. split; [exact Hr|].
  destruct Hres as [[-> _]|(_ & _ & Hd)]; [by left|]. inversion H4; subst; [|by do 2 right].
  right. left. apply Hd. split; [done|]. by exists sh, rw.
Qed.

Lemma afs_proto_exactly_once_witness : exists s : sys_st kernel disk,
  l_sent (s_log s) = [proc_cmd_open_; proc_cmd_exit_] /\ l_seen (s_log s) = [afs_ev_open; afs_ev_stop_fail] /\
  (exists q, length q <= 1 /\ l_sent (s_log s) = (l_ran (s_log s)).*1 ++ q) /\
  (exists ran0 q tail, length q <= 1 /\ l_ran (s_log s) = ran0 ++ q /\
     l_seen (s_log s) = (ran0 ≫= answer_types) ++ tail /\
     ((tail = [] /\ (q = [] \/ p_st (s_p s) = proc_st_busy_)) \/
      (p_st (s_p s) = proc_st_uninit_ /\ exists c, tail = [proc_cmd_fail_ev_ c] /\ last (l_sent (s_log s)) = Some c /\
         (l_died (s_log s) = true \/ c = proc_cmd_exit_)))).
Proof.
  destruct ended_run as (s & Hs & H1 & _ & H2 & _). exists s. split; [exact H1|]. split; [exact H2|].
  destruct (afs_proto_exactly_once link_env disk_env fresh_worker busy_kernel quiet_disk s) as (H3 & H4 & _);
    [exact fresh_worker_pwf|reflexivity|reflexivity|exact Hs|]. split; [exact H3|exact H4].
Defined.

(** C20. No command is lost on the way: in every reachable state in which the
    parent waits for a command, the worker is alive and the execution of the
    command returns, steps of the worker alone lead to a state in which every
    command sent has been executed, and there an update on what [poll] reports at
    that moment returns and reports the outcome of the one under way.  The
    command to exit is the exception: the worker that executed it is gone, [poll]
    reports the hang-up, and the update reports a failed stop. *)
Theorem afs_proto_answers {K W} (P : os_penv (chan * K)) `{!ParentLaws P, !ChanLaws P} (E : os_env W) p k w s :
  pwf p -> p_st p = proc_st_init_pend_ -> p_mapped p = Some (shared_init_, replicate (p_rw_buf_len p) 0%Z) ->
  rtc (step P E) (initial p k w) s -> p_st (s_p s) = proc_st_busy_ -> s_ph s <> Ph_gone ->
  (forall sh rw, p_mapped (s_p s) = Some (sh, rw) ->
     exists fuel ex c', child_exec_ E fuel {| c_sh := sh; c_rw := rw; c_fd := s_fd s; c_w := s_w s |} = Ret (ex, c')) ->
  exists s', rtc (worker_step E) s s' /\ l_sent (s_log s') = l_sent (s_log s) /\
    l_sent (s_log s') = (l_ran (s_log s')).*1 /\
    forall fuel fds, pintr (s_ch s', s_k s') < fuel ->
      polled_now (s_ph s') (s_ch s') (revents_of_ (p_fd (s_p s')) fds) ->
      exists r p' c' ran0 a, proc_update_ P fuel fds (s_p s', (s_ch s', s_k s')) = Ret (r, (p', c')) /\
        l_ran (s_log s') = ran0 ++ [a] /\ l_seen (s_log s') = (ran0 ≫= answer_types) /\
        p_types p' = if decide (a.1 = proc_cmd_exit_) then [afs_ev_stop_fail] else answer_types a.
Proof.
  intros Hwf Hst Hm Hsteps Hb Hg Hex. pose proof (reached_inv P E p k w s Hwf Hst Hm Hsteps) as Hinv.
  destruct (progress_run E s Hinv Hb Hg Hex) as (s' & Hs' & Ha & Hsent). exists s'. split; [done|]. split; [done|].
  split; [by destruct Ha as (? & ? & ? & _ & _ & _ & _ & ? & _)|]. intros fuel fds Hf Hp. apply (report_run P s'); [|done..].
  clear -Hs' Hinv. induction Hs' as [|s1 s2 s3 H12 _ IH]; [done|]. by apply IH, (worker_step_inv E s1).
Qed.

Lemma afs_proto_answers_witness : exists s s' : sys_st kernel disk,
  l_sent (s_log s) = [proc_cmd_open_] /\ l_seen (s_log s) = [] /\
  rtc (worker_step disk_env) s s' /\ l_sent (s_log s') = l_sent (s_log s) /\ l_sent (s_log s') = (l_ran (s_log s')).*1.
Proof.
  destruct asked_run as (s & Hs & H1 & H2 & H3 & H4 & _ & _ & H5).
  destruct (afs_proto_answers link_env disk_env fresh_worker busy_kernel quiet_disk s) as (s' & H6 & H7 & H8 & _);
    [exact fresh_worker_pwf|reflexivity|reflexivity|exact Hs|exact H1|by rewrite H2|exact H5|].
  exists s, s'. split; [exact H3|]. split; [exact H4|]. split; [exact H6|]. split; [exact H7|exact H8].
Defined.
