(* ===== verification/Afs.v ===== *)
(** * The asynchronous file system ([src/src/afs.c], lines 97-116 and 180-854)

    [afs_ctx] keeps a linked list of workers ([ps_]).  A list node is identified
    by [ps_id], which stands for its address: a pointer to a node is an id, and
    following one whose node was freed is undefined.  [ps] is the list in the
    order of its links.  The arrays for [poll] and for the events are NULL
    ([None]) or allocated.  Memory obtained from [malloc] holds [junk].

    A call on a worker ([AfsProc]) runs on its node through [on_ps]. *)

From stdpp Require Import base list numbers strings option.
From S2P Require Import Prelude AfsChild AfsProc.

Record ps_ := {
  ps_id : nat;
  ps_fd : Z;
  ps_p : proc_;
  ps_cmd_after_init : proc_cmd_;
  ps_is_avail : bool
}.

Record afs_ctx := {
  a_fail : sob_fail;
  a_is_stop_req : bool;
  a_ps : list ps_;
  a_pfds : option (list pollfd);
  a_pfds_maxlen : nat;
  a_pfds_len : nat;
  a_evs : option (list afs_ev);
  a_evs_maxlen : nat;
  a_evs_len : nat;
  a_next : nat (** the next address *)
}.

Definition with_ps_id v (c : ps_) : ps_ :=
  {| ps_id := v; ps_fd := ps_fd c; ps_p := ps_p c;
     ps_cmd_after_init := ps_cmd_after_init c; ps_is_avail := ps_is_avail c |}.
Definition with_ps_fd v (c : ps_) : ps_ :=
  {| ps_id := ps_id c; ps_fd := v; ps_p := ps_p c;
     ps_cmd_after_init := ps_cmd_after_init c; ps_is_avail := ps_is_avail c |}.
Definition with_ps_p v (c : ps_) : ps_ :=
  {| ps_id := ps_id c; ps_fd := ps_fd c; ps_p := v;
     ps_cmd_after_init := ps_cmd_after_init c; ps_is_avail := ps_is_avail c |}.
Definition with_ps_cmd_after_init v (c : ps_) : ps_ :=
  {| ps_id := ps_id c; ps_fd := ps_fd c; ps_p := ps_p c; ps_cmd_after_init := v;
     ps_is_avail := ps_is_avail c |}.
Definition with_ps_is_avail v (c : ps_) : ps_ :=
  {| ps_id := ps_id c; ps_fd := ps_fd c; ps_p := ps_p c;
     ps_cmd_after_init := ps_cmd_after_init c; ps_is_avail := v |}.
Definition with_a_fail v (c : afs_ctx) : afs_ctx :=
  {| a_fail := v; a_is_stop_req := a_is_stop_req c; a_ps := a_ps c; a_pfds := a_pfds c;
     a_pfds_maxlen := a_pfds_maxlen c; a_pfds_len := a_pfds_len c; a_evs := a_evs c;
     a_evs_maxlen := a_evs_maxlen c; a_evs_len := a_evs_len c; a_next := a_next c |}.
Definition with_a_is_stop_req v (c : afs_ctx) : afs_ctx :=
  {| a_fail := a_fail c; a_is_stop_req := v; a_ps := a_ps c; a_pfds := a_pfds c;
     a_pfds_maxlen := a_pfds_maxlen c; a_pfds_len := a_pfds_len c; a_evs := a_evs c;
     a_evs_maxlen := a_evs_maxlen c; a_evs_len := a_evs_len c; a_next := a_next c |}.
Definition with_a_ps v (c : afs_ctx) : afs_ctx :=
  {| a_fail := a_fail c; a_is_stop_req := a_is_stop_req c; a_ps := v;
     a_pfds := a_pfds c; a_pfds_maxlen := a_pfds_maxlen c; a_pfds_len := a_pfds_len c;
     a_evs := a_evs c; a_evs_maxlen := a_evs_maxlen c; a_evs_len := a_evs_len c;
     a_next := a_next c |}.
Definition with_a_pfds v (c : afs_ctx) : afs_ctx :=
  {| a_fail := a_fail c; a_is_stop_req := a_is_stop_req c; a_ps := a_ps c; a_pfds := v;
     a_pfds_maxlen := a_pfds_maxlen c; a_pfds_len := a_pfds_len c; a_evs := a_evs c;
     a_evs_maxlen := a_evs_maxlen c; a_evs_len := a_evs_len c; a_next := a_next c |}.
Definition with_a_pfds_maxlen v (c : afs_ctx) : afs_ctx :=
  {| a_fail := a_fail c; a_is_stop_req := a_is_stop_req c; a_ps := a_ps c;
     a_pfds := a_pfds c; a_pfds_maxlen := v; a_pfds_len := a_pfds_len c;
     a_evs := a_evs c; a_evs_maxlen := a_evs_maxlen c; a_evs_len := a_evs_len c;
     a_next := a_next c |}.
Definition with_a_pfds_len v (c : afs_ctx) : afs_ctx :=
  {| a_fail := a_fail c; a_is_stop_req := a_is_stop_req c; a_ps := a_ps c;
     a_pfds := a_pfds c; a_pfds_maxlen := a_pfds_maxlen c; a_pfds_len := v;
     a_evs := a_evs c; a_evs_maxlen := a_evs_maxlen c; a_evs_len := a_evs_len c;
     a_next := a_next c |}.
Definition with_a_evs v (c : afs_ctx) : afs_ctx :=
  {| a_fail := a_fail c; a_is_stop_req := a_is_stop_req c; a_ps := a_ps c;
     a_pfds := a_pfds c; a_pfds_maxlen := a_pfds_maxlen c; a_pfds_len := a_pfds_len c;
     a_evs := v; a_evs_maxlen := a_evs_maxlen c; a_evs_len := a_evs_len c;
     a_next := a_next c |}.
Definition with_a_evs_maxlen v (c : afs_ctx) : afs_ctx :=
  {| a_fail := a_fail c; a_is_stop_req := a_is_stop_req c; a_ps := a_ps c;
     a_pfds := a_pfds c; a_pfds_maxlen := a_pfds_maxlen c; a_pfds_len := a_pfds_len c;
     a_evs := a_evs c; a_evs_maxlen := v; a_evs_len := a_evs_len c; a_next := a_next c |}.
Definition with_a_evs_len v (c : afs_ctx) : afs_ctx :=
  {| a_fail := a_fail c; a_is_stop_req := a_is_stop_req c; a_ps := a_ps c;
     a_pfds := a_pfds c; a_pfds_maxlen := a_pfds_maxlen c; a_pfds_len := a_pfds_len c;
     a_evs := a_evs c; a_evs_maxlen := a_evs_maxlen c; a_evs_len := v;
     a_next := a_next c |}.
Definition with_a_next v (c : afs_ctx) : afs_ctx :=
  {| a_fail := a_fail c; a_is_stop_req := a_is_stop_req c; a_ps := a_ps c;
     a_pfds := a_pfds c; a_pfds_maxlen := a_pfds_maxlen c; a_pfds_len := a_pfds_len c;
     a_evs := a_evs c; a_evs_maxlen := a_evs_maxlen c; a_evs_len := a_evs_len c;
     a_next := v |}.

(** ** Events *)
Definition afs_ev_ty (e : afs_ev) : afs_event := ev_ty e.
Definition afs_ev_write_len (e : afs_ev) : nat := ev_len e.
Definition afs_ev_readall_len (e : afs_ev) : nat := ev_len e.
Definition afs_ev_readall_data (e : afs_ev) : Z := ev_data e.

Definition afs_ev_is_fail (e : afs_ev) : bool :=
  match ev_ty e with
  | afs_ev_init_fail | afs_ev_stop_fail | afs_ev_open_fail | afs_ev_close_fail | afs_ev_fsync_fail
  | afs_ev_write_fail | afs_ev_readall_fail | afs_ev_mkdir_fail | afs_ev_write_fsync_close_fail => true
  | afs_ev_init | afs_ev_stop | afs_ev_open | afs_ev_close | afs_ev_fsync | afs_ev_write | afs_ev_readall
  | afs_ev_mkdir | afs_ev_write_fsync_close => false
  end.

Definition afs_event_str (e : afs_event) : list char :=
  match e with
  | afs_ev_init => lit "afs_ev_init"
  | afs_ev_init_fail => lit "afs_ev_init_fail"
  | afs_ev_stop => lit "afs_ev_stop"
  | afs_ev_stop_fail => lit "afs_ev_stop_fail"
  | afs_ev_open => lit "afs_ev_open"
  | afs_ev_open_fail => lit "afs_ev_open_fail"
  | afs_ev_close => lit "afs_ev_close"
  | afs_ev_close_fail => lit "afs_ev_close_fail"
  | afs_ev_fsync => lit "afs_ev_fsync"
  | afs_ev_fsync_fail => lit "afs_ev_fsync_fail"
  | afs_ev_write => lit "afs_ev_write"
  | afs_ev_write_fail => lit "afs_ev_write_fail"
  | afs_ev_readall => lit "afs_ev_readall"
  | afs_ev_readall_fail => lit "afs_ev_readall_fail"
  | afs_ev_mkdir => lit "afs_ev_mkdir"
  | afs_ev_mkdir_fail => lit "afs_ev_mkdir_fail"
  | afs_ev_write_fsync_close => lit "afs_ev_write_fsync_close"
  | afs_ev_write_fsync_close_fail => lit "afs_ev_write_fsync_close_fail"
  end.

Definition ev_with_fd (x : Z) (e : afs_ev) : afs_ev :=
  {| ev_ty := ev_ty e; ev_fd := x; ev_len := ev_len e; ev_data := ev_data e |}.
Definition ev_with_ty (t : afs_event) (e : afs_ev) : afs_ev :=
  {| ev_ty := t; ev_fd := ev_fd e; ev_len := ev_len e; ev_data := ev_data e |}.

Section afs.
Context {W : Type} (E : os_penv W) (fuel : nat) (junk : proc_).
Abbreviation M := (CM (afs_ctx * W)) (only parsing).

Definition get_ctx : M afs_ctx := reads fst.
Definition upd_ctx (f : afs_ctx -> afs_ctx) : M unit := modc (fun s => (f s.1, s.2)).
Definition asys {A} (f : W -> A * W) : M A :=
  w ← reads snd; modc (fun s => (s.1, (f w).2)) ;; mret (f w).1.

(** [SOB_AFS_FAIL_] at a line of the source. *)
Definition afs_fail_ (line : Z) (msg : list char) : M unit :=
  e ← reads (fun s => p_errno E s.2);
  upd_ctx (with_a_fail {| fail_line := line; the_errno := e; fail_msg := msg |}).

(** ** The list of workers *)

(** The node at an address. *)
Definition find_ps (id : nat) (l : list ps_) : option ps_ :=
  snd <$> list_find (fun q => ps_id q = id) l.

Definition get_ps (id : nat) : M ps_ :=
  c ← get_ctx; match find_ps id (a_ps c) with Some q => mret q | None => undef end.

Definition upd_ps (id : nat) (f : ps_ -> ps_) : M unit :=
  get_ps id ;;
  upd_ctx (fun c => with_a_ps ((fun q => if decide (ps_id q = id) then f q else q) <$> a_ps c) c).

(** A call on the worker of a node. *)
Definition on_ps {A} (id : nat) (m : CM (proc_ * W) A) : M A :=
  q ← get_ps id;
  w ← reads snd;
  match m (ps_p q, w) with
  | Ret (a, (p, w)) => modc (fun s => (s.1, w)) ;; upd_ps id (with_ps_p p) ;; mret a
  | Panic r => fun _ => Panic r
  | Undef => undef
  end.

(** [ps->next] *)
Definition next_ps (id : nat) : M (option nat) :=
  c ← get_ctx;
  match list_find (fun q => ps_id q = id) (a_ps c) with
  | Some (i, _) => mret (ps_id <$> a_ps c !! S i)
  | None => undef
  end.

Definition ps_get_ (x : Z) : M (option nat) :=
  c ← get_ctx; mret (ps_id ∘ snd <$> list_find (fun q => ps_fd q = x) (a_ps c)).

Definition next_fd (l : list ps_) : Z :=
  foldl (fun x q => if (x <=? ps_fd q)%Z then (ps_fd q + 1)%Z else x) 0%Z l.

(** The descriptors are [int]s: past [INT_MAX] the increment is undefined. *)
Definition ps_next_fd_ : M Z := c ← get_ctx; int_chk (next_fd (a_ps c)).
Definition ps_len_ : M nat := c ← get_ctx; mret (length (a_ps c)).

Definition ps_del_ (x : Z) : M afs_res :=
  c ← get_ctx;
  match list_find (fun q => ps_fd q = x) (a_ps c) with
  | Some (i, _) => upd_ctx (with_a_ps (delete i (a_ps c))) ;; mret afs_ok
  | None => afs_fail_ 816 (lit "fd not found (no errno)") ;; mret afs_fail_bad_fd
  end.

Definition zero_ev : afs_ev := {| ev_ty := afs_ev_init; ev_fd := 0; ev_len := 0; ev_data := 0 |}.
Definition zero_pfd : pollfd := {| pfd_fd := 0; pfd_events := 0; pfd_revents := 0 |}.

(** Make room for the descriptors of [n] workers; true when there is. *)
Definition grow_pfds_ (n : nat) : M bool :=
  c ← get_ctx;
  if decide (a_pfds_maxlen c < n) then
    let len := n + evs_pfds_prealloc_len_ in
    ok ← asys (p_malloc E len);
    if (ok : bool) then
      upd_ctx (with_a_pfds (Some (replicate len zero_pfd))) ;;
      upd_ctx (with_a_pfds_maxlen len) ;;
      mret true
    else afs_fail_ 761 (lit "malloc pfds") ;; mret false
  else mret true.

(** The same for the events. *)
Definition grow_evs_ (n : nat) : M bool :=
  c ← get_ctx;
  if decide (a_evs_maxlen c < n * proc_evs_maxlen_) then
    let len := (n + evs_pfds_prealloc_len_) * proc_evs_maxlen_ in
    ok ← asys (p_malloc E len);
    if (ok : bool) then
      upd_ctx (with_a_evs (Some (replicate len zero_ev))) ;;
      upd_ctx (with_a_evs_maxlen len) ;;
      mret true
    else afs_fail_ 774 (lit "malloc evs") ;; mret false
  else mret true.

Definition ps_add_ : M (option nat) :=
  n ← ps_len_;
  ok ← asys (p_malloc E 1);
  if negb (ok : bool) then afs_fail_ 752 (lit "malloc ps") ;; mret None else
  ok ← grow_pfds_ (S n);
  if negb (ok : bool) then mret None else
  ok ← grow_evs_ (S n);
  if negb (ok : bool) then mret None else
  x ← ps_next_fd_;
  c ← get_ctx;
  let id := a_next c in
  upd_ctx (with_a_next (S id)) ;;
  upd_ctx (with_a_ps (a_ps c ++
    [{| ps_id := id; ps_fd := match a_ps c with [] => 0%Z | _ => x end; ps_p := junk;
        ps_cmd_after_init := proc_cmd_none_; ps_is_avail := false |}])) ;;
  mret (Some id).

(** The node and whether its worker was running; [None] is NULL. *)
Definition maybe_alloc_ps_ : M (option (nat * bool)) :=
  r ← ps_get_ (-1)%Z;
  match r with
  | Some id =>
      q ← get_ps id;
      was_init ←
        (if decide (p_st (ps_p q) = proc_st_uninit_) then
           r ← on_ps id (proc_init_ E fuel);
           mret (if decide (r = afs_ok) then Some false else None)
         else mret (Some true));
      match was_init with
      | None =>
          q ← get_ps id;
          upd_ctx (with_a_fail (p_fail (ps_p q))) ;;
          ps_del_ (-1)%Z ;;
          mret None
      | Some was_init =>
          x ← ps_next_fd_;
          upd_ps id (with_ps_fd x) ;;
          mret (Some (id, was_init))
      end
  | None =>
      r ← ps_add_;
      match r with
      | None => mret None
      | Some id =>
          r ← on_ps id (proc_init_ E fuel);
          if negb (bool_decide (r = afs_ok)) then
            q ← get_ps id;
            upd_ctx (with_a_fail (p_fail (ps_p q))) ;;
            ps_del_ (ps_fd q) ;;
            mret None
          else mret (Some (id, false))
      end
  end.

(** ** Calls of the client *)
Definition afs_get_fail : M sob_fail := c ← get_ctx; mret (a_fail c).

Definition afs_init : M unit :=
  upd_ctx (with_a_is_stop_req false) ;;
  upd_ctx (with_a_ps []) ;;
  upd_ctx (with_a_pfds None) ;;
  upd_ctx (with_a_pfds_maxlen 0) ;;
  upd_ctx (with_a_pfds_len 0) ;;
  upd_ctx (with_a_evs None) ;;
  upd_ctx (with_a_evs_maxlen 0) ;;
  upd_ctx (with_a_evs_len 0).

(** The address and size of the buffer of a worker. *)
Definition afs_get_rw_buf (x : Z) : M (afs_res * option (Z * nat)) :=
  if negb (x =? -1)%Z then
    r ← ps_get_ x;
    match r with
    | None => afs_fail_ 339 (lit "fd not found (no errno)") ;; mret (afs_fail_bad_fd, None)
    | Some id =>
        q ← get_ps id;
        mret (afs_ok, Some (match p_mapped (ps_p q) with
          | Some _ => (p_mmap_start (ps_p q) + Z.of_nat sizeof_proc_shared_)%Z
          | None => 0%Z
          end, p_rw_buf_len (ps_p q)))
    end
  else afs_fail_ 346 (lit "bad fd (no errno)") ;; mret (afs_fail_bad_fd, None).

(** Store bytes into the shared buffer; writing outside it is undefined. *)
Definition rw_put (off : Z) (d : list char) (f : proc_shared_ -> proc_shared_) : CM (proc_ * W) unit :=
  p ← get_proc;
  match p_mapped p with
  | Some (s, rw) =>
      if (off + Z.of_nat (length d) <=? Z.of_nat (length rw))%Z
      then upd_proc (with_p_mapped (Some (f s, splice rw (Z.to_nat off) d))) else undef
  | None => undef
  end.

(** What [afs_open] and [afs_mkdir] share: a node, the path in its buffer, and
    the command at once or after the worker has started. *)
Definition open_like_ (path : list char) (f : proc_shared_ -> proc_shared_) (send : CM (proc_ * W) afs_res)
    (later : proc_cmd_) (line null_line : Z) : M (afs_res * option Z) :=
  r ← maybe_alloc_ps_;
  match r with
  | None => mret (afs_fail_alloc, None)
  | Some (id, was_init) =>
      q ← get_ps id;
      if decide (p_rw_buf_len (ps_p q) < length path + 1) then
        afs_fail_ line (lit "path does not fit in rw_buf (no errno)") ;; mret (afs_fail_bad_arg, None)
      else
        match p_mapped (ps_p q) with
        | None => sob_panic (lit "afs.c") null_line (lit "rw_buf is NULL")
        | Some _ =>
            on_ps id (rw_put 0%Z (path ++ [ch_nul]) f) ;;
            if (was_init : bool) then
              r ← on_ps id send;
              q ← get_ps id;
              upd_ctx (with_a_fail (p_fail (ps_p q))) ;;
              mret (r, Some (ps_fd q))
            else
              upd_ps id (with_ps_is_avail false) ;;
              upd_ps id (with_ps_cmd_after_init later) ;;
              mret (afs_ok, Some (ps_fd q))
        end
  end.

Definition afs_open (path : list char) (flags : Z) : M (afs_res * option Z) :=
  open_like_ path (with_open_flags flags) (proc_open_ E fuel) proc_cmd_open_ 361 368.

Definition afs_mkdir (path : list char) : M (afs_res * option Z) :=
  open_like_ path (fun s => s) (proc_mkdir_ E fuel) proc_cmd_mkdir_ 459 466.

(** The node of a descriptor whose worker has started. *)
Definition avail_ps_ (x : Z) : M (option nat) :=
  r ← ps_get_ x;
  match r with
  | None => mret None
  | Some id => q ← get_ps id; mret (if ps_is_avail q then Some id else None)
  end.

Definition afs_close (x : Z) : M afs_res :=
  if negb (x =? -1)%Z then
    r ← avail_ps_ x;
    match r with
    | None => afs_fail_ 391 (lit "bad fd (no errno)") ;; mret afs_fail_bad_fd
    | Some id => on_ps id (proc_close_ E fuel)
    end
  else mret afs_fail_bad_fd.

Definition afs_fsync (x : Z) : M afs_res :=
  if negb (x =? -1)%Z then
    r ← avail_ps_ x;
    match r with
    | None => afs_fail_ 405 (lit "bad fd (no errno)") ;; mret afs_fail_bad_fd
    | Some id => on_ps id (proc_fsync_ E fuel)
    end
  else mret afs_fail_bad_fd.

Definition afs_write (x : Z) (len : nat) : M afs_res :=
  if negb (x =? -1)%Z then
    r ← avail_ps_ x;
    match r with
    | None => afs_fail_ 419 (lit "bad fd (no errno)") ;; mret afs_fail_bad_fd
    | Some id =>
        q ← get_ps id;
        match p_mapped (ps_p q) with
        | None => afs_fail_ 423 (lit "shared is NULL (no errno)") ;; mret afs_fail
        | Some _ =>
            if decide (p_rw_buf_len (ps_p q) < len) then
              afs_fail_ 427 (lit "write len out of bounds (no errno)") ;; mret afs_fail_bad_arg
            else
              on_ps id (upd_shared (with_write_len len)) ;;
              on_ps id (proc_write_ E fuel)
        end
    end
  else mret afs_fail_bad_fd.

Definition afs_readall (x : Z) : M afs_res :=
  if negb (x =? -1)%Z then
    r ← avail_ps_ x;
    match r with
    | None => mret afs_fail_bad_fd
    | Some id => on_ps id (proc_readall_ E fuel)
    end
  else mret afs_fail_bad_fd.

Definition afs_reserve : M (afs_res * option Z) :=
  r ← maybe_alloc_ps_;
  match r with
  | Some (id, _) => q ← get_ps id; mret (afs_ok, Some (ps_fd q))
  | None => mret (afs_fail_alloc, None)
  end.

(** [len] is any [size_t]: the sum with the length of the path wraps around. *)
Definition afs_write_fsync_close (x : Z) (path : list char) (flags : Z) (len : Z) : M afs_res :=
  if (x =? -1)%Z then afs_fail_ 503 (lit "bad fd (no errno)") ;; mret afs_fail_bad_fd else
  r ← ps_get_ x;
  match r with
  | None => afs_fail_ 508 (lit "fd not found (no errno)") ;; mret afs_fail_bad_fd
  | Some id =>
      q ← get_ps id;
      match p_mapped (ps_p q) with
      | None => afs_fail_ 512 (lit "shared or rw_buf is NULL (no errno)") ;; mret afs_fail
      | Some _ =>
          if (size_add len (Z.of_nat (length path + 1)) <=? Z.of_nat (p_rw_buf_len (ps_p q)))%Z then
            on_ps id (rw_put len (path ++ [ch_nul]) (fun s => with_write_len (Z.to_nat len) (with_open_flags flags s))) ;;
            match p_st (ps_p q) with
            | proc_st_avail_ =>
                r ← on_ps id (proc_write_fsync_close_ E fuel);
                q ← get_ps id;
                upd_ctx (with_a_fail (p_fail (ps_p q))) ;;
                mret r
            | proc_st_uninit_ | proc_st_init_pend_ =>
                upd_ps id (with_ps_is_avail false) ;;
                upd_ps id (with_ps_cmd_after_init proc_cmd_write_fsync_close_) ;;
                mret afs_ok
            | _ => afs_fail_ 530 (lit "proc busy or dead (no errno)") ;; mret afs_fail
            end
          else
            afs_fail_ 534 (lit "write len and path don't fit in the buf (no errno)") ;; mret afs_fail_bad_arg
      end
  end.

(** Call [m] on every node in turn; the last failure is kept. *)
Fixpoint each_ps_ (m : CM (proc_ * W) afs_res) (ids : list nat) (r : afs_res) : M afs_res :=
  match ids with
  | [] => mret r
  | id :: ids =>
      r1 ← on_ps id m;
      if negb (bool_decide (r1 = afs_ok)) then
        q ← get_ps id; upd_ctx (with_a_fail (p_fail (ps_p q))) ;; each_ps_ m ids r1
      else each_ps_ m ids r
  end.

Definition afs_stop_prep : M afs_res :=
  c ← get_ctx;
  if negb (a_is_stop_req c) then
    upd_ctx (with_a_is_stop_req true) ;;
    each_ps_ (proc_stop_prep_ E fuel) (ps_id <$> a_ps c) afs_ok
  else afs_fail_ 556 (lit "stop_prep already pending (no errno)") ;; mret afs_fail.

Definition afs_stop : M afs_res :=
  c ← get_ctx;
  r ← each_ps_ (proc_stop_ E) (ps_id <$> a_ps c) afs_ok;
  upd_ctx (with_a_ps []) ;;
  upd_ctx (with_a_pfds None) ;;
  upd_ctx (with_a_pfds_len 0) ;;
  upd_ctx (with_a_pfds_maxlen 0) ;;
  upd_ctx (with_a_evs None) ;;
  upd_ctx (with_a_evs_len 0) ;;
  upd_ctx (with_a_evs_maxlen 0) ;;
  mret r.

(** Fill the array for [poll]; the slot is written before the descriptor is
    looked at. *)
Fixpoint pollfds_loop_ (l : list ps_) : M unit :=
  match l with
  | [] => mret tt
  | q :: l =>
      c ← get_ctx;
      if decide (a_pfds_len c = a_pfds_maxlen c) then sob_panic (lit "afs.c") 599 (lit "not enough pfds") else
      match a_pfds c with
      | None => undef
      | Some a =>
          match a !! a_pfds_len c with
          | None => undef
          | Some old =>
              let x := proc_fd_ (ps_p q) in
              if negb (x =? -1)%Z then
                upd_ctx (with_a_pfds (Some (<[a_pfds_len c := {| pfd_fd := x; pfd_events := POLLIN; pfd_revents := 0 |}]> a))) ;;
                upd_ctx (with_a_pfds_len (S (a_pfds_len c))) ;;
                pollfds_loop_ l
              else
                upd_ctx (with_a_pfds (Some (<[a_pfds_len c :=
                  {| pfd_fd := x; pfd_events := pfd_events old; pfd_revents := pfd_revents old |}]> a))) ;;
                pollfds_loop_ l
          end
      end
  end.

Definition afs_pollfds : M (list pollfd) :=
  c ← get_ctx;
  upd_ctx (with_a_pfds_len 0) ;;
  pollfds_loop_ (a_ps c) ;;
  c ← get_ctx;
  mret (take (a_pfds_len c) (default [] (a_pfds c))).

Definition afs_evs : M (list afs_ev) :=
  c ← get_ctx; mret (take (a_evs_len c) (default [] (a_evs c))).

(** ** Update *)

(** Store into [*oev]; [oev] is always [c->evs + c->evs_len]. *)
Definition oev_put (f : afs_ev -> afs_ev) : M unit :=
  c ← get_ctx;
  match a_evs c with
  | None => undef
  | Some l =>
      match l !! a_evs_len c with
      | Some e => upd_ctx (with_a_evs (Some (<[a_evs_len c := f e]> l)))
      | None => undef
      end
  end.

(** [SOB_AFS_UPD_ADD_EV_] at a line of the source. *)
Definition upd_add_ev_ (line : Z) : M unit :=
  c ← get_ctx;
  if decide (a_evs_maxlen c <= a_evs_len c) then
    sob_panic (lit "afs.c") line (lit "evs overflow (maxlen = " ++ print_int (Z.of_nat (a_evs_maxlen c)) ++ lit ")")
  else upd_ctx (with_a_evs_len (S (a_evs_len c))).

(** The command that waited for the start of the worker is sent; [x] is the
    descriptor of the event. *)
Definition after_init_send_ (id : nat) (x : Z) (send : CM (proc_ * W) afs_res) (t : afs_event) (line : Z) : M unit :=
  r ← on_ps id send;
  if negb (bool_decide (r = afs_ok)) then
    q ← get_ps id;
    upd_ctx (with_a_fail (p_fail (ps_p q))) ;;
    oev_put (ev_with_ty t ∘ ev_with_fd x) ;;
    upd_add_ev_ line
  else mret tt.

Definition after_init_ (id : nat) (x : Z) : M unit :=
  q ← get_ps id;
  match ps_cmd_after_init q with
  | proc_cmd_open_ => after_init_send_ id x (proc_open_ E fuel) afs_ev_open_fail 236
  | proc_cmd_mkdir_ => after_init_send_ id x (proc_mkdir_ E fuel) afs_ev_mkdir_fail 244
  | proc_cmd_write_fsync_close_ =>
      after_init_send_ id x (proc_write_fsync_close_ E fuel) afs_ev_write_fsync_close_fail 252
  | proc_cmd_none_ => mret tt
  | c =>
      oev_put (ev_with_ty (proc_cmd_fail_ev_ c) ∘ ev_with_fd x) ;;
      upd_add_ev_ 257 ;;
      afs_fail_ 258 (lit "bad cmd_after_init (no errno)")
  end ;;
  upd_ps id (with_ps_cmd_after_init proc_cmd_none_).

(** One event of a worker: the [switch] of lines 226-295.  The result says
    whether the event is passed on, and whether the node is to be deleted. *)
Definition handle_ev_ (id : nat) (e : afs_ev) : M (bool * bool) :=
  q ← get_ps id;
  match afs_ev_ty e with
  | afs_ev_init =>
      upd_ps id (with_ps_is_avail true) ;; after_init_ id (ev_fd e) ;; mret (false, false)
  | afs_ev_close | afs_ev_close_fail => upd_ps id (with_ps_fd (-1)%Z) ;; mret (true, false)
  | afs_ev_init_fail =>
      (if decide (ps_cmd_after_init q <> proc_cmd_none_) then
         oev_put (ev_with_ty (proc_cmd_fail_ev_ (ps_cmd_after_init q)) ∘ ev_with_fd (ev_fd e)) ;; upd_add_ev_ 274
       else mret tt) ;;
      upd_ps id (with_ps_cmd_after_init proc_cmd_none_) ;;
      mret (false, true)
  | afs_ev_mkdir_fail | afs_ev_mkdir | afs_ev_write_fsync_close | afs_ev_write_fsync_close_fail =>
      upd_ps id (with_ps_fd (-1)%Z) ;; mret (true, false)
  | afs_ev_stop | afs_ev_stop_fail =>
      upd_ps id (with_ps_fd (-1)%Z) ;; upd_ps id (with_ps_is_avail false) ;; mret (false, false)
  | _ => mret (true, false)
  end.

(** The loop over the events of one worker, [n] left, from index [i] on; whether
    the node is to be deleted. *)
Fixpoint evs_loop_ (id n i : nat) (del : bool) : M bool :=
  match n with
  | O => mret del
  | S n =>
      q ← get_ps id;
      match p_evs (ps_p q) !! i with
      | None => undef
      | Some e =>
          let e := ev_with_fd (ps_fd q) e in
          upd_ps id (fun q => with_ps_p (with_p_evs (<[i := e]> (p_evs (ps_p q))) (ps_p q)) q) ;;
          r ← (handle_ev_ id e : M (bool * bool));
          (if afs_ev_is_fail e then q ← get_ps id; upd_ctx (with_a_fail (p_fail (ps_p q))) else mret tt) ;;
          (if (r.1 : bool) then oev_put (fun _ => e) ;; upd_add_ev_ 302 else mret tt) ;;
          evs_loop_ id n (S i) (del || r.2)
      end
  end.

(** One node: lines 218-312. *)
Definition update_ps_ (fds : list pollfd) (id : nat) : M unit :=
  r ← on_ps id (proc_update_ E fuel fds);
  q ← get_ps id;
  del ← evs_loop_ id (p_evs_len (ps_p q)) 0 false;
  if negb (bool_decide (r = afs_ok)) || (del : bool) then
    q ← get_ps id; ps_del_ (ps_fd q) ;; mret tt
  else mret tt.

(** The loop over the list: the next node is remembered before the update. *)
Fixpoint update_loop_ (n : nat) (fds : list pollfd) (cur : option nat) : M unit :=
  match cur with
  | None => mret tt
  | Some id =>
      match n with
      | O => undef
      | S n => next ← next_ps id; update_ps_ fds id ;; update_loop_ n fds next
      end
  end.

Definition afs_update (fds : list pollfd) : M unit :=
  c ← get_ctx;
  upd_ctx (with_a_evs_len 0) ;;
  if decide (a_ps c <> [] /\ a_evs c = None) then sob_panic (lit "afs.c") 214 (lit "no evs") else
  update_loop_ (length (a_ps c)) fds (ps_id <$> head (a_ps c)) ;;
  c ← get_ctx;
  if a_is_stop_req c then
    if forallb (fun q => bool_decide (p_st (ps_p q) = proc_st_uninit_)) (a_ps c) then
      oev_put (ev_with_ty afs_ev_stop ∘ ev_with_fd (-1)%Z) ;; upd_add_ev_ 326
    else mret tt
  else mret tt.
End afs.
