(* ===== verification/AfsProps.v ===== *)
(** * Properties of the asynchronous file system

    The invariant of [afs_ctx] - the list of workers and the two arrays that
    grow with it - is kept by every call of the client, for every kernel that
    obeys [ParentLaws] and whatever the workers write into the memory they
    share; [afs_update] reports, worker by worker, the events the updates of the
    workers stand for. *)

From stdpp Require Import base list numbers strings option.
From S2P Require Import Prelude AfsChild AfsProc AfsProcProps Afs.

(** ** The list *)

(** Nodes at distinct addresses below [n], each with a worker in a good state;
    descriptors are -1 (not in use) or not negative, and two nodes in use have
    different ones. *)
Record lwf (n : nat) (l : list ps_) : Prop := {
  lwf_ids : NoDup (ps_id <$> l);
  lwf_lt q : q ∈ l -> ps_id q < n;
  lwf_pwf q : q ∈ l -> pwf (ps_p q);
  lwf_fd q : q ∈ l -> (-1 <= ps_fd q)%Z;
  lwf_uniq q r : q ∈ l -> r ∈ l -> ps_fd q = ps_fd r -> ps_fd q <> (-1)%Z -> ps_id q = ps_id r
}.

(** An array of a given capacity; none is an array of capacity 0. *)
Definition awf_arr {A} (o : option (list A)) (cap : nat) : Prop :=
  match o with Some l => length l = cap /\ 0 < cap | None => cap = 0 end.

(** The arrays have room for [n] workers. *)
Record arrs (c : afs_ctx) (n : nat) : Prop := {
  arrs_pfds : awf_arr (a_pfds c) (a_pfds_maxlen c);
  arrs_evs : awf_arr (a_evs c) (a_evs_maxlen c);
  arrs_pfds_len : a_pfds_len c <= a_pfds_maxlen c;
  arrs_evs_len : a_evs_len c <= a_evs_maxlen c;
  arrs_pfds_cap : n <= a_pfds_maxlen c;
  arrs_evs_cap : n * proc_evs_maxlen_ <= a_evs_maxlen c
}.

Record awf (c : afs_ctx) : Prop := {
  awf_list : lwf (a_next c) (a_ps c);
  awf_arrs : arrs c (length (a_ps c))
}.

(** The list with one node changed. *)
Definition set_ps (id : nat) (f : ps_ -> ps_) (l : list ps_) : list ps_ :=
  (fun q => if decide (ps_id q = id) then f q else q) <$> l.

Section lists.
Implicit Types (l : list ps_) (q : ps_).

Lemma sublist_fmap_mono {A B} (f : A -> B) (l l' : list A) : l' `sublist_of` l -> f <$> l' `sublist_of` f <$> l.
Proof. induction 1; by constructor. Qed.

Lemma lwf_sublist n l l' : l' `sublist_of` l -> lwf n l -> lwf n l'.
Proof.
  intros Hs [H1 H2 H3 H4 H5]. assert (forall q, q ∈ l' -> q ∈ l) as Hin by (intros; by eapply elem_of_sublist).
  split; [eapply sublist_NoDup; [exact H1|by apply sublist_fmap_mono]|eauto..].
Qed.

Lemma lwf_mono n n' l : n <= n' -> lwf n l -> lwf n' l.
Proof. intros Hn []. split; [done|intros q Hq|done..]. specialize (lwf_lt0 q Hq). lia. Qed.

Lemma find_ps_split id l q : find_ps id l = Some q -> exists l1 l2, l = l1 ++ q :: l2 /\ ps_id q = id.
Proof.
  unfold find_ps. intros H. apply fmap_Some in H as ([i r] & Hf & ->). apply list_find_Some in Hf as (Hi & Hid & _).
  exists (take i l), (drop (S i) l). split; [|done]. symmetry. by apply take_drop_middle.
Qed.

Lemma nodup_not_in l1 q l2 : NoDup (ps_id <$> l1 ++ q :: l2) ->
  Forall (fun r => ps_id r <> ps_id q) l1 /\ Forall (fun r => ps_id r <> ps_id q) l2.
Proof.
  intros H. rewrite fmap_app, fmap_cons in H. apply list.NoDup_app in H as (_ & H1 & H2).
  apply list.NoDup_cons in H2 as [H2 _]. split; apply list.Forall_forall; intros r Hr Heq.
  - apply (H1 (ps_id r)); [by apply (list_elem_of_fmap_2 ps_id)|]. rewrite Heq. left.
  - apply H2. rewrite <- Heq. by apply (list_elem_of_fmap_2 ps_id).
Qed.

Lemma list_find_middle (P : ps_ -> Prop) `{!forall q, Decision (P q)} l1 q l2 : Forall (fun r => ~ P r) l1 -> P q ->
  list_find P (l1 ++ q :: l2) = Some (length l1, q).
Proof.
  intros H1 H2. apply list_find_Some. rewrite list_lookup_middle by done. split; [done|]. split; [done|].
  intros j r Hj Hlt. rewrite lookup_app_l in Hj by done. rewrite Forall_lookup in H1. by eapply H1.
Qed.

Lemma find_ps_middle l1 q l2 : NoDup (ps_id <$> l1 ++ q :: l2) -> find_ps (ps_id q) (l1 ++ q :: l2) = Some q.
Proof. intros H. unfold find_ps. rewrite list_find_middle; [done|by apply nodup_not_in in H as [? _]|done]. Qed.

Lemma set_ps_other id f l : Forall (fun r => ps_id r <> id) l -> set_ps id f l = l.
Proof. induction 1 as [|r l Hr _ IH]; [done|]. cbn. rewrite decide_False by done. by f_equal. Qed.

Lemma set_ps_middle l1 q l2 f : NoDup (ps_id <$> l1 ++ q :: l2) ->
  set_ps (ps_id q) f (l1 ++ q :: l2) = l1 ++ f q :: l2.
Proof.
  intros H. apply nodup_not_in in H as [H1 H2]. unfold set_ps. rewrite fmap_app, fmap_cons, decide_True by done.
  f_equal; [by apply set_ps_other|]. f_equal. by apply set_ps_other.
Qed.

Lemma in_middle l1 q l2 r : r ∈ l1 ++ q :: l2 <-> r = q \/ r ∈ l1 ++ l2.
Proof. rewrite !elem_of_app, elem_of_cons. tauto. Qed.

(** A node may change its worker, and its descriptor to -1 or to a new one. *)
Lemma lwf_change n l1 q q' l2 : lwf n (l1 ++ q :: l2) -> ps_id q' = ps_id q -> pwf (ps_p q') ->
  (ps_fd q' = ps_fd q \/ ps_fd q' = -1 \/ (0 <= ps_fd q' /\ forall r, r ∈ l1 ++ l2 -> ps_fd r <> ps_fd q'))%Z ->
  lwf n (l1 ++ q' :: l2).
Proof.
  intros Hl Hid Hp Hfd. pose proof Hl as [H1 H2 H3 H4 H5].
  assert (forall r, r ∈ l1 ++ q' :: l2 -> r = q' \/ r ∈ l1 ++ l2) as Hin by (intros r; apply in_middle).
  assert (forall r, r ∈ l1 ++ l2 -> r ∈ l1 ++ q :: l2) as Hin2 by (intros; apply in_middle; auto).
  assert (q ∈ l1 ++ q :: l2) as Hq by (apply in_middle; auto). split.
  - rewrite fmap_app, fmap_cons, Hid. by rewrite fmap_app, fmap_cons in H1.
  - intros r [->|Hr]%Hin; [rewrite Hid; auto|auto].
  - intros r [->|Hr]%Hin; auto.
  - intros r [->|Hr]%Hin; [|auto]. pose proof (H4 q Hq). lia.
  - intros r s [->|Hr]%Hin [->|Hs]%Hin Heq Hne; [done| | |auto].
    + destruct Hfd as [Hf|[Hf|[_ Hf]]]; [|done|by edestruct Hf].
      rewrite Hid. apply H5; [done|auto|congruence|congruence].
    + destruct Hfd as [Hf|[Hf|[_ Hf]]]; [|congruence|by edestruct Hf].
      rewrite Hid. apply H5; [auto|done|congruence|done].
Qed.

Lemma lwf_snoc n l q : lwf n l -> ps_id q = n -> pwf (ps_p q) -> (0 <= ps_fd q)%Z ->
  (forall r, r ∈ l -> ps_fd r <> ps_fd q) -> lwf (S n) (l ++ [q]).
Proof.
  intros [H1 H2 H3 H4 H5] Hid Hp Hfd Hnew.
  assert (forall r, r ∈ l ++ [q] -> r = q \/ r ∈ l) as Hin.
  { intros r. rewrite elem_of_app, list_elem_of_singleton. tauto. }
  split.
  - rewrite fmap_app. apply list.NoDup_app. split; [done|]. split; [|apply list.NoDup_singleton].
    intros i Hi. apply list_elem_of_fmap in Hi as (r & -> & Hr). cbn. rewrite list_elem_of_singleton.
    specialize (H2 r Hr). lia.
  - intros r [->|Hr]%Hin; [lia|]. specialize (H2 r Hr). lia.
  - intros r [->|Hr]%Hin; auto.
  - intros r [->|Hr]%Hin; [lia|auto].
  - intros r s [->|Hr]%Hin [->|Hs]%Hin Heq Hne; [done|by edestruct Hnew|by edestruct Hnew|auto].
Qed.

(** [ps_next_fd_] gives a descriptor above all in the list. *)
Lemma next_fd_above l : (0 <= next_fd l)%Z /\ forall q, q ∈ l -> (ps_fd q < next_fd l)%Z.
Proof.
  unfold next_fd. cut (forall x, (x <= foldl (fun x q => if (x <=? ps_fd q)%Z then (ps_fd q + 1)%Z else x) x l)%Z /\
    forall q, q ∈ l -> (ps_fd q < foldl (fun x q => if (x <=? ps_fd q)%Z then (ps_fd q + 1)%Z else x) x l)%Z).
  { intros H. apply H. }
  induction l as [|r l IH]; intros x; cbn [foldl]; [split; [lia|by intros q ?%not_elem_of_nil]|].
  destruct (IH (if (x <=? ps_fd r)%Z then (ps_fd r + 1)%Z else x)) as [H1 H2].
  destruct (Z.leb_spec x (ps_fd r)); (split; [lia|]); intros q [->|Hq]%elem_of_cons; auto; lia.
Qed.

(** No descriptor in use is the last [int]. *)
Definition fds_left (l : list ps_) : Prop := forall q, q ∈ l -> (ps_fd q < INT_MAX)%Z.

Lemma next_fd_int l : fds_left l -> in_int (next_fd l) = true.
Proof.
  intros Hl. assert (0 <= next_fd l <= INT_MAX)%Z as [H1 H2]; [|unfold in_int, INT_MIN; lia].
  split; [apply next_fd_above|]. unfold next_fd. assert (0 <= INT_MAX)%Z as H0 by done. revert H0. generalize 0%Z.
  induction l as [|q l IH]; intros x Hx; cbn [foldl]; [done|]. apply IH; [intros r Hr; apply Hl; by right|].
  assert (ps_fd q < INT_MAX)%Z by (apply Hl; by left). destruct (Z.leb_spec x (ps_fd q)); lia.
Qed.

Lemma fds_left_change l1 q q' l2 : fds_left (l1 ++ q :: l2) -> ps_fd q' = ps_fd q -> fds_left (l1 ++ q' :: l2).
Proof.
  intros Hl Hq r [->|Hr]%in_middle; [rewrite Hq|]; apply Hl; apply in_middle; auto.
Qed.
End lists.

(** ** Running calls *)
Section props.
Context {W : Type} (E : os_penv W) `{!ParentLaws E} (fuel : nat) (junk : proc_).
Implicit Types (c : afs_ctx) (w : W).

Lemma get_ctx_wp Q c w : wp get_ctx Q (c, w) <-> Q c (c, w).
Proof. done. Qed.

Lemma upd_ctx_wp f Q c w : wp (upd_ctx f) Q (c, w) <-> Q tt (f c, w).
Proof. done. Qed.

Lemma asys_wp {A} (f : W -> A * W) Q c w : wp (asys f) Q (c, w) <-> Q (f w).1 (c, (f w).2).
Proof. done. Qed.

Lemma afs_fail_wp line msg Q c w : wp (afs_fail_ E line msg) Q (c, w) <->
  Q tt (with_a_fail {| fail_line := line; the_errno := p_errno E w; fail_msg := msg |} c, w).
Proof. done. Qed.

(** The node at address [id] is [q], between [l1] and [l2]. *)
Record at_node c (id : nat) (l1 : list ps_) (q : ps_) (l2 : list ps_) : Prop := {
  at_ids : NoDup (ps_id <$> l1 ++ q :: l2);
  at_ps : a_ps c = l1 ++ q :: l2;
  at_id : ps_id q = id
}.

Lemma at_change c id l1 q l2 q' c' : at_node c id l1 q l2 -> ps_id q' = id -> a_ps c' = l1 ++ q' :: l2 ->
  at_node c' id l1 q' l2.
Proof.
  intros [H1 H2 H3] Hid H4. split; [|done|done]. rewrite fmap_app, fmap_cons in *. by rewrite Hid, <- H3.
Qed.

Lemma get_ps_at c id l1 q l2 Q w : at_node c id l1 q l2 -> wp (get_ps id) Q (c, w) <-> Q q (c, w).
Proof.
  intros [H1 H2 <-]. unfold get_ps. wp_step. rewrite get_ctx_wp, H2, find_ps_middle by done. by wp_step.
Qed.

Lemma upd_ps_at c id l1 q l2 f Q w : at_node c id l1 q l2 ->
  wp (upd_ps id f) Q (c, w) <-> Q tt (with_a_ps (l1 ++ f q :: l2) c, w).
Proof.
  intros H. unfold upd_ps. wp_step. rewrite (get_ps_at c id l1 q l2) by done. destruct H as [H1 H2 <-].
  rewrite upd_ctx_wp, H2. change (_ <$> l1 ++ q :: l2) with (set_ps (ps_id q) f (l1 ++ q :: l2)).
  by rewrite set_ps_middle.
Qed.

Lemma on_ps_at {A} c id l1 q l2 (m : CM (proc_ * W) A) Q w : at_node c id l1 q l2 ->
  wp m (fun a s => Q a (with_a_ps (l1 ++ with_ps_p s.1 q :: l2) c, s.2)) (ps_p q, w) -> wp (on_ps id m) Q (c, w).
Proof.
  intros H Hm. unfold on_ps. wp_step. rewrite (get_ps_at c id l1 q l2) by done. wp_step. cbn [snd].
  apply wp_Ret in Hm as (a & [p w1] & -> & HQ). wp_step. cbn [fst].
  rewrite (upd_ps_at c id l1 q l2) by done. by wp_step.
Qed.

Lemma at_middle n c l1 q l2 : lwf n (l1 ++ q :: l2) -> a_ps c = l1 ++ q :: l2 -> at_node c (ps_id q) l1 q l2.
Proof. intros H1 H2. split; [by apply lwf_ids in H1|done|done]. Qed.

Lemma ps_get_wp x Q c w :
  (Forall (fun r => ps_fd r <> x) (a_ps c) -> Q None (c, w)) ->
  (forall l1 q l2, a_ps c = l1 ++ q :: l2 -> Forall (fun r => ps_fd r <> x) l1 -> ps_fd q = x ->
     Q (Some (ps_id q)) (c, w)) ->
  wp (ps_get_ x) Q (c, w).
Proof.
  intros H1 H2. unfold ps_get_. wp_step. rewrite get_ctx_wp. wp_step.
  destruct (list_find _ (a_ps c)) as [[i q]|] eqn:Hf; cbn.
  - apply list_find_Some in Hf as (Hi & Hx & Hlt). apply (H2 (take i (a_ps c)) q (drop (S i) (a_ps c))).
    + symmetry. by apply take_drop_middle.
    + apply Forall_lookup. intros j r Hj. apply lookup_take_Some in Hj as [Hj Hji]. by eapply Hlt.
    + done.
  - apply list_find_None in Hf. by apply H1.
Qed.

Lemma ps_del_first x Q c w l1 q l2 : a_ps c = l1 ++ q :: l2 -> Forall (fun r => ps_fd r <> x) l1 -> ps_fd q = x ->
  wp (ps_del_ E x) Q (c, w) <-> Q afs_ok (with_a_ps (l1 ++ l2) c, w).
Proof.
  intros Hc H1 H2. unfold ps_del_. wp_step. rewrite get_ctx_wp, Hc, list_find_middle by done. wp_step.
  rewrite upd_ctx_wp, delete_middle. by wp_step.
Qed.

(** A call that deletes the descriptor of a node deletes it or an earlier one. *)
Lemma ps_del_at x Q c w l1 q l2 : a_ps c = l1 ++ q :: l2 -> ps_fd q = x ->
  (forall l, l `sublist_of` l1 ++ [q] -> S (length l) = length (l1 ++ [q]) ->
     (forall r, r ∈ l1 -> ps_fd r <> x -> r ∈ l) -> Q afs_ok (with_a_ps (l ++ l2) c, w)) ->
  wp (ps_del_ E x) Q (c, w).
Proof.
  intros Hc Hx HQ. destruct (list_find (fun r => ps_fd r = x) l1) as [[i r]|] eqn:Hf.
  - apply list_find_Some in Hf as (Hi & Hr & Hlt).
    rewrite (ps_del_first x Q c w (take i l1) r (drop (S i) l1 ++ q :: l2)).
    + replace (take i l1 ++ drop (S i) l1 ++ q :: l2) with ((delete i l1 ++ [q]) ++ l2)
        by (rewrite delete_take_drop, <- !app_assoc; done).
      apply HQ; [apply sublist_app; [apply sublist_delete|done]| |].
      * rewrite !length_app, length_delete by done. apply lookup_lt_Some in Hi. cbn. lia.
      * intros t Ht Hne. apply elem_of_app. left. rewrite delete_take_drop. rewrite <- (take_drop_middle l1 i r Hi) in Ht.
        apply in_middle in Ht as [->|Ht]; [done|exact Ht].
    + rewrite Hc. rewrite <- (take_drop_middle l1 i r Hi) at 1. by rewrite <- app_assoc.
    + apply Forall_lookup. intros j s Hj. apply lookup_take_Some in Hj as [Hj Hji]. by eapply Hlt.
    + done.
  - apply list_find_None in Hf. rewrite (ps_del_first x Q c w l1 q l2) by done.
    apply HQ; [apply sublist_inserts_r; reflexivity|rewrite length_app; cbn; lia|done].
Qed.

(** What no allocation changes. *)
Definition same_stop c c' : Prop :=
  a_is_stop_req c' = a_is_stop_req c /\ (a_evs c <> None -> a_evs c' <> None).

Lemma same_stop_trans c1 c2 c3 : same_stop c1 c2 -> same_stop c2 c3 -> same_stop c1 c3.
Proof. intros [? ?] [? ?]. split; [congruence|auto]. Qed.

Lemma arrs_mono c n m : m <= n -> arrs c n -> arrs c m.
Proof. intros Hm [H1 H2 H3 H4 H5 H6]. split; [done..|lia|]. etransitivity; [|exact H6]. by apply Nat.mul_le_mono_r. Qed.

Lemma arrs_fail f c n : arrs c n -> arrs (with_a_fail f c) n.
Proof. by intros []; split. Qed.

Lemma awf_fail f c : awf c -> awf (with_a_fail f c).
Proof. intros [? ?]; split; [done|by apply arrs_fail]. Qed.

(** Changing nodes leaves the arrays alone. *)
Lemma awf_with_ps l c : lwf (a_next c) l -> arrs c (length l) -> awf (with_a_ps l c).
Proof. intros Hl []. by split. Qed.

Lemma grow_pfds_wp n c w : arrs c n ->
  wp (grow_pfds_ E (S n)) (fun ok s => pintr s.2 <= pintr w /\ a_ps s.1 = a_ps c /\ a_next s.1 = a_next c /\
    same_stop c s.1 /\ arrs s.1 n /\ a_evs_maxlen s.1 = a_evs_maxlen c /\ (ok = true -> S n <= a_pfds_maxlen s.1)) (c, w).
Proof.
  intros [H1 H2 H3 H4 H5 H6]. unfold grow_pfds_. wp_step. rewrite get_ctx_wp. destruct (decide _).
  2:{ wp_step. do 6 (split; [done|]). intros _. cbn. lia. }
  wp_step. rewrite asys_wp. pose proof (law_malloc (S n + evs_pfds_prealloc_len_) w) as Hm.
  destruct (p_malloc E _ w) as [[|] w1]; cbn [fst snd] in *; wp_step.
  - rewrite upd_ctx_wp. wp_step. rewrite upd_ctx_wp. wp_step. cbn [fst snd].
    split; [done|]. split; [done|]. split; [done|]. split; [done|]. split; [|split; [done|cbn; lia]].
    split; cbn; [split; [by rewrite length_replicate|lia]|done|lia|done|lia|done].
  - rewrite afs_fail_wp. wp_step. cbn [fst snd]. do 5 (split; [done|]). by split.
Qed.

Lemma grow_evs_wp n c w : arrs c n -> S n <= a_pfds_maxlen c ->
  wp (grow_evs_ E (S n)) (fun ok s => pintr s.2 <= pintr w /\ a_ps s.1 = a_ps c /\ a_next s.1 = a_next c /\
    same_stop c s.1 /\ arrs s.1 n /\ (ok = true -> arrs s.1 (S n))) (c, w).
Proof.
  intros Ha Hn. pose proof Ha as [H1 H2 H3 H4 H5 H6]. unfold grow_evs_. wp_step. rewrite get_ctx_wp. destruct (decide _) as [Hlt|Hge].
  2:{ wp_step. do 5 (split; [done|]). intros _. split; cbn in *; lia || done. }
  wp_step. rewrite asys_wp. pose proof (law_malloc ((S n + evs_pfds_prealloc_len_) * proc_evs_maxlen_) w) as Hm.
  destruct (p_malloc E _ w) as [[|] w1]; cbn [fst snd] in *; wp_step.
  - rewrite upd_ctx_wp. wp_step. rewrite upd_ctx_wp. wp_step. cbn [fst snd].
    split; [done|]. split; [done|]. split; [done|]. split; [by split|].
    assert (arrs (with_a_evs_maxlen ((S n + evs_pfds_prealloc_len_) * proc_evs_maxlen_)
      (with_a_evs (Some (replicate ((S n + evs_pfds_prealloc_len_) * proc_evs_maxlen_) zero_ev)) c)) (S n)) as Hs.
    { split; cbn [a_pfds a_pfds_maxlen a_pfds_len a_evs a_evs_maxlen a_evs_len with_a_evs with_a_evs_maxlen awf_arr].
      - done.
      - split; [by rewrite length_replicate|]. unfold proc_evs_maxlen_. lia.
      - done.
      - unfold proc_evs_maxlen_ in *. lia.
      - done.
      - unfold proc_evs_maxlen_ in *. lia. }
    split; [by apply (arrs_mono _ (S n)); [lia|]|done].
  - rewrite afs_fail_wp. wp_step. cbn [fst snd]. do 5 (split; [done|]). done.
Qed.

Definition new_ps (id : nat) (x : Z) : ps_ :=
  {| ps_id := id; ps_fd := x; ps_p := junk; ps_cmd_after_init := proc_cmd_none_; ps_is_avail := false |}.

Lemma ps_next_fd_wp Q c w : fds_left (a_ps c) -> wp ps_next_fd_ Q (c, w) <-> Q (next_fd (a_ps c)) (c, w).
Proof.
  intros H%next_fd_int. unfold ps_next_fd_. wp_step. rewrite get_ctx_wp. cbn [fst]. wp_step. tauto.
Qed.

Lemma ps_add_wp c w : awf c -> fds_left (a_ps c) ->
  wp (ps_add_ E junk) (fun r s => pintr s.2 <= pintr w /\ same_stop c s.1 /\
    match r with
    | None => awf s.1 /\ a_ps s.1 = a_ps c
    | Some id => id = a_next c /\ a_next s.1 = S (a_next c) /\ arrs s.1 (S (length (a_ps c))) /\
        a_ps s.1 = a_ps c ++ [new_ps id (next_fd (a_ps c))]
    end) (c, w).
Proof.
  intros [Hl Ha] Hleft. unfold ps_add_, ps_len_. wp_step. rewrite get_ctx_wp. wp_step. rewrite asys_wp.
  pose proof (law_malloc 1 w) as Hm. destruct (p_malloc E 1 w) as [[|] w1]; cbn [fst snd negb] in *; wp_step.
  2:{ rewrite afs_fail_wp. wp_step. cbn [fst snd]. split; [done|]. split; [done|]. split; [by apply awf_fail|done]. }
  eapply wp_mono; [by apply grow_pfds_wp|]. intros ok1 [c2 w2] (Hw2 & Hp2 & Hn2 & Hk2 & Ha2 & _ & Ho2). cbn [fst snd] in *.
  destruct ok1; cbn [negb]; wp_step.
  2:{ cbn [fst snd]. split; [lia|]. split; [done|]. split; [|done]. split; [congruence|by rewrite Hp2]. }
  eapply wp_mono; [by apply grow_evs_wp; [|apply Ho2]|]. intros ok2 [c3 w3] (Hw3 & Hp3 & Hn3 & Hk3 & Ha3 & Ho3). cbn [fst snd] in *.
  pose proof (same_stop_trans _ _ _ Hk2 Hk3). rewrite Hp2 in Hp3. rewrite Hn2 in Hn3.
  destruct ok2; cbn [negb]; wp_step.
  2:{ cbn [fst snd]. split; [lia|]. split; [done|]. split; [|done]. split; [congruence|by rewrite Hp3]. }
  rewrite ps_next_fd_wp by (by rewrite Hp3). wp_step. rewrite get_ctx_wp. wp_step. rewrite upd_ctx_wp. wp_step. rewrite upd_ctx_wp. wp_step.
  cbn [fst snd]. split; [lia|]. split; [done|]. split; [done|]. split; [cbn; by rewrite Hn3|].
  split; [by destruct (Ho3 eq_refl); split|]. cbn [with_a_ps a_ps]. rewrite Hp3. unfold new_ps. do 3 f_equal.
  by destruct (a_ps c).
Qed.

(** *** A node for a client *)

(** Either a node that was not in use or a new one at the end, with a descriptor
    no other node has, and a worker that exists. *)
Definition alloc_post c w (r : option (nat * bool)) (s : afs_ctx * W) : Prop :=
  awf s.1 /\ pintr s.2 <= pintr w /\ same_stop c s.1 /\
  match r with
  | None => a_ps s.1 `sublist_of` a_ps c
  | Some (id, was_init) => exists l1 q l2, at_node s.1 id l1 q l2 /\ (0 <= ps_fd q)%Z /\
      p_st (ps_p q) <> proc_st_uninit_ /\ (was_init = false -> started E (ps_p q)) /\
      ((exists q0, a_ps c = l1 ++ q0 :: l2 /\ ps_fd q0 = (-1)%Z /\ ps_id q0 = id) \/ (a_ps c = l1 /\ l2 = [])) /\
      forall r, r ∈ a_ps c -> ps_fd r <> ps_fd q
  end.

(** A node that was not in use gets its descriptor. *)
Lemma alloc_reuse c w c1 w1 l1 q0 q l2 was : awf c -> fds_left (a_ps c) -> a_ps c = l1 ++ q0 :: l2 -> ps_fd q0 = (-1)%Z ->
  ps_id q = ps_id q0 -> ps_fd q = (-1)%Z -> pwf (ps_p q) -> p_st (ps_p q) <> proc_st_uninit_ -> (was = false -> started E (ps_p q)) ->
  c1 = with_a_ps (l1 ++ q :: l2) c -> pintr w1 <= pintr w ->
  wp ps_next_fd_ (fun x s => wp (upd_ps (ps_id q0) (with_ps_fd x) ;; mret (Some (ps_id q0, was))) (alloc_post c w) s) (c1, w1).
Proof.
  intros [Hl Ha] Hleft Hc Hx0 Hid Hx Hp Hst Hwas -> Hw. pose proof Hl as Hl'. rewrite Hc in Hl'.
  assert (lwf (a_next c) (l1 ++ q :: l2)) as Hl1 by (eapply lwf_change; [exact Hl'|done|done|auto]).
  assert (at_node (with_a_ps (l1 ++ q :: l2) c) (ps_id q0) l1 q l2) as Hat by (rewrite <- Hid; by eapply at_middle).
  rewrite ps_next_fd_wp by (rewrite Hc in Hleft; eapply fds_left_change; [exact Hleft|congruence]).
  wp_step. rewrite (upd_ps_at _ _ l1 q l2) by done. wp_step.
  destruct (next_fd_above (l1 ++ q :: l2)) as [Hn1 Hn2]. cbn [with_a_ps a_ps].
  set (x := next_fd (l1 ++ q :: l2)) in *.
  assert (forall r, r ∈ l1 ++ l2 -> ps_fd r <> x) as Hnew.
  { intros r Hr. assert (r ∈ l1 ++ q :: l2) as Hin by (apply in_middle; auto). specialize (Hn2 r Hin). lia. }
  split; [|split; [done|split; [done|]]].
  - apply (awf_with_ps (l1 ++ with_ps_fd x q :: l2) c); [eapply lwf_change; [exact Hl1|done|done|auto]|].
    rewrite Hc in Ha. rewrite length_app in *. exact Ha.
  - exists l1, (with_ps_fd x q), l2. split; [by eapply at_change; [exact Hat| |]|]. do 3 (split; [done|]).
    split; [left; by exists q0|]. intros r Hr. rewrite Hc in Hr. apply in_middle in Hr as [->|Hr]; [cbn; lia|by apply Hnew].
Qed.

(** A new node gets its worker; without one it is deleted again. *)
Lemma alloc_new_wp c w : awf c -> fds_left (a_ps c) -> pintr w < fuel -> length (p_evs junk) = proc_evs_maxlen_ ->
  wp (r ← ps_add_ E junk;
      match r with
      | None => mret None
      | Some id =>
          r ← on_ps id (proc_init_ E fuel);
          if negb (bool_decide (r = afs_ok)) then
            q ← get_ps id; upd_ctx (with_a_fail (p_fail (ps_p q))) ;; ps_del_ E (ps_fd q) ;; mret None
          else mret (Some (id, false))
      end) (alloc_post c w) (c, w).
Proof.
  intros Hwf Hleft Hf Hj. pose proof Hwf as [Hl Ha].
  wp_step. eapply wp_mono; [by apply ps_add_wp|]. intros [id|] [c1 w1] (Hw1 & Hk1 & H1); cbn [fst snd] in *; wp_step.
  2:{ destruct H1 as [H1 H2]. do 3 (split; [done|]). cbn [fst]. by rewrite H2. }
  destruct H1 as (-> & Hn1 & Ha1 & Hp1). destruct (next_fd_above (a_ps c)) as [Hx1 Hx2]. set (x := next_fd (a_ps c)) in *.
  assert (forall r, r ∈ a_ps c -> ps_fd r <> x) as Hnew by (intros r Hr; specialize (Hx2 r Hr); lia).
  assert (at_node c1 (a_next c) (a_ps c) (new_ps (a_next c) x) []) as Hat.
  { split; [|done|done]. rewrite fmap_app. apply list.NoDup_app. split; [by apply lwf_ids in Hl|].
    split; [|apply list.NoDup_singleton]. intros i Hi Hin. apply list_elem_of_fmap in Hi as (r & -> & Hr).
    apply (lwf_lt _ _ Hl) in Hr. cbn in Hin. apply list_elem_of_singleton in Hin. lia. }
  eapply on_ps_at; [exact Hat|]. eapply wp_mono; [by apply proc_init_wp; [|lia]|].
  intros r [p w2] (Hw2 & _ & _ & Hr). cbn [fst snd] in *.
  assert (at_node (with_a_ps (a_ps c ++ [with_ps_p p (new_ps (a_next c) x)]) c1) (a_next c) (a_ps c)
    (with_ps_p p (new_ps (a_next c) x)) []) as Hat2 by (by eapply at_change).
  destruct Hr as [[-> Hs]|[-> _]]; rewrite ?bool_decide_eq_true_2, ?bool_decide_eq_false_2 by done; cbn [negb]; wp_step.
  - split; [|split; [cbn; lia|split; [done|]]].
    + apply awf_with_ps; [|by rewrite length_app, Nat.add_1_r]. rewrite Hn1. apply lwf_snoc; try done. apply Hs.
    + eexists _, _, _. split; [exact Hat2|]. split; [done|]. destruct Hs as (? & Hs & ?).
      split; [cbn; by rewrite Hs|]. split; [by intros _|]. by split; [right|].
  - rewrite (get_ps_at _ _ _ _ _ _ _ Hat2). wp_step. rewrite upd_ctx_wp. wp_step.
    rewrite (ps_del_first _ _ _ _ (a_ps c) (with_ps_p p (new_ps (a_next c) x)) []); [|done| |done].
    2:{ apply list.Forall_forall. exact Hnew. }
    wp_step. rewrite app_nil_r. split; [|split; [cbn; lia|by split]].
    apply awf_with_ps; [|by apply arrs_fail; eapply (arrs_mono _ (S (length (a_ps c)))); [lia|destruct Ha1; by split]].
    cbn. rewrite Hn1. by eapply lwf_mono; [|exact Hl]; lia.
Qed.

Lemma maybe_alloc_wp c w : awf c -> fds_left (a_ps c) -> pintr w < fuel -> length (p_evs junk) = proc_evs_maxlen_ ->
  wp (maybe_alloc_ps_ E fuel junk) (alloc_post c w) (c, w).
Proof.
  intros Hwf Hleft Hf Hj. pose proof Hwf as [Hl Ha]. unfold maybe_alloc_ps_. wp_step. apply ps_get_wp.
  - intros _. by apply alloc_new_wp.
  - intros l1 q l2 Hc Hl1 Hx. wp_step. pose proof Hl as Hl'. rewrite Hc in Hl'. pose proof (at_middle _ c _ _ _ Hl' Hc) as Hat.
    rewrite (get_ps_at _ _ _ _ _ _ _ Hat). assert (pwf (ps_p q)) as Hp.
    { apply (lwf_pwf _ _ Hl'). apply in_middle. auto. }
    assert (length (l1 ++ l2) <= length (a_ps c)) as Hlen by (rewrite Hc, !length_app; cbn; lia).
    destruct (decide _) as [Hst|Hst]; wp_step.
    2:{ eapply alloc_reuse; [done|done|exact Hc|done..| |done]. by destruct c; cbn in *; rewrite <- Hc. }
    eapply on_ps_at; [exact Hat|]. destruct Hp as [Hp _ _]. eapply wp_mono; [by apply proc_init_wp|].
    intros r [p w2] (Hw2 & _ & _ & Hr). cbn [fst snd] in *.
    wp_step. destruct Hr as [[-> Hs]|[-> _]]; [rewrite decide_True by done|rewrite decide_False by done]; wp_step.
    + eapply (alloc_reuse c w _ _ l1 q (with_ps_p p q) l2); try done; [apply Hs|]. destruct Hs as (? & Hs & ?). cbn. by rewrite Hs.
    + assert (at_node (with_a_ps (l1 ++ with_ps_p p q :: l2) c) (ps_id q) l1 (with_ps_p p q) l2) as Hat2 by (by eapply at_change).
      rewrite (get_ps_at _ _ _ _ _ _ _ Hat2). wp_step. rewrite upd_ctx_wp. wp_step.
      rewrite (ps_del_first _ _ _ _ l1 (with_ps_p p q) l2) by done. wp_step.
      assert (l1 ++ l2 `sublist_of` a_ps c) as Hsub.
      { rewrite Hc. apply sublist_app; [done|]. by apply sublist_cons. }
      split; [|split; [done|by split]].
      apply awf_with_ps; [by eapply lwf_sublist|]. apply arrs_fail. eapply (arrs_mono _ (length (a_ps c))); [done|].
      destruct Ha; by split.
Qed.

(** *** Reported events *)

(** What the client sees of the events: descriptor and type. *)
Definition evs_seen c : list (Z * afs_event) :=
  (fun e => (ev_fd e, ev_ty e)) <$> take (a_evs_len c) (default [] (a_evs c)).

(** From [c] to [c'] the events [o] were reported and nothing changed but the
    list and the failure report. *)
Definition ufr c c' (o : list (Z * afs_event)) : Prop :=
  (a_is_stop_req c' = a_is_stop_req c /\ a_next c' = a_next c /\ a_pfds c' = a_pfds c /\
   a_pfds_maxlen c' = a_pfds_maxlen c /\ a_pfds_len c' = a_pfds_len c /\ a_evs_maxlen c' = a_evs_maxlen c) /\
  (exists l, a_evs c' = Some l /\ length l = a_evs_maxlen c) /\
  a_evs_len c' = a_evs_len c + length o /\ evs_seen c' = evs_seen c ++ o.

Lemma ufr_trans c1 c2 c3 o1 o2 : ufr c1 c2 o1 -> ufr c2 c3 o2 -> ufr c1 c3 (o1 ++ o2).
Proof.
  intros ((? & ? & ? & ? & ? & Hm) & _ & Hc & Hd) ((? & ? & ? & ? & ? & Hm') & (l & ? & ?) & Hg & Hh).
  split; [split_and!; congruence|]. split; [exists l; split; congruence|].
  split; [rewrite length_app; lia|]. by rewrite Hh, Hd, app_assoc.
Qed.

Lemma ufr_refl c l : a_evs c = Some l -> length l = a_evs_maxlen c -> ufr c c [].
Proof. intros H1 H2. split; [done|]. split; [by exists l|]. rewrite app_nil_r. split; [cbn; lia|done]. Qed.

(** [oev->... = ...; SOB_AFS_UPD_ADD_EV_()] *)
Lemma push_wp line f Q c w l : a_evs c = Some l -> length l = a_evs_maxlen c -> a_evs_len c < a_evs_maxlen c ->
  (forall c' e, ufr c c' [(ev_fd (f e), ev_ty (f e))] -> a_ps c' = a_ps c -> Q tt (c', w)) ->
  wp (oev_put f) (fun _ s => wp (upd_add_ev_ line) Q s) (c, w).
Proof.
  intros Hl Hlen Hlt HQ. unfold oev_put. wp_step. rewrite get_ctx_wp, Hl.
  destruct (lookup_lt_is_Some_2 l (a_evs_len c)) as [e He]; [lia|]. rewrite He, upd_ctx_wp.
  unfold upd_add_ev_. wp_step. rewrite get_ctx_wp. cbn [with_a_evs a_evs_maxlen a_evs_len].
  rewrite decide_False by lia. rewrite upd_ctx_wp. apply (HQ _ e); [|done]. split; [done|].
  split; [eexists; split; [done|by rewrite length_insert]|]. split; [cbn; lia|].
  unfold evs_seen. cbn. rewrite Hl. cbn. by rewrite take_insert_snoc, fmap_app by lia.
Qed.

Lemma push_then_wp {A} line f (m : CM (afs_ctx * W) A) Q c w l : a_evs c = Some l -> length l = a_evs_maxlen c ->
  a_evs_len c < a_evs_maxlen c ->
  (forall c' e, ufr c c' [(ev_fd (f e), ev_ty (f e))] -> a_ps c' = a_ps c -> wp m Q (c', w)) ->
  wp (oev_put f ;; upd_add_ev_ line ;; m) Q (c, w).
Proof.
  intros H1 H2 H3 HQ. rewrite wp_bind. eapply wp_mono; [by apply (push_wp line f (fun _ s => wp m Q s) c w l)|].
  intros [] s Hs. rewrite wp_bind. exact Hs.
Qed.

(** What one event of the worker of [q] stands for. *)
Definition ev_out (q : ps_) (t : afs_event) (o : list (Z * afs_event)) : Prop :=
  let after := (ps_fd q, proc_cmd_fail_ev_ (ps_cmd_after_init q)) in
  match t with
  | afs_ev_init => o = [] \/ (ps_cmd_after_init q <> proc_cmd_none_ /\ o = [after])
  | afs_ev_init_fail => o = if decide (ps_cmd_after_init q = proc_cmd_none_) then [] else [after]
  | afs_ev_stop | afs_ev_stop_fail => o = []
  | _ => o = [(ps_fd q, t)]
  end.

Lemma ev_out_length q t o : ev_out q t o -> length o <= 1.
Proof. unfold ev_out. destruct t; try (by intros ->; cbn; lia); [intros [->|[_ ->]]; cbn; lia|]. intros ->. case_decide; cbn; lia. Qed.

(** The node after an event: the same events of the worker, the descriptor kept
    or given up. *)
Definition same_node (q q' : ps_) : Prop :=
  ps_id q' = ps_id q /\ pwf (ps_p q') /\ p_evs (ps_p q') = p_evs (ps_p q) /\ p_evs_len (ps_p q') = p_evs_len (ps_p q) /\
  (ps_fd q' = ps_fd q \/ ps_fd q' = (-1)%Z).

Lemma same_node_refl q : pwf (ps_p q) -> same_node q q.
Proof. intros. split; [done|]. auto. Qed.

Section one_event.
Context (id : nat) (l1 l2 : list ps_).

Definition ev_post c q w (o : list (Z * afs_event)) (s : afs_ctx * W) : Prop :=
  ufr c s.1 o /\ pintr s.2 <= pintr w /\ exists q', at_node s.1 id l1 q' l2 /\ same_node q q'.

Context c q w l (Hat : at_node c id l1 q l2) (Hp : pwf (ps_p q)) (Hf : pintr w < fuel)
  (Hl : a_evs c = Some l) (Hlen : length l = a_evs_maxlen c) (Hlt : a_evs_len c < a_evs_maxlen c).

Lemma same_node_p p : pwf p -> p_evs p = p_evs (ps_p q) -> p_evs_len p = p_evs_len (ps_p q) -> same_node q (with_ps_p p q).
Proof. intros. split; [done|]. auto. Qed.

(** The worker got a command. *)
Definition command_sent (cmd : proc_cmd_) (p p' : proc_) : Prop :=
  p_st p' = proc_st_busy_ /\ exists sh rw, p_mapped p = Some (sh, rw) /\ p_mapped p' = Some (with_cmd cmd sh, rw).

Lemma after_init_send_wp cmd t line : t = proc_cmd_fail_ev_ (ps_cmd_after_init q) ->
  wp (after_init_send_ id (ps_fd q) (proc_send_cmd_ E fuel cmd) t line)
    (fun _ s => exists o p, ufr c s.1 o /\ pintr s.2 <= pintr w /\ at_node s.1 id l1 (with_ps_p p q) l2 /\
       same_node q (with_ps_p p q) /\ ((o = [] /\ command_sent cmd (ps_p q) p) \/ (o = [(ps_fd q, t)] /\ (ready (ps_p q) -> p_st p = proc_st_dead_)))) (c, w).
Proof.
  intros Ht. unfold after_init_send_. wp_step. eapply on_ps_at; [exact Hat|].
  eapply wp_mono; [by apply proc_send_cmd_wp|]. intros r [p w1] (Hp1 & Hw1 & He & Hel & _ & Hr). cbn [fst snd] in *.
  assert (at_node (with_a_ps (l1 ++ with_ps_p p q :: l2) c) id l1 (with_ps_p p q) l2) as Hat1.
  { eapply at_change; [exact Hat|apply Hat|done]. }
  destruct Hr as [(-> & _ & Hst & sh & rw & G1 & G2 & _)|(-> & _ & Hready)];
    rewrite ?bool_decide_eq_true_2, ?bool_decide_eq_false_2 by done; cbn [negb]; wp_step.
  - exists [], p. split; [by apply (ufr_refl c l)|]. split; [done|]. split; [exact Hat1|]. split; [by apply same_node_p|].
    left. split; [done|]. split; [done|]. by exists sh, rw.
  - rewrite (get_ps_at _ _ _ _ _ _ _ Hat1). wp_step. rewrite upd_ctx_wp. wp_step.
    eapply push_wp; [exact Hl|done|done|]. intros c' e Hu Hps. exists [(ps_fd q, t)], p.
    split; [exact Hu|]. split; [done|]. split; [|by split; [apply same_node_p|right; split]].
    eapply at_change; [exact Hat|apply Hat|]. cbn in Hps. exact Hps.
Qed.

Lemma upd_ps_post f c1 w1 q1 o Q : ufr c c1 o -> pintr w1 <= pintr w -> at_node c1 id l1 q1 l2 -> same_node q (f q1) ->
  (forall s, ev_post c q w o s -> Q tt s) -> wp (upd_ps id f) Q (c1, w1).
Proof.
  intros Hu Hw Hat1 Hs HQ. rewrite (upd_ps_at _ _ _ _ _ _ _ _ Hat1). apply HQ. split; [done|]. split; [done|].
  exists (f q1). split; [|done]. eapply at_change; [exact Hat1| |done]. destruct Hs as [-> _]. apply Hat.
Qed.

Lemma after_init_wp :
  wp (after_init_ E fuel id (ps_fd q)) (fun _ s => exists o, ev_out q afs_ev_init o /\ ev_post c q w o s) (c, w).
Proof.
  unfold after_init_. wp_step. rewrite (get_ps_at _ _ _ _ _ _ _ Hat). wp_step.
  assert (forall s o, ev_out q afs_ev_init o -> ev_post c q w o s ->
    wp (upd_ps id (with_ps_cmd_after_init proc_cmd_none_))
      (fun _ s => exists o, ev_out q afs_ev_init o /\ ev_post c q w o s) s) as Hend.
  { intros [c1 w1] o Ho (Hu & Hw & q1 & Hat1 & Hs). eapply upd_ps_post; [done|done|exact Hat1|exact Hs|]. eauto. }
  assert (forall cmd t line, ps_cmd_after_init q <> proc_cmd_none_ -> t = proc_cmd_fail_ev_ (ps_cmd_after_init q) ->
    wp (after_init_send_ id (ps_fd q) (proc_send_cmd_ E fuel cmd) t line)
      (fun _ s => wp (upd_ps id (with_ps_cmd_after_init proc_cmd_none_))
      (fun _ s => exists o, ev_out q afs_ev_init o /\ ev_post c q w o s) s) (c, w)) as Hsend.
  { intros cmd t line Hne Ht. eapply wp_mono; [by apply after_init_send_wp|]. intros _ s (o & p & Hu & Hw & Hat1 & Hs & Ho).
    eapply (Hend _ o); [|split; [done|]; split; [done|]; eauto]. unfold ev_out. rewrite <- Ht. destruct Ho as [[-> _]|[-> _]]; auto. }
  assert (forall cmd, ps_cmd_after_init q = cmd -> cmd <> proc_cmd_none_ ->
    wp (oev_put (ev_with_ty (proc_cmd_fail_ev_ cmd) ∘ ev_with_fd (ps_fd q)) ;; upd_add_ev_ 257 ;;
        afs_fail_ E 258 (lit "bad cmd_after_init (no errno)"))
      (fun _ s => wp (upd_ps id (with_ps_cmd_after_init proc_cmd_none_))
      (fun _ s => exists o, ev_out q afs_ev_init o /\ ev_post c q w o s) s) (c, w)) as Hbad.
  { intros cmd Hcmd Hne. eapply push_then_wp; [exact Hl|done|done|]. intros c' e Hu Hps. rewrite afs_fail_wp.
    apply (Hend _ [(ps_fd q, proc_cmd_fail_ev_ cmd)]).
    - unfold ev_out. rewrite Hcmd. auto.
    - split; [exact Hu|]. split; [done|]. exists q. split; [|by apply same_node_refl].
      eapply at_change; [exact Hat|apply Hat|]. cbn. rewrite Hps. apply Hat. }
  destruct (ps_cmd_after_init q) eqn:Hcmd; try (by apply Hsend; rewrite ?Hcmd); try (by apply Hbad).
  wp_step. apply (Hend _ []); [by left|]. split; [by apply (ufr_refl c l)|]. split; [done|]. exists q. split; [done|by apply same_node_refl].
Qed.
End one_event.

Section node.
Context (id : nat) (l1 l2 : list ps_).
Abbreviation ev_post := (ev_post id l1 l2).

Lemma handle_ev_wp c q w l e : at_node c id l1 q l2 -> pwf (ps_p q) -> pintr w < fuel ->
  a_evs c = Some l -> length l = a_evs_maxlen c -> a_evs_len c < a_evs_maxlen c -> ev_fd e = ps_fd q ->
  wp (handle_ev_ E fuel id e) (fun r s => exists o, ev_post c q w o s /\
    (if r.1 then o = [] /\ ev_out q (ev_ty e) [(ps_fd q, ev_ty e)] else ev_out q (ev_ty e) o)) (c, w).
Proof.
  intros Hat Hp Hf Hl Hlen Hlt Hfd. unfold handle_ev_. wp_step. rewrite (get_ps_at _ _ _ _ _ _ _ Hat).
  assert (forall f, same_node q (f q) -> ev_post c q w [] (with_a_ps (l1 ++ f q :: l2) c, w)) as Hupd.
  { intros f Hs. split; [by apply (ufr_refl c l)|]. split; [done|]. exists (f q). split; [|done].
    eapply at_change; [exact Hat| |done]. destruct Hs as [-> _]. apply Hat. }
  assert (ev_post c q w [] (c, w)) as Hnone.
  { split; [by apply (ufr_refl c l)|]. split; [done|]. exists q. split; [done|by apply same_node_refl]. }
  assert (same_node q (with_ps_fd (-1)%Z q)) as Hgone by (split; [done|auto]).
  unfold afs_ev_ty. destruct (ev_ty e) eqn:Ht; wp_step; try (by exists []; split);
    rewrite ?(upd_ps_at _ _ _ _ _ _ _ _ Hat); wp_step; try (by exists []; split; [by apply Hupd|]).
  - rewrite Hfd. assert (at_node (with_a_ps (l1 ++ with_ps_is_avail true q :: l2) c) id l1 (with_ps_is_avail true q) l2) as Hat1
      by (by eapply at_change; [exact Hat|apply Hat|]).
    eapply wp_mono; [by eapply (after_init_wp id l1 l2 _ (with_ps_is_avail true q))|].
    intros _ s (o & Ho & Hs). wp_step. exists o. split; [exact Hs|exact Ho].
  - assert (forall c1 o, ufr c c1 o -> at_node c1 id l1 q l2 -> ev_out q afs_ev_init_fail o ->
      wp (upd_ps id (with_ps_cmd_after_init proc_cmd_none_) ;; mret (false, true))
        (fun r s => exists o, ev_post c q w o s /\
        (if r.1 then o = [] /\ ev_out q afs_ev_init_fail [(ps_fd q, afs_ev_init_fail)] else ev_out q afs_ev_init_fail o)) (c1, w)) as Hend.
    { intros c1 o Hu Hat1 Ho. rewrite wp_bind. eapply upd_ps_post; [exact Hat|exact Hu|done|exact Hat1|split; [done|auto]|].
      intros s Hs. wp_step. eauto. }
    unfold ev_out in Hend at 1. destruct (decide (ps_cmd_after_init q <> proc_cmd_none_)) as [Hne|He]; rewrite ?wp_bind.
    + eapply push_wp; [exact Hl|done|done|]. intros c' e' Hu Hps. cbn [compose ev_with_ty ev_with_fd ev_fd ev_ty] in Hu.
      rewrite Hfd in Hu. eapply Hend; [exact Hu| |by rewrite decide_False].
      eapply at_change; [exact Hat|apply Hat|]. rewrite Hps. apply Hat.
    + apply dec_stable in He. rewrite wp_ret. apply (Hend c []); [by apply (ufr_refl c l)|done|by rewrite decide_True].
  - rewrite (upd_ps_at _ id l1 (with_ps_fd (-1)%Z q) l2) by (by eapply at_change; [exact Hat|apply Hat|]). wp_step.
    exists []. split; [|done]. apply (Hupd (with_ps_is_avail false ∘ with_ps_fd (-1)%Z)). split; [done|]. auto.
  - rewrite (upd_ps_at _ id l1 (with_ps_fd (-1)%Z q) l2) by (by eapply at_change; [exact Hat|apply Hat|]). wp_step.
    exists []. split; [|done]. apply (Hupd (with_ps_is_avail false ∘ with_ps_fd (-1)%Z)). split; [done|]. auto.
Qed.

(** One turn of the loop over the events of a worker. *)
Lemma ev_turn_wp n i del Q c q w l e : at_node c id l1 q l2 -> pwf (ps_p q) -> pintr w < fuel ->
  a_evs c = Some l -> length l = a_evs_maxlen c -> a_evs_len c < a_evs_maxlen c -> p_evs (ps_p q) !! i = Some e ->
  (forall c' w' q' o d, ufr c c' o -> pintr w' <= pintr w -> at_node c' id l1 q' l2 -> ev_out q (ev_ty e) o ->
     pwf (ps_p q') -> p_evs (ps_p q') = <[i := ev_with_fd (ps_fd q) e]> (p_evs (ps_p q)) ->
     ps_fd q' = ps_fd q \/ ps_fd q' = (-1)%Z -> wp (evs_loop_ E fuel id n (S i) d) Q (c', w')) ->
  wp (evs_loop_ E fuel id (S n) i del) Q (c, w).
Proof.
  intros Hat Hp Hf Hl Hlen Hlt Hi HQ. cbn [evs_loop_]. wp_step. rewrite (get_ps_at _ _ _ _ _ _ _ Hat), Hi. wp_step.
  rewrite (upd_ps_at _ _ _ _ _ _ _ _ Hat). wp_step. set (e1 := ev_with_fd (ps_fd q) e).
  set (q1 := with_ps_p (with_p_evs (<[i := e1]> (p_evs (ps_p q))) (ps_p q)) q).
  assert (at_node (with_a_ps (l1 ++ q1 :: l2) c) id l1 q1 l2) as Hat1 by (by eapply at_change; [exact Hat|apply Hat|]).
  assert (pwf (ps_p q1)) as Hp1 by (destruct Hp; split; cbn; [by rewrite length_insert|done|done]).
  eapply wp_mono; [by eapply (handle_ev_wp _ q1 w l e1)|].
  intros [add d] [c2 w2] (o & (Hu & Hw2 & q2 & Hat2 & Hs) & Ho). cbn [fst snd] in *. wp_step.
  assert (forall f, let c3 := with_a_fail f c2 in wp (if add then oev_put (fun _ => e1) ;; upd_add_ev_ 302 else mret tt)
    (fun _ s => wp (evs_loop_ E fuel id n (S i) (del || d)) Q s) (c3, w2)) as Hpush.
  { intros f c3. destruct Hs as (Hs1 & Hs2 & Hs3 & Hs4 & Hs5).
    assert (at_node c3 id l1 q2 l2) as Hat3 by (by eapply at_change; [exact Hat2|apply Hat2|apply Hat2]).
    destruct add; wp_step.
    - destruct Ho as [-> Ho]. destruct Hu as ((Hu1 & Hu2 & Hu3 & Hu4 & Hu5 & Hu6) & (l' & Hl' & Hlen') & Hu7 & Hu8).
      eapply (push_wp _ _ _ c3 w2 l'); [done|cbn in *; congruence|cbn in *; lia|]. intros c4 e' Hu4' Hps. cbn [fst].
      eapply (HQ c4 w2 q2 [(ps_fd q, ev_ty e)]); try done.
      + apply (ufr_trans c c3 c4 [] [(ps_fd q, ev_ty e)]); [|exact Hu4']. split; [done|]. split; [by exists l'|]. by split.
      + eapply at_change; [exact Hat3|apply Hat3|]. rewrite Hps. apply Hat3.
    - eapply (HQ c3 w2 q2 o); try done. }
  destruct (afs_ev_is_fail e1); wp_step.
  - rewrite (get_ps_at _ _ _ _ _ _ _ Hat2). wp_step. rewrite upd_ctx_wp, wp_bind. apply Hpush.
  - specialize (Hpush (a_fail c2)). cbn in Hpush. by destruct c2.
Qed.
End node.

(** *** The loops *)
Lemma update_types_shape p rev : update_types p rev = [] \/ (exists t, update_types p rev = [t]) \/
  update_types p rev = [afs_ev_init_fail; afs_ev_stop].
Proof.
  unfold update_types. destruct (p_st p), (p_mapped p) as [[sh ?]|]; eauto;
    repeat case_match; eauto; unfold done_types; case_match; eauto.
Qed.

Lemma p_types_lookup p i t : pwf p -> p_types p !! i = Some t -> exists e, p_evs p !! i = Some e /\ ev_ty e = t.
Proof.
  intros Hp H. unfold p_types, p_reported in H. rewrite list_lookup_fmap in H. apply fmap_Some in H as (e & He & ->).
  apply lookup_take_Some in He as [He _]. eauto.
Qed.

Lemma p_types_length p : pwf p -> length (p_types p) = p_evs_len p.
Proof. intros [H1 H2 _]. unfold p_types, p_reported. rewrite length_fmap, length_take. lia. Qed.

(** What the update of one worker stands for. *)
Definition node_out (fds : list pollfd) (q : ps_) (o : list (Z * afs_event)) : Prop :=
  match update_types (ps_p q) (revents_of_ (p_fd (ps_p q)) fds) with
  | [] => o = []
  | t :: _ => ev_out q t o
  end.

Lemma node_out_length fds q o : node_out fds q o -> length o <= 1.
Proof. unfold node_out. destruct (update_types _ _); [by intros ->; cbn; lia|by apply ev_out_length]. Qed.

Definition loop_post c q l1 l2 w (o : list (Z * afs_event)) (s : afs_ctx * W) : Prop :=
  ufr c s.1 o /\ pintr s.2 <= pintr w /\ exists q', at_node s.1 (ps_id q) l1 q' l2 /\ pwf (ps_p q') /\
    (ps_fd q' = ps_fd q \/ ps_fd q' = (-1)%Z).

Lemma evs_loop_wp c l1 q l2 w l fds p : at_node c (ps_id q) l1 q l2 -> pwf (ps_p q) -> pintr w < fuel ->
  a_evs c = Some l -> length l = a_evs_maxlen c -> a_evs_len c + 1 < a_evs_maxlen c ->
  p_types (ps_p q) = update_types p (revents_of_ (p_fd p) fds) ->
  wp (evs_loop_ E fuel (ps_id q) (p_evs_len (ps_p q)) 0 false)
    (fun _ s => exists o, match update_types p (revents_of_ (p_fd p) fds) with [] => o = [] | t :: _ => ev_out q t o end /\
       loop_post c q l1 l2 w o s) (c, w).
Proof.
  intros Hat Hp Hf Hl Hlen Hlt Hty. rewrite <- (p_types_length _ Hp).
  pose proof (fun i t => p_types_lookup (ps_p q) i t Hp) as Hev. rewrite Hty in *.
  destruct (update_types_shape p (revents_of_ (p_fd p) fds)) as [Ht|[[t Ht]|Ht]]; rewrite Ht in *; cbn [length].
  - cbn [evs_loop_]. wp_step. exists []. split; [done|]. split; [by apply (ufr_refl c l)|]. split; [done|].
    exists q. auto.
  - destruct (Hev 0 t eq_refl) as (e & He & <-). eapply ev_turn_wp; [exact Hat|done|done|exact Hl|done|lia|exact He|].
    intros c' w' q' o d Hu Hw Hat' Ho Hp' _ Hfd. cbn [evs_loop_]. wp_step. exists o. split; [done|]. split; [done|]. eauto.
  - destruct (Hev 0 _ eq_refl) as (e & He & Hte). destruct (Hev 1 _ eq_refl) as (e1 & He1 & Hte1).
    eapply ev_turn_wp; [exact Hat|done|done|exact Hl|done|lia|exact He|].
    intros c' w' q' o d Hu Hw Hat' Ho Hp' Hevs Hfd. pose proof (ev_out_length _ _ _ Ho) as Hol. rewrite Hte in Ho.
    pose proof Hu as ((_ & _ & _ & _ & _ & Hm) & (l' & Hl' & Hlen') & Hu3 & _).
    eapply (ev_turn_wp _ l1 l2 _ _ _ _ c' q' w' l' e1); [exact Hat'|done|lia|exact Hl'|congruence|lia| |].
    { rewrite Hevs, list_lookup_insert_ne by done. exact He1. }
    intros c2 w2 q2 o2 d2 Hu2 Hw2 Hat2 Ho2 Hp2 _ Hfd2. cbn [evs_loop_]. wp_step. rewrite Hte1 in Ho2. cbn in Ho2. subst o2.
    exists o. split; [done|]. split; [by rewrite <- (app_nil_r o); eapply ufr_trans|]. split; [cbn; lia|].
    exists q2. split; [done|]. split; [done|]. destruct Hfd as [Hfd|Hfd]; rewrite Hfd in *; [done|]. by destruct Hfd2; right.
Qed.

Lemma update_ps_wp c l1 q l2 w l fds : lwf (a_next c) (l1 ++ q :: l2) -> a_ps c = l1 ++ q :: l2 -> pintr w < fuel ->
  a_evs c = Some l -> length l = a_evs_maxlen c -> a_evs_len c + 1 < a_evs_maxlen c ->
  wp (update_ps_ E fuel fds (ps_id q)) (fun _ s => exists o l1', node_out fds q o /\ ufr c s.1 o /\ pintr s.2 <= pintr w /\
    a_ps s.1 = l1' ++ l2 /\ length l1' <= S (length l1) /\ lwf (a_next c) (l1' ++ l2) /\
    forall r, r ∈ l1 -> ps_fd r <> (-1)%Z -> r ∈ l1') (c, w).
Proof.
  intros Hl Hc Hf Hev Hlen Hlt. pose proof (at_middle _ _ _ _ _ Hl Hc) as Hat. unfold update_ps_. wp_step.
  eapply on_ps_at; [exact Hat|]. assert (pwf (ps_p q)) as Hp by (apply (lwf_pwf _ _ Hl), in_middle; auto).
  eapply wp_mono; [by apply proc_update_wp|]. intros r [p w1] (Hp1 & Hw1 & Hty & _ & _). cbn [fst snd] in *.
  set (q1 := with_ps_p p q). set (c1 := with_a_ps (l1 ++ q1 :: l2) c).
  assert (at_node c1 (ps_id q1) l1 q1 l2) as Hat1 by (by eapply at_change).
  wp_step. rewrite (get_ps_at c1 (ps_id q) l1 q1 l2) by exact Hat1. wp_step.
  eapply wp_mono; [apply (evs_loop_wp c1 l1 q1 l2 w1 l fds (ps_p q)); [done|done|lia|done|done|done|exact Hty]|].
  intros del [c2 w2] (o & Ho & Hu & Hw2 & q2 & Hat2 & Hp2 & Hfd2). cbn [fst snd] in *.
  assert (lwf (a_next c) (l1 ++ q2 :: l2)) as Hl2.
  { eapply lwf_change; [exact Hl|apply Hat2|done|]. cbn in Hfd2. tauto. }
  assert (ufr c c2 o) as Hu' by exact Hu. assert (node_out fds q o) as Ho' by exact Ho.
  destruct (negb _ || del); wp_step.
  - rewrite (get_ps_at c2 (ps_id q) l1 q2 l2) by exact Hat2. wp_step. eapply ps_del_at; [apply Hat2|done|].
    intros l' Hsub Hll Hkeep. wp_step. exists o, l'. do 2 (split; [done|]). split; [cbn; lia|]. split; [done|].
    rewrite length_app in Hll. cbn in Hll. split; [lia|]. split.
    { eapply lwf_sublist; [|exact Hl2]. change (l1 ++ q2 :: l2) with (l1 ++ [q2] ++ l2). rewrite app_assoc. by apply sublist_app. }
    intros n Hr Hne. apply Hkeep; [done|]. intros Heq. pose proof (lwf_ids _ _ Hl2) as Hids. apply nodup_not_in in Hids as [Hids _].
    rewrite list.Forall_forall in Hids. apply (Hids n Hr). apply (lwf_uniq _ _ Hl2); [|apply in_middle; auto|done|done].
    apply elem_of_app. by left.
  - exists o, (l1 ++ [q2]). do 2 (split; [done|]). split; [cbn; lia|]. rewrite <- app_assoc. split; [apply Hat2|].
    split; [rewrite length_app; cbn; lia|]. split; [done|]. intros n Hr _. apply elem_of_app. by left.
Qed.

Lemma next_ps_wp Q c w l1 q l2 : lwf (a_next c) (l1 ++ q :: l2) -> a_ps c = l1 ++ q :: l2 ->
  Q (ps_id <$> head l2) (c, w) -> wp (next_ps (ps_id q)) Q (c, w).
Proof.
  intros Hl Hc HQ. unfold next_ps. wp_step. rewrite get_ctx_wp, Hc. rewrite list_find_middle; [|by apply lwf_ids, nodup_not_in in Hl as [? _]|done].
  wp_step. assert (ps_id <$> (l1 ++ q :: l2) !! S (length l1) = ps_id <$> head l2) as ->; [|exact HQ].
  rewrite lookup_app_r by lia. replace (S (length l1) - length l1) with 1 by lia. by destruct l2.
Qed.

Lemma afs_update_loop_wp fds l2 : forall c l1 w l, lwf (a_next c) (l1 ++ l2) -> a_ps c = l1 ++ l2 -> pintr w < fuel ->
  a_evs c = Some l -> length l = a_evs_maxlen c -> a_evs_len c + 2 * length l2 <= a_evs_maxlen c ->
  wp (update_loop_ E fuel (length l2) fds (ps_id <$> head l2)) (fun _ s => exists os, Forall2 (node_out fds) l2 os /\
    ufr c s.1 (concat os) /\ pintr s.2 <= pintr w /\ lwf (a_next c) (a_ps s.1) /\
    length (a_ps s.1) <= length l1 + length l2) (c, w).
Proof.
  induction l2 as [|q l2 IH]; intros c l1 w l Hl Hc Hf Hev Hlen Hlt; cbn [length update_loop_ head fmap option_fmap option_map].
  - wp_step. exists []. split; [done|]. split; [by apply (ufr_refl c l)|]. rewrite app_nil_r in *. cbn [fst snd].
    rewrite Hc. split; [done|]. split; [done|]. lia.
  - wp_step. apply (next_ps_wp _ _ _ l1 q l2 Hl Hc). wp_step.
    cbn [length] in Hlt. eapply wp_mono; [eapply update_ps_wp; [done|done|done|exact Hev|done|lia]|].
    intros _ [c1 w1] (o & l1' & Ho & Hu & Hw1 & Hc1 & Hl1 & Hlw1 & _). cbn [fst snd] in *.
    pose proof Hu as ((_ & Hn & _ & _ & _ & Hm) & (l' & Hl' & Hlen') & Hu3 & _).
    pose proof (node_out_length _ _ _ Ho) as Hol.
    eapply wp_mono; [apply (IH c1 l1' w1 l'); [by rewrite Hn|done|lia|done|congruence|lia]|].
    intros _ [c2 w2] (os & Hos & Hu2 & Hw2 & Hlw2 & Hlen2). cbn [fst snd] in *. exists (o :: os). split; [by constructor|].
    split; [by eapply ufr_trans|]. split; [lia|]. rewrite Hn in Hlw2. split; [done|lia].
Qed.

(** Every worker is gone. *)
Definition all_stopped (l : list ps_) : bool := forallb (fun q => bool_decide (p_st (ps_p q) = proc_st_uninit_)) l.

(** The end of an update: [afs_ev_stop] once a stop was requested and no worker is
    left. *)
Definition update_end : CM (afs_ctx * W) unit :=
  c ← get_ctx;
  if a_is_stop_req c then
    if forallb (fun q => bool_decide (p_st (ps_p q) = proc_st_uninit_)) (a_ps c) then
      oev_put (ev_with_ty afs_ev_stop ∘ ev_with_fd (-1)%Z) ;; upd_add_ev_ 326
    else mret tt
  else mret tt.

Lemma update_end_wp c w l : a_evs c = Some l -> length l = a_evs_maxlen c -> a_evs_len c < a_evs_maxlen c ->
  wp update_end (fun _ s => ufr c s.1 (if a_is_stop_req c && all_stopped (a_ps c) then [((-1)%Z, afs_ev_stop)] else []) /\
    a_ps s.1 = a_ps c /\ s.2 = w) (c, w).
Proof.
  intros Hl Hlen Hlt. unfold update_end. wp_step. rewrite get_ctx_wp. change (forallb _ (a_ps c)) with (all_stopped (a_ps c)).
  pose proof (ufr_refl c l Hl Hlen) as Hu.
  destruct (a_is_stop_req c), (all_stopped (a_ps c)); cbn [andb]; try (by wp_step).
  wp_step. eapply push_wp; [exact Hl|done|done|]. by intros c' e Hu' Hps.
Qed.

(** The update of a context that has an event array: the loop, then the end; [R]
    is what else is known of the loop. *)
Lemma afs_update_array_wp (R : afs_ctx -> Prop) fds c w l : awf c -> pintr w < fuel -> a_evs c = Some l ->
  wp (update_loop_ E fuel (length (a_ps c)) fds (ps_id <$> head (a_ps c))) (fun _ s => R s.1) (with_a_evs_len 0 c, w) ->
  wp (afs_update E fuel fds) (fun _ s => exists c1 os, R c1 /\ Forall2 (node_out fds) (a_ps c) os /\
    awf s.1 /\ pintr s.2 <= pintr w /\ a_is_stop_req s.1 = a_is_stop_req c /\ evs_seen c1 = concat os /\ a_ps s.1 = a_ps c1 /\
    ufr c1 s.1 (if a_is_stop_req c && all_stopped (a_ps c1) then [((-1)%Z, afs_ev_stop)] else [])) (c, w).
Proof.
  intros [Hl Ha] Hf Hev HR. pose proof Ha as [A1 A2 A3 A4 A5 A6]. rewrite Hev in A2. destruct A2 as [A2 A2'].
  unfold afs_update. wp_step. rewrite get_ctx_wp. wp_step. rewrite upd_ctx_wp. rewrite decide_False by (rewrite Hev; by intros [_ ?]).
  wp_step. set (c0 := with_a_evs_len 0 c). eapply wp_mono; [eapply wp_conj; [exact HR|]|].
  { apply (afs_update_loop_wp fds (a_ps c) c0 [] w l); [done|done|done|done|done|]. cbn. unfold proc_evs_maxlen_ in *. lia. }
  intros _ [c1 w1] [HR1 (os & Hos & Hu & Hw1 & Hlw & Hlen)]. cbn [fst snd length] in *.
  pose proof Hu as ((Hs1 & Hn1 & Hp1 & Hp2 & Hp3 & Hm) & (l' & Hl' & Hlen') & Hu3 & Hu4). cbn in Hs1, Hn1, Hp1, Hp2, Hp3, Hm, Hlen', Hu3.
  change (evs_seen c0) with (@nil (Z * afs_event)) in Hu4. cbn [app] in Hu4.
  assert (length (concat os) <= length (a_ps c)) as Hcat.
  { clear -Hos. induction Hos as [|q o l os Ho _ IH]; [done|]. cbn. rewrite length_app.
    pose proof (node_out_length _ _ _ Ho). lia. }
  assert (a_evs_len c1 < a_evs_maxlen c) as Hroom.
  { rewrite Hu3. destruct (a_ps c) as [|q0 l0] eqn:Hps; cbn [length] in *; [|unfold proc_evs_maxlen_ in *; lia].
    apply Forall2_length in Hos. by destruct os. }
  eapply wp_mono; [apply (update_end_wp c1 w1 l'); [done|congruence|congruence]|].
  intros _ [c2 w2] (Hu2 & Hps & ->). cbn [fst snd] in *. rewrite Hs1 in Hu2. exists c1, os.
  pose proof Hu2 as ((G1 & G2 & G3 & G4 & G5 & G6) & (l2 & G7 & G8) & G9 & _).
  split; [done|]. split; [done|]. split; [|split; [done|split; [congruence|by split]]].
  split; [rewrite G2, Hps, Hn1; exact Hlw|].
  split; rewrite ?G3, ?G4, ?G5, ?G6, ?G7, ?Hps, ?Hp1, ?Hp2, ?Hp3, ?Hm; try done.
  - split; [cbn; congruence|done].
  - rewrite G9. destruct (_ && _); cbn; lia.
  - lia.
  - etransitivity; [|exact A6]. by apply Nat.mul_le_mono_r.
Qed.

Lemma afs_update_wp fds c w : awf c -> pintr w < fuel -> (a_is_stop_req c = true -> a_evs c <> None) ->
  wp (afs_update E fuel fds) (fun _ s => exists os, awf s.1 /\ pintr s.2 <= pintr w /\
    a_is_stop_req s.1 = a_is_stop_req c /\ (a_evs c <> None -> a_evs s.1 <> None) /\ Forall2 (node_out fds) (a_ps c) os /\
    evs_seen s.1 = concat os ++ if a_is_stop_req c && all_stopped (a_ps s.1) then [((-1)%Z, afs_ev_stop)] else []) (c, w).
Proof.
  intros Hwf Hf Hstop. destruct (a_evs c) as [l|] eqn:Hev.
  - eapply wp_mono; [apply (afs_update_array_wp (fun _ => True) fds c w l); [done|done|done|]|].
    { destruct Hwf as [Hl [A1 A2 A3 A4 A5 A6]]. rewrite Hev in A2. destruct A2 as [A2 _]. eapply wp_mono.
      - apply (afs_update_loop_wp fds (a_ps c) (with_a_evs_len 0 c) [] w l); [done|done|done|done|done|]. cbn. unfold proc_evs_maxlen_ in *. lia.
      - done. }
    intros _ s (c1 & os & _ & Hos & H1 & H2 & H3 & H4 & H5 & H6). exists os. split; [done|]. split; [done|]. split; [done|].
    destruct H6 as (_ & (l' & -> & _) & _ & Hseen). split; [done|]. split; [done|]. by rewrite Hseen, H4, H5.
  - pose proof Hwf as [Hl [A1 A2 A3 A4 A5 A6]]. rewrite Hev in A2. cbn in A2.
    assert (a_ps c = []) as Hnil.
    { destruct (a_ps c); [done|]. cbn in A6. unfold proc_evs_maxlen_ in A6. lia. }
    unfold afs_update. wp_step. rewrite get_ctx_wp. wp_step. rewrite upd_ctx_wp.
    rewrite decide_False by (by rewrite Hnil; intros [? _]). rewrite Hnil. cbn [length head fmap option_fmap option_map update_loop_].
    wp_step. rewrite get_ctx_wp. cbn [with_a_evs_len a_is_stop_req]. destruct (a_is_stop_req c) eqn:Hs; [by destruct Hstop|].
    wp_step. exists []. split; [|split; [done|split; [done|split; [by cbn|by split]]]].
    split; [exact Hl|]. split; cbn; rewrite ?Hev, ?Hnil; cbn; [done|done|done|lia..].
Qed.

(** *** The other calls *)

(** Every call keeps the invariant; none but [afs_init] takes back a request to
    stop. *)
Definition kept w (s : afs_ctx * W) : Prop := awf s.1 /\ pintr s.2 <= pintr w.

Lemma awf_change c l1 q l2 q' c' : awf c -> a_ps c = l1 ++ q :: l2 -> ps_id q' = ps_id q -> pwf (ps_p q') ->
  (ps_fd q' = ps_fd q \/ ps_fd q' = (-1)%Z) -> c' = with_a_ps (l1 ++ q' :: l2) c -> awf c'.
Proof.
  intros [Hl Ha] Hc Hid Hp Hfd ->. rewrite Hc in *. apply awf_with_ps; [eapply lwf_change; [exact Hl|done|done|tauto]|].
  by rewrite length_app in *.
Qed.

Lemma awf_pwf c l1 q l2 : awf c -> a_ps c = l1 ++ q :: l2 -> pwf (ps_p q).
Proof. intros [Hl _] Hc. apply (lwf_pwf _ _ Hl). rewrite Hc. apply in_middle. auto. Qed.

Lemma awf_at c l1 q l2 : awf c -> a_ps c = l1 ++ q :: l2 -> at_node c (ps_id q) l1 q l2.
Proof. intros [Hl _] Hc. rewrite Hc in Hl. by eapply at_middle. Qed.

(** A command that was not sent: the worker was not in the state for it, which
    only leaves the failure noted, or the write failed, and the worker counts as
    dead with the command in its memory. *)
Definition unsent (cmd : proc_cmd_) (p p' : proc_) : Prop :=
  (~ AfsProcProps.ready p /\ exists f, p' = with_p_fail f p) \/
  (exists f sh rw, p_mapped p = Some (sh, rw) /\ child_st sh = proc_child_st_idle_ /\
     p' = with_p_st proc_st_dead_ (with_p_fail f (with_p_mapped (Some (with_cmd cmd sh, rw)) p))).

Lemma send_unsent_wp cmd p w : pwf p -> pintr w < fuel ->
  wp (proc_send_cmd_ E fuel cmd) (fun r s => r <> afs_ok -> unsent cmd p s.1) (p, w).
Proof.
  intros [_ _ Hm] Hf. unfold proc_send_cmd_. wp_step. rewrite get_proc_wp.
  destruct (decide (p_st p = proc_st_avail_)) as [Hst|Hst].
  2:{ rewrite (bool_decide_eq_false_2 _ Hst). cbn [negb]. wp_step. rewrite proc_fail_wp. wp_step. left. split; [by intros [? _]|eauto]. }
  rewrite (bool_decide_eq_true_2 _ Hst). cbn [negb]. rewrite Hst in Hm. destruct Hm as (sh & rw & Hmap & _).
  wp_step. rewrite (get_shared_wp sh rw) by done. destruct (decide (child_st sh = proc_child_st_idle_)) as [Hi|Hi].
  2:{ rewrite (bool_decide_eq_false_2 _ Hi). cbn [negb]. wp_step. rewrite proc_fail_wp. wp_step. left.
      split; [intros (_ & sh' & rw' & ? & ?); congruence|eauto]. }
  rewrite (bool_decide_eq_true_2 _ Hi). cbn [negb]. wp_step. rewrite upd_proc_wp. wp_step.
  rewrite (upd_shared_wp _ sh rw) by done. eapply wp_mono; [by apply (notify_loop_wp E fuel)|].
  intros r [q w1] [_ Hr]. cbn [fst] in *. destruct Hr as [[-> _]|[-> [f ->]]]; [done|]. intros _. right. exists f, sh, rw. done.
Qed.

(** A command for the worker of a node. *)
Lemma on_send_wp c l1 q l2 w cmd (Q : afs_res -> afs_ctx * W -> Prop) : awf c -> a_ps c = l1 ++ q :: l2 -> pintr w < fuel ->
  (forall r c' w' q', at_node c' (ps_id q) l1 q' l2 -> awf c' -> pintr w' <= pintr w -> r = afs_ok \/ r = afs_fail ->
     (r = afs_ok -> ps_fd q' = ps_fd q /\ p_st (ps_p q') = proc_st_busy_ /\
        exists sh rw, p_mapped (ps_p q) = Some (sh, rw) /\ p_mapped (ps_p q') = Some (with_cmd cmd sh, rw)) ->
     (r <> afs_ok -> exists p', q' = with_ps_p p' q /\ unsent cmd (ps_p q) p') -> Q r (c', w')) ->
  wp (on_ps (ps_id q) (proc_send_cmd_ E fuel cmd)) Q (c, w).
Proof.
  intros Hwf Hc Hf HQ. pose proof (awf_at _ _ _ _ Hwf Hc) as Hat. eapply on_ps_at; [exact Hat|].
  assert (pwf (ps_p q)) as Hpq by (by eapply awf_pwf).
  eapply wp_mono; [eapply wp_conj; [by apply proc_send_cmd_wp|by apply (send_unsent_wp cmd)]|].
  intros r [p w1] [(Hp & Hw & _ & _ & _ & Hr) Hun]. cbn [fst snd] in *.
  eapply (HQ _ _ _ (with_ps_p p q)); [by eapply at_change| |done|destruct Hr as [[-> _]|[-> _]]; auto| |].
  3:{ intros Hne. exists p. auto. }
  2:{ intros ->. destruct Hr as [(_ & _ & Hst & sh & rw & H1 & H2 & _)|[? _]]; [|done]. split; [done|]. split; [done|]. by exists sh, rw. }
  by eapply (awf_change c l1 q l2 (with_ps_p p q)); [..|left|].
Qed.

(** A call on a descriptor in use whose worker has started. *)
Lemma avail_ps_wp x c w Q : awf c -> Q None (c, w) ->
  (forall l1 q l2, a_ps c = l1 ++ q :: l2 -> ps_fd q = x -> ps_is_avail q = true -> Q (Some (ps_id q)) (c, w)) ->
  wp (avail_ps_ x) Q (c, w).
Proof.
  intros Hwf HN HS. unfold avail_ps_. wp_step. apply ps_get_wp; [by intros _; wp_step|]. intros l1 q l2 Hc _ Hx. wp_step.
  rewrite (get_ps_at _ _ _ _ _ _ _ (awf_at _ _ _ _ Hwf Hc)). wp_step. destruct (ps_is_avail q) eqn:Ha; [by eapply HS|done].
Qed.

Ltac failed := wp_step; rewrite ?afs_fail_wp; wp_step; split; [by try apply awf_fail|done].
Ltac failed_with := wp_step; rewrite ?afs_fail_wp; wp_step; (split; [split; [by try apply awf_fail|done]|]); cbn [fst a_ps with_a_fail with_a_ps].

Lemma close_like_wp x line msg cmd c w : awf c -> pintr w < fuel ->
  wp (if negb (x =? -1)%Z then
        r ← avail_ps_ x;
        match r with
        | None => afs_fail_ E line msg ;; mret afs_fail_bad_fd
        | Some id => on_ps id (proc_send_cmd_ E fuel cmd)
        end
      else mret afs_fail_bad_fd) (fun _ => kept w) (c, w).
Proof.
  intros Hwf Hf. destruct (negb _); [|by wp_step]. wp_step. apply avail_ps_wp; [done|failed|].
  intros l1 q l2 Hc _ _. eapply on_send_wp; [exact Hwf|exact Hc|done|]. by intros.
Qed.

Lemma afs_close_wp x c w : awf c -> pintr w < fuel -> wp (afs_close E fuel x) (fun _ => kept w) (c, w).
Proof. apply close_like_wp. Qed.

Lemma afs_fsync_wp x c w : awf c -> pintr w < fuel -> wp (afs_fsync E fuel x) (fun _ => kept w) (c, w).
Proof. apply close_like_wp. Qed.

Lemma afs_readall_wp x c w : awf c -> pintr w < fuel -> wp (afs_readall E fuel x) (fun _ => kept w) (c, w).
Proof.
  intros Hwf Hf. unfold afs_readall. destruct (negb _); [|by wp_step]. wp_step. apply avail_ps_wp; [done|by wp_step|].
  intros l1 q l2 Hc _ _. eapply on_send_wp; [exact Hwf|exact Hc|done|]. by intros.
Qed.

(** Stores into the shared memory of a node. *)
Definition stored (q : ps_) (s : proc_shared_) (rw : list char) : ps_ := with_ps_p (with_p_mapped (Some (s, rw)) (ps_p q)) q.

Lemma pwf_mapped p s rw : pwf p -> p_mapped p = Some (s, rw) -> p_st p <> proc_st_uninit_ /\ length rw = p_rw_buf_len p.
Proof. intros [_ _ Hm] Hs. rewrite Hs in Hm. destruct (p_st p); destruct_and?; try done; destruct Hm as (?&?&?&?&?); by simplify_eq. Qed.

Lemma stored_awf c l1 q l2 s rw s' rw' : awf c -> a_ps c = l1 ++ q :: l2 -> p_mapped (ps_p q) = Some (s, rw) ->
  length rw' = length rw -> awf (with_a_ps (l1 ++ stored q s' rw' :: l2) c).
Proof.
  intros Hwf Hc Hm Hlen. pose proof (awf_pwf _ _ _ _ Hwf Hc) as Hp.
  eapply (awf_change c l1 q l2 (stored q s' rw')); [exact Hwf|exact Hc|done| |by left|done].
  destruct (pwf_mapped _ _ _ Hp Hm) as [Hst Hrw]. destruct Hp as [H1 H2 H3]. split; cbn; [done|done|].
  destruct (p_st (ps_p q)); [done|..]; destruct H3 as (? & ? & ? & ? & ? & ?); eexists _, _; (split; [done|]); (split; [congruence|done]).
Qed.

Lemma rw_put_wp off d f s rw p w Q : p_mapped p = Some (s, rw) -> (off + Z.of_nat (length d) <= Z.of_nat (length rw))%Z ->
  wp (rw_put off d f) Q (p, w) <-> Q tt (with_p_mapped (Some (f s, splice rw (Z.to_nat off) d)) p, w).
Proof. intros Hm Hlen. unfold rw_put. wp_step. rewrite get_proc_wp, Hm, (proj2 (Z.leb_le _ _)) by done. done. Qed.

Lemma afs_write_wp x n c w : awf c -> pintr w < fuel -> wp (afs_write E fuel x n) (fun _ => kept w) (c, w).
Proof.
  intros Hwf Hf. unfold afs_write. destruct (negb _); [|by wp_step]. wp_step. apply avail_ps_wp; [done|failed|].
  intros l1 q l2 Hc _ _. wp_step. pose proof (awf_at _ _ _ _ Hwf Hc) as Hat. rewrite (get_ps_at _ _ _ _ _ _ _ Hat).
  destruct (p_mapped (ps_p q)) as [[s rw]|] eqn:Hm; [|failed]. destruct (decide _) as [_|_]; [failed|]. wp_step.
  eapply on_ps_at; [exact Hat|]. rewrite (upd_shared_wp _ s rw) by done. cbn [fst snd].
  eapply (on_send_wp _ l1 (stored q (with_write_len n s) rw) l2); [by eapply stored_awf|done|done|]. by intros.
Qed.

(** The node of a descriptor. *)
Definition node_of (x : Z) (l l1 : list ps_) (q : ps_) (l2 : list ps_) : Prop :=
  l = l1 ++ q :: l2 /\ Forall (fun r => ps_fd r <> x) l1 /\ ps_fd q = x /\ x <> (-1)%Z.

(** A node whose buffer got the path behind the [n] bytes of data, with its NUL,
    and whose shared record got the length and the flags. *)
Definition wfc_filled (path : list char) (flags : Z) (n : nat) (q : ps_) (s : proc_shared_) (rw : list char) : ps_ :=
  stored q (with_write_len n (with_open_flags flags s)) (splice rw n (path ++ [ch_nul])).

(** What [afs_write_fsync_close] does with the list [l] of workers. *)
Inductive wfc_out (x : Z) (path : list char) (flags : Z) (n : nat) (l : list ps_) : afs_res -> list ps_ -> Prop :=
| wfc_bad_fd : (x = (-1)%Z \/ Forall (fun r => ps_fd r <> x) l) -> wfc_out x path flags n l afs_fail_bad_fd l
| wfc_null l1 q l2 : node_of x l l1 q l2 -> p_mapped (ps_p q) = None -> wfc_out x path flags n l afs_fail l
| wfc_no_fit l1 q l2 s rw : node_of x l l1 q l2 -> p_mapped (ps_p q) = Some (s, rw) -> length rw < n + length path + 1 ->
    wfc_out x path flags n l afs_fail_bad_arg l
| wfc_sent l1 q l2 s rw q' : node_of x l l1 q l2 -> p_mapped (ps_p q) = Some (s, rw) -> n + length path + 1 <= length rw ->
    p_st (ps_p q) = proc_st_avail_ -> p_st (ps_p q') = proc_st_busy_ -> ps_fd q' = x ->
    p_mapped (ps_p q') = Some (with_cmd proc_cmd_write_fsync_close_ (with_write_len n (with_open_flags flags s)),
      splice rw n (path ++ [ch_nul])) ->
    wfc_out x path flags n l afs_ok (l1 ++ q' :: l2)
| wfc_unsent l1 q l2 s rw p' : node_of x l l1 q l2 -> p_mapped (ps_p q) = Some (s, rw) -> n + length path + 1 <= length rw ->
    p_st (ps_p q) = proc_st_avail_ -> unsent proc_cmd_write_fsync_close_ (ps_p (wfc_filled path flags n q s rw)) p' ->
    wfc_out x path flags n l afs_fail (l1 ++ with_ps_p p' (wfc_filled path flags n q s rw) :: l2)
| wfc_later l1 q l2 s rw : node_of x l l1 q l2 -> p_mapped (ps_p q) = Some (s, rw) -> n + length path + 1 <= length rw ->
    p_st (ps_p q) = proc_st_init_pend_ ->
    wfc_out x path flags n l afs_ok (l1 ++ with_ps_cmd_after_init proc_cmd_write_fsync_close_
      (with_ps_is_avail false (wfc_filled path flags n q s rw)) :: l2)
| wfc_busy l1 q l2 s rw : node_of x l l1 q l2 -> p_mapped (ps_p q) = Some (s, rw) -> n + length path + 1 <= length rw ->
    p_st (ps_p q) = proc_st_busy_ \/ p_st (ps_p q) = proc_st_dead_ ->
    wfc_out x path flags n l afs_fail (l1 ++ wfc_filled path flags n q s rw :: l2).

(** The length is a [size_t] whose sum with that of the path is one too. *)
Definition size_ok (path : list char) (n : Z) : Prop := (0 <= n /\ n + Z.of_nat (length path + 1) < 2 ^ 64)%Z.

Lemma size_add_ok path n : size_ok path n ->
  size_add n (Z.of_nat (length path + 1)) = Z.of_nat (Z.to_nat n + length path + 1).
Proof. intros [H1 H2]. unfold size_add. rewrite Z.mod_small by lia. lia. Qed.

Lemma afs_wfc_wp x path flags n c w : awf c -> pintr w < fuel -> size_ok path n ->
  wp (afs_write_fsync_close E fuel x path flags n)
    (fun r s => kept w s /\ wfc_out x path flags (Z.to_nat n) (a_ps c) r (a_ps s.1)) (c, w).
Proof.
  intros Hwf Hf Hn. unfold afs_write_fsync_close.
  destruct (Z.eqb_spec x (-1)) as [->|Hx]; [failed_with; apply wfc_bad_fd; auto|]. wp_step.
  apply ps_get_wp; [intros Hall; failed_with; apply wfc_bad_fd; auto|].
  intros l1 q l2 Hc Hl1 Hq. assert (node_of x (a_ps c) l1 q l2) as Hnode by done. wp_step.
  pose proof (awf_at _ _ _ _ Hwf Hc) as Hat. rewrite (get_ps_at _ _ _ _ _ _ _ Hat).
  destruct (p_mapped (ps_p q)) as [[s rw]|] eqn:Hm; [|failed_with; by eapply wfc_null].
  pose proof (awf_pwf _ _ _ _ Hwf Hc) as Hp. destruct (pwf_mapped _ _ _ Hp Hm) as [Hst Hrw].
  rewrite size_add_ok by done. destruct (Z.leb_spec (Z.of_nat (Z.to_nat n + length path + 1)) (Z.of_nat (p_rw_buf_len (ps_p q)))) as [Hfit|Hfit];
    [|failed_with; eapply wfc_no_fit; [done|exact Hm|lia]].
  wp_step. set (m := Z.to_nat n) in *. assert (m + length path + 1 <= length rw) as Hle by lia.
  assert (n + Z.of_nat (length (path ++ [ch_nul])) <= Z.of_nat (length rw))%Z as Hin
    by (rewrite length_app; cbn; destruct Hn; subst m; lia).
  eapply on_ps_at; [exact Hat|]. rewrite (rw_put_wp _ _ _ s rw) by done. cbn [fst snd].
  change (with_ps_p _ q) with (wfc_filled path flags m q s rw). set (q1 := wfc_filled path flags m q s rw).
  assert (awf (with_a_ps (l1 ++ q1 :: l2) c)) as Hwf1
    by (eapply (stored_awf c l1 q l2); [done|done|exact Hm|apply splice_length; rewrite length_app; cbn; lia]).
  assert (at_node (with_a_ps (l1 ++ q1 :: l2) c) (ps_id q) l1 q1 l2) as Hat1 by (by eapply at_change).
  destruct (p_st (ps_p q)) eqn:Hs; [done| | |failed_with; eapply (wfc_busy _ _ _ _ _ l1 q l2); eauto..].
  - rewrite wp_bind, (upd_ps_at _ _ _ _ _ _ _ _ Hat1), wp_bind, (upd_ps_at _ (ps_id q) l1 (with_ps_is_avail false q1) l2) by (by eapply at_change).
    split; [split; [|done]|by eapply (wfc_later _ _ _ _ _ l1 q l2)].
    eapply (awf_change _ l1 q1 l2 (with_ps_cmd_after_init _ (with_ps_is_avail false q1)));
      [exact Hwf1|done|done| |by left|reflexivity]. by eapply (awf_pwf _ l1 q1 l2).
  - wp_step. eapply (on_send_wp _ l1 q1 l2); [exact Hwf1|done|done|]. intros r c' w' q' Hat' Hwf' Hw' Hr Hok Hun. wp_step.
    rewrite (get_ps_at c' (ps_id q) l1 q' l2) by exact Hat'. wp_step. rewrite upd_ctx_wp. wp_step.
    split; [split; [by apply awf_fail|done]|]. cbn [with_a_fail a_ps fst]. rewrite (at_ps _ _ _ _ _ Hat').
    destruct Hr as [-> | ->]; [|destruct (Hun ltac:(done)) as (p' & -> & Hp'); by eapply (wfc_unsent _ _ _ _ _ l1 q l2)]. destruct (Hok eq_refl) as (Hfd & Hbusy & sh & rw' & G1 & G2).
    cbn in G1. injection G1 as <- <-. eapply (wfc_sent _ _ _ _ _ l1 q l2); try done. by rewrite Hfd.
Qed.

(** A node that [afs_open] or [afs_mkdir] prepared: the path is in its buffer, and
    the command has been sent or waits for the worker to start. *)
Definition prepared (path : list char) (f : proc_shared_ -> proc_shared_) (cmd : proc_cmd_) (q : ps_) : Prop :=
  exists sh rw, p_mapped (ps_p q) = Some (sh, rw) /\ take (S (length path)) rw = path ++ [ch_nul] /\
    ((p_st (ps_p q) = proc_st_busy_ /\ exists sh0, sh = with_cmd cmd (f sh0)) \/
     (p_st (ps_p q) = proc_st_init_pend_ /\ ps_cmd_after_init q = cmd /\ ps_is_avail q = false /\ exists sh0, sh = f sh0)).

Lemma open_like_wp path f cmd line null_line c w : awf c -> fds_left (a_ps c) -> pintr w < fuel -> length (p_evs junk) = proc_evs_maxlen_ ->
  wp (open_like_ E fuel junk path f (proc_send_cmd_ E fuel cmd) cmd line null_line) (fun r s => kept w s /\
    (r.1 = afs_ok -> exists x q, r.2 = Some x /\ (0 <= x)%Z /\ (forall q, q ∈ a_ps c -> ps_fd q <> x) /\
       q ∈ a_ps s.1 /\ ps_fd q = x /\ prepared path f cmd q)) (c, w).
Proof.
  intros Hwf Hleft Hf Hj. unfold open_like_. wp_step. eapply wp_mono; [by apply maybe_alloc_wp|].
  intros [[id was]|] [c1 w1] (Hwf1 & Hw1 & _ & H1); cbn [fst snd] in *; [|by wp_step].
  destruct H1 as (l1 & q & l2 & Hat & Hx & Hst & Hwas & _ & Hnew). wp_step. rewrite (get_ps_at _ _ _ _ _ _ _ Hat).
  pose proof Hat as [_ Hc Hid]. subst id. destruct (decide _) as [_|Hfit].
  { wp_step. rewrite afs_fail_wp. wp_step. split; [|done]. split; [by apply awf_fail|done]. }
  pose proof (awf_pwf _ _ _ _ Hwf1 Hc) as Hp. assert (exists s rw, p_mapped (ps_p q) = Some (s, rw)) as (s & rw & Hm).
  { destruct Hp as [_ _ Hm]. destruct (p_st (ps_p q)); [done|..]; destruct Hm as (? & ? & ? & _); eauto. }
  destruct (pwf_mapped _ _ _ Hp Hm) as [_ Hrw]. rewrite Hm. wp_step.
  assert (0 + Z.of_nat (length (path ++ [ch_nul])) <= Z.of_nat (length rw))%Z as Hin by (rewrite length_app; cbn; lia).
  assert (take (S (length path)) (splice rw 0 (path ++ [ch_nul])) = path ++ [ch_nul]) as Htake.
  { unfold splice. rewrite take_0, app_nil_l. apply take_app_length'. rewrite length_app. cbn. lia. }
  eapply on_ps_at; [exact Hat|]. rewrite (rw_put_wp _ _ _ s rw) by done. cbn [fst snd].
  change (Z.to_nat 0) with 0. set (q1 := with_ps_p _ q). assert (awf (with_a_ps (l1 ++ q1 :: l2) c1)) as Hwf2
    by (eapply (stored_awf c1 l1 q l2); [done|done|exact Hm|apply splice_length; lia]).
  assert (at_node (with_a_ps (l1 ++ q1 :: l2) c1) (ps_id q) l1 q1 l2) as Hat1 by (by eapply at_change).
  destruct was; wp_step.
  - eapply (on_send_wp _ l1 q1 l2); [exact Hwf2|done|lia|]. intros r c' w' q' Hat' Hwf' Hw' _ Hok _. wp_step.
    rewrite (get_ps_at c' (ps_id q) l1 q' l2) by exact Hat'. wp_step. rewrite upd_ctx_wp. wp_step.
    split; [split; [by apply awf_fail|cbn; lia]|]. cbn [fst snd]. intros ->.
    destruct (Hok eq_refl) as (Hfd & Hbusy & sh & rw' & G1 & G2). exists (ps_fd q'), q'. rewrite Hfd. cbn in G1. injection G1 as <- <-.
    split; [done|]. split; [done|]. split; [done|]. split; [cbn; rewrite (at_ps _ _ _ _ _ Hat'); apply in_middle; auto|].
    split; [done|]. eexists _, _. split; [exact G2|]. split; [exact Htake|]. left. split; [done|]. by exists s.
  - rewrite (upd_ps_at _ _ _ _ _ _ _ _ Hat1). wp_step.
    rewrite (upd_ps_at _ (ps_id q) l1 (with_ps_is_avail false q1) l2) by (by eapply at_change). wp_step.
    split; [split; [|done]|].
    + eapply (awf_change _ l1 q1 l2 (with_ps_cmd_after_init _ (with_ps_is_avail false q1)));
        [exact Hwf2|done|done| |by left|reflexivity]. by eapply (awf_pwf _ l1 q1 l2).
    + intros _. exists (ps_fd q), (with_ps_cmd_after_init cmd (with_ps_is_avail false q1)). do 3 (split; [done|]).
      split; [cbn; apply in_middle; auto|]. split; [done|]. eexists _, _. split; [done|]. split; [exact Htake|]. right.
      destruct (Hwas eq_refl) as (_ & Hi & _). split; [done|]. split; [done|]. split; [done|]. by exists s.
Qed.

Lemma afs_reserve_wp c w : awf c -> fds_left (a_ps c) -> pintr w < fuel -> length (p_evs junk) = proc_evs_maxlen_ ->
  wp (afs_reserve E fuel junk) (fun r s => kept w s /\ match r with
    | (afs_ok, Some x) => (0 <= x)%Z /\ (forall q, q ∈ a_ps c -> ps_fd q <> x) /\ exists q, q ∈ a_ps s.1 /\ ps_fd q = x
    | (r, o) => r = afs_fail_alloc /\ o = None /\ a_ps s.1 `sublist_of` a_ps c
    end) (c, w).
Proof.
  intros Hwf Hleft Hf Hj. unfold afs_reserve. wp_step. eapply wp_mono; [by apply maybe_alloc_wp|].
  intros [[id was]|] [c1 w1] (Hwf1 & Hw1 & _ & H1); cbn [fst snd] in *; wp_step; [|by split].
  destruct H1 as (l1 & q & l2 & Hat & Hx & _ & _ & _ & Hnew). rewrite (get_ps_at _ _ _ _ _ _ _ Hat). wp_step.
  split; [done|]. split; [done|]. split; [done|]. exists q. split; [|done]. cbn. destruct Hat as [_ -> _]. apply in_middle. auto.
Qed.

Lemma each_ps_wp m c w ids r : (forall p w, pwf p -> pintr w < fuel -> wp m (fun _ s => pwf s.1 /\ pintr s.2 <= pintr w) (p, w)) ->
  awf c -> pintr w < fuel -> (forall id, id ∈ ids -> id ∈ ps_id <$> a_ps c) ->
  wp (each_ps_ m ids r) (fun _ s => kept w s /\ a_evs s.1 = a_evs c /\ a_is_stop_req s.1 = a_is_stop_req c) (c, w).
Proof.
  intros Hm. revert c w r. induction ids as [|id ids IH]; intros c w r Hwf Hf Hin; cbn [each_ps_]; [by wp_step|].
  assert (id ∈ ps_id <$> a_ps c) as Hid by (apply Hin; by left). apply list_elem_of_fmap in Hid as (q & -> & Hq).
  apply list_elem_of_split in Hq as (l1 & l2 & Hc). pose proof (awf_at _ _ _ _ Hwf Hc) as Hat. wp_step.
  eapply on_ps_at; [exact Hat|]. eapply wp_mono; [apply Hm; [by eapply awf_pwf|done]|].
  intros r1 [p w1] [Hp Hw]. cbn [fst snd] in *. set (c1 := with_a_ps _ c).
  assert (awf c1) as Hwf1 by (by eapply (awf_change c l1 q l2 (with_ps_p p q)); [..|left|]).
  assert (at_node c1 (ps_id q) l1 (with_ps_p p q) l2) as Hat1 by (by eapply at_change).
  assert (forall i, i ∈ ids -> i ∈ ps_id <$> a_ps c1) as Hin1.
  { intros i Hi. specialize (Hin i ltac:(by right)). rewrite Hc in Hin. cbn. by rewrite fmap_app, fmap_cons in *. }
  assert (forall f r, wp (each_ps_ m ids r) (fun _ s => kept w s /\ a_evs s.1 = a_evs c /\ a_is_stop_req s.1 = a_is_stop_req c)
    (with_a_fail f c1, w1)) as Hrest.
  { intros f r'. eapply wp_mono; [apply IH; [by apply awf_fail|lia|exact Hin1]|]. intros _ s [[H1 H2] H3]. split; [|done].
    split; [done|lia]. }
  destruct (bool_decide _); cbn [negb].
  - specialize (Hrest (a_fail c1)). by destruct c1.
  - wp_step. rewrite (get_ps_at c1 (ps_id q) l1 (with_ps_p p q) l2) by done. wp_step. rewrite upd_ctx_wp. apply Hrest.
Qed.

Lemma afs_stop_prep_wp c w : awf c -> pintr w < fuel ->
  wp (afs_stop_prep E fuel) (fun _ s => kept w s /\ a_evs s.1 = a_evs c /\ a_is_stop_req s.1 = true) (c, w).
Proof.
  intros Hwf Hf. unfold afs_stop_prep. wp_step. rewrite get_ctx_wp. destruct (a_is_stop_req c) eqn:Hs; cbn [negb]; wp_step.
  - rewrite afs_fail_wp. wp_step. split; [split; [by apply awf_fail|done]|done].
  - rewrite upd_ctx_wp. apply (each_ps_wp _ (with_a_is_stop_req true c)); [|by destruct Hwf as [? []]|done|done].
    intros p w' Hp Hf'. eapply wp_mono; [by apply proc_stop_prep_wp|]. intros r s (H1 & H2 & _). done.
Qed.

Lemma afs_stop_wp c w : awf c -> pintr w < fuel ->
  wp (afs_stop E) (fun r s => kept w s /\ a_ps s.1 = [] /\ a_pfds s.1 = None /\ a_evs s.1 = None /\
    a_is_stop_req s.1 = a_is_stop_req c) (c, w).
Proof.
  intros Hwf Hf. unfold afs_stop. wp_step. rewrite get_ctx_wp. wp_step. eapply wp_mono.
  { apply (each_ps_wp _ c); [|done|done|done]. intros p w' Hp _. unfold proc_stop_. wp_step. rewrite get_proc_wp.
    destruct (negb _); wp_step; [rewrite proc_fail_wp; wp_step|]; (split; [|done]); [|done].
    eapply pwf_but_fail; [by eexists|exact Hp]. }
  intros r [c1 w1] [[[Hl _] Hw] [_ Hs]]. cbn [fst snd] in *. repeat (wp_step; rewrite ?upd_ctx_wp).
  split; [|done]. split; [|done]. split; [|split; cbn; try done; lia].
  cbn. eapply lwf_sublist; [|exact Hl]. apply sublist_nil_l.
Qed.

(** *** Descriptors to poll *)
Definition poll_entry (p : proc_) : pollfd := {| pfd_fd := p_fd p; pfd_events := POLLIN; pfd_revents := 0 |}.
Definition live (q : ps_) : Prop := p_fd (ps_p q) <> (-1)%Z.
#[export] Instance live_dec q : Decision (live q).
Proof. unfold live. apply _. Defined.

Lemma pollfds_loop_wp l : forall c w a, a_pfds c = Some a -> length a = a_pfds_maxlen c ->
  a_pfds_len c + length l <= a_pfds_maxlen c ->
  wp (pollfds_loop_ l) (fun _ s => exists a' n, s = (with_a_pfds_len n (with_a_pfds (Some a') c), w) /\ length a' = length a /\
    n <= length a' /\
    take n a' = take (a_pfds_len c) a ++ (poll_entry ∘ ps_p <$> filter live l)) (c, w).
Proof.
  induction l as [|q l IH]; intros c w a Ha Hlen Hfit; cbn [pollfds_loop_].
  { wp_step. exists a, (a_pfds_len c). split; [|split; [done|split; [lia|by rewrite app_nil_r]]]. destruct c; cbn in *. by rewrite Ha. }
  cbn [length] in Hfit. wp_step. rewrite get_ctx_wp, decide_False by lia. rewrite Ha.
  destruct (lookup_lt_is_Some_2 a (a_pfds_len c)) as [old Ho]; [lia|]. rewrite Ho. unfold proc_fd_.
  destruct (Z.eqb_spec (p_fd (ps_p q)) (-1)) as [Hx|Hx]; cbn [negb]; wp_step; rewrite upd_ctx_wp; wp_step.
  - eapply wp_mono; [apply IH; [done|by rewrite length_insert|cbn; lia]|].
    intros _ s (a' & n & -> & Hl' & Hn & Ht). exists a', n. split; [done|]. rewrite length_insert in Hl'. split; [done|]. split; [done|].
    rewrite Ht. rewrite filter_cons_False by (by intros []). cbn. by rewrite take_insert_ge by done.
  - rewrite upd_ctx_wp. eapply wp_mono; [apply IH; [done|by rewrite length_insert|cbn; lia]|].
    intros _ s (a' & n & -> & Hl' & Hn & Ht). exists a', n. split; [done|]. rewrite length_insert in Hl'. split; [done|]. split; [done|].
    rewrite Ht. rewrite filter_cons_True by done. cbn [with_a_pfds with_a_pfds_len a_pfds_len fmap list_fmap].
    rewrite take_insert_snoc by lia. by rewrite <- app_assoc.
Qed.

Lemma afs_pollfds_wp c w : awf c ->
  wp (afs_pollfds) (fun r s => kept w s /\ a_evs s.1 = a_evs c /\ a_is_stop_req s.1 = a_is_stop_req c /\ a_ps s.1 = a_ps c /\
    r = poll_entry ∘ ps_p <$> filter live (a_ps c)) (c, w).
Proof.
  intros [Hl Ha]. pose proof Ha as [A1 A2 A3 A4 A5 A6]. unfold afs_pollfds. wp_step. rewrite get_ctx_wp. wp_step. rewrite upd_ctx_wp. wp_step.
  destruct (a_pfds c) as [a|] eqn:Hp; cbn [awf_arr] in A1.
  - destruct A1 as [A1 A1']. eapply wp_mono; [apply (pollfds_loop_wp _ _ _ a); [done|done|cbn; lia]|].
    intros _ s (a' & n & -> & Hl' & Hn & Ht). wp_step. rewrite get_ctx_wp. wp_step. cbn in Ht. cbn [a_pfds_len a_pfds with_a_pfds_len with_a_pfds default].
    cbn. rewrite Ht. split; [|done]. split; [|done]. split; [done|]. split; cbn; try done; [split; [congruence|done]|lia].
  - assert (a_ps c = []) as Hnil by (destruct (a_ps c); [done|cbn in A5; lia]). rewrite Hnil. cbn [pollfds_loop_]. wp_step.
    rewrite get_ctx_wp. wp_step. cbn. rewrite Hp. split; [|done]. split; [|done]. split; [done|]. split; cbn; rewrite ?Hp; try done; lia.
Qed.

(** The workers that exist are those with a descriptor to poll. *)
Lemma live_iff p : pwf p -> p_fd p <> (-1)%Z <-> p_st p <> proc_st_uninit_.
Proof. intros [_ _ Hm]. destruct (p_st p); destruct_and?; try destruct Hm as (? & ? & ? & ? & ? & ?); naive_solver. Qed.
End props.
