(* ===== verification/AfsLife.v ===== *)
(** * The asynchronous file system over its life

    The calls of a client as a transition system, with steps in which a worker,
    or the client through the buffer it was given, writes into shared memory.
    Every reachable state satisfies the invariant, and in every reachable state
    every call returns; what the calls do; and two defects. *)

From stdpp Require Import base list numbers strings option.
From S2P Require Import Prelude AfsChild AfsProc AfsProcProps Afs AfsProps.

Inductive afs_call :=
| call_open (path : list char) (flags : Z)
| call_close (x : Z)
| call_fsync (x : Z)
| call_write (x : Z) (len : nat)
| call_readall (x : Z)
| call_mkdir (path : list char)
| call_reserve
| call_write_fsync_close (x : Z) (path : list char) (flags : Z) (len : Z)
| call_stop_prep
| call_stop
| call_pollfds
| call_update (fds : list pollfd)
| call_memory (id : nat) (s : proc_shared_) (rw : list char). (** not a call: a store by a worker or the client *)

Section life.
Context {W : Type} (E : os_penv W) (fuel : nat) (junk : proc_).

(** New contents of the mapping of a node that has one. *)
Definition memory (id : nat) (s : proc_shared_) (rw : list char) : CM (afs_ctx * W) unit :=
  upd_ctx (fun c => with_a_ps (set_ps id (fun q =>
    match p_mapped (ps_p q) with
    | Some (_, old) => if decide (length rw = length old) then stored q s rw else q
    | None => q
    end) (a_ps c)) c).

Definition run_call (k : afs_call) : CM (afs_ctx * W) unit :=
  match k with
  | call_open path flags => afs_open E fuel junk path flags ;; mret tt
  | call_close x => afs_close E fuel x ;; mret tt
  | call_fsync x => afs_fsync E fuel x ;; mret tt
  | call_write x len => afs_write E fuel x len ;; mret tt
  | call_readall x => afs_readall E fuel x ;; mret tt
  | call_mkdir path => afs_mkdir E fuel junk path ;; mret tt
  | call_reserve => afs_reserve E fuel junk ;; mret tt
  | call_write_fsync_close x path flags len => afs_write_fsync_close E fuel x path flags len ;; mret tt
  | call_stop_prep => afs_stop_prep E fuel ;; mret tt
  | call_stop => afs_stop E ;; mret tt
  | call_pollfds => afs_pollfds ;; mret tt
  | call_update fds => afs_update E fuel fds
  | call_memory id s rw => memory id s rw
  end.

(** The rules for the client: once a stop is requested, update only when some
    worker was ever allocated (and not after [afs_stop]); ask for a descriptor
    only while none in use is [INT_MAX]; and a length to write is a [size_t]
    that does not wrap around when the length of the path is added. *)
Definition callable (k : afs_call) (c : afs_ctx) : Prop :=
  match k with
  | call_open _ _ | call_mkdir _ | call_reserve => fds_left (a_ps c)
  | call_write_fsync_close _ path _ len => size_ok path len
  | call_update _ => a_is_stop_req c = true -> a_evs c <> None
  | _ => True
  end.

Inductive reach (w : W) : afs_ctx * W -> Prop :=
| reach_init c s : afs_init (c, w) = Ret (tt, s) -> reach w s
| reach_call k s s' : reach w s -> callable k s.1 -> run_call k s = Ret (tt, s') -> reach w s'.
End life.

Section safe.
Context {W : Type} (E : os_penv W) `{!ParentLaws E} (fuel : nat) (junk : proc_).
Implicit Types (c : afs_ctx) (w : W).

Lemma memory_awf id s rw c w : awf c -> wp (memory id s rw) (fun _ => kept E w) (c, w).
Proof.
  intros Hwf. unfold memory. rewrite upd_ctx_wp. split; [|done]. cbn [fst].
  destruct (decide (Forall (fun r => ps_id r <> id) (a_ps c))) as [Hall|Hex].
  { rewrite set_ps_other by done. by destruct c. }
  apply not_Forall_Exists, Exists_exists in Hex as (q & Hq & Hid); [|intros ?; apply _].
  apply dec_stable in Hid as <-. apply list_elem_of_In, list_elem_of_split in Hq as (l1 & l2 & Hc).
  assert (NoDup (ps_id <$> l1 ++ q :: l2)) as Hnd by (rewrite <- Hc; apply Hwf).
  rewrite Hc, set_ps_middle by done. destruct (p_mapped (ps_p q)) as [[s0 old]|] eqn:Hm.
  2:{ rewrite <- Hc. by destruct c. }
  case_decide as Hlen; [by eapply stored_awf|]. rewrite <- Hc. by destruct c.
Qed.

(** Every call keeps the invariant. *)
Lemma run_call_wp k c w : awf c -> pintr w < fuel -> length (p_evs junk) = proc_evs_maxlen_ -> callable k c ->
  wp (run_call E fuel junk k) (fun _ => kept E w) (c, w).
Proof.
  intros Hwf Hf Hj Hk.
  assert (forall A (m : CM (afs_ctx * W) A) (P : A -> afs_ctx * W -> Prop), wp m P (c, w) ->
    (forall a s, P a s -> kept E w s) -> wp (m ;; mret tt) (fun _ => kept E w) (c, w)) as Hret.
  { intros A m P Hm HP. rewrite wp_bind. eapply wp_mono; [exact Hm|]. intros a s Hs. rewrite wp_ret. eauto. }
  destruct k; cbn [run_call callable] in *; try (eapply Hret; [clear Hret|]).
  - by apply (open_like_wp E fuel junk path (with_open_flags flags)). - by intros a s [? _]. - by apply afs_close_wp. - done. - by apply afs_fsync_wp. - done. - by apply afs_write_wp. - done.
  - by apply afs_readall_wp. - done. - by apply (open_like_wp E fuel junk path (fun s => s)). - by intros a s [? _]. - by apply afs_reserve_wp. - by intros a s [? _].
  - by apply afs_wfc_wp. - by intros a s [? _]. - by apply afs_stop_prep_wp. - by intros a s [? _]. - by eapply afs_stop_wp. - by intros a s [? _].
  - by apply afs_pollfds_wp. - by intros a s [? _].
  - eapply wp_mono; [by apply afs_update_wp|]. intros _ s (os & H1 & H2 & _). by split.
  - by apply memory_awf.
Qed.

(** The context after [afs_init]. *)
Definition ctx_init c : afs_ctx := {| a_fail := a_fail c; a_is_stop_req := false; a_ps := []; a_pfds := None;
  a_pfds_maxlen := 0; a_pfds_len := 0; a_evs := None; a_evs_maxlen := 0; a_evs_len := 0; a_next := a_next c |}.

Lemma afs_init_run c w : afs_init (c, w) = Ret (tt, (ctx_init c, w)).
Proof. by destruct c. Qed.

Lemma ctx_init_awf c : awf (ctx_init c).
Proof.
  split; [split; cbn; [by apply list.NoDup_nil|by intros ? ?%not_elem_of_nil..|by intros ? ? ?%not_elem_of_nil]|by split; cbn; try lia].
Qed.

Lemma reach_awf w s : pintr w < fuel -> length (p_evs junk) = proc_evs_maxlen_ -> reach E fuel junk w s ->
  awf s.1 /\ pintr s.2 <= pintr w.
Proof.
  intros Hf Hj. induction 1 as [c s Hs|k [c w1] s' _ [IH1 IH2] Hk Hr].
  - rewrite afs_init_run in Hs. injection Hs as <-. split; [apply ctx_init_awf|done].
  - cbn [fst snd] in *. destruct (wp_Ret _ _ _ (run_call_wp k c w1 IH1 ltac:(lia) Hj Hk)) as ([] & s1 & Hs1 & H1 & H2).
    rewrite Hr in Hs1. simplify_eq. split; [done|lia].
Qed.
End safe.

(** ** Claims *)

(** C9. Safety over the whole life: in every state that calls of the client and
    stores into the shared memory can reach from [afs_init], whatever the memory
    held before and however often signals interrupt, the invariant holds -
    distinct nodes, workers with their mapping and socket, distinct descriptors,
    arrays large enough for the nodes - and every call that may be made returns:
    no dangling or NULL pointer, no write past an array, no panic, no endless
    loop. *)
Theorem afs_calls_safe {W} (E : os_penv W) `{!ParentLaws E} fuel junk w s k :
  pintr w < fuel -> length (p_evs junk) = proc_evs_maxlen_ -> reach E fuel junk w s -> callable k s.1 ->
  awf s.1 /\ exists s', run_call E fuel junk k s = Ret (tt, s') /\ awf s'.1.
Proof.
  intros Hf Hj Hr Hk. destruct (reach_awf E fuel junk w s Hf Hj Hr) as [H1 H2]. split; [done|]. destruct s as [c w1]. cbn [fst snd] in *.
  destruct (wp_Ret _ _ _ (run_call_wp E fuel junk k c w1 H1 ltac:(lia) Hj Hk)) as ([] & s1 & Hs1 & H3 & _). eauto.
Qed.

(** Memory as [malloc] left it, and a context before [afs_init]. *)
Definition junk0 : proc_ := worker proc_st_busy_ true proc_cmd_exit_ proc_res_none_.
Definition ctx0 : afs_ctx := {| a_fail := fail0; a_is_stop_req := true; a_ps := []; a_pfds := None; a_pfds_maxlen := 77;
  a_pfds_len := 5; a_evs := None; a_evs_maxlen := 3; a_evs_len := 9; a_next := 0 |}.
Definition kernel0 : kernel := {| k_intr := 2; k_errno := 0; k_broken := false |}.

(** The state after a list of calls. *)
Fixpoint run_calls {W} (E : os_penv W) (fuel : nat) (junk : proc_) (ks : list afs_call) (s : afs_ctx * W) : option (afs_ctx * W) :=
  match ks with
  | [] => Some s
  | k :: ks => match run_call E fuel junk k s with Ret (_, s) => run_calls E fuel junk ks s | _ => None end
  end.

Definition start : afs_ctx * kernel := match afs_init (ctx0, kernel0) with Ret (_, s) => s | _ => (ctx0, kernel0) end.

Lemma afs_calls_safe_witness :
  exists s s', run_call kernel_env 3 junk0 (call_reserve) start = Ret (tt, s) /\
    run_call kernel_env 3 junk0 (call_update []) s = Ret (tt, s') /\ awf s'.1.
Proof.
  destruct (afs_calls_safe kernel_env 3 junk0 kernel0 start call_reserve) as [_ (s & Hs & _)]; [cbn; lia|done| |by intros q ?%not_elem_of_nil|].
  { eapply (reach_init _ _ _ _ ctx0). reflexivity. }
  destruct (afs_calls_safe kernel_env 3 junk0 kernel0 s (call_update [])) as [_ (s' & Hs' & H)]; [cbn; lia|done| | |].
  { eapply (reach_call _ _ _ _ call_reserve start); [|by intros q ?%not_elem_of_nil|exact Hs]. eapply (reach_init _ _ _ _ ctx0). reflexivity. }
  { assert (match run_call kernel_env 3 junk0 call_reserve start with Ret (_, s) => a_is_stop_req s.1 | _ => true end = false)
      as Hno by (vm_compute; reflexivity).
    rewrite Hs in Hno. cbn [callable]. congruence. }
  eauto.
Defined.

(** C10. What an update reports: the events are, worker by worker in the order of
    the list, what the update of that worker stands for, each with the
    descriptor the client knows - the result of a command, or the failure of a
    command that waited for the worker to start, at most one per worker - and
    after them [afs_ev_stop] exactly when a stop was requested and no worker is
    left.  Starting and stopping workers is not reported. *)
Theorem afs_update_events {W} (E : os_penv W) `{!ParentLaws E} fuel fds c w :
  awf c -> pintr w < fuel -> (a_is_stop_req c = true -> a_evs c <> None) ->
  exists c' w' os, afs_update E fuel fds (c, w) = Ret (tt, (c', w')) /\ awf c' /\ Forall2 (node_out fds) (a_ps c) os /\
    evs_seen c' = concat os ++ if a_is_stop_req c && all_stopped (a_ps c') then [((-1)%Z, afs_ev_stop)] else [].
Proof.
  intros Hwf Hf Hs. destruct (wp_Ret _ _ _ (afs_update_wp E fuel fds c w Hwf Hf Hs)) as
    ([] & [c' w'] & Hr & os & H1 & _ & _ & _ & H2 & H3). by exists c', w', os.
Qed.

(** Two workers in use: one has written, the other's start has failed while a
    file waited to be opened. *)
Definition node (id : nat) (x : Z) (p : proc_) (after : proc_cmd_) : ps_ :=
  {| ps_id := id; ps_fd := x; ps_p := p; ps_cmd_after_init := after; ps_is_avail := true |}.
Definition ctx_of (l : list ps_) (stop : bool) : afs_ctx := {| a_fail := fail0; a_is_stop_req := stop; a_ps := l;
  a_pfds := Some (replicate 4 zero_pfd); a_pfds_maxlen := 4; a_pfds_len := 0;
  a_evs := Some (replicate 12 zero_ev); a_evs_maxlen := 12; a_evs_len := 0; a_next := 2 |}.
Definition two : list ps_ := [node 0 3 (worker proc_st_busy_ false proc_cmd_write_ proc_res_ok_) proc_cmd_none_;
  node 1 7 (with_p_fd 5%Z (worker proc_st_init_pend_ false proc_cmd_none_ proc_res_fail_)) proc_cmd_open_].
Definition ready (x : Z) : pollfd := {| pfd_fd := x; pfd_events := POLLIN; pfd_revents := POLLIN |}.

(** Up to four workers with distinct descriptors, or none, fit that context. *)
Lemma ctx_of_awf l stop : length l <= 4 -> NoDup (ps_id <$> l) -> Forall (fun q => ps_id q < 2 /\ pwf (ps_p q) /\ (-1 <= ps_fd q)%Z) l ->
  (forall q r, q ∈ l -> r ∈ l -> ps_fd q = ps_fd r -> ps_fd q <> (-1)%Z -> ps_id q = ps_id r) -> awf (ctx_of l stop).
Proof.
  intros Hlen Hnd Hall Huniq. rewrite list.Forall_forall in Hall.
  split; [|split; cbn; try done; unfold proc_evs_maxlen_; lia]. split; [done|intros q Hq; apply (Hall q Hq)..|done].
Defined.

Lemma two_awf stop : awf (ctx_of two stop).
Proof.
  apply ctx_of_awf; [cbn; lia|by apply (bool_decide_unpack _); vm_compute| |].
  - constructor; [|constructor; [|constructor]]; (split; [cbn; lia|]; split; [|cbn; lia]); [by apply worker_pwf|].
    destruct (worker_pwf proc_st_init_pend_ false proc_cmd_none_ proc_res_fail_) as [H1 H2 _]; [done|].
    split; [done|done|]. cbn. eexists _, _. by split.
  - intros q r Hq Hr. repeat (apply elem_of_cons in Hq as [->|Hq]; [repeat (apply elem_of_cons in Hr as [->|Hr]; [done|]); by apply not_elem_of_nil in Hr|]).
    by apply not_elem_of_nil in Hq.
Defined.

Lemma two_left : fds_left two.
Proof. intros q Hq. repeat (apply elem_of_cons in Hq as [->|Hq]; [done|]). by apply not_elem_of_nil in Hq. Defined.

Lemma afs_update_events_witness :
  exists c' w', afs_update kernel_env 3 [ready 4; ready 5] (ctx_of two false, kernel0) = Ret (tt, (c', w')) /\ awf c' /\
    evs_seen c' = [(3%Z, afs_ev_write); (7%Z, afs_ev_open_fail)].
Proof.
  destruct (afs_update_events kernel_env 3 [ready 4; ready 5] (ctx_of two false) kernel0) as (c' & w' & os & H1 & H2 & H3 & H4);
    [apply two_awf|cbn; lia|done|].
  exists c', w'. split; [done|]. split; [done|]. rewrite H4. cbn [andb a_is_stop_req ctx_of]. rewrite app_nil_r.
  inversion H3 as [|q1 o1 l1 os1 Ho1 H3' Hq1 Ho]; subst. inversion H3' as [|q2 o2 l2 os2 Ho2 H3'' Hq2 Ho]; subst.
  inversion H3''; subst. vm_compute in Ho1, Ho2. by subst.
Defined.

(** C23. Opening a file: when [afs_open] reports success the descriptor it gives is
    not negative and no worker in use had it, a worker of the list has it now,
    the path is in that worker's buffer with its NUL and the flags in the shared
    record, and the command to open has been sent - or, when the worker is still
    starting, waits in [cmd_after_init], and the worker is not available. *)
Theorem afs_open_prepares {W} (E : os_penv W) `{!ParentLaws E} fuel junk path flags c w :
  awf c -> fds_left (a_ps c) -> pintr w < fuel -> length (p_evs junk) = proc_evs_maxlen_ ->
  exists r o c' w', afs_open E fuel junk path flags (c, w) = Ret ((r, o), (c', w')) /\ awf c' /\
    (r = afs_ok -> exists x q, o = Some x /\ (0 <= x)%Z /\ (forall q, q ∈ a_ps c -> ps_fd q <> x) /\
       q ∈ a_ps c' /\ ps_fd q = x /\ prepared path (with_open_flags flags) proc_cmd_open_ q).
Proof.
  intros Hwf Hleft Hf Hj. destruct (wp_Ret _ _ _ (open_like_wp E fuel junk path (with_open_flags flags) proc_cmd_open_ 361 368 c w Hwf Hleft Hf Hj))
    as ([r o] & [c' w'] & Hr & [H1 _] & H2). exists r, o, c', w'. by split.
Qed.

Lemma afs_open_prepares_witness :
  exists r o c' w', afs_open kernel_env 3 junk0 (lit "name") 577 (ctx_of two false, kernel0) = Ret ((r, o), (c', w')) /\ awf c' /\
    (r = afs_ok -> exists x q, o = Some x /\ (0 <= x)%Z /\ (forall q, q ∈ two -> ps_fd q <> x) /\
       q ∈ a_ps c' /\ ps_fd q = x /\ prepared (lit "name") (with_open_flags 577) proc_cmd_open_ q).
Proof. apply (afs_open_prepares kernel_env 3 junk0 (lit "name") 577 (ctx_of two false) kernel0); [apply two_awf|apply two_left|cbn; lia|done]. Defined.

Lemma filter_live_iff (l : list ps_) : (forall q, q ∈ l -> pwf (ps_p q)) ->
  filter live l = filter (fun q => p_st (ps_p q) <> proc_st_uninit_) l.
Proof.
  induction l as [|q l IH]; intros Hl; [done|]. rewrite !filter_cons.
  pose proof (live_iff (ps_p q) (Hl q ltac:(by left))) as Hq. rewrite IH by (intros r Hr; apply Hl; by right).
  unfold live in *. repeat case_decide; tauto || done.
Qed.

(** The descriptors to poll are those of the workers that exist, in the order
    of the list, all for reading. *)
Theorem afs_pollfds_live {W} (E : os_penv W) `{!ParentLaws E} c (w : W) : awf c ->
  exists c' w', afs_pollfds (c, w) =
      Ret (poll_entry ∘ ps_p <$> filter (fun q => p_st (ps_p q) <> proc_st_uninit_) (a_ps c), (c', w')) /\
    a_ps c' = a_ps c /\ awf c'.
Proof.
  intros Hwf. destruct (wp_Ret _ _ _ (afs_pollfds_wp E c w Hwf)) as (r & [c' w'] & Hr & [H1 _] & _ & _ & H2 & ->).
  exists c', w'. rewrite <- filter_live_iff; [done|]. apply Hwf.
Qed.

Lemma afs_pollfds_live_witness :
  exists c' w', afs_pollfds (ctx_of two false, kernel0) =
      Ret ([{| pfd_fd := 4; pfd_events := POLLIN; pfd_revents := 0 |}; {| pfd_fd := 5; pfd_events := POLLIN; pfd_revents := 0 |}],
        (c', w')) /\ a_ps c' = two /\ awf c'.
Proof. apply (afs_pollfds_live kernel_env (ctx_of two false) kernel0). apply two_awf. Defined.

(** C39. A stop with no worker: when no worker was ever allocated, [afs_stop_prep]
    is accepted and the next [afs_update] writes the event [afs_ev_stop] through
    the NULL pointer the event array still is. *)
Theorem afs_stop_null {W} (E : os_penv W) fuel junk fds c w s s' :
  afs_init (c, w) = Ret (tt, s) -> run_call E fuel junk call_stop_prep s = Ret (tt, s') ->
  afs_update E fuel fds s' = Undef.
Proof.
  rewrite afs_init_run. intros Hi. injection Hi as <-. intros Hp.
  assert (s' = (with_a_is_stop_req true (ctx_init c), w)) as -> by (by injection Hp as <-). done.
Qed.

Lemma afs_stop_null_witness :
  match run_call kernel_env 3 junk0 call_stop_prep start with Ret (_, s) => afs_update kernel_env 3 [] s = Undef | _ => False end.
Proof.
  assert (exists s, run_call kernel_env 3 junk0 call_stop_prep start = Ret (tt, s)) as [s Hs] by (eexists; vm_compute; reflexivity).
  rewrite Hs. apply (afs_stop_null kernel_env 3 junk0 [] ctx0 kernel0 start); [vm_compute; reflexivity|exact Hs].
Defined.

(** A refused write changes the write in flight: [afs_write] stores the length
    into the memory shared with the worker before it finds the worker busy, so a
    call that returns [afs_fail] has changed how much the worker writes. *)
Theorem afs_write_busy_changes {W} (E : os_penv W) fuel c w q l s rw n :
  awf c -> a_ps c = q :: l -> ps_fd q <> (-1)%Z -> ps_is_avail q = true -> p_st (ps_p q) = proc_st_busy_ ->
  p_mapped (ps_p q) = Some (s, rw) -> n <= p_rw_buf_len (ps_p q) ->
  exists c' q', afs_write E fuel (ps_fd q) n (c, w) = Ret (afs_fail, (c', w)) /\ a_ps c' = q' :: l /\
    p_mapped (ps_p q') = Some (with_write_len n s, rw).
Proof.
  intros Hwf Hc Hx Ha Hst Hm Hn. pose proof (awf_at c [] q l Hwf Hc) as Hat.
  cut (wp (afs_write E fuel (ps_fd q) n) (fun r t => r = afs_fail /\ t.2 = w /\ exists q', a_ps t.1 = q' :: l /\
    p_mapped (ps_p q') = Some (with_write_len n s, rw)) (c, w)).
  { intros H. apply wp_Ret in H as (r & [c' w'] & Hr & -> & Hw & q' & H1 & H2). cbn in *. subst w'. eauto. }
  unfold afs_write, avail_ps_, ps_get_. rewrite (proj2 (Z.eqb_neq _ _) Hx). cbn [negb]. wp_step. rewrite get_ctx_wp, Hc.
  rewrite (list_find_middle (fun r => ps_fd r = ps_fd q) [] q l) by done. wp_step. cbn [fmap option_fmap option_map compose snd]. wp_step.
  rewrite (get_ps_at _ _ _ _ _ _ _ Hat). wp_step. rewrite Ha. wp_step. rewrite (get_ps_at _ _ _ _ _ _ _ Hat), Hm.
  rewrite decide_False by lia. wp_step. eapply on_ps_at; [exact Hat|]. rewrite (upd_shared_wp _ s rw) by done. cbn [fst snd].
  set (q1 := with_ps_p _ q). eapply (on_ps_at _ _ [] q1 l); [by eapply (at_change _ _ _ _ _ q1); [exact Hat| |]|]. unfold proc_write_, proc_send_cmd_. wp_step. rewrite get_proc_wp.
  change (p_st (ps_p q1)) with (p_st (ps_p q)). rewrite Hst. rewrite bool_decide_eq_false_2 by done. cbn [negb]. wp_step.
  rewrite proc_fail_wp. wp_step. cbn [fst snd]. do 2 (split; [done|]). eexists. by split.
Qed.

Lemma afs_write_busy_changes_witness :
  exists c' q', afs_write kernel_env 3 3 5 (ctx_of two false, kernel0) = Ret (afs_fail, (c', kernel0)) /\
    a_ps c' = q' :: tail two /\
    exists s, p_mapped (ps_p q') = Some (s, replicate 8 0%Z) /\ write_len s = 5.
Proof.
  destruct (afs_write_busy_changes kernel_env 3 (ctx_of two false) kernel0
    (node 0 3 (worker proc_st_busy_ false proc_cmd_write_ proc_res_ok_) proc_cmd_none_) (tail two)
    {| cmd := proc_cmd_write_; write_len := 0; open_flags := 0; res := proc_res_ok_; child_st := proc_child_st_idle_;
       written := 7; read_len := 0; sh_fail := fail0 |} (replicate 8 0%Z) 5)
    as (c' & q' & H1 & H2 & H3); [apply two_awf|done|done|done|done|reflexivity|cbn; lia|].
  exists c', q'. split; [exact H1|]. split; [exact H2|]. eexists. split; [exact H3|]. reflexivity.
Defined.
