(* ===== verification/AfsCalls.v ===== *)
(** * Single calls of the asynchronous file system

    What [afs_write_fsync_close] does on each of its branches, and where the
    [size_t] sum it checks wraps around; what an update does to the worker that
    has just started while a command waits for it; and which node an update
    frees when an idle worker dies. *)

From stdpp Require Import base list numbers strings option.
From S2P Require Import Prelude AfsChild AfsProc AfsProcProps Afs AfsProps AfsLife.

Section calls.
Context {W : Type} (E : os_penv W) `{!ParentLaws E} (fuel : nat).
Implicit Types (c : afs_ctx) (w : W) (p : proc_) (q : ps_).

(** ** A worker that has started *)

(** The worker answered that it is ready. *)
Definition start_answered (fds : list pollfd) (p : proc_) (sh : proc_shared_) (rw : list char) : Prop :=
  p_st p = proc_st_init_pend_ /\ p_is_stop_req p = false /\ p_mapped p = Some (sh, rw) /\ res sh = proc_res_ok_ /\
  hup_ (revents_of_ (p_fd p) fds) = false /\ in_ (revents_of_ (p_fd p) fds) = true.

Lemma update_started_wp fds p sh rw w : pwf p -> start_answered fds p sh rw ->
  wp (proc_update_ E fuel fds) (fun r s => r = afs_ok /\ pwf s.1 /\ pintr s.2 <= pintr w /\ p_types s.1 = [afs_ev_init] /\
    p_st s.1 = proc_st_avail_ /\ p_mapped s.1 = Some (sh, rw)) (p, w).
Proof.
  intros Hwf (Hst & Hstop & Hm & Hres & Hhup & Hin). pose proof Hwf as [Hc Hl Hmap].
  unfold proc_update_. wp_step. rewrite get_proc_wp. wp_step. rewrite upd_proc_wp, Hst.
  unfold proc_update_init_pend_. wp_step. rewrite get_proc_wp. cbn [with_p_evs_len p_is_stop_req p_fd]. rewrite Hstop, Hhup, Hin.
  wp_step. rewrite psys'_wp. wp_step. rewrite (get_shared_wp sh rw) by done. rewrite decide_True by done.
  wp_step. rewrite upd_proc_wp. wp_step. rewrite Hst in Hmap.
  apply add_ev_wp; [split; cbn; [done|lia|exact Hmap]|cbn; unfold proc_evs_maxlen_; lia|].
  intros p' (Hp' & Ht & l & ->). wp_step. split; [done|]. split; [done|]. split; [apply law_pread|].
  split; [|done]. cbn [fst]. by rewrite Ht, p_types_nil.
Qed.

(** The commands that may wait for a worker. *)
Definition deferrable (cmd : proc_cmd_) : Prop :=
  cmd = proc_cmd_open_ \/ cmd = proc_cmd_mkdir_ \/ cmd = proc_cmd_write_fsync_close_.

(** The node after its worker has started: available, nothing waits any more, and
    the worker has the command that waited, or its failure is among the events,
    which for a worker that was waiting means that it is dead. *)
Definition start_done (q : ps_) (cmd : proc_cmd_) (sh : proc_shared_) (rw : list char) (q' : ps_)
    (es : list (Z * afs_event)) : Prop :=
  ps_id q' = ps_id q /\ ps_fd q' = ps_fd q /\ ps_is_avail q' = true /\ ps_cmd_after_init q' = proc_cmd_none_ /\
  ((p_st (ps_p q') = proc_st_busy_ /\ p_mapped (ps_p q') = Some (with_cmd cmd sh, rw)) \/
   ((ps_fd q, proc_cmd_fail_ev_ cmd) ∈ es /\ (child_st sh = proc_child_st_idle_ -> p_st (ps_p q') = proc_st_dead_))).

Lemma after_init_sent_wp id l1 l2 c q w l cmd sh rw : at_node c id l1 q l2 -> pwf (ps_p q) -> pintr w < fuel ->
  a_evs c = Some l -> length l = a_evs_maxlen c -> a_evs_len c < a_evs_maxlen c ->
  ps_cmd_after_init q = cmd -> deferrable cmd -> p_mapped (ps_p q) = Some (sh, rw) -> ps_is_avail q = true ->
  p_st (ps_p q) = proc_st_avail_ -> wp (after_init_ E fuel id (ps_fd q)) (fun _ s => exists q' o, at_node s.1 id l1 q' l2 /\ ufr c s.1 o /\
    start_done q cmd sh rw q' o) (c, w).
Proof.
  intros Hat Hp Hf Hl Hlen Hlt Hcmd Hd Hm Ha Hst. unfold after_init_. wp_step. rewrite (get_ps_at _ _ _ _ _ _ _ Hat), wp_bind, Hcmd.
  assert (forall line, wp (after_init_send_ id (ps_fd q) (proc_send_cmd_ E fuel cmd) (proc_cmd_fail_ev_ cmd) line)
    (fun _ s => wp (upd_ps id (with_ps_cmd_after_init proc_cmd_none_)) (fun _ s => exists q' o, at_node s.1 id l1 q' l2 /\
       ufr c s.1 o /\ start_done q cmd sh rw q' o) s) (c, w)) as Hsend.
  { intros line. eapply wp_mono; [eapply (after_init_send_wp E fuel id l1 l2 c q w l); try done; by rewrite Hcmd|].
    intros _ [c1 w1] (o & p & Hu & _ & Hat1 & _ & Ho). cbn [fst snd] in *.
    rewrite (upd_ps_at _ _ _ _ _ _ _ _ Hat1). cbn [fst snd]. eexists _, o.
    split; [by eapply (at_change _ _ _ _ _ (with_ps_cmd_after_init proc_cmd_none_ (with_ps_p p q))); [exact Hat1|apply Hat|]|].
    split; [exact Hu|]. do 4 (split; [done|]). destruct Ho as [[-> (Hb & sh1 & rw1 & G1 & G2)]|[-> Hr]];
      [left|right; split; [by left|intros Hi; apply Hr; split; [done|by exists sh, rw]]].
    rewrite Hm in G1. injection G1 as <- <-. by split. }
  destruct Hd as [->|[->| ->]]; apply Hsend.
Qed.

Lemma elem_of_prefix {A} (l l1' l1 : list A) x : l1' ++ l = l1 ++ x :: l -> x ∈ l1'.
Proof.
  intros H. replace (l1 ++ x :: l) with ((l1 ++ [x]) ++ l) in H by (by rewrite <- app_assoc). apply app_inv_tail in H as ->.
  apply elem_of_app. right. by left.
Qed.

Lemma start_done_more q cmd sh rw q' es o : start_done q cmd sh rw q' es -> start_done q cmd sh rw q' (es ++ o).
Proof.
  intros (H1 & H2 & H3 & H4 & H5). do 4 (split; [done|]). destruct H5 as [?|[? ?]]; [by left|right]. split; [|done]. apply elem_of_app. by left.
Qed.

Lemma update_ps_started_wp fds c l1 q l2 w l sh rw : lwf (a_next c) (l1 ++ q :: l2) -> a_ps c = l1 ++ q :: l2 -> pintr w < fuel ->
  a_evs c = Some l -> length l = a_evs_maxlen c -> a_evs_len c < a_evs_maxlen c ->
  start_answered fds (ps_p q) sh rw -> deferrable (ps_cmd_after_init q) ->
  wp (update_ps_ E fuel fds (ps_id q)) (fun _ s => exists q', a_ps s.1 = l1 ++ q' :: l2 /\
    start_done q (ps_cmd_after_init q) sh rw q' (evs_seen s.1)) (c, w).
Proof.
  intros Hl Hc Hf Hev Hlen Hlt Hans Hd. pose proof (at_middle _ _ _ _ _ Hl Hc) as Hat. unfold update_ps_. wp_step.
  eapply on_ps_at; [exact Hat|]. assert (pwf (ps_p q)) as Hp by (apply (lwf_pwf _ _ Hl), in_middle; auto).
  eapply wp_mono; [by apply (update_started_wp fds _ sh rw)|]. intros r [p w1] (-> & Hp1 & Hw1 & Hty & Hst & Hm). cbn [fst snd] in *.
  set (q1 := with_ps_p p q). set (c1 := with_a_ps (l1 ++ q1 :: l2) c).
  assert (at_node c1 (ps_id q) l1 q1 l2) as Hat1 by (by eapply at_change).
  wp_step. rewrite (get_ps_at c1 (ps_id q) l1 q1 l2) by done. wp_step.
  change (ps_p q1) with p. rewrite <- (p_types_length p Hp1), Hty. destruct (p_types_lookup p 0 afs_ev_init Hp1) as (e & He & Hte); [by rewrite Hty|].
  cbn [length evs_loop_]. wp_step. rewrite (get_ps_at c1 (ps_id q) l1 q1 l2) by done. change (ps_p q1) with p. rewrite He. wp_step.
  rewrite (upd_ps_at c1 (ps_id q) l1 q1 l2) by done. wp_step. cbn [with_a_ps a_ps].
  set (q2 := with_ps_p _ q1). set (c2 := with_a_ps (l1 ++ q2 :: l2) c1).
  assert (at_node c2 (ps_id q) l1 q2 l2) as Hat2 by (by eapply at_change).
  assert (pwf (ps_p q2)) as Hp2 by (destruct Hp1; split; cbn; [by rewrite length_insert|done|done]).
  unfold handle_ev_. wp_step. rewrite (get_ps_at c2 (ps_id q) l1 q2 l2) by done. cbn [afs_ev_ty ev_with_fd ev_ty ev_fd].
  rewrite Hte. wp_step. rewrite (upd_ps_at c2 (ps_id q) l1 q2 l2) by done. wp_step.
  set (q3 := with_ps_is_avail true q2). set (c3 := with_a_ps (l1 ++ q3 :: l2) c2).
  assert (at_node c3 (ps_id q) l1 q3 l2) as Hat3 by (by eapply at_change).
  eapply wp_mono; [eapply (after_init_sent_wp (ps_id q) l1 l2 c3 q3 w1 l (ps_cmd_after_init q) sh rw); try done; lia|].
  intros _ [c4 w4] (q4 & o & Hat4 & Hu & Hdone). cbn [fst snd] in *.
  unfold afs_ev_is_fail. cbn [ev_with_fd ev_ty]. rewrite Hte. repeat wp_step. rewrite bool_decide_eq_true_2 by done. cbn [negb orb]. wp_step.
  exists q4. split; [apply Hat4|]. cbn [fst]. destruct Hu as (_ & _ & _ & ->).
  destruct Hdone as (H1 & H2 & H3 & H4 & H5). do 4 (split; [done|]). destruct H5 as [?|[? ?]]; [by left|right]. split; [|done]. apply elem_of_app. by right.
Qed.

Lemma update_loop_started_wp fds q sh rw : start_answered fds (ps_p q) sh rw -> deferrable (ps_cmd_after_init q) -> ps_fd q <> (-1)%Z ->
  forall l2 c l1 w l, lwf (a_next c) (l1 ++ l2) -> a_ps c = l1 ++ l2 -> pintr w < fuel ->
  a_evs c = Some l -> length l = a_evs_maxlen c -> a_evs_len c + 2 * length l2 <= a_evs_maxlen c ->
  q ∈ l2 \/ (exists q', q' ∈ l1 /\ start_done q (ps_cmd_after_init q) sh rw q' (evs_seen c)) ->
  wp (update_loop_ E fuel (length l2) fds (ps_id <$> head l2)) (fun _ s => exists q', q' ∈ a_ps s.1 /\
    start_done q (ps_cmd_after_init q) sh rw q' (evs_seen s.1)) (c, w).
Proof.
  intros Hans Hd Hfd. induction l2 as [|r l2 IH]; intros c l1 w l Hl Hc Hf Hev Hlen Hlt Hq;
    cbn [length update_loop_ head fmap option_fmap option_map].
  - wp_step. destruct Hq as [?%not_elem_of_nil|(q' & Hin & Hq')]; [done|]. exists q'. split; [|done]. cbn. by rewrite Hc, app_nil_r.
  - wp_step. apply (next_ps_wp _ _ _ l1 r l2 Hl Hc). wp_step. cbn [length] in Hlt.
    pose proof (update_ps_wp E fuel c l1 r l2 w l fds Hl Hc Hf Hev Hlen ltac:(lia)) as Hr.
    assert (forall c1 w1 o l1', node_out fds r o -> ufr c c1 o -> pintr w1 <= pintr w -> a_ps c1 = l1' ++ l2 -> lwf (a_next c) (l1' ++ l2) ->
      q ∈ l2 \/ (exists q', q' ∈ l1' /\ start_done q (ps_cmd_after_init q) sh rw q' (evs_seen c1)) ->
      wp (update_loop_ E fuel (length l2) fds (ps_id <$> head l2)) (fun _ s => exists q', q' ∈ a_ps s.1 /\
        start_done q (ps_cmd_after_init q) sh rw q' (evs_seen s.1)) (c1, w1)) as Hrest.
    { intros c1 w1 o l1' Ho ((_ & Hn & _ & _ & _ & Hm) & (l' & Hl' & Hlen') & Hu3 & _) Hw1 Hc1 Hl1 Hq1.
      apply node_out_length in Ho. eapply (IH c1 l1' w1 l'); [by rewrite Hn|done|lia|done|congruence|lia|done]. }
    destruct Hq as [[Heq|Hq]%elem_of_cons|(q' & Hin & Hq')].
    + subst r. eapply wp_mono; [eapply wp_conj; [exact Hr|eapply update_ps_started_wp; [exact Hl|exact Hc|done|exact Hev|done|lia|exact Hans|done]]|].
      intros _ [c1 w1] [(o & l1' & Ho & Hu & Hw1 & Hc1 & _ & Hl1 & _) (q' & Hc1' & Hq')]. cbn [fst snd] in *.
      eapply Hrest; [done|done|done|done|done|]. right. exists q'. split; [|done].
      rewrite Hc1 in Hc1'. apply (elem_of_prefix l2 l1' l1 q' Hc1').
    + eapply wp_mono; [exact Hr|]. intros _ [c1 w1] (o & l1' & Ho & Hu & Hw1 & Hc1 & _ & Hl1 & _). cbn [fst snd] in *.
      by eapply Hrest; [..|left].
    + eapply wp_mono; [exact Hr|]. intros _ [c1 w1] (o & l1' & Ho & Hu & Hw1 & Hc1 & _ & Hl1 & Hkeep). cbn [fst snd] in *.
      eapply Hrest; [done|done|done|done|done|]. right. exists q'. destruct Hq' as (H1 & H2 & H3).
      split; [apply Hkeep; [done|congruence]|]. destruct Hu as (_ & _ & _ & ->). by apply start_done_more.
Qed.

(** ** An idle worker *)

(** The update of an idle worker reports nothing; it fails when the worker has
    died, which is then destroyed. *)
Lemma update_idle_wp fds p w : pwf p -> pintr w < fuel -> p_st p = proc_st_avail_ ->
  wp (proc_update_ E fuel fds) (fun r s => p_evs_len s.1 = 0 /\
    if hup_ (revents_of_ (p_fd p) fds) then r = afs_fail /\ p_st s.1 = proc_st_uninit_
    else r = afs_ok /\ s = (with_p_evs_len 0 p, w)) (p, w).
Proof.
  intros [Hc Hl Hm] Hf Hst. unfold proc_update_. wp_step. rewrite get_proc_wp. wp_step. rewrite upd_proc_wp, Hst.
  unfold proc_update_avail_. destruct (hup_ _); wp_step; [|done].
  eapply wp_mono; [apply destroy_wp; cbn; [done|lia|done]|]. intros _ [p1 w1] [(_ & Hst1 & _ & He & _) _]. cbn [fst] in *.
  wp_step. rewrite proc_fail_wp. by wp_step.
Qed.

(** The node of an idle worker; when the worker has died, the first node with the
    same descriptor is deleted. *)
Lemma update_ps_idle_wp fds c l1 q l2 w : lwf (a_next c) (l1 ++ q :: l2) -> a_ps c = l1 ++ q :: l2 -> pintr w < fuel ->
  p_st (ps_p q) = proc_st_avail_ ->
  wp (update_ps_ E fuel fds (ps_id q)) (fun _ s =>
    if hup_ (revents_of_ (p_fd (ps_p q)) fds) then
      exists p i r, p_st p = proc_st_uninit_ /\ list_find (fun r => ps_fd r = ps_fd q) (l1 ++ with_ps_p p q :: l2) = Some (i, r) /\
        a_ps s.1 = delete i (l1 ++ with_ps_p p q :: l2)
    else a_ps s.1 = l1 ++ with_ps_p (with_p_evs_len 0 (ps_p q)) q :: l2) (c, w).
Proof.
  intros Hl Hc Hf Hst. pose proof (at_middle _ _ _ _ _ Hl Hc) as Hat. unfold update_ps_. wp_step.
  eapply on_ps_at; [exact Hat|]. assert (pwf (ps_p q)) as Hp by (apply (lwf_pwf _ _ Hl), in_middle; auto).
  eapply wp_mono; [by apply update_idle_wp|]. intros r [p w1] [He Hr]. cbn [fst snd] in *.
  set (q1 := with_ps_p p q). set (c1 := with_a_ps (l1 ++ q1 :: l2) c).
  assert (at_node c1 (ps_id q) l1 q1 l2) as Hat1 by (by eapply at_change).
  wp_step. rewrite (get_ps_at c1 (ps_id q) l1 q1 l2) by done. wp_step. change (ps_p q1) with p. rewrite He. cbn [evs_loop_]. wp_step.
  destruct (hup_ _); destruct Hr as [-> Hr]; rewrite ?bool_decide_eq_true_2, ?bool_decide_eq_false_2 by done; cbn [negb orb]; wp_step.
  2:{ injection Hr as -> ->. done. }
  rewrite (get_ps_at c1 (ps_id q) l1 q1 l2) by done. wp_step. unfold ps_del_. wp_step. rewrite get_ctx_wp. cbn [c1 with_a_ps a_ps].
  destruct (list_find _ (l1 ++ q1 :: l2)) as [[i r]|] eqn:Hfind.
  2:{ apply list_find_None in Hfind. rewrite list.Forall_forall in Hfind. exfalso. by apply (Hfind q1); [apply in_middle; auto|]. }
  wp_step. rewrite upd_ctx_wp. wp_step. by exists p, i, r.
Qed.

(** Two idle workers, the second of which has died: the loop deletes the first. *)
Lemma wrong_loop_wp fds c w l q1 q2 : lwf (a_next c) [q1; q2] -> a_ps c = [q1; q2] -> pintr w < fuel ->
  a_evs c = Some l -> length l = a_evs_maxlen c -> a_evs_len c + 4 <= a_evs_maxlen c ->
  ps_fd q1 = (-1)%Z -> ps_fd q2 = (-1)%Z -> p_st (ps_p q1) = proc_st_avail_ -> p_st (ps_p q2) = proc_st_avail_ ->
  hup_ (revents_of_ (p_fd (ps_p q1)) fds) = false -> hup_ (revents_of_ (p_fd (ps_p q2)) fds) = true ->
  wp (update_loop_ E fuel 2 fds (Some (ps_id q1))) (fun _ s => exists p, a_ps s.1 = [with_ps_p p q2] /\ p_st p = proc_st_uninit_) (c, w).
Proof.
  intros Hl Hps Hf Hev A2 A6 Hx1 Hx2 Hs1 Hs2 Hh1 Hh2. cbn [update_loop_]. wp_step. apply (next_ps_wp _ c w [] q1 [q2]); [done|done|].
  wp_step. eapply wp_mono; [eapply wp_conj; [apply (update_ps_wp E fuel c [] q1 [q2] w l fds)|apply (update_ps_idle_wp fds c [] q1 [q2] w)]|];
    try done; [lia|].
  intros _ [c1 w1] [(o & l1' & _ & ((_ & Hn & _) & _) & Hw1 & Hc1' & _ & Hl1 & _) Hc1]. rewrite Hh1 in Hc1. cbn [fst snd app] in *.
  rewrite <- Hc1', Hc1 in Hl1. set (q1' := with_ps_p _ q1) in *.
  cbn [head fmap option_fmap option_map]. wp_step. apply (next_ps_wp _ c1 w1 [q1'] q2 []); [by rewrite Hn|done|].
  wp_step. eapply wp_mono; [apply (update_ps_idle_wp fds c1 [q1'] q2 [] w1); [by rewrite Hn|done|lia|done]|].
  intros _ [c2 w2] Hc2. rewrite Hh2, Hx2 in Hc2. destruct Hc2 as (p & i & r & Hp & Hfind & Hc2). cbn [fst snd app head] in *. wp_step.
  exists p. split; [|done]. rewrite (list_find_middle (fun r => ps_fd r = (-1)%Z) [] q1' [with_ps_p p q2]) in Hfind by done.
  injection Hfind as <- <-. exact Hc2.
Qed.
(** ** A stop *)

(** The worker was told to exit, and has ended: its end of the socket is closed,
    or, when [poll] was asked just before that, its answer is there. *)
Definition exit_answered (fds : list pollfd) (q : ps_) : Prop :=
  p_st (ps_p q) = proc_st_busy_ /\
  exists sh rw, p_mapped (ps_p q) = Some (sh, rw) /\ cmd sh = proc_cmd_exit_ /\
    (hup_ (revents_of_ (p_fd (ps_p q)) fds) = true \/
     (hup_ (revents_of_ (p_fd (ps_p q)) fds) = false /\ in_ (revents_of_ (p_fd (ps_p q)) fds) = true /\ res sh = proc_res_ok_)).

Lemma update_exited_wp fds p w sh rw : pwf p -> pintr w < fuel -> p_st p = proc_st_busy_ ->
  p_mapped p = Some (sh, rw) -> cmd sh = proc_cmd_exit_ ->
  hup_ (revents_of_ (p_fd p) fds) = true \/
    (hup_ (revents_of_ (p_fd p) fds) = false /\ in_ (revents_of_ (p_fd p) fds) = true /\ res sh = proc_res_ok_) ->
  wp (proc_update_ E fuel fds) (fun r s => r = afs_fail /\ upd_post E p (revents_of_ (p_fd p) fds) w r s) (p, w).
Proof.
  intros Hwf Hf Hst Hm Hcmd Hrev. apply (wp_conj _ (fun r _ => r = afs_fail)); [|by apply proc_update_wp].
  pose proof Hwf as [Hc Hl Hmap]. unfold proc_update_. wp_step. rewrite get_proc_wp. wp_step. rewrite upd_proc_wp, Hst.
  unfold proc_update_busy_. destruct Hrev as [Hh|(Hh & Hin & Hres)]; rewrite Hh, ?Hin; wp_step.
  - rewrite (get_shared_wp sh rw) by done. wp_step.
    apply add_ev_wp; [split; cbn; [done|lia|exact Hmap]|cbn; unfold proc_evs_maxlen_; lia|].
    intros p1 ([Hc1 Hl1 _] & _ & l & ->). wp_step. eapply wp_mono; [by apply destroy_wp|].
    intros _ [p2 w2] _. wp_step. rewrite proc_fail_wp. by wp_step.
  - rewrite get_proc_wp. wp_step. rewrite psys'_wp. wp_step.
    unfold proc_update_answer_. wp_step. rewrite (get_shared_wp sh rw) by done. wp_step. rewrite decide_True, Hcmd by done. wp_step.
    apply add_ev_wp; [split; cbn; [done|lia|exact Hmap]|cbn; unfold proc_evs_maxlen_; lia|].
    intros p1 ([Hc1 Hl1 _] & _ & l & ->). wp_step. rewrite upd_proc_wp. wp_step. cbn [fst snd] in *.
    eapply wp_mono; [apply destroy_wp; [done|done|cbn; pose proof (law_pread (p_fd p) w); lia]|].
    intros _ [p2 w2] [(_ & _ & _ & _ & Hsr) _]. cbn [fst] in *. wp_step. rewrite get_proc_wp, Hsr. cbn. wp_step. rewrite proc_fail_wp. by wp_step.
Qed.

(** The first node is deleted with its worker. *)
Lemma update_ps_exited_wp fds c q l2 w l : lwf (a_next c) (q :: l2) -> a_ps c = q :: l2 -> pintr w < fuel ->
  a_evs c = Some l -> length l = a_evs_maxlen c -> a_evs_len c + 1 < a_evs_maxlen c -> exit_answered fds q ->
  wp (update_ps_ E fuel fds (ps_id q)) (fun _ s => a_ps s.1 = l2) (c, w).
Proof.
  intros Hl Hc Hf Hev Hlen Hlt (Hst & sh & rw & Hm & Hcmd & Hrev).
  assert (at_node c (ps_id q) [] q l2) as Hat by (by eapply at_middle). unfold update_ps_. wp_step.
  eapply on_ps_at; [exact Hat|]. assert (pwf (ps_p q)) as Hp by (apply (lwf_pwf _ _ Hl); by left).
  eapply wp_mono; [by apply (update_exited_wp fds _ w sh rw)|]. intros r [p w1] (-> & Hp1 & Hw1 & Hty & _). cbn [fst snd] in *.
  set (q1 := with_ps_p p q). set (c1 := with_a_ps ([] ++ q1 :: l2) c).
  assert (at_node c1 (ps_id q1) [] q1 l2) as Hat1 by (by eapply at_change).
  wp_step. rewrite (get_ps_at c1 (ps_id q) [] q1 l2) by exact Hat1. wp_step.
  eapply wp_mono; [apply (evs_loop_wp E fuel c1 [] q1 l2 w1 l fds (ps_p q)); [done|done|lia|done|done|done|exact Hty]|].
  intros del [c2 w2] (o & _ & _ & _ & q2 & Hat2 & _). cbn [fst snd] in *. rewrite bool_decide_eq_false_2 by done. cbn [negb orb]. wp_step.
  rewrite (get_ps_at c2 (ps_id q) [] q2 l2) by exact Hat2. wp_step. rewrite (ps_del_first _ _ _ _ _ [] q2 l2); [by wp_step|apply Hat2|done|done].
Qed.

Lemma update_loop_exited_wp fds l2 : forall c w l, lwf (a_next c) l2 -> a_ps c = l2 -> pintr w < fuel ->
  a_evs c = Some l -> length l = a_evs_maxlen c -> a_evs_len c + 2 * length l2 <= a_evs_maxlen c -> Forall (exit_answered fds) l2 ->
  wp (update_loop_ E fuel (length l2) fds (ps_id <$> head l2)) (fun _ s => a_ps s.1 = []) (c, w).
Proof.
  induction l2 as [|q l2 IH]; intros c w l Hl Hc Hf Hev Hlen Hlt Hall; cbn [length update_loop_ head fmap option_fmap option_map]; [by wp_step|].
  inversion Hall as [|? ? Hq Hall']; subst. cbn [length] in Hlt. wp_step. apply (next_ps_wp _ _ _ [] q l2 Hl Hc). wp_step.
  eapply wp_mono; [eapply wp_conj; [eapply (update_ps_wp E fuel c [] q l2)|eapply update_ps_exited_wp]; try done; lia|].
  intros _ [c1 w1] [(o & l1' & Ho & ((_ & Hn & _ & _ & _ & Hm) & (l' & Hl' & Hlen') & Hu3 & _) & Hw1 & Hc1 & _ & Hl1 & _) Hc1']. cbn [fst snd] in *.
  apply node_out_length in Ho. rewrite <- Hc1, Hc1' in Hl1. apply (IH c1 w1 l'); [by rewrite Hn|done|lia|done|congruence|lia|done].
Qed.
End calls.

(** Where a call does not return there is no [wp]: the run of [get_ps]. *)
Lemma get_ps_run {W} c (w : W) l1 q l2 : awf c -> a_ps c = l1 ++ q :: l2 -> get_ps (ps_id q) (c, w) = Ret (q, (c, w)).
Proof.
  intros Hwf Hc. unfold get_ps, get_ctx, reads, mbind, cm_bind, find_ps. cbn [fst]. rewrite Hc, list_find_middle; [done| |done].
  destruct Hwf as [Hl _]. rewrite Hc in Hl. by apply lwf_ids, nodup_not_in in Hl as [? _].
Qed.

(** ** Claims *)

(** C13. A command that waited for its worker is carried out: when a worker in use
    answers that it has started, the update leaves its node in the list with its
    descriptor, available and with nothing waiting, and the worker has got the
    command that waited in [cmd_after_init] - its buffer, flags and length as the
    client left them - or the failure of that command is reported, which for a
    worker waiting for commands happens only when it cannot be reached. *)
Theorem afs_deferred_sent {W} (E : os_penv W) `{!ParentLaws E} fuel fds c w q sh rw :
  awf c -> pintr w < fuel -> q ∈ a_ps c -> ps_fd q <> (-1)%Z -> start_answered fds (ps_p q) sh rw ->
  deferrable (ps_cmd_after_init q) ->
  exists c' w' q', afs_update E fuel fds (c, w) = Ret (tt, (c', w')) /\ awf c' /\ q' ∈ a_ps c' /\
    start_done q (ps_cmd_after_init q) sh rw q' (evs_seen c').
Proof.
  intros Hwf Hf Hq Hfd Hans Hd. pose proof Hwf as [Hl [_ A2 _ _ _ A6]]. destruct (a_evs c) as [l|] eqn:Hev.
  2:{ cbn in A2. destruct (a_ps c); [by apply not_elem_of_nil in Hq|]. cbn in A6. unfold proc_evs_maxlen_ in A6. lia. }
  destruct A2 as [A2 _]. pose proof (afs_update_array_wp E fuel
    (fun c1 => exists q', q' ∈ a_ps c1 /\ start_done q (ps_cmd_after_init q) sh rw q' (evs_seen c1)) fds c w l Hwf Hf Hev) as Hrun.
  destruct (wp_Ret _ _ _ (Hrun ltac:(eapply (update_loop_started_wp E fuel fds q sh rw Hans Hd Hfd (a_ps c) (with_a_evs_len 0 c) [] w l);
    [done|done|done|done|done|cbn; unfold proc_evs_maxlen_ in *; lia|by left])))
    as ([] & [c' w'] & Hr & c1 & os & (q' & Hin & Hq') & _ & Hwf' & _ & _ & _ & Hps & _ & _ & _ & Hseen).
  exists c', w', q'. split; [done|]. split; [done|]. cbn [fst] in *. rewrite Hps, Hseen. split; [done|]. by apply start_done_more.
Qed.

(** The worker of a file to be opened has started. *)
Definition opening : ps_ :=
  node 0 3 (with_p_fd 5%Z (worker proc_st_init_pend_ false proc_cmd_none_ proc_res_ok_)) proc_cmd_open_.

Lemma afs_deferred_sent_witness :
  exists c' w' q', afs_update kernel_env 3 [ready 5] (ctx_of [opening] false, kernel0) = Ret (tt, (c', w')) /\ awf c' /\ q' ∈ a_ps c' /\
    start_done opening proc_cmd_open_ {| cmd := proc_cmd_none_; write_len := 0; open_flags := 0; res := proc_res_ok_;
      child_st := proc_child_st_idle_; written := 7; read_len := 0; sh_fail := fail0 |} (replicate 8 0%Z) q' (evs_seen c').
Proof.
  apply (afs_deferred_sent kernel_env 3 [ready 5] (ctx_of [opening] false) kernel0 opening); [|cbn; lia|by left|done|done|by left].
  apply ctx_of_awf; [cbn; lia|apply list.NoDup_singleton| |].
  - constructor; [|constructor]. split; [cbn; lia|]. split; [|cbn; lia].
    destruct (worker_pwf proc_st_init_pend_ false proc_cmd_none_ proc_res_ok_) as [H1 H2 _]; [done|].
    split; [done|done|]. cbn. eexists _, _. by split.
  - intros q r ->%list_elem_of_singleton ->%list_elem_of_singleton. done.
Defined.

(** C40. The wrong worker is freed: two workers are idle (descriptor -1) and the
    second one dies.  The update frees the node of the first, healthy one, whose
    process nobody can reach from then on, and keeps the node of the dead one. *)
Theorem afs_wrong_node {W} (E : os_penv W) `{!ParentLaws E} fuel fds c w q1 q2 :
  awf c -> pintr w < fuel -> a_ps c = [q1; q2] -> ps_fd q1 = (-1)%Z -> ps_fd q2 = (-1)%Z ->
  p_st (ps_p q1) = proc_st_avail_ -> p_st (ps_p q2) = proc_st_avail_ ->
  hup_ (revents_of_ (p_fd (ps_p q1)) fds) = false -> hup_ (revents_of_ (p_fd (ps_p q2)) fds) = true ->
  exists c' w' p, afs_update E fuel fds (c, w) = Ret (tt, (c', w')) /\ a_ps c' = [with_ps_p p q2] /\ p_st p = proc_st_uninit_.
Proof.
  intros Hwf Hf Hps Hx1 Hx2 Hs1 Hs2 Hh1 Hh2. pose proof Hwf as [Hl [_ A2 _ _ _ A6]]. rewrite Hps in Hl, A6.
  destruct (a_evs c) as [l|] eqn:Hev; [|cbn in A2, A6; unfold proc_evs_maxlen_ in A6; lia]. destruct A2 as [A2 _].
  pose proof (afs_update_array_wp E fuel (fun c1 => exists p, a_ps c1 = [with_ps_p p q2] /\ p_st p = proc_st_uninit_) fds c w l Hwf Hf Hev) as Hrun.
  rewrite Hps in Hrun. cbn [length head fmap option_fmap option_map] in Hrun.
  destruct (wp_Ret _ _ _ (Hrun (wrong_loop_wp E fuel fds (with_a_evs_len 0 c) w l q1 q2 Hl Hps Hf Hev A2 ltac:(cbn; cbn in A6; unfold proc_evs_maxlen_ in A6; lia) Hx1 Hx2 Hs1 Hs2 Hh1 Hh2))) as ([] & [c' w'] & Hr & c1 & os & (p & Hc1 & Hp) & _ & _ & _ & _ & _ & Hps' & _).
  exists c', w', p. cbn [fst] in *. by rewrite Hps', Hc1.
Qed.

Lemma afs_wrong_node_witness :
  let idle id x := node id (-1) (with_p_fd x (worker proc_st_avail_ false proc_cmd_none_ proc_res_ok_)) proc_cmd_none_ in
  exists c' w' p, afs_update kernel_env 3 [{| pfd_fd := 5; pfd_events := POLLIN; pfd_revents := POLLHUP |}]
      (ctx_of [idle 0 4%Z; idle 1 5%Z] false, kernel0) = Ret (tt, (c', w')) /\
    a_ps c' = [with_ps_p p (idle 1 5%Z)] /\ p_st p = proc_st_uninit_.
Proof.
  intros idle. apply (afs_wrong_node kernel_env 3 _ (ctx_of [idle 0 4%Z; idle 1 5%Z] false) kernel0 (idle 0 4%Z) (idle 1 5%Z));
    [|cbn; lia|done..]. destruct (worker_pwf proc_st_avail_ false proc_cmd_none_ proc_res_ok_) as [H1 H2 _]; [done|].
  apply ctx_of_awf; [cbn; lia|by apply (bool_decide_unpack _); vm_compute| |].
  - constructor; [|constructor; [|constructor]]; (split; [cbn; lia|]; split; [|cbn; lia]); (split; [done|done|]); cbn; eexists _, _; by split.
  - intros q r Hq _ _. repeat (apply elem_of_cons in Hq as [->|Hq]; [done|]). by apply not_elem_of_nil in Hq.
Defined.

(** C24. [afs_write_fsync_close] on each of its branches, for lengths that do not
    wrap around: a descriptor nobody has, a worker without memory and a path
    that does not fit behind the data are refused and no worker is changed; else
    the path with its NUL is behind the data, whose bytes stay, the length and
    the flags are in the shared record, and the command has been sent, or could
    not be - the worker is not idle, which changes nothing more, or the write
    failed and the worker counts as dead -, or waits for a worker that is starting,
    which is not available until then - or, when the worker is busy, the call
    fails after it has changed what the worker is working on. *)
Theorem afs_write_fsync_close_result {W} (E : os_penv W) `{!ParentLaws E} fuel x path flags n c w :
  awf c -> pintr w < fuel -> size_ok path n ->
  exists r c' w', afs_write_fsync_close E fuel x path flags n (c, w) = Ret (r, (c', w')) /\ awf c' /\
    wfc_out x path flags (Z.to_nat n) (a_ps c) r (a_ps c').
Proof.
  intros Hwf Hf Hn. destruct (wp_Ret _ _ _ (afs_wfc_wp E fuel x path flags n c w Hwf Hf Hn)) as (r & [c' w'] & Hr & [H1 _] & H2).
  by exists r, c', w'.
Qed.

Lemma afs_write_fsync_close_result_witness :
  exists r c' w', afs_write_fsync_close kernel_env 3 7 (lit "ab") 577 4 (ctx_of two false, kernel0) = Ret (r, (c', w')) /\ awf c' /\
    wfc_out 7 (lit "ab") 577 4 two r (a_ps c').
Proof.
  apply (afs_write_fsync_close_result kernel_env 3 7 (lit "ab") 577 4 (ctx_of two false) kernel0); [apply two_awf|cbn; lia|done].
Defined.

(** C32. The check of [afs_write_fsync_close] can be passed by wrapping around: for a
    length so close to the end of [size_t] that adding the length of the path
    gives a small number, the path is copied outside the buffer. *)
Theorem afs_wfc_overflow {W} (E : os_penv W) fuel path flags n c w l1 q l2 s rw :
  awf c -> node_of (ps_fd q) (a_ps c) l1 q l2 -> p_mapped (ps_p q) = Some (s, rw) -> (Z.of_nat (length rw) < 2 ^ 64)%Z ->
  (n < 2 ^ 64 <= n + Z.of_nat (length path + 1))%Z -> (n + Z.of_nat (length path + 1) <= 2 ^ 64 + Z.of_nat (length rw))%Z ->
  afs_write_fsync_close E fuel (ps_fd q) path flags n (c, w) = Undef.
Proof.
  intros Hwf (Hc & Hl1 & _ & Hx) Hm Hrw [Hn1 Hn2] Hn3.
  pose proof (awf_pwf _ _ _ _ Hwf Hc) as Hp. destruct (pwf_mapped _ _ _ Hp Hm) as [_ Hlen].
  pose proof (get_ps_run _ w _ _ _ Hwf Hc) as Hget.
  unfold afs_write_fsync_close. rewrite (proj2 (Z.eqb_neq _ _) Hx).
  rewrite (bind_Ret _ _ _ (Some (ps_id q)) (c, w)).
  2:{ unfold ps_get_, get_ctx, reads, mbind, cm_bind. cbn [fst]. by rewrite Hc, list_find_middle. }
  rewrite (bind_Ret _ _ _ q (c, w)), Hm by done. unfold size_add.
  rewrite <- (Z.mod_unique _ (2 ^ 64) 1 (n + Z.of_nat (length path + 1) - 2 ^ 64)) by lia.
  rewrite (proj2 (Z.leb_le _ _)) by (rewrite <- Hlen; lia).
  unfold mbind at 1, cm_bind at 1. unfold on_ps. rewrite (bind_Ret _ _ _ q (c, w)) by done.
  unfold reads, mbind, cm_bind. cbn [snd]. unfold rw_put, mbind, cm_bind, get_proc, reads. cbn [fst]. rewrite Hm.
  rewrite (proj2 (Z.leb_gt _ _)); [done|]. rewrite length_app. cbn. lia.
Qed.

Lemma afs_wfc_overflow_witness :
  afs_write_fsync_close kernel_env 3 3 (lit "ab") 577 (2 ^ 64 - 1) (ctx_of two false, kernel0) = Undef.
Proof.
  eapply (afs_wfc_overflow kernel_env 3 (lit "ab") 577 (2 ^ 64 - 1) (ctx_of two false) kernel0 []
    (node 0 3 (worker proc_st_busy_ false proc_cmd_write_ proc_res_ok_) proc_cmd_none_)); [apply two_awf|done|reflexivity|done|done|done].
Defined.

(** A new descriptor is above all in use, not the smallest free one, so a
    client that always opens the next file before it closes the last one climbs
    to [INT_MAX]; the next descriptor it asks for in an idle worker overflows an
    [int]. *)
Theorem afs_fd_overflow {W} (E : os_penv W) fuel junk c w l1 q l2 r :
  awf c -> a_ps c = l1 ++ q :: l2 -> Forall (fun r => ps_fd r <> (-1)%Z) l1 -> ps_fd q = (-1)%Z ->
  p_st (ps_p q) <> proc_st_uninit_ -> r ∈ a_ps c -> ps_fd r = INT_MAX -> afs_reserve E fuel junk (c, w) = Undef.
Proof.
  intros Hwf Hc Hl1 Hx Hst Hr Hmax.
  assert (in_int (next_fd (a_ps c)) = false) as Hint.
  { destruct (next_fd_above (a_ps c)) as [_ Hn]. specialize (Hn r Hr). rewrite Hmax in Hn. unfold in_int.
    rewrite (proj2 (Z.leb_gt _ _) Hn). apply andb_false_r. }
  pose proof (get_ps_run _ w _ _ _ Hwf Hc) as Hget.
  unfold afs_reserve, maybe_alloc_ps_. unfold mbind at 1, cm_bind at 1. rewrite (bind_Ret _ _ _ (Some (ps_id q)) (c, w)).
  2:{ unfold ps_get_, get_ctx, reads, mbind, cm_bind. cbn [fst]. by rewrite Hc, list_find_middle. }
  rewrite (bind_Ret _ _ _ q (c, w)), decide_False by done. rewrite (bind_Ret _ _ _ (Some true) (c, w)) by done.
  unfold mbind at 1, cm_bind at 1. unfold ps_next_fd_, get_ctx, reads, mbind, cm_bind, int_chk. cbn [fst]. by rewrite Hint.
Qed.

Lemma afs_fd_overflow_witness :
  afs_reserve kernel_env 3 junk0 (ctx_of [node 0 INT_MAX (worker proc_st_avail_ false proc_cmd_none_ proc_res_ok_) proc_cmd_none_;
    node 1 (-1) (worker proc_st_avail_ false proc_cmd_none_ proc_res_ok_) proc_cmd_none_] false, kernel0) = Undef.
Proof.
  eapply (afs_fd_overflow kernel_env 3 junk0 _ kernel0 [node 0 INT_MAX (worker proc_st_avail_ false proc_cmd_none_ proc_res_ok_) proc_cmd_none_]
    (node 1 (-1) (worker proc_st_avail_ false proc_cmd_none_ proc_res_ok_) proc_cmd_none_) []);
    [|reflexivity|by constructor|done|done|by left|done].
  apply ctx_of_awf; [cbn; lia|by apply (bool_decide_unpack _); vm_compute| |].
  - constructor; [|constructor; [|constructor]]; (split; [cbn; lia|]; split; [by apply worker_pwf|cbn; unfold INT_MAX; lia]).
  - intros q r Hq Hr. repeat (apply elem_of_cons in Hq as [->|Hq]; [repeat (apply elem_of_cons in Hr as [->|Hr]; [done|]); by apply not_elem_of_nil in Hr|]).
    by apply not_elem_of_nil in Hq.
Defined.

(** C21. A stop is finished: a stop was requested and every worker was told to
    exit and has ended - [poll] reports that its end of the socket is closed, or,
    asked just before that, its answer.  The next update deletes all workers, and
    the last event it reports is [afs_ev_stop], with no descriptor: the client is
    told of the stop although the update of each worker that hung up reports a
    failed stop to it. *)
Theorem afs_stop_completes {W} (E : os_penv W) `{!ParentLaws E} fuel fds c w :
  awf c -> pintr w < fuel -> a_is_stop_req c = true -> a_ps c <> [] -> Forall (exit_answered fds) (a_ps c) ->
  exists c' w' os, afs_update E fuel fds (c, w) = Ret (tt, (c', w')) /\ awf c' /\ a_ps c' = [] /\
    evs_seen c' = os ++ [((-1)%Z, afs_ev_stop)].
Proof.
  intros Hwf Hf Hstop Hne Hall. pose proof Hwf as [Hl [_ A2 _ _ _ A6]]. destruct (a_evs c) as [l|] eqn:Hev.
  2:{ cbn in A2. destruct (a_ps c); [done|]. cbn in A6. unfold proc_evs_maxlen_ in A6. lia. }
  destruct A2 as [A2 _]. pose proof (afs_update_array_wp E fuel (fun c1 => a_ps c1 = []) fds c w l Hwf Hf Hev) as Hrun.
  destruct (wp_Ret _ _ _ (Hrun ltac:(eapply (update_loop_exited_wp E fuel fds (a_ps c) (with_a_evs_len 0 c) w l);
    [done|done|done|done|done|cbn; unfold proc_evs_maxlen_ in *; lia|done])))
    as ([] & [c' w'] & Hr & c1 & os & Hnil & _ & Hwf' & _ & _ & Hseen1 & Hps & _ & _ & _ & Hseen).
  exists c', w', (concat os). cbn [fst] in *. split; [done|]. split; [done|]. split; [by rewrite Hps|].
  by rewrite Hseen, Hseen1, Hstop, Hnil.
Qed.

(** Two workers, one of them in use, that have exited; one has hung up, the answer
    of the other is there. *)
Definition hung_up (x : Z) : pollfd := {| pfd_fd := x; pfd_events := POLLIN; pfd_revents := Z.lor POLLIN POLLHUP |}.
Definition exited (id : nat) (x y : Z) : ps_ :=
  node id x (with_p_fd y (worker proc_st_busy_ true proc_cmd_exit_ proc_res_ok_)) proc_cmd_none_.

Lemma afs_stop_completes_witness :
  exists c' w' os, afs_update kernel_env 3 [hung_up 4; ready 5] (ctx_of [exited 0 3 4; exited 1 (-1) 5] true, kernel0) = Ret (tt, (c', w')) /\
    awf c' /\ a_ps c' = [] /\ evs_seen c' = os ++ [((-1)%Z, afs_ev_stop)].
Proof.
  apply (afs_stop_completes kernel_env 3 [hung_up 4; ready 5] (ctx_of [exited 0 3 4; exited 1 (-1) 5] true) kernel0);
    [|cbn; lia|done|done|].
  - destruct (worker_pwf proc_st_busy_ true proc_cmd_exit_ proc_res_ok_) as [H1 H2 _]; [done|].
    apply ctx_of_awf; [cbn; lia|by apply (bool_decide_unpack _); vm_compute| |].
    + constructor; [|constructor; [|constructor]]; (split; [cbn; lia|]; split; [|cbn; lia]); (split; [done|done|]); cbn; eexists _, _; by split.
    + intros q r Hq Hr. repeat (apply elem_of_cons in Hq as [->|Hq]; [repeat (apply elem_of_cons in Hr as [->|Hr]; [done|]); by apply not_elem_of_nil in Hr|]).
      by apply not_elem_of_nil in Hq.
  - constructor; [|constructor; [|constructor]]; (split; [done|]; eexists _, _; split; [done|]; split; [done|]); [by left|by right].
Defined.
