(* ===== verification/AfsSave.v ===== *)
(** * Saving a file, end to end

    The three parts of the asynchronous file system together: the client fills
    the buffer of a worker and calls [afs_write_fsync_close] ([Afs]), the worker
    executes the command it finds in the shared memory ([AfsChild]), and the
    next [afs_update] reads its answer ([AfsProc]).  The client is told that the
    file is saved only when its bytes, all and in order, were written to the
    path it gave, synced and closed. *)

From stdpp Require Import base list numbers strings option.
From S2P Require Import Prelude AfsChild AfsChildProps AfsProc AfsProcProps Afs AfsProps AfsLife.

(** The worker's calls saved [data] in the open file [y]. *)
Definition saved (data : list char) (y : Z) (evs : list sysev) : Prop :=
  y <> (-1)%Z /\ exists ws v, evs = ws ++ [Sys_fsync y v; Sys_close y] /\ v <> (-1)%Z /\ Forall (is_write y) ws /\
    (ws ≫= taken) = data.

(** ** The worker *)
Section worker.
Context {V : Type} (Ec : os_env V) `{!WriteLaws Ec}.

(** The command [proc_cmd_write_fsync_close_] in the loop of the worker. *)
Lemma exec_wfc_wp fuel path (k : child (V * list sysev)) : cmd (c_sh k) = proc_cmd_write_fsync_close_ ->
  cstr (drop (write_len (c_sh k)) (c_rw k)) = Some path -> write_len (c_sh k) <= length (c_rw k) ->
  write_len (c_sh k) + intr (c_w k).1 < fuel ->
  wp (child_exec_ (logged Ec) fuel) (fun ex k' => ex = false /\ c_rw k' = c_rw k /\ cmd (c_sh k') = cmd (c_sh k) /\
    exists y evs, log k' = log k ++ Sys_open path (open_flags (c_sh k)) y :: evs /\
      (res (c_sh k') = proc_res_ok_ -> saved (take (write_len (c_sh k)) (c_rw k)) y evs)) k.
Proof.
  intros Hcmd Hpath Hlen Hf. unfold child_exec_, upd_sh. wp_step. cbn [c_sh with_res with_child_st cmd]. rewrite Hcmd.
  set (k1 := {| c_sh := _ |}). eapply wp_mono; [by apply (wfc_wp Ec fuel path k1)|].
  intros r k' ((Hrw & _ & _ & _ & Hc & _) & y & evs & Hlog & Hcase). wp_step.
  split; [done|]. split; [exact Hrw|]. split; [etransitivity; [exact Hc|exact Hcmd]|]. exists y, evs. split; [exact Hlog|].
  cbn [c_sh res with_res with_child_st]. intros ->. destruct Hcase as [(_ & _ & ? & _)|(Hy & ws & tail & -> & Hws & _ & _ & Hend)]; [done|].
  destruct Hend as [(_ & Hdata & v & Hv & ->)|[? _]]; [|done]. split; [done|]. by exists ws, v.
Qed.
End worker.

(** ** The answer *)
Section answer.
Context {W : Type} (E : os_penv W) `{!ParentLaws E} (fuel : nat).

(** A busy worker in use that answers: the result of its command is among the
    events. *)
Lemma answer_seen fds c w q s rw t : awf c -> pintr w < fuel -> q ∈ a_ps c -> p_st (ps_p q) = proc_st_busy_ ->
  p_mapped (ps_p q) = Some (s, rw) -> cmd s = proc_cmd_write_fsync_close_ ->
  hup_ (revents_of_ (p_fd (ps_p q)) fds) = false -> in_ (revents_of_ (p_fd (ps_p q)) fds) = true ->
  t = (if decide (res s = proc_res_ok_) then afs_ev_write_fsync_close else afs_ev_write_fsync_close_fail) ->
  exists c' w', afs_update E fuel fds (c, w) = Ret (tt, (c', w')) /\ awf c' /\ (ps_fd q, t) ∈ evs_seen c'.
Proof.
  intros Hwf Hf Hq Hst Hm Hcmd Hh Hin Ht.
  assert (a_is_stop_req c = true -> a_evs c <> None) as Hstop.
  { intros _ Hnone. destruct Hwf as [_ [_ A2 _ _ _ A6]]. rewrite Hnone in A2. cbn in A2.
    destruct (a_ps c); [by apply not_elem_of_nil in Hq|]. cbn in A6. unfold proc_evs_maxlen_ in A6. lia. }
  destruct (wp_Ret _ _ _ (afs_update_wp E fuel fds c w Hwf Hf Hstop)) as ([] & [c' w'] & Hr & os & Hwf' & _ & _ & _ & Hos & Hseen).
  exists c', w'. split; [done|]. split; [done|]. cbn [fst] in *. rewrite Hseen. apply elem_of_app. left.
  destruct (proj1 (list_elem_of_lookup _ _) Hq) as [i Hi]. destruct (Forall2_lookup_l _ _ _ _ _ Hos Hi) as (o & Ho & Hout).
  assert (o = [(ps_fd q, t)]) as ->.
  { unfold node_out in Hout. unfold update_types in Hout. rewrite Hst, Hm, Hh, Hin, Hcmd in Hout.
    subst t. by destruct (decide (res s = proc_res_ok_)). }
  apply list_elem_of_In, in_concat. exists [(ps_fd q, t)]. split; [|by left]. apply list_elem_of_In. by eapply list_elem_of_lookup_2.
Qed.
End answer.

(** ** The call *)
Lemma node_of_inj x l l1 q l2 l1' q' l2' : node_of x l l1 q l2 -> node_of x l l1' q' l2' -> l1 = l1' /\ q = q' /\ l2 = l2'.
Proof.
  intros (H1 & F1 & E1 & _) (H2 & F2 & E2 & _).
  pose proof (list_find_middle (fun r => ps_fd r = x) l1 q l2 F1 E1) as G1.
  pose proof (list_find_middle (fun r => ps_fd r = x) l1' q' l2' F2 E2) as G2.
  rewrite <- H1 in G1. rewrite <- H2 in G2. rewrite G1 in G2. injection G2 as Hlen ->.
  rewrite H1 in H2. apply app_inj_1 in H2 as [-> H2]; [|done]. by injection H2 as ->.
Qed.

(** Success on an available worker means that it got the command. *)
Lemma wfc_out_sent x path flags n l l' l1 q l2 s rw : wfc_out x path flags n l afs_ok l' -> node_of x l l1 q l2 ->
  p_st (ps_p q) = proc_st_avail_ -> p_mapped (ps_p q) = Some (s, rw) ->
  exists q', l' = l1 ++ q' :: l2 /\ p_st (ps_p q') = proc_st_busy_ /\ ps_fd q' = x /\
    p_mapped (ps_p q') = Some (with_cmd proc_cmd_write_fsync_close_ (with_write_len n (with_open_flags flags s)),
      splice rw n (path ++ [ch_nul])).
Proof.
  intros Hout Hn Hst Hm. inversion Hout as [| | |l1' q' l2' s' rw' q1 Hn' Hm' _ Hst' Hb Hfd Hm1| |l1' q' l2' s' rw' Hn' Hm' _ Hst'|]; subst.
  - destruct (node_of_inj _ _ _ _ _ _ _ _ Hn Hn') as (-> & -> & ->). rewrite Hm in Hm'. injection Hm' as <- <-. by exists q1.
  - destruct (node_of_inj _ _ _ _ _ _ _ _ Hn Hn') as (-> & -> & ->). congruence.
Qed.

(** The buffer with the path behind the data. *)
Lemma filled_buffer path data rest : no_nul path -> length path + 1 <= length rest ->
  let rw := splice (data ++ rest) (length data) (path ++ [ch_nul]) in
  cstr (drop (length data) rw) = Some path /\ take (length data) rw = data /\ length rw = length (data ++ rest).
Proof.
  intros Hnul Hroom rw. assert (rw = data ++ path ++ ch_nul :: drop (length data + length (path ++ [ch_nul])) (data ++ rest)) as ->.
  { subst rw. unfold splice. by rewrite take_app_length, <- app_assoc. }
  rewrite drop_app_length, take_app_length. split; [by apply cstr_app_nul|]. split; [done|].
  rewrite !length_app. cbn. rewrite length_drop, !length_app. cbn. lia.
Qed.

(** ** Claims *)

(** C11. Saving a file: the client has put [data] into the buffer of a worker that is
    available, and calls [afs_write_fsync_close] with its length and a path that
    fits behind it.  The call returns; when it reports success, the worker finds
    the command in the shared memory, its execution ends whatever the kernel
    does to its writes, and the first call it makes opens that path with those
    flags; the update that follows the worker's answer reports the result with
    the client's descriptor, and it is [afs_ev_write_fsync_close] only if the
    writes put exactly [data] into the file, in order, before an [fsync] that
    did not fail and the [close]. *)
Theorem afs_save_file {W V} (E : os_penv W) `{!ParentLaws E} (Ec : os_env V) `{!WriteLaws Ec} fuel
    path flags data rest c w l1 q l2 s :
  awf c -> pintr w < fuel -> node_of (ps_fd q) (a_ps c) l1 q l2 -> p_st (ps_p q) = proc_st_avail_ ->
  p_mapped (ps_p q) = Some (s, data ++ rest) -> no_nul path -> length path + 1 <= length rest ->
  (Z.of_nat (length (data ++ rest)) < 2 ^ 64)%Z ->
  exists r c1 w1, afs_write_fsync_close E fuel (ps_fd q) path flags (Z.of_nat (length data)) (c, w) = Ret (r, (c1, w1)) /\ awf c1 /\
  (r = afs_ok -> exists q1 s1 rw1, q1 ∈ a_ps c1 /\ ps_fd q1 = ps_fd q /\ p_mapped (ps_p q1) = Some (s1, rw1) /\
    forall (k : child (V * list sysev)) n, c_sh k = s1 -> c_rw k = rw1 -> length data + intr (c_w k).1 < n ->
    exists k' y evs, child_exec_ (logged Ec) n k = Ret (false, k') /\ log k' = log k ++ Sys_open path flags y :: evs /\
    forall fds w2, pintr w2 < fuel -> hup_ (revents_of_ (p_fd (ps_p q1)) fds) = false -> in_ (revents_of_ (p_fd (ps_p q1)) fds) = true ->
    exists c2 c3 w3 t, memory (ps_id q1) (c_sh k') (c_rw k') (c1, w2) = Ret (tt, (c2, w2)) /\
      afs_update E fuel fds (c2, w2) = Ret (tt, (c3, w3)) /\ awf c3 /\ (ps_fd q, t) ∈ evs_seen c3 /\
      ((t = afs_ev_write_fsync_close /\ saved data y evs) \/ t = afs_ev_write_fsync_close_fail)).
Proof.
  intros Hwf Hf Hnode Hst Hm Hnul Hroom Hbig. pose proof Hnode as (Hc & Hl1 & _ & Hx).
  rewrite length_app in Hbig. assert (size_ok path (Z.of_nat (length data))) as Hsize by (split; lia).
  destruct (wp_Ret _ _ _ (afs_wfc_wp E fuel (ps_fd q) path flags (Z.of_nat (length data)) c w Hwf Hf Hsize))
    as (r & [c1 w1] & Hr & [Hwf1 _] & Hout). cbn [fst] in *. rewrite Nat2Z.id in Hout.
  exists r, c1, w1. split; [done|]. split; [done|]. intros ->.
  destruct (wfc_out_sent _ _ _ _ _ _ _ _ _ _ _ Hout Hnode Hst Hm) as (q1 & Hc1 & Hst1 & Hfd1 & Hm1).
  destruct (filled_buffer path data rest Hnul Hroom) as (Hpath & Hdata & Hlen).
  exists q1. eexists _, _. split; [rewrite Hc1; apply in_middle; auto|]. split; [done|]. split; [exact Hm1|].
  intros k n Hsh Hrw Hn. destruct (wp_Ret _ _ _ (exec_wfc_wp Ec n path k ltac:(by rewrite Hsh) ltac:(by rewrite Hsh, Hrw)
    ltac:(rewrite Hsh, Hrw, Hlen, length_app; cbn; lia) ltac:(rewrite Hsh; cbn; lia))) as (ex & k' & Hrun & -> & Hrw' & Hcmd & y & evs & Hlog & Hsaved).
  rewrite Hsh in Hlog, Hcmd, Hsaved. rewrite Hrw in Hrw', Hsaved. cbn in Hlog, Hcmd, Hsaved. rewrite Hdata in Hsaved.
  exists k', y, evs. split; [done|]. split; [done|]. intros fds w2 Hf2 Hh Hin.
  rewrite Hrw'. pose proof (awf_at _ _ _ _ Hwf1 Hc1) as Hat. set (q2 := stored q1 (c_sh k') (splice (data ++ rest) (length data) (path ++ [ch_nul]))).
  assert (awf (with_a_ps (l1 ++ q2 :: l2) c1)) as Hwf2 by (by eapply stored_awf).
  destruct (answer_seen E fuel fds (with_a_ps (l1 ++ q2 :: l2) c1) w2 q2 (c_sh k')
    (splice (data ++ rest) (length data) (path ++ [ch_nul])) _ Hwf2 Hf2 ltac:(apply in_middle; auto) Hst1 eq_refl Hcmd Hh Hin eq_refl)
    as (c3 & w3 & Hupd & Hwf3 & Hseen).
  eexists _, c3, w3, _. split; [|split; [exact Hupd|split; [done|]]].
  - unfold memory, upd_ctx, modc. cbn [fst snd]. rewrite Hc1, set_ps_middle, Hm1, decide_True by (done || apply Hat). done.
  - split; [by rewrite <- Hfd1|]. destruct (decide (res (c_sh k') = proc_res_ok_)); [left; auto|by right].
Qed.

(** Three bytes of data in the buffer of an available worker. *)
Definition holding : ps_ := node 0 3 (worker proc_st_avail_ false proc_cmd_none_ proc_res_ok_) proc_cmd_none_.

Lemma holding_awf : awf (ctx_of [holding] false).
Proof.
  apply ctx_of_awf; [cbn; lia|apply list.NoDup_singleton| |].
  - constructor; [|constructor]. split; [cbn; lia|]. split; [by apply worker_pwf|cbn; lia].
  - by intros q r ->%list_elem_of_singleton ->%list_elem_of_singleton.
Defined.

Lemma afs_save_file_witness :
  exists c1 w1, afs_write_fsync_close kernel_env 3 3 (lit "ab") 577 3 (ctx_of [holding] false, kernel0) = Ret (afs_ok, (c1, w1)) /\
  exists q1 s1 rw1, q1 ∈ a_ps c1 /\ p_mapped (ps_p q1) = Some (s1, rw1) /\
  exists k' y evs, child_exec_ (logged disk_env) 10 {| c_sh := s1; c_rw := rw1; c_fd := (-1)%Z;
      c_w := ({| d_script := [Some 1; None]; d_errno := 0 |}, []) |} = Ret (false, k') /\
    log k' = Sys_open (lit "ab") 577 y :: evs.
Proof.
  destruct (afs_save_file kernel_env disk_env 3 (lit "ab") 577 [0; 0; 0]%Z (replicate 5 0%Z) (ctx_of [holding] false) kernel0 [] holding []
    {| cmd := proc_cmd_none_; write_len := 0; open_flags := 0; res := proc_res_ok_; child_st := proc_child_st_idle_;
       written := 7; read_len := 0; sh_fail := fail0 |}) as (r & c1 & w1 & Hr & _ & Hok);
    [apply holding_awf|cbn; lia|done|done|reflexivity|by repeat constructor|cbn; lia|done|].
  assert (r = afs_ok) as ->.
  { assert ((fun a => a.1) <$> ret_of (afs_write_fsync_close kernel_env 3 3 (lit "ab") 577 3 (ctx_of [holding] false, kernel0)) = Some afs_ok)
      as H by (vm_compute; reflexivity). change (Z.of_nat (length [0; 0; 0]%Z)) with 3%Z in Hr. cbn [ps_fd holding node] in Hr.
    rewrite Hr in H. by injection H. }
  exists c1, w1. split; [exact Hr|]. destruct (Hok eq_refl) as (q1 & s1 & rw1 & H1 & _ & H2 & Hrun). exists q1, s1, rw1.
  split; [done|]. split; [done|]. destruct (Hrun {| c_sh := s1; c_rw := rw1; c_fd := (-1)%Z;
    c_w := ({| d_script := [Some 1; None]; d_errno := 0 |}, []) |} 10 eq_refl eq_refl ltac:(cbn; lia)) as (k' & y & evs & H3 & H4 & _).
  by exists k', y, evs.
Defined.
