(* ===== verification/AfsDemo.v ===== *)
(** * The demo program of the asynchronous file system ([src/src/afs.c], lines 1588-1753)

    The only client of [afs]: it makes a directory, copies one file to another
    chunk by chunk, writes a third one in one command and stops.  [poll] blocks
    while the workers run, and they change the memory they share with the
    program meanwhile: it is an action on the whole state.  A pointer into a
    mapping is its address; loads and stores through it go to the node whose
    buffer starts there.

    The second half is a machine with a file system in which the workers execute
    [AfsChild.child_exec_] while the program waits in [poll]: a schedule says which
    of those that were told something do, and a function how many bytes a write
    takes.  A worker that has exited hangs up.  [AfsCopy] proves what a run on it
    does. *)

From stdpp Require Import base list numbers strings option.
From S2P Require Import Prelude AfsChild AfsProc AfsProcProps Afs AfsProps.

Definition O_RDWR : Z := 2.
Definition O_CREAT : Z := 64.
Definition O_NOCTTY : Z := 256.

(** The results as [int]s, for the message of a failed check. *)
Definition afs_res_code (r : afs_res) : Z :=
  match r with
  | afs_fail_bad_arg => -4 | afs_fail_bad_fd => -3 | afs_fail_alloc => -2 | afs_fail => -1 | afs_ok => 1
  end.

(** A string literal as the [#] operator spells it. *)
Definition quoted (s : list char) : list char := ch_quote :: s ++ [ch_quote].

Section demo.
Context {W : Type} (E : os_penv W) (fuel : nat) (junk : proc_) (strerror : Z -> list char).
Context (poll : list pollfd -> CM (afs_ctx * W) (Z * list pollfd)).
Abbreviation M := (CM (afs_ctx * W)) (only parsing).

(** [SOB_AFS_DEMO_CHECK_(stmt)] at a line of the source, without and with an out
    parameter. *)
Definition check_fail_ {A} (line : Z) (stmt : list char) (r : afs_res) : M A :=
  sob_panic (lit "afs.c") line (lit "fail " ++ print_int (afs_res_code r) ++ lit " @ '" ++ stmt ++ lit "'").
Definition check_ (line : Z) (stmt : list char) (m : M afs_res) : M unit :=
  r ← m; if decide (r = afs_ok) then mret tt else check_fail_ line stmt r.
Definition check_out_ {A} (line : Z) (stmt : list char) (m : M (afs_res * option A)) : M A :=
  r ← m;
  if decide (r.1 = afs_ok) then match r.2 with Some x => mret x | None => undef end
  else check_fail_ line stmt r.1.

(** The events of the next update that has any; [None] is -1.  [line] is the
    caller's, for the messages. *)
Fixpoint update_ (n : nat) (line : Z) : M (option (list afs_ev)) :=
  match n with
  | O => undef
  | S n =>
      fds ← afs_pollfds;
      if decide (0 < length (fds : list pollfd)) then
        r ← poll fds;
        e ← reads (fun s => p_errno E s.2);
        if (r.1 =? -1)%Z then
          sob_panic (lit "afs.c") 1605 (lit "poll: " ++ strerror e ++ lit "; line " ++ print_int line)
        else
        afs_update E fuel r.2 ;;
        evs ← afs_evs;
        if decide (0 < length (evs : list afs_ev)) then
          if existsb afs_ev_is_fail evs then sob_panic (lit "afs.c") 1625 (lit "fail; line " ++ print_int line)
          else mret (Some evs)
        else update_ n line
      else mret None
  end.

(** [remain_evs--] on a [size_t] of 64 bits. *)
Definition size_pred (n : Z) : Z := ((n - 1) mod 2 ^ 64)%Z.

(** An event fills the first of the [len] awaited ones of its type. *)
Definition match_ev_ (len : nat) (s : list afs_ev * Z) (e : afs_ev) : list afs_ev * Z :=
  match list_find (fun x => ev_ty x = ev_ty e) (take len s.1) with
  | Some (i, _) => (<[i := e]> s.1, size_pred s.2)
  | None => s
  end.

Fixpoint wait_loop_ (line : Z) (n len : nat) (evs : list afs_ev) (remain : Z) : M (list afs_ev) :=
  match n with
  | O => undef
  | S n =>
      if (0 <? remain)%Z then
        r ← update_ fuel line;
        match r with
        | None => sob_panic (lit "afs.c") 1645 (lit "some events never fired; line " ++ print_int line)
        | Some l => let s := foldl (match_ev_ len) (evs, remain) l in wait_loop_ line n len s.1 s.2
        end
      else mret evs
  end.

Definition wait_evs_ (line : Z) (evs : list afs_ev) (len : nat) : M (list afs_ev) :=
  wait_loop_ line fuel len evs (Z.of_nat len).

(** [evs[i].ty = t] *)
Definition set_ty (i : nat) (t : afs_event) (evs : list afs_ev) : list afs_ev :=
  alter (ev_with_ty t) i evs.

(** Loads and stores through a pointer to a shared buffer. *)
Definition at_addr (a : Z) (q : ps_) : Prop := (p_mmap_start (ps_p q) + Z.of_nat sizeof_proc_shared_ = a)%Z.
#[export] Instance at_addr_dec a q : Decision (at_addr a q).
Proof. unfold at_addr. apply _. Defined.

Definition load_ (a : Z) (n : nat) : M (list char) :=
  c ← get_ctx;
  match list_find (at_addr a) (a_ps c) with
  | Some (_, q) =>
      match p_mapped (ps_p q) with
      | Some (_, rw) => if decide (n <= length rw) then mret (take n rw) else undef
      | None => undef
      end
  | None => undef
  end.

Definition store_ (a : Z) (d : list char) : M unit :=
  c ← get_ctx;
  match list_find (at_addr a) (a_ps c) with
  | Some (_, q) => on_ps (ps_id q) (rw_put 0%Z d (fun s => s))
  | None => undef
  end.

(** The copy loop of [main]: lines 1702-1722. *)
Fixpoint copy_loop_ (n : nat) (fd_a fd_b : Z) (should_wait_write : bool) (evs : list afs_ev) : M (list afs_ev) :=
  match n with
  | O => undef
  | S n =>
      check_ 1703 (lit "afs_readall(c, fd_a)") (afs_readall E fuel fd_a) ;;
      let evs := set_ty 0 afs_ev_readall evs in
      let evs := if should_wait_write then set_ty 1 afs_ev_write evs else evs in
      evs ← wait_evs_ 1708 evs (if should_wait_write then 2 else 1);
      match (evs : list afs_ev) !! 0 with
      | None => undef
      | Some e =>
          if decide (ev_len e = 0) then mret evs
          else
            b ← check_out_ 1714 (lit "afs_get_rw_buf(c, fd_b, &b_rw_buf, &b_rw_buf_len)") (afs_get_rw_buf E fd_b);
            if decide ((b : Z * nat).2 < ev_len e) then sob_panic (lit "afs.c") 1716 (lit "buf too short")
            else
              d ← load_ (ev_data e) (ev_len e);
              store_ b.1 d ;;
              check_ 1720 (lit "afs_write(c, fd_b, evs[0].d.readall.len)") (afs_write E fuel fd_b (ev_len e)) ;;
              copy_loop_ n fd_a fd_b true evs
      end
  end.

Definition write_str : list char := lit "Hello, world!" ++ [ch_lf].
Definition demo_dir : list char := lit "/tmp/SOB_AFS_DEMO".
Definition demo_file : list char := lit "/tmp/SOB_AFS_DEMO/hello.txt".

(** From the end of the copy on: lines 1724-1752. *)
Definition demo_finish_ (fd_a fd_b : Z) (evs : list afs_ev) : M Z :=
  check_ 1724 (lit "afs_fsync(c, fd_b)") (afs_fsync E fuel fd_b) ;;
  evs ← wait_evs_ 1726 (set_ty 0 afs_ev_fsync evs) 1;
  check_ 1728 (lit "afs_close(c, fd_a)") (afs_close E fuel fd_a) ;;
  check_ 1729 (lit "afs_close(c, fd_b)") (afs_close E fuel fd_b) ;;
  evs ← wait_evs_ 1732 (set_ty 1 afs_ev_close (set_ty 0 afs_ev_close evs)) 2;
  fd_write ← check_out_ 1734 (lit "afs_reserve(c, &fd_write)") (afs_reserve E fuel junk);
  b ← check_out_ 1735 (lit "afs_get_rw_buf(c, fd_write, &write_rw_buf, &write_rw_buf_len)") (afs_get_rw_buf E fd_write);
  store_ b.1 write_str ;;
  check_ 1738 (lit "afs_write_fsync_close( c, fd_write, " ++ quoted demo_file ++
      lit ", O_RDWR | O_CREAT | O_NOCTTY, sizeof(write_str) - 1)")
    (afs_write_fsync_close E fuel fd_write demo_file (Z.lor O_RDWR (Z.lor O_CREAT O_NOCTTY)) (Z.of_nat (length write_str))) ;;
  evs ← wait_evs_ 1744 (set_ty 0 afs_ev_write_fsync_close evs) 1;
  check_ 1746 (lit "afs_stop_prep(c)") (afs_stop_prep E fuel) ;;
  wait_evs_ 1748 (set_ty 0 afs_ev_stop evs) 1 ;;
  check_ 1750 (lit "afs_stop(c)") (afs_stop E) ;;
  mret 0%Z.

(** [main]; [evs] is the array before it is used. *)
Definition demo_main (argv : list (list char)) (evs : list afs_ev) : M Z :=
  match argv with
  | [_; path_a; path_b] =>
      afs_init ;;
      mkdir_fd ← check_out_ 1691 (lit "afs_mkdir(c, " ++ quoted demo_dir ++ lit ", &mkdir_fd)")
        (afs_mkdir E fuel junk demo_dir);
      fd_a ← check_out_ 1693 (lit "afs_open(c, path_a, O_RDONLY | O_NOCTTY, &fd_a)")
        (afs_open E fuel junk path_a (Z.lor O_RDONLY O_NOCTTY));
      fd_b ← check_out_ 1695 (lit "afs_open(c, path_b, O_RDWR | O_CREAT | O_NOCTTY, &fd_b)")
        (afs_open E fuel junk path_b (Z.lor O_RDWR (Z.lor O_CREAT O_NOCTTY)));
      evs ← wait_evs_ 1700 (set_ty 2 afs_ev_mkdir (set_ty 1 afs_ev_open (set_ty 0 afs_ev_open evs))) 3;
      evs ← copy_loop_ fuel fd_a fd_b false evs;
      demo_finish_ fd_a fd_b evs
  | _ => mret 1%Z
  end.
End demo.

(** ** A machine

    A kernel with a flat file system, of which the program can be run and proved:
    files and directories by their names, which are canonical; open files with
    their offset; the bytes under way to the workers and to the parent, by the
    parent's descriptor, and the workers that have ended; the file each worker has
    open; [errno].  Files are opened without looking at permissions and at the
    directory they are in, and calls are not interrupted. *)
Record mach := {
  m_next : Z;
  m_files : list (list char * list char);
  m_dirs : list (list char);
  m_open : list (Z * (list char * nat));
  m_up : list Z;
  m_down : list Z;
  m_gone : list Z;
  m_cfd : list (Z * Z);
  m_errno : Z
}.

Definition m_fresh (m : mach) : mach :=
  {| m_next := m_next m + 1; m_files := m_files m; m_dirs := m_dirs m; m_open := m_open m; m_up := m_up m;
     m_down := m_down m; m_gone := m_gone m; m_cfd := m_cfd m; m_errno := m_errno m |}.
Definition m_set_files f o (m : mach) : mach :=
  {| m_next := m_next m; m_files := f; m_dirs := m_dirs m; m_open := o; m_up := m_up m;
     m_down := m_down m; m_gone := m_gone m; m_cfd := m_cfd m; m_errno := m_errno m |}.
Definition m_set_dirs l (m : mach) : mach :=
  {| m_next := m_next m; m_files := m_files m; m_dirs := l; m_open := m_open m; m_up := m_up m;
     m_down := m_down m; m_gone := m_gone m; m_cfd := m_cfd m; m_errno := m_errno m |}.
Definition m_set_bytes u d (m : mach) : mach :=
  {| m_next := m_next m; m_files := m_files m; m_dirs := m_dirs m; m_open := m_open m; m_up := u;
     m_down := d; m_gone := m_gone m; m_cfd := m_cfd m; m_errno := m_errno m |}.
Definition m_set_gone l (m : mach) : mach :=
  {| m_next := m_next m; m_files := m_files m; m_dirs := m_dirs m; m_open := m_open m; m_up := m_up m;
     m_down := m_down m; m_gone := l; m_cfd := m_cfd m; m_errno := m_errno m |}.
Definition m_set_cfd l (m : mach) : mach :=
  {| m_next := m_next m; m_files := m_files m; m_dirs := m_dirs m; m_open := m_open m; m_up := m_up m;
     m_down := m_down m; m_gone := m_gone m; m_cfd := l; m_errno := m_errno m |}.
Definition m_set_errno e (m : mach) : mach :=
  {| m_next := m_next m; m_files := m_files m; m_dirs := m_dirs m; m_open := m_open m; m_up := m_up m;
     m_down := m_down m; m_gone := m_gone m; m_cfd := m_cfd m; m_errno := e |}.

(** Association lists. *)
Definition assoc {A B} `{EqDecision A} (k : A) (l : list (A * B)) : option B :=
  snd <$> (snd <$> list_find (fun x => x.1 = k) l).
Definition assoc_set {A B} `{EqDecision A} (k : A) (v : B) (l : list (A * B)) : list (A * B) :=
  (k, v) :: filter (fun x => x.1 <> k) l.

Definition m_content (p : list char) (m : mach) : list char := default [] (assoc p (m_files m)).

(** A file or a directory has this name. *)
Definition m_exists (p : list char) (m : mach) : bool :=
  bool_decide (p ∈ m_dirs m) || match assoc p (m_files m) with Some _ => true | None => false end.

(** The bytes written at an offset of a file, which may grow. *)
Definition put_at (old : list char) (off : nat) (d : list char) : list char :=
  take off old ++ d ++ drop (off + length d) old.

Definition ENOENT : Z := 2.
Definition EBADF : Z := 9.
Definition EISDIR : Z := 21.
Definition EPIPE : Z := 32.
Definition S_IFREG : Z := 32768.
(** A call that fails. *)
Definition m_fails (e : Z) (m : mach) : Z * mach := ((-1)%Z, m_set_errno e m).

(** The calls of the workers; a write of [n] bytes takes the first [chunk n]. *)
Definition mach_os (chunk : nat -> nat) : os_env mach := {|
  os_errno := m_errno;
  os_open p flags m :=
    let opened f := (m_next m, m_set_files f ((m_next m, (p, 0)) :: m_open m) (m_fresh m)) in
    if bool_decide (p ∈ m_dirs m) then
      if (Z.land flags 3 =? 0)%Z then opened (m_files m) else m_fails EISDIR m
    else if m_exists p m then opened (m_files m)
    else if (Z.land flags O_CREAT =? 0)%Z then m_fails ENOENT m
    else opened (assoc_set p [] (m_files m));
  os_close x m := m_set_files (m_files m) (filter (fun e => e.1 <> x) (m_open m)) m;
  os_fsync x m := match assoc x (m_open m) with Some _ => (0%Z, m) | None => m_fails EBADF m end;
  os_write x d m :=
    match assoc x (m_open m) with
    | Some (p, off) =>
        let d := take (chunk (length d)) d in
        (Z.of_nat (length d),
         m_set_files (assoc_set p (put_at (m_content p m) off d) (m_files m))
           (assoc_set x (p, off + length d) (m_open m)) m)
    | None => m_fails EBADF m
    end;
  os_read x n m :=
    match assoc x (m_open m) with
    | Some (p, off) =>
        let d := take n (drop off (m_content p m)) in
        (Z.of_nat (length d), d, m_set_files (m_files m) (assoc_set x (p, off + length d) (m_open m)) m)
    | None => ((-1)%Z, [], m_set_errno EBADF m)
    end;
  os_mkdir p m := if m_exists p m then m_fails EEXIST m else (0%Z, m_set_dirs (p :: m_dirs m) m);
  os_stat_mode p m :=
    (if bool_decide (p ∈ m_dirs m) then Some S_IFDIR
     else match assoc p (m_files m) with Some _ => Some S_IFREG | None => None end, m);
  os_realpath p m := (if m_exists p m then Some p else None, m);
  os_wait _ s m := (1%Z, s, m);
  os_notify _ m := (1%Z, m)
|}.

(** The calls of the parent; the pages may have any size. *)
Definition mach_env (pgs : nat) : os_penv mach := {|
  p_errno := m_errno;
  p_pagesize := pgs;
  p_socketpair m := (Some (m_next m, m_next m + 1)%Z, m_fresh (m_fresh m));
  p_getfd _ m := (0%Z, m);
  p_setfd _ _ m := m;
  p_mmap _ m := (Some (m_next m * 65536)%Z, m_fresh m);
  p_munmap _ _ m := m;
  p_fork m := (Some (m_next m), m_fresh m);
  p_close _ m := m;
  p_write1 x m := if decide (x ∈ m_gone m) then m_fails EPIPE m else (1%Z, m_set_bytes (x :: m_up m) (m_down m) m);
  p_read1 x m := m_set_bytes (m_up m) (filter (fun y => y <> x) (m_down m)) m;
  p_kill _ m := m;
  p_waitpid pid m := (pid, m);
  p_malloc _ m := (true, m)
|}.

(** A worker that was told to look executes its command and answers, and ends if
    it was told to; whether it runs now is up to the schedule [pick], which knows
    all workers with something to do and the one at hand. *)
Definition serve (chunk : nat -> nat) (fuel : nat) (pick : list Z -> Z -> bool) (q : ps_) (m : mach) : ps_ * mach :=
  let x := p_fd (ps_p q) in
  match p_mapped (ps_p q) with
  | Some (sh, rw) =>
      if bool_decide (x ∈ m_up m) && pick (m_up m) x then
        match child_exec_ (mach_os chunk) fuel {| c_sh := sh; c_rw := rw; c_fd := default (-1)%Z (assoc x (m_cfd m)); c_w := m |} with
        | Ret (ex, c) =>
            let m1 := m_set_cfd (assoc_set x (c_fd c) (m_cfd (c_w c)))
              (m_set_bytes (filter (fun y => y <> x) (m_up (c_w c))) (x :: m_down (c_w c)) (c_w c)) in
            if (ex : bool) then (stored q (with_child_st proc_child_st_not_started_ (c_sh c)) (c_rw c), m_set_gone (x :: m_gone m1) m1)
            else (stored q (c_sh c) (c_rw c), m1)
        | _ => (q, m)
        end
      else (q, m)
  | None => (q, m)
  end.

Fixpoint serve_all (chunk : nat -> nat) (fuel : nat) (pick : list Z -> Z -> bool) (l : list ps_) (m : mach) : list ps_ * mach :=
  match l with
  | [] => ([], m)
  | q :: l => let '(q, m) := serve chunk fuel pick q m in let '(l, m) := serve_all chunk fuel pick l m in (q :: l, m)
  end.

(** What [poll] reports for a socket: the other end is closed, a byte is there. *)
Definition m_revents (m : mach) (x : Z) : Z :=
  if decide (x ∈ m_gone m) then Z.lor POLLIN POLLHUP else if decide (x ∈ m_down m) then POLLIN else 0%Z.
Definition mark (m : mach) (fds : list pollfd) : list pollfd :=
  (fun f => {| pfd_fd := pfd_fd f; pfd_events := pfd_events f; pfd_revents := m_revents m (pfd_fd f) |}) <$> fds.

Definition mach_poll (chunk : nat -> nat) (fuel : nat) (pick : list Z -> Z -> bool) (fds : list pollfd) : CM (afs_ctx * mach) (Z * list pollfd) :=
  s ← getc;
  let r := serve_all chunk fuel pick (a_ps s.1) s.2 in
  modc (fun s => (with_a_ps r.1 s.1, r.2)) ;;
  let fds := mark r.2 fds in
  mret (Z.of_nat (length (filter (fun f => pfd_revents f <> 0%Z) fds)), fds).

Definition mach0 (files : list (list char * list char)) (dirs : list (list char)) : mach :=
  {| m_next := 3; m_files := files; m_dirs := dirs; m_open := []; m_up := []; m_down := []; m_gone := []; m_cfd := []; m_errno := 0 |}.
Definition junk1 : proc_ := worker proc_st_busy_ true proc_cmd_exit_ proc_res_none_.
Definition ctx1 : afs_ctx := {| a_fail := fail0; a_is_stop_req := true; a_ps := []; a_pfds := None; a_pfds_maxlen := 77;
  a_pfds_len := 5; a_evs := None; a_evs_maxlen := 3; a_evs_len := 9; a_next := 0 |}.

(** Writes of at most four bytes. *)
Definition by_four (n : nat) : nat := n `min` 4.

Definition run_demo (pick : list Z -> Z -> bool) (files : list (list char * list char)) (dirs : list (list char)) :=
  demo_main (mach_env PAGESIZE) 40 junk1 (fun _ => []) (mach_poll by_four 40 pick) [lit "afs_demo"; lit "a"; lit "b"] (replicate 10 zero_ev)
    (ctx1, mach0 files dirs).

(** Schedules: every worker with something to do has run when [poll] returns,
    only the one told first, only the one told last. *)
Definition every (_ : list Z) (_ : Z) : bool := true.
Definition oldest (l : list Z) (x : Z) : bool := bool_decide (head (reverse l) = Some x).
Definition newest (l : list Z) (x : Z) : bool := bool_decide (head l = Some x).

(** What is left after a run: the exit status, the two files written, the
    workers in the list, and the workers told something they have not seen. *)
Definition outcome_of (r : outcome (Z * (afs_ctx * mach))) :=
  (fun '(z, (c, m)) => (z, m_content (lit "b") m, m_content demo_file m, length (a_ps c), length (m_up m)))
    <$> ret_of r.

(** The whole system on one file, with the workers executing their commands in
    three different orders: the program exits with 0, the copy holds the bytes of
    the source and the third file its text.  When the workers answer in the order
    they were told, or all at once, none is left; when the one told last answers
    first, the program exits while a worker it has forgotten still has the
    command to exit before it. *)
Example afs_demo_schedules :
  (fun pick => outcome_of (run_demo pick [(lit "a", lit "some text")] [demo_dir])) <$> [every; oldest; newest] =
  [Some (0%Z, lit "some text", write_str, 0, 0); Some (0%Z, lit "some text", write_str, 0, 0);
   Some (0%Z, lit "some text", write_str, 0, 1)].
Proof. vm_compute. reflexivity. Qed.
