(* ===== verification/AfsCopy.v ===== *)
(** * The demo program copies any file

    The demo program of [src/src/afs.c] with its workers, on the machine of
    [AfsDemo]: whatever the file it is told to copy holds, and whatever it is
    copied over, and however many bytes a write takes.  Every worker that was told
    something runs while the program waits (the schedule [every]).  A run goes
    through few shapes of the context - three workers, each idle or with a
    command - so a call is evaluated on a shape whose data are variables; the
    loop over the chunks of the file is an induction. *)

From stdpp Require Import base list numbers strings option.
From S2P Require Import Prelude AfsChild AfsProc AfsProcProps Afs AfsProps AfsSave AfsDemo.

(** ** Files *)
Section assoc.
Context {A B : Type} `{EqDecision A}.
Implicit Types (k : A) (v : B) (l : list (A * B)).

Lemma assoc_cons k k' v l : assoc k ((k', v) :: l) = if decide (k' = k) then Some v else assoc k l.
Proof.
  unfold assoc. cbn. destruct (decide (k' = k)); [done|]. by destruct (list_find _ l) as [[i y]|].
Qed.

Lemma assoc_filter k k' l : k <> k' -> assoc k (filter (fun x => x.1 <> k') l) = assoc k l.
Proof.
  intros Hk. induction l as [|[a v] l IH]; [done|]. rewrite filter_cons. case_decide as Ha; cbn in Ha.
  - by rewrite !assoc_cons, IH.
  - rewrite assoc_cons, IH. destruct (decide (a = k)) as [->|]; [|done]. by destruct Ha.
Qed.

Lemma assoc_set_eq k v l : assoc k (assoc_set k v l) = Some v.
Proof. unfold assoc_set. rewrite assoc_cons. by rewrite decide_True. Qed.

Lemma assoc_set_ne k k' v l : k <> k' -> assoc k (assoc_set k' v l) = assoc k l.
Proof. intros. unfold assoc_set. rewrite assoc_cons, decide_False by done. by apply assoc_filter. Qed.
End assoc.

Lemma assoc_None_nil {A B} `{EqDecision A} (l : list (A * B)) : (forall k, assoc k l = None) -> l = [].
Proof. intros H. destruct l as [|[k v] l]; [done|]. specialize (H k). by rewrite assoc_cons, decide_True in H. Qed.

Lemma assoc_filter_eq {A B} `{EqDecision A} (k : A) (l : list (A * B)) : assoc k (filter (fun x => x.1 <> k) l) = None.
Proof.
  induction l as [|[a v] l IH]; [done|]. rewrite filter_cons. case_decide as Ha; [|done]. rewrite assoc_cons, decide_False by done. exact IH.
Qed.

(** What a path names in a list of files. *)
Abbreviation content p f := (default [] (assoc p f)).

(** The bytes of [d] up to [k] over the start of [old]. *)
Definition copied (d old : list char) (k : nat) : list char := take k d ++ drop k old.

Lemma put_copied d old k n : k + n <= length d ->
  put_at (copied d old k) k (take n (drop k d)) = copied d old (k + n).
Proof.
  intros Hk. unfold put_at, copied. assert (length (take k d) = k) as Hl by (rewrite length_take; lia).
  rewrite (length_take (drop k d)), length_drop. replace (n `min` (length d - k)) with n by lia.
  rewrite take_app_length' by done. rewrite drop_app_ge by lia. rewrite drop_drop, app_assoc. f_equal.
  - apply take_take_drop.
  - f_equal. lia.
Qed.

(** ** The workers

    The shared record between two commands: no answer is missing. *)
Definition sh_of (c : proc_cmd_) (s : proc_shared_) : proc_shared_ :=
  with_cmd c (with_res proc_res_ok_ (with_child_st proc_child_st_idle_ s)).

(** The directory is there afterwards, made or not. *)
Definition made_dirs (path : list char) (Ds : list (list char)) : list (list char) :=
  if decide (path ∈ Ds) then Ds else path :: Ds.
Definition made_next (path : list char) (Ds : list (list char)) (nx : Z) : Z :=
  if decide (path ∈ Ds) then nx else (nx + 2)%Z.
Definition made_errno (path : list char) (Ds : list (list char)) (e : Z) : Z :=
  if decide (path ∈ Ds) then EEXIST else e.

(** The bytes [d] written at the offset [off] of the file [p], open as [x]. *)
Definition m_written (x : Z) (p : list char) (off : nat) (d : list char) (m : mach) : mach :=
  m_set_files (assoc_set p (put_at (m_content p m) off d) (m_files m)) (assoc_set x (p, off + length d) (m_open m)) m.

Lemma assoc_set_set {A B} `{EqDecision A} (k : A) (v v' : B) (l : list (A * B)) : assoc_set k v' (assoc_set k v l) = assoc_set k v' l.
Proof.
  unfold assoc_set. rewrite filter_cons, decide_False by (intros H; by apply H). f_equal. apply list_filter_filter_l. done.
Qed.

Lemma put_at_app old off d1 d2 : put_at (put_at old off d1) (off + length d1) d2 = put_at old off (d1 ++ d2).
Proof.
  unfold put_at. rewrite length_app. destruct (decide (off <= length old)) as [Hl|Hl].
  - assert (length (take off old) = off) as Ht by (rewrite length_take; lia).
    rewrite (app_assoc (take off old) d1), take_app_length' by (rewrite length_app; lia).
    rewrite (drop_app_ge (take off old ++ d1)) by (rewrite length_app; lia). rewrite drop_drop, length_app, <- !app_assoc.
    do 4 f_equal. lia.
  - rewrite !(drop_ge old), (take_ge old), !app_nil_r by lia. rewrite take_ge, drop_ge, app_nil_r by (rewrite length_app; lia).
    by rewrite app_assoc.
Qed.

Lemma m_written_open x p off d m : assoc x (m_open (m_written x p off d m)) = Some (p, off + length d).
Proof. apply assoc_set_eq. Qed.

Lemma m_written_app x p off d1 d2 m : m_written x p (off + length d1) d2 (m_written x p off d1 m) = m_written x p off (d1 ++ d2) m.
Proof.
  unfold m_written, m_set_files, m_content. cbn [m_next m_files m_dirs m_open m_up m_down m_gone m_cfd m_errno].
  rewrite !assoc_set_set, assoc_set_eq. cbn [default from_option]. unfold id. by rewrite put_at_app, length_app, Nat.add_assoc.
Qed.

Section workers.
Context (ck : nat -> nat) (Hck : forall n, 0 < n -> 0 < ck n) (wf : nat).
Abbreviation os := (mach_os ck) (only parsing).
Abbreviation exec := (child_exec_ os wf) (only parsing).
Implicit Types (s : proc_shared_) (rw path d : list char) (x : Z) (m : mach) (n : nat).
Abbreviation worker_at sh rw x m := {| c_sh := sh; c_rw := rw; c_fd := x; c_w := m |} (only parsing).

Lemma exec_start s rw x m : cmd s = proc_cmd_none_ ->
  exec (worker_at s rw x m) = Ret (false, worker_at (sh_of proc_cmd_none_ s) rw x m).
Proof. intros H. destruct s; cbn in H; subst. done. Qed.

Lemma exec_exit s rw x m :
  exec (worker_at (sh_of proc_cmd_exit_ s) rw x m) = Ret (true, worker_at (sh_of proc_cmd_exit_ s) rw x m).
Proof. done. Qed.

Lemma exec_fsync s rw x m v : x <> (-1)%Z -> assoc x (m_open m) = Some v ->
  exec (worker_at (sh_of proc_cmd_fsync_ s) rw x m) = Ret (false, worker_at (sh_of proc_cmd_fsync_ s) rw x m).
Proof.
  intros Hx Ha. unfold child_exec_, proc_child_fsync_, mbind, cm_bind. cbn. rewrite (proj2 (Z.eqb_neq x (-1)) Hx).
  unfold csys, set_w, reads, modc, mbind, cm_bind. cbn. by rewrite Ha.
Qed.

Lemma exec_close s rw x m : x <> (-1)%Z ->
  exec (worker_at (sh_of proc_cmd_close_ s) rw x m) =
  Ret (false, worker_at (sh_of proc_cmd_close_ s) rw (-1)%Z (os_close os x m)).
Proof.
  intros Hx. unfold child_exec_, proc_child_close_, mbind, cm_bind. cbn. by rewrite (proj2 (Z.eqb_neq x (-1)) Hx).
Qed.

Lemma exec_open s rw path m y m' : cstr rw = Some path -> os_open os path (open_flags s) m = (y, m') -> y <> (-1)%Z ->
  exec (worker_at (sh_of proc_cmd_open_ s) rw (-1)%Z m) = Ret (false, worker_at (sh_of proc_cmd_open_ s) rw y m').
Proof.
  intros Hp Ho Hy. unfold child_exec_, proc_child_open_, rw_str, csys, set_w, set_fd, reads, modc, mbind, cm_bind.
  cbn -[os_open mach_os cstr]. rewrite drop_0, Hp. cbn -[os_open mach_os]. rewrite Ho. cbn. by rewrite (proj2 (Z.eqb_neq y (-1)) Hy).
Qed.

(** A read of [rw_buf_len] bytes at most, from the offset of the file on. *)
Lemma exec_readall s rw x m p off : x <> (-1)%Z -> assoc x (m_open m) = Some (p, off) ->
  let d := take (length rw) (drop off (m_content p m)) in
  exec (worker_at (sh_of proc_cmd_readall_ s) rw x m) =
  Ret (false, worker_at (sh_of proc_cmd_readall_ (with_read_len (length d) s)) (splice rw 0 d) x
    (m_set_files (m_files m) (assoc_set x (p, off + length d) (m_open m)) m)).
Proof.
  intros Hx Ha d. unfold child_exec_, proc_child_readall_, csys, set_w, set_rw, upd_sh, reads, modc, mbind, cm_bind.
  cbn -[os_read mach_os splice Z.ltb]. rewrite (proj2 (Z.eqb_neq x (-1)) Hx). unfold mbind, cm_bind. cbn -[splice Z.ltb take drop m_content].
  rewrite Ha. cbn -[splice Z.ltb take drop m_content]. fold d. destruct (Z.ltb_spec (Z.of_nat (length d)) 0) as [?|_]; [lia|].
  cbn -[splice]. rewrite Nat2Z.id. subst d. by rewrite take_take, Nat.min_id.
Qed.

(** However many bytes each write takes, the loop writes them all. *)
Lemma write_loop_run fl sh rw x y m p o off n : assoc x (m_open m) = Some (p, o) -> off + n <= length rw -> n < fl ->
  write_loop_ os fl x off n (worker_at sh rw y m) =
  Ret (true, worker_at (with_written (written sh + n) sh) rw y (m_written x p o (take n (drop off rw)) m)).
Proof.
  revert sh m o off n. induction fl as [|fl IH]; intros sh m o off n Ha Hn Hfl; [lia|].
  cbn [write_loop_]. unfold rw_bytes, csys, set_w, upd_sh, reads, modc, mbind, cm_bind. cbn -[mach_os os_write take drop].
  rewrite decide_True by done. cbn -[take drop]. rewrite Ha. set (d := take n (drop off rw)).
  assert (length d = n) as Hd by (subst d; rewrite length_take, length_drop; lia). cbn -[take].
  fold (m_written x p o (take (ck (length d)) d) m). rewrite Hd, length_take, Hd.
  destruct (Z.eqb_spec (Z.of_nat (ck n `min` n)) (Z.of_nat n)) as [He|He].
  { cbn -[m_written take]. by rewrite take_ge by lia. }
  assert (0 < n) as Hpos by lia. pose proof (Hck n Hpos) as Hc.
  destruct (Z.eqb_spec (Z.of_nat (ck n `min` n)) (-1)) as [?|_]; [lia|]. cbn [negb].
  destruct (Z.leb_spec 0 (Z.of_nat (ck n `min` n))) as [_|?]; [|lia].
  destruct (Z.leb_spec (Z.of_nat (ck n `min` n)) (Z.of_nat n)) as [_|?]; [|lia]. cbn -[m_written take write_loop_].
  rewrite Nat2Z.id. set (w := ck n `min` n) in *. assert (take (ck n) d = take w d) as -> by (subst w; by rewrite <- take_take, (take_ge d n) by lia).
  rewrite (IH _ _ (o + w)); [|rewrite m_written_open, length_take; by replace (w `min` length d) with w by lia|lia|lia].
  f_equal. f_equal. f_equal; [destruct sh; cbn; unfold with_written; cbn; f_equal; lia|].
  assert (w = length (take w d)) as Hw by (rewrite length_take; lia). rewrite Hw at 1. rewrite m_written_app. f_equal.
  subst d. rewrite <- (take_drop w (take n (drop off rw))) at 2. f_equal. by rewrite skipn_firstn_comm, drop_drop.
Qed.

(** The bytes of the buffer, written at the offset of the file. *)
Lemma exec_write s rw x m p off : x <> (-1)%Z -> assoc x (m_open m) = Some (p, off) -> write_len s <= length rw -> length rw < wf ->
  exec (worker_at (sh_of proc_cmd_write_ s) rw x m) =
  Ret (false, worker_at (sh_of proc_cmd_write_ (with_written (write_len s) s)) rw x (m_written x p off (take (write_len s) rw) m)).
Proof.
  intros Hx Ha Hn Hwf. unfold child_exec_, proc_child_write_, upd_sh, reads, modc, mbind, cm_bind.
  cbn -[write_loop_ m_written]. rewrite (proj2 (Z.eqb_neq x (-1)) Hx). unfold mbind, cm_bind. cbn -[write_loop_ m_written].
  rewrite (write_loop_run _ _ _ _ _ _ _ _ 0 (write_len s) Ha) by lia. cbn -[take m_written]. by rewrite drop_0.
Qed.

(** A directory that is opened, synced and closed uses up a descriptor. *)
Lemma fsync_dir_run l1 l2 sh rw x path nx f Ds up down cfd e : (0 <= nx)%Z -> path ∈ Ds ->
  let m nx := {| m_next := nx; m_files := f; m_dirs := Ds; m_open := []; m_up := up; m_down := down; m_gone := []; m_cfd := cfd; m_errno := e |} in
  fsync_dir_ os path l1 l2 (worker_at sh rw x (m nx)) = Ret (true, worker_at sh rw x (m (nx + 1)%Z)).
Proof.
  intros Hx Ha. cbv zeta beta. unfold fsync_dir_, csys, csys_, set_w, reads, modc, mbind, cm_bind. cbn -[assoc Z.add].
  rewrite bool_decide_eq_true_2 by done. change (Z.land (Z.lor O_RDONLY O_DIRECTORY) 3 =? 0)%Z with true.
  cbn -[Z.add assoc]. rewrite (proj2 (Z.eqb_neq nx (-1))) by lia. cbn -[Z.add assoc].
  rewrite assoc_cons, decide_True by done. cbn -[Z.add]. by rewrite decide_False by auto.
Qed.

(** [mkdir]: the directory is there, or made and synced twice. *)
Lemma exec_mkdir s rw x path nx f Ds up down cfd e : (0 <= nx)%Z -> cstr rw = Some path -> assoc path f = None ->
  let m nx Ds e := {| m_next := nx; m_files := f; m_dirs := Ds; m_open := []; m_up := up; m_down := down; m_gone := []; m_cfd := cfd; m_errno := e |} in
  exec (worker_at (sh_of proc_cmd_mkdir_ s) rw x (m nx Ds e)) =
  Ret (false, worker_at (sh_of proc_cmd_mkdir_ s) rw x (m (made_next path Ds nx) (made_dirs path Ds) (made_errno path Ds e))).
Proof.
  intros Hx Hp Hf. cbv zeta beta. unfold child_exec_, proc_child_mkdir_, rw_str, csys, csys_, set_w, upd_sh, c_errno, reads, modc, mbind, cm_bind.
  cbn -[cstr fsync_dir_ mach_os]. rewrite drop_0, Hp. unfold made_next, made_dirs, made_errno.
  cbn -[fsync_dir_ os_realpath os_stat_mode]. unfold m_exists. cbn [m_dirs m_files]. rewrite Hf. destruct (decide (path ∈ Ds)) as [Hin|Hin].
  - rewrite (bool_decide_eq_true_2 _ Hin). unfold mbind, cm_bind. cbn. by rewrite (bool_decide_eq_true_2 _ Hin).
  - rewrite (bool_decide_eq_false_2 _ Hin). cbn -[fsync_dir_ os_realpath os_stat_mode]. unfold mbind, cm_bind, m_set_dirs.
    cbn [m_next m_files m_dirs m_open m_up m_down m_gone m_cfd m_errno].
    erewrite fsync_dir_run by (done || by left). cbn -[fsync_dir_ Z.add]. unfold mbind, cm_bind, m_exists. cbn [m_dirs].
    rewrite bool_decide_eq_true_2 by by left. cbn -[fsync_dir_ Z.add].
    erewrite fsync_dir_run by (lia || by left). cbn -[Z.add]. by replace (nx + 2)%Z with (nx + 1 + 1)%Z by lia.
Qed.

(** The whole of [proc_cmd_write_fsync_close_]. *)
Lemma exec_wfc s rw x path y p m m1 : cstr (drop (write_len s) rw) = Some path -> write_len s <= length rw -> length rw < wf ->
  os_open os path (open_flags s) m = (y, m1) -> y <> (-1)%Z -> assoc y (m_open m1) = Some (p, 0) ->
  exec (worker_at (sh_of proc_cmd_write_fsync_close_ s) rw x m) =
  Ret (false, worker_at (sh_of proc_cmd_write_fsync_close_ (with_written (write_len s) s)) rw x
    (os_close os y (m_written y p 0 (take (write_len s) rw) m1))).
Proof.
  intros Hp Hn Hwf Ho Hy Ha. unfold child_exec_, proc_child_write_fsync_close_, rw_str, csys, csys_, set_w, upd_sh, reads, modc, mbind, cm_bind.
  cbn -[write_loop_ mach_os os_open cstr drop]. rewrite Hp. cbn -[write_loop_ mach_os os_open]. rewrite Ho. cbn -[write_loop_ m_written].
  rewrite (proj2 (Z.eqb_neq y (-1)) Hy). unfold mbind, cm_bind. rewrite (write_loop_run _ _ _ _ _ _ _ _ 0 (write_len s) Ha) by lia. rewrite drop_0.
  cbn -[m_written assoc take]. by rewrite m_written_open.
Qed.
End workers.

(** ** Polling *)

(** The worker of socket [x] has answered and has [y] open. *)
Definition answered (x y : Z) (m : mach) : mach :=
  m_set_cfd (assoc_set x y (m_cfd m)) (m_set_bytes (filter (fun z => z <> x) (m_up m)) (x :: m_down m) m).

(** The descriptor a worker has open. *)
Definition cfd_of (x : Z) (m : mach) : Z := default (-1)%Z (assoc x (m_cfd m)).

(** The worker of socket [x] has ended after its answer. *)
Definition ended (x y : Z) (m : mach) : mach := m_set_gone (x :: m_gone m) (answered x y m).

Lemma serve_run ck fuel q m sh rw c : p_mapped (ps_p q) = Some (sh, rw) -> p_fd (ps_p q) ∈ m_up m ->
  child_exec_ (mach_os ck) fuel {| c_sh := sh; c_rw := rw; c_fd := cfd_of (p_fd (ps_p q)) m; c_w := m |} = Ret (false, c) ->
  serve ck fuel every q m = (stored q (c_sh c) (c_rw c), answered (p_fd (ps_p q)) (c_fd c) (c_w c)).
Proof.
  intros Hm Hu Hc. unfold serve, cfd_of in *. rewrite Hm, bool_decide_eq_true_2 by done. cbn. by rewrite Hc.
Qed.

Lemma serve_exit ck fuel q m sh rw c : p_mapped (ps_p q) = Some (sh, rw) -> p_fd (ps_p q) ∈ m_up m ->
  child_exec_ (mach_os ck) fuel {| c_sh := sh; c_rw := rw; c_fd := cfd_of (p_fd (ps_p q)) m; c_w := m |} = Ret (true, c) ->
  serve ck fuel every q m =
    (stored q (with_child_st proc_child_st_not_started_ (c_sh c)) (c_rw c), ended (p_fd (ps_p q)) (c_fd c) (c_w c)).
Proof.
  intros Hm Hu Hc. unfold serve, cfd_of in *. rewrite Hm, bool_decide_eq_true_2 by done. cbn. by rewrite Hc.
Qed.

Lemma serve_quiet ck fuel q m : p_fd (ps_p q) ∉ m_up m -> serve ck fuel every q m = (q, m).
Proof.
  intros Hu. unfold serve. destruct (p_mapped (ps_p q)) as [[sh rw]|]; [|done]. by rewrite bool_decide_eq_false_2.
Qed.

(** ** The shapes of the context *)

(** A worker as the client sees it: its descriptor, state, shared memory, whether
    it has started, the command that waits for that, whether it was told to stop. *)
Record slot := { sl_fd : Z; sl_st : proc_st_; sl_sh : proc_shared_; sl_rw : list char; sl_av : bool;
  sl_after : proc_cmd_; sl_req : bool }.

Definition fresh (x : Z) (c : proc_cmd_) (s : proc_shared_) (rw : list char) : slot :=
  {| sl_fd := x; sl_st := proc_st_init_pend_; sl_sh := s; sl_rw := rw; sl_av := false; sl_after := c; sl_req := false |}.
Definition idle (x : Z) (s : proc_shared_) (rw : list char) : slot :=
  {| sl_fd := x; sl_st := proc_st_avail_; sl_sh := sh_of proc_cmd_none_ s; sl_rw := rw; sl_av := true;
     sl_after := proc_cmd_none_; sl_req := false |}.
Definition sent (x : Z) (c : proc_cmd_) (s : proc_shared_) (rw : list char) : slot :=
  {| sl_fd := x; sl_st := proc_st_busy_; sl_sh := sh_of c s; sl_rw := rw; sl_av := true;
     sl_after := proc_cmd_none_; sl_req := bool_decide (c = proc_cmd_exit_) |}.

(** A worker that was told to exit and has ended. *)
Definition left_ (x : Z) (s : proc_shared_) (rw : list char) : slot :=
  {| sl_fd := x; sl_st := proc_st_busy_; sl_sh := with_child_st proc_child_st_not_started_ (sh_of proc_cmd_exit_ s);
     sl_rw := rw; sl_av := true; sl_after := proc_cmd_none_; sl_req := true |}.

(** The node of a slot: the kernel numbers sockets, mappings and processes in
    the order they are made. *)
Definition node_of_slot (n : nat) (i : nat) (f : sob_fail) (es : list afs_ev) (l : nat) (u : slot) : ps_ :=
  {| ps_id := i; ps_fd := sl_fd u;
     ps_p := {| p_fail := f; p_is_stop_req := sl_req u; p_st := sl_st u; p_evs := es; p_evs_len := l;
       p_mapped := Some (sl_sh u, sl_rw u); p_rw_buf_len := n - sizeof_proc_shared_;
       p_mmap_start := (5 + 4 * Z.of_nat i) * 65536; p_mmap_len := n;
       p_pid := 6 + 4 * Z.of_nat i; p_fd := 3 + 4 * Z.of_nat i |};
     ps_cmd_after_init := sl_after u; ps_is_avail := sl_av u |}.

(** A context with three workers that reports [es]; the rest of its arrays is of
    no interest. *)
Inductive sys3 (n : nat) (stop : bool) (u0 u1 u2 : slot) (es : list afs_ev) : afs_ctx -> Prop :=
| Sys3 f f0 f1 f2 a0 a1 a2 b0 b1 b2 d0 d1 d2 l0 l1 l2 g0 g1 g2 gl e1 e2 e3 e4 e5 e6 e7 e8 e9 el :
    take el [e1; e2; e3; e4; e5; e6; e7; e8; e9] = es ->
    sys3 n stop u0 u1 u2 es {| a_fail := f; a_is_stop_req := stop;
      a_ps := [node_of_slot n 0 f0 [a0; a1; a2] l0 u0; node_of_slot n 1 f1 [b0; b1; b2] l1 u1;
        node_of_slot n 2 f2 [d0; d1; d2] l2 u2];
      a_pfds := Some [g0; g1; g2]; a_pfds_maxlen := 3; a_pfds_len := gl;
      a_evs := Some [e1; e2; e3; e4; e5; e6; e7; e8; e9]; a_evs_maxlen := 9; a_evs_len := el; a_next := 3 |}.

Lemma sys3_evs n b u0 u1 u2 es c : sys3 n b u0 u1 u2 es c -> take (a_evs_len c) (default [] (a_evs c)) = es.
Proof. by intros []. Qed.

(** Evaluate a call on a shape. *)
Ltac run_shape :=
  lazymatch goal with
  | |- exists c, ?m ?s = Ret (_, (c, _)) /\ _ =>
      let r := eval lazy -[Nat.sub mmap_len_] in (m s) in
      lazymatch r with
      | Ret (_, (?c, _)) => exists c; split; [reflexivity|by econstructor]
      end
  end.

Section shapes.
Context (n k : nat) (pgs : nat).
Abbreviation env := (mach_env pgs) (only parsing).
Abbreviation fuel := (S (S k)) (only parsing).
Context (s0 : proc_shared_) (rw0 : list char) (junk : proc_).
Implicit Types (s : proc_shared_) (rw : list char) (m : mach) (u : slot).

Lemma pollfds_run b u0 u1 u2 es c m : sys3 n b u0 u1 u2 es c ->
  exists c', afs_pollfds (c, m) = Ret ((fun x => {| pfd_fd := x; pfd_events := POLLIN; pfd_revents := 0 |}) <$> [3; 7; 11]%Z, (c', m)) /\
    sys3 n b u0 u1 u2 es c'.
Proof. intros []. run_shape. Qed.

(** *** Commands *)
Definition up_ (x : Z) m : mach := m_set_bytes (x :: m_up m) (m_down m) m.

Lemma readall_sent s rw u0 u2 es c m : m_gone m = [] -> sys3 n false u0 (idle 1 s rw) u2 es c -> sl_fd u0 = (-1)%Z ->
  exists c', afs_readall env fuel 1 (c, m) = Ret (afs_ok, (c', up_ 7 m)) /\ sys3 n false u0 (sent 1 proc_cmd_readall_ s rw) u2 es c'.
Proof. intros Hg [] Hfd. destruct m, u0; cbn in Hfd, Hg; subst. run_shape. Qed.

Lemma fsync_sent s rw u1 es c m : m_gone m = [] -> sys3 n false (idle (-1) s0 rw0) u1 (idle 2 s rw) es c -> sl_fd u1 = 1%Z ->
  exists c', afs_fsync env fuel 2 (c, m) = Ret (afs_ok, (c', up_ 11 m)) /\
    sys3 n false (idle (-1) s0 rw0) u1 (sent 2 proc_cmd_fsync_ s rw) es c'.
Proof. intros Hg [] Hfd. destruct m, u1; cbn in Hfd, Hg; subst. run_shape. Qed.

Lemma close_a_sent s rw u2 es c m : m_gone m = [] -> sys3 n false (idle (-1) s0 rw0) (idle 1 s rw) u2 es c ->
  exists c', afs_close env fuel 1 (c, m) = Ret (afs_ok, (c', up_ 7 m)) /\
    sys3 n false (idle (-1) s0 rw0) (sent 1 proc_cmd_close_ s rw) u2 es c'.
Proof. intros Hg []. destruct m; cbn in Hg; subst. run_shape. Qed.

Lemma close_b_sent s1 rw1 s rw es c m : m_gone m = [] -> sys3 n false (idle (-1) s0 rw0) (sent 1 proc_cmd_close_ s1 rw1) (idle 2 s rw) es c ->
  exists c', afs_close env fuel 2 (c, m) = Ret (afs_ok, (c', up_ 11 m)) /\
    sys3 n false (idle (-1) s0 rw0) (sent 1 proc_cmd_close_ s1 rw1) (sent 2 proc_cmd_close_ s rw) es c'.
Proof. intros Hg []. destruct m; cbn in Hg; subst. run_shape. Qed.

Lemma write_sent len s1 rw1 s rw es c m : m_gone m = [] ->
  sys3 n false (idle (-1) s0 rw0) (idle 1 s1 rw1) (idle 2 s rw) es c -> len <= n - sizeof_proc_shared_ ->
  exists c', afs_write env fuel 2 len (c, m) = Ret (afs_ok, (c', up_ 11 m)) /\
    sys3 n false (idle (-1) s0 rw0) (idle 1 s1 rw1) (sent 2 proc_cmd_write_ (with_write_len len s) rw) es c'.
Proof.
  intros Hg Hc Hlen. enough (exists c', (on_ps 2 (upd_shared (with_write_len len)) ;; on_ps 2 (proc_write_ env fuel)) (c, m) =
    Ret (afs_ok, (c', up_ 11 m)) /\ sys3 n false (idle (-1) s0 rw0) (idle 1 s1 rw1) (sent 2 proc_cmd_write_ (with_write_len len s) rw) es c')
    as (c' & Hr & Hc').
  { exists c'. split; [|done]. rewrite <- Hr. clear Hr Hc'. destruct Hc.
    match goal with |- _ = ?r ?st => transitivity ((if decide (n - sizeof_proc_shared_ < len) then
      afs_fail_ env 427 (lit "write len out of bounds (no errno)") ;; mret afs_fail_bad_arg else r) st) end; [reflexivity|].
    by rewrite decide_False by lia. }
  destruct Hc, m; cbn in Hg; subst. run_shape.
Qed.

Lemma stop_sent s1 rw1 s2 rw2 es c m : m_gone m = [] -> sys3 n false (idle (-1) s0 rw0) (idle (-1) s1 rw1) (idle (-1) s2 rw2) es c ->
  exists c', afs_stop_prep env fuel (c, m) = Ret (afs_ok, (c', up_ 11 (up_ 7 (up_ 3 m)))) /\
    sys3 n true (sent (-1) proc_cmd_exit_ s0 rw0) (sent (-1) proc_cmd_exit_ s1 rw1) (sent (-1) proc_cmd_exit_ s2 rw2) es c'.
Proof. intros Hg []. destruct m; cbn in Hg; subst. run_shape. Qed.

Lemma reserved s1 rw1 s2 rw2 es c m : sys3 n false (idle (-1) s0 rw0) (idle (-1) s1 rw1) (idle (-1) s2 rw2) es c ->
  exists c', afs_reserve env fuel junk (c, m) = Ret ((afs_ok, Some 0%Z), (c', m)) /\
    sys3 n false (idle 0 s0 rw0) (idle (-1) s1 rw1) (idle (-1) s2 rw2) es c'.
Proof. intros []. run_shape. Qed.

(** *** Buffers *)
Definition addr (i : nat) : Z := (5 + 4 * Z.of_nat i) * 65536 + Z.of_nat sizeof_proc_shared_.

Lemma rw_buf_run i x u0 u1 u2 es c m : sys3 n false u0 u1 u2 es c ->
  (x, i) = (0%Z, 0) /\ sl_fd u0 = 0%Z \/ (x, i) = (2%Z, 2) /\ (sl_fd u0, sl_fd u1, sl_fd u2) = (-1, 1, 2)%Z ->
  afs_get_rw_buf env x (c, m) = Ret ((afs_ok, Some (addr i, n - sizeof_proc_shared_)), (c, m)).
Proof.
  intros [] [[[= -> ->] Hf]|[[= -> ->] [= H0 H1 H2]]]; destruct u0, u1, u2; cbn in *; subst; reflexivity.
Qed.

Lemma load_run len s rw u0 u2 es c m : sys3 n false u0 (idle 1 s rw) u2 es c -> len <= length rw ->
  load_ (addr 1) len (c, m) = Ret (take len rw, (c, m)).
Proof.
  intros [] Hlen. match goal with |- _ ?st = _ => transitivity ((if decide (len <= length rw) then mret (take len rw) else undef) st) end;
    [reflexivity|]. by rewrite decide_True.
Qed.

Lemma rw_put_run off d g p m s rw : p_mapped p = Some (s, rw) -> off + length d <= length rw ->
  rw_put (Z.of_nat off) d g (p, m) = Ret (tt, (with_p_mapped (Some (g s, splice rw off d)) p, m)).
Proof.
  intros Hm Hd. unfold rw_put, get_proc, reads, mbind, cm_bind. cbn [fst]. rewrite Hm.
  destruct (Z.leb_spec (Z.of_nat off + Z.of_nat (length d)) (Z.of_nat (length rw))); [|lia]. by rewrite Nat2Z.id.
Qed.

Lemma on_ps_run {A} i (f : CM (proc_ * mach) A) q a p m m' c : find_ps i (a_ps c) = Some q ->
  f (ps_p q, m) = Ret (a, (p, m')) ->
  on_ps i f (c, m) = Ret (a, (with_a_ps ((fun q => if decide (ps_id q = i) then with_ps_p p q else q) <$> a_ps c) c, m')).
Proof.
  intros Hq Hf. unfold on_ps. rewrite (bind_Ret _ _ _ q (c, m)); [|by unfold get_ps, mbind, cm_bind; cbn; rewrite Hq].
  unfold upd_ps, get_ps, mbind, cm_bind. cbn. rewrite Hf. cbn. by rewrite Hq.
Qed.

(** Evaluate the context a call on a node left. *)
Ltac node_shape := eexists; split; [erewrite on_ps_run by (reflexivity || (apply rw_put_run; [reflexivity|done])); reflexivity|];
  lazymatch goal with |- ?P ?c => let c := eval lazy -[Nat.sub splice] in c in change (P c) end.

Lemma store_b_run d s1 rw1 s rw es c m : sys3 n false (idle (-1) s0 rw0) (idle 1 s1 rw1) (idle 2 s rw) es c -> length d <= length rw ->
  exists c', store_ (addr 2) d (c, m) = Ret (tt, (c', m)) /\
    sys3 n false (idle (-1) s0 rw0) (idle 1 s1 rw1) (idle 2 s (splice rw 0 d)) es c'.
Proof.
  intros [] Hd. match goal with |- exists c', _ ?st = _ /\ _ => change (store_ (addr 2) d st) with (on_ps 2 (rw_put (Z.of_nat 0) d (fun s => s)) st) end.
  node_shape. by econstructor.
Qed.

Lemma store_0_run d s1 rw1 s2 rw2 es c m : sys3 n false (idle 0 s0 rw0) (idle (-1) s1 rw1) (idle (-1) s2 rw2) es c -> length d <= length rw0 ->
  exists c', store_ (addr 0) d (c, m) = Ret (tt, (c', m)) /\
    sys3 n false (idle 0 s0 (splice rw0 0 d)) (idle (-1) s1 rw1) (idle (-1) s2 rw2) es c'.
Proof.
  intros [] Hd. match goal with |- exists c', _ ?st = _ /\ _ =>
    change (store_ (addr 0) d st) with (on_ps 0 (rw_put (Z.of_nat 0) d (fun s => s)) st) end.
  node_shape. by econstructor.
Qed.

(** The path behind the bytes to write, and the command. *)
Definition wfc_sh (flags : Z) (len : nat) s : proc_shared_ := with_write_len len (with_open_flags flags s).

Lemma wfc_put path flags len s1 rw1 s2 rw2 es c m :
  sys3 n false (idle 0 s0 rw0) (idle (-1) s1 rw1) (idle (-1) s2 rw2) es c -> len + length (path ++ [ch_nul]) <= length rw0 ->
  exists c', on_ps 0 (rw_put (Z.of_nat len) (path ++ [ch_nul]) (fun s => with_write_len (Z.to_nat (Z.of_nat len)) (with_open_flags flags s))) (c, m) =
      Ret (tt, (c', m)) /\
    sys3 n false (idle 0 (wfc_sh flags len s0) (splice rw0 len (path ++ [ch_nul]))) (idle (-1) s1 rw1) (idle (-1) s2 rw2) es c'.
Proof. intros [] Hd. rewrite Nat2Z.id. node_shape. by econstructor. Qed.

Lemma wfc_go s1 rw1 s2 rw2 es c m : m_gone m = [] -> sys3 n false (idle 0 s0 rw0) (idle (-1) s1 rw1) (idle (-1) s2 rw2) es c ->
  exists c', (r ← on_ps 0 (proc_write_fsync_close_ env fuel); q ← get_ps 0; upd_ctx (with_a_fail (p_fail (ps_p q))) ;; mret r) (c, m) =
      Ret (afs_ok, (c', up_ 3 m)) /\
    sys3 n false (sent 0 proc_cmd_write_fsync_close_ s0 rw0) (idle (-1) s1 rw1) (idle (-1) s2 rw2) es c'.
Proof. intros Hg []. destruct m; cbn in Hg; subst. run_shape. Qed.
End shapes.

Lemma wfc_sent n k pgs path flags len s0 rw0 s1 rw1 s2 rw2 es c m : m_gone m = [] ->
  sys3 n false (idle 0 s0 rw0) (idle (-1) s1 rw1) (idle (-1) s2 rw2) es c ->
  len + length path + 1 <= n - sizeof_proc_shared_ -> length rw0 = n - sizeof_proc_shared_ ->
  (Z.of_nat (n - sizeof_proc_shared_) < 2 ^ 64)%Z ->
  exists c', afs_write_fsync_close (mach_env pgs) (S (S k)) 0 path flags (Z.of_nat len) (c, m) = Ret (afs_ok, (c', up_ 3 m)) /\
    sys3 n false (sent 0 proc_cmd_write_fsync_close_ (wfc_sh flags len s0) (splice rw0 len (path ++ [ch_nul])))
      (idle (-1) s1 rw1) (idle (-1) s2 rw2) es c'.
Proof.
  intros Hg Hc Hlen Hrw Hbig.
  destruct (wfc_put n s0 rw0 path flags len s1 rw1 s2 rw2 es c m Hc) as (c1 & H1 & Hc1); [rewrite length_app; cbn; lia|].
  destruct (wfc_go n k pgs _ _ s1 rw1 s2 rw2 es c1 m Hg Hc1) as (c2 & H2 & Hc2). exists c2. split; [|exact Hc2].
  rewrite <- H2. rewrite <- (bind_Ret _ (fun _ => r ← on_ps 0 (proc_write_fsync_close_ (mach_env pgs) (S (S k)));
    q ← get_ps 0; upd_ctx (with_a_fail (p_fail (ps_p q))) ;; mret r) _ _ _ H1). clear Hc1 Hc2 H1 H2. destruct Hc.
  match goal with |- _ = ?r ?st => transitivity ((if (size_add (Z.of_nat len) (Z.of_nat (length path + 1)) <=? Z.of_nat (n - sizeof_proc_shared_))%Z
    then r else afs_fail_ (mach_env pgs) 534 (lit "write len and path don't fit in the buf (no errno)") ;; mret afs_fail_bad_arg) st) end;
    [reflexivity|].
  unfold size_add. rewrite Z.mod_small by lia. by rewrite (proj2 (Z.leb_le _ _)) by lia.
Qed.

(** *** Updates *)

(** What the program asks [poll] about. *)
Definition fds3 : list pollfd := (fun x => {| pfd_fd := x; pfd_events := POLLIN; pfd_revents := 0 |}) <$> [3; 7; 11]%Z.

(** An event of which only type and descriptor matter. *)
Definition is_ev (t : afs_event) (x : Z) (e : afs_ev) : Prop := ev_ty e = t /\ ev_fd e = x.
Fixpoint evs_are (ps : list (afs_ev -> Prop)) (es : list afs_ev) : Prop :=
  match ps, es with
  | [], [] => True
  | p :: ps, e :: es => p e /\ evs_are ps es
  | _, _ => False
  end.

(** The reported events one by one. *)
Ltac each_ev H :=
  lazymatch type of H with
  | evs_are [] ?es => destruct es; [clear H|done]
  | evs_are (_ :: _) ?es => destruct es as [|[] es]; [done|]; let H1 := fresh in destruct H as [H1 H];
      lazymatch type of H1 with
      | is_ev _ _ _ => destruct H1 as [H1 ?]; cbn in H1; subst
      | _ => injection H1 as -> -> -> ->
      end; each_ev H
  end.

Ltac run_update :=
  lazymatch goal with
  | |- exists c es, ?m ?s = Ret (_, (c, _)) /\ _ =>
      let r := eval lazy -[Nat.sub mmap_len_] in (m s) in
      lazymatch r with
      | Ret (_, (?c, _)) => exists c; eexists; split; [reflexivity|split; [by econstructor|by repeat split]]
      end
  end.

Section updates.
Context (n k pgs : nat).
Abbreviation upd := (afs_update (mach_env pgs) (S (S k))) (only parsing).
Context (Ds : list (list char)) (er : Z).
Context (nx : Z) (F : list (list char * list char)) (O : list (Z * (list char * nat))) (C : list (Z * Z)).
Abbreviation mc U D := {| m_next := nx; m_files := F; m_dirs := Ds; m_open := O; m_up := U; m_down := D; m_gone := []; m_cfd := C;
  m_errno := er |} (only parsing).
Context (s0 s1 s2 : proc_shared_) (rw0 rw1 rw2 : list char).
Implicit Types (es : list afs_ev).

Lemma update_started es c : sys3 n false (fresh 0 proc_cmd_mkdir_ (sh_of proc_cmd_none_ s0) rw0)
    (fresh 1 proc_cmd_open_ (sh_of proc_cmd_none_ s1) rw1) (fresh 2 proc_cmd_open_ (sh_of proc_cmd_none_ s2) rw2) es c ->
  exists c' es', upd (mark (mc [] [11; 7; 3]%Z) fds3) (c, mc [] [11; 7; 3]%Z) = Ret (tt, (c', mc [11; 7; 3]%Z [])) /\
    sys3 n false (sent 0 proc_cmd_mkdir_ s0 rw0) (sent 1 proc_cmd_open_ s1 rw1) (sent 2 proc_cmd_open_ s2 rw2) es' c' /\ evs_are [] es'.
Proof. intros []. run_update. Qed.

Lemma update_opened es c : sys3 n false (sent 0 proc_cmd_mkdir_ s0 rw0) (sent 1 proc_cmd_open_ s1 rw1) (sent 2 proc_cmd_open_ s2 rw2) es c ->
  exists c' es', upd (mark (mc [] [11; 7; 3]%Z) fds3) (c, mc [] [11; 7; 3]%Z) = Ret (tt, (c', mc [] [])) /\
    sys3 n false (idle (-1) s0 rw0) (idle 1 s1 rw1) (idle 2 s2 rw2) es' c' /\
    evs_are [is_ev afs_ev_mkdir 0; is_ev afs_ev_open 1; is_ev afs_ev_open 2] es'.
Proof. intros []. run_update. Qed.

(** The event of a read says how many bytes there are, and where. *)
Definition is_read s (e : afs_ev) : Prop := e = {| ev_ty := afs_ev_readall; ev_fd := 1; ev_len := read_len s; ev_data := addr 1 |}.

Lemma update_read es c : sys3 n false (idle (-1) s0 rw0) (sent 1 proc_cmd_readall_ s1 rw1) (idle 2 s2 rw2) es c ->
  exists c' es', upd (mark (mc [] [7]%Z) fds3) (c, mc [] [7]%Z) = Ret (tt, (c', mc [] [])) /\
    sys3 n false (idle (-1) s0 rw0) (idle 1 s1 rw1) (idle 2 s2 rw2) es' c' /\ evs_are [is_read s1] es'.
Proof. intros []. run_update. Qed.

Lemma update_read_written es c : sys3 n false (idle (-1) s0 rw0) (sent 1 proc_cmd_readall_ s1 rw1) (sent 2 proc_cmd_write_ s2 rw2) es c ->
  exists c' es', upd (mark (mc [] [11; 7]%Z) fds3) (c, mc [] [11; 7]%Z) = Ret (tt, (c', mc [] [])) /\
    sys3 n false (idle (-1) s0 rw0) (idle 1 s1 rw1) (idle 2 s2 rw2) es' c' /\ evs_are [is_read s1; is_ev afs_ev_write 2] es'.
Proof. intros []. run_update. Qed.

Lemma update_synced es c : sys3 n false (idle (-1) s0 rw0) (idle 1 s1 rw1) (sent 2 proc_cmd_fsync_ s2 rw2) es c ->
  exists c' es', upd (mark (mc [] [11]%Z) fds3) (c, mc [] [11]%Z) = Ret (tt, (c', mc [] [])) /\
    sys3 n false (idle (-1) s0 rw0) (idle 1 s1 rw1) (idle 2 s2 rw2) es' c' /\ evs_are [is_ev afs_ev_fsync 2] es'.
Proof. intros []. run_update. Qed.

Lemma update_closed es c : sys3 n false (idle (-1) s0 rw0) (sent 1 proc_cmd_close_ s1 rw1) (sent 2 proc_cmd_close_ s2 rw2) es c ->
  exists c' es', upd (mark (mc [] [11; 7]%Z) fds3) (c, mc [] [11; 7]%Z) = Ret (tt, (c', mc [] [])) /\
    sys3 n false (idle (-1) s0 rw0) (idle (-1) s1 rw1) (idle (-1) s2 rw2) es' c' /\ evs_are [is_ev afs_ev_close 1; is_ev afs_ev_close 2] es'.
Proof. intros []. run_update. Qed.

Lemma update_saved es c : sys3 n false (sent 0 proc_cmd_write_fsync_close_ s0 rw0) (idle (-1) s1 rw1) (idle (-1) s2 rw2) es c ->
  exists c' es', upd (mark (mc [] [3]%Z) fds3) (c, mc [] [3]%Z) = Ret (tt, (c', mc [] [])) /\
    sys3 n false (idle (-1) s0 rw0) (idle (-1) s1 rw1) (idle (-1) s2 rw2) es' c' /\ evs_are [is_ev afs_ev_write_fsync_close 0] es'.
Proof. intros []. run_update. Qed.

(** All workers have hung up: after the last update none is left. *)
Lemma update_stopped es c D : sys3 n true (left_ (-1) s0 rw0) (left_ (-1) s1 rw1) (left_ (-1) s2 rw2) es c ->
  let m := {| m_next := nx; m_files := F; m_dirs := Ds; m_open := O; m_up := []; m_down := D; m_gone := [11; 7; 3]%Z; m_cfd := C; m_errno := er |} in
  exists c', upd (mark m fds3) (c, m) = Ret (tt, (c', m)) /\
    a_ps c' = [] /\ evs_are [is_ev afs_ev_stop (-1)] (take (a_evs_len c') (default [] (a_evs c'))).
Proof.
  intros [] m. lazymatch goal with |- exists c', ?f ?st = _ /\ _ => let r := eval lazy -[Nat.sub] in (f st) in
    lazymatch r with Ret (_, (?c, _)) => exists c end end.
  split; [reflexivity|]. split; [done|]. by repeat split.
Qed.
End updates.

(** ** Rounds: wait for the workers, update *)

(** A worker has, or has not, something to do. *)
Ltac in_list := by apply (bool_decide_unpack _); vm_compute.

(** The worker of a slot runs, or has nothing to do. *)
Definition served (ck : nat -> nat) (wf i : nat) (u : slot) (m : mach) (u' : slot) (m' : mach) : Prop :=
  forall n f es l, serve ck wf every (node_of_slot n i f es l u) m = (node_of_slot n i f es l u', m').

Lemma served_quiet ck wf i u m : (3 + 4 * Z.of_nat i)%Z ∉ m_up m -> served ck wf i u m u m.
Proof. intros Hu n f es l. by apply serve_quiet. Qed.

Lemma served_run ck wf i u m sh' rw' y m' u' m1 : (3 + 4 * Z.of_nat i)%Z ∈ m_up m ->
  child_exec_ (mach_os ck) wf {| c_sh := sl_sh u; c_rw := sl_rw u; c_fd := cfd_of (3 + 4 * Z.of_nat i) m; c_w := m |} =
    Ret (false, {| c_sh := sh'; c_rw := rw'; c_fd := y; c_w := m' |}) ->
  u' = {| sl_fd := sl_fd u; sl_st := sl_st u; sl_sh := sh'; sl_rw := rw'; sl_av := sl_av u; sl_after := sl_after u; sl_req := sl_req u |} ->
  m1 = answered (3 + 4 * Z.of_nat i) y m' -> served ck wf i u m u' m1.
Proof. intros Hu Hc -> -> n f es l. by rewrite (serve_run _ _ (node_of_slot n i f es l u) m _ _ _ eq_refl Hu Hc). Qed.

(** The worker of a slot exits. *)
Lemma served_exit ck wf i s rw m y : (3 + 4 * Z.of_nat i)%Z ∈ m_up m -> cfd_of (3 + 4 * Z.of_nat i) m = y ->
  served ck wf i (sent (-1) proc_cmd_exit_ s rw) m (left_ (-1) s rw) (ended (3 + 4 * Z.of_nat i) y m).
Proof.
  intros Hu <- n f es l. by rewrite (serve_exit ck wf (node_of_slot n i f es l (sent (-1) proc_cmd_exit_ s rw)) m _ _ _ eq_refl Hu (exec_exit ck wf s rw _ m)).
Qed.

Lemma serve_all_run n ck wf f0 f1 f2 a0 a1 a2 l0 l1 l2 u0 u1 u2 v0 v1 v2 m m1 m2 m3 :
  served ck wf 0 u0 m v0 m1 -> served ck wf 1 u1 m1 v1 m2 -> served ck wf 2 u2 m2 v2 m3 ->
  serve_all ck wf every [node_of_slot n 0 f0 a0 l0 u0; node_of_slot n 1 f1 a1 l1 u1; node_of_slot n 2 f2 a2 l2 u2] m =
    ([node_of_slot n 0 f0 a0 l0 v0; node_of_slot n 1 f1 a1 l1 v1; node_of_slot n 2 f2 a2 l2 v2], m3).
Proof. intros H0 H1 H2. cbn [serve_all]. by rewrite H0, H1, H2. Qed.

Section rounds.
Context (n k pgs : nat) (ck : nat -> nat) (wf : nat) (strerror : Z -> list char).
Abbreviation poll := (mach_poll ck wf every) (only parsing).
Abbreviation update := (update_ (mach_env pgs) (S (S k)) strerror poll) (only parsing).

Lemma poll_run b u0 u1 u2 v0 v1 v2 es fds c m m1 m2 m3 : sys3 n b u0 u1 u2 es c ->
  served ck wf 0 u0 m v0 m1 -> served ck wf 1 u1 m1 v1 m2 -> served ck wf 2 u2 m2 v2 m3 ->
  exists r c', (0 <= r)%Z /\ poll fds (c, m) = Ret ((r, mark m3 fds), (c', m3)) /\ sys3 n b v0 v1 v2 es c'.
Proof.
  intros [] H0 H1 H2. eexists _, _. split; [|split].
  2:{ unfold mach_poll. rewrite (bind_Ret _ _ _ _ _ eq_refl). cbv zeta. cbn [fst snd a_ps].
    rewrite (serve_all_run _ _ _ _ _ _ _ _ _ _ _ _ _ _ _ _ _ _ _ _ _ _ H0 H1 H2). reflexivity. }
  - lia.
  - by econstructor.
Qed.

(** One turn of the loop of [update_]. *)
Lemma round_run j line b u0 u1 u2 v0 v1 v2 es c m m1 m2 m3 m4 (P : afs_ctx -> list afs_ev -> Prop) : sys3 n b u0 u1 u2 es c ->
  served ck wf 0 u0 m v0 m1 -> served ck wf 1 u1 m1 v1 m2 -> served ck wf 2 u2 m2 v2 m3 ->
  (forall c es, sys3 n b v0 v1 v2 es c -> exists c', afs_update (mach_env pgs) (S (S k)) (mark m3 fds3) (c, m3) = Ret (tt, (c', m4)) /\
    P c' (take (a_evs_len c') (default [] (a_evs c')))) ->
  exists c' es', P c' es' /\ update (S j) line (c, m) =
    if decide (0 < length es') then
      if existsb afs_ev_is_fail es' then sob_panic (lit "afs.c") 1625 (lit "fail; line " ++ print_int line) (c', m4)
      else Ret (Some es', (c', m4))
    else update j line (c', m4).
Proof.
  intros Hc H0 H1 H2 Hupd. destruct (pollfds_run _ _ _ _ _ _ _ m Hc) as (c1 & Hp & Hc1).
  destruct (poll_run _ _ _ _ _ _ _ _ fds3 _ _ _ _ _ Hc1 H0 H1 H2) as (r & c2 & Hpos & Hq & Hc2).
  destruct (Hupd c2 es Hc2) as (c3 & Hr & HP). exists c3, (take (a_evs_len c3) (default [] (a_evs c3))). split; [exact HP|].
  cbn [update_]. rewrite (bind_Ret _ _ _ _ _ Hp). rewrite decide_True by (cbn; lia). rewrite (bind_Ret _ _ _ _ _ Hq).
  rewrite (bind_Ret _ _ _ _ _ eq_refl). cbn [fst snd].
  destruct (Z.eqb_spec r (-1)) as [->|_]; [lia|]. rewrite (bind_Ret _ _ _ _ _ Hr). rewrite (bind_Ret _ _ _ _ _ eq_refl).
  destruct (decide _); [destruct (existsb _ _)|]; reflexivity.
Qed.
End rounds.

(** ** The start: three workers are made *)

(** The path is stored and the command is kept for later. *)
Lemma open_like_run env fuel junk path g send later line nl i st c m q s rw :
  maybe_alloc_ps_ env fuel junk st = Ret (Some (i, false), (c, m)) -> find_ps i (a_ps c) = Some q -> p_mapped (ps_p q) = Some (s, rw) ->
  length path + 1 <= p_rw_buf_len (ps_p q) -> length path + 1 <= length rw ->
  open_like_ (W := mach) env fuel junk path g send later line nl st =
    (upd_ps i (with_ps_is_avail false) ;; upd_ps i (with_ps_cmd_after_init later) ;; mret (afs_ok, Some (ps_fd q)))
      (with_a_ps ((fun r => if decide (ps_id r = i) then with_ps_p (with_p_mapped (Some (g s, splice rw 0 (path ++ [ch_nul]))) (ps_p q)) r else r)
         <$> a_ps c) c, m).
Proof.
  intros Ha Hq Hm H1 H2. unfold open_like_. rewrite (bind_Ret _ _ _ _ _ Ha).
  rewrite (bind_Ret (get_ps i) _ _ q (c, m)) by (unfold get_ps, mbind, cm_bind; cbn; by rewrite Hq).
  rewrite decide_False by lia. rewrite Hm. erewrite bind_Ret; [done|]. eapply on_ps_run; [done|].
  apply (rw_put_run 0); [done|]. rewrite length_app. cbn. lia.
Qed.
Section start.
Context (k pgs : nat) (f : sob_fail) (F : list (list char * list char)) (Ds : list (list char)) (jf : sob_fail) (jr : bool) (jst : proc_st_) (j0 j1 j2 : afs_ev)
  (jl : nat) (jm : option (proc_shared_ * list char)) (jn : nat) (js : Z) (jml : nat) (jp jx : Z).
Let n := mmap_len_ pgs.
Let junk : proc_ := {| p_fail := jf; p_is_stop_req := jr; p_st := jst; p_evs := [j0; j1; j2]; p_evs_len := jl; p_mapped := jm;
  p_rw_buf_len := jn; p_mmap_start := js; p_mmap_len := jml; p_pid := jp; p_fd := jx |}.
Abbreviation env := (mach_env pgs) (only parsing).
Abbreviation fuel := (S (S k)) (only parsing).
Abbreviation mc nx U := {| m_next := nx; m_files := F; m_dirs := Ds; m_open := []; m_up := U; m_down := []; m_gone := []; m_cfd := []; m_errno := 0 |} (only parsing).

(** The context while the workers are made. *)
Definition starting (l : list ps_) : afs_ctx :=
  {| a_fail := f; a_is_stop_req := false; a_ps := l;
     a_pfds := match l with [] => None | _ => Some (replicate 3 zero_pfd) end;
     a_pfds_maxlen := match l with [] => 0 | _ => 3 end; a_pfds_len := 0;
     a_evs := match l with [] => None | _ => Some (replicate 9 zero_ev) end;
     a_evs_maxlen := match l with [] => 0 | _ => 9 end; a_evs_len := 0; a_next := length l |}.

Definition zeros : list char := replicate (n - sizeof_proc_shared_) 0%Z.
Definition fresh_node (i : nat) (c : proc_cmd_) (s : proc_shared_) (rw : list char) : ps_ :=
  node_of_slot n i jf [j0; j1; j2] 0 (fresh (Z.of_nat i) c s rw).

Lemma alloc_0 : maybe_alloc_ps_ env fuel junk (starting [], mc 3 []) =
  Ret (Some (0, false), (starting [fresh_node 0 proc_cmd_none_ shared_init_ zeros], mc 7 [3]%Z)).
Proof. reflexivity. Qed.

Lemma alloc_1 c0 s0 rw0 : maybe_alloc_ps_ env fuel junk (starting [fresh_node 0 c0 s0 rw0], mc 7 [3]%Z) =
  Ret (Some (1, false), (starting [fresh_node 0 c0 s0 rw0; fresh_node 1 proc_cmd_none_ shared_init_ zeros], mc 11 [7; 3]%Z)).
Proof. reflexivity. Qed.

Lemma alloc_2 c0 s0 rw0 c1 s1 rw1 :
  maybe_alloc_ps_ env fuel junk (starting [fresh_node 0 c0 s0 rw0; fresh_node 1 c1 s1 rw1], mc 11 [7; 3]%Z) =
  Ret (Some (2, false), (starting [fresh_node 0 c0 s0 rw0; fresh_node 1 c1 s1 rw1; fresh_node 2 proc_cmd_none_ shared_init_ zeros],
    mc 15 [11; 7; 3]%Z)).
Proof. reflexivity. Qed.

Lemma mkdir_0 path : length path + 1 <= n - sizeof_proc_shared_ ->
  afs_mkdir env fuel junk path (starting [], mc 3 []) = Ret ((afs_ok, Some 0%Z),
    (starting [fresh_node 0 proc_cmd_mkdir_ shared_init_ (splice zeros 0 (path ++ [ch_nul]))], mc 7 [3]%Z)).
Proof.
  intros Hp. unfold afs_mkdir. rewrite (open_like_run _ _ _ _ _ _ _ _ _ _ _ _ _ _ _ _ alloc_0 eq_refl eq_refl); [done..|].
  change (length path + 1 <= length zeros). unfold zeros. by rewrite length_replicate.
Qed.

Lemma open_1 path flags c0 s0 rw0 : length path + 1 <= n - sizeof_proc_shared_ ->
  afs_open env fuel junk path flags (starting [fresh_node 0 c0 s0 rw0], mc 7 [3]%Z) = Ret ((afs_ok, Some 1%Z),
    (starting [fresh_node 0 c0 s0 rw0; fresh_node 1 proc_cmd_open_ (with_open_flags flags shared_init_) (splice zeros 0 (path ++ [ch_nul]))],
     mc 11 [7; 3]%Z)).
Proof.
  intros Hp. unfold afs_open. rewrite (open_like_run _ _ _ _ _ _ _ _ _ _ _ _ _ _ _ _ (alloc_1 _ _ _) eq_refl eq_refl); [done..|].
  change (length path + 1 <= length zeros). unfold zeros. by rewrite length_replicate.
Qed.

Lemma open_2 path flags c0 s0 rw0 c1 s1 rw1 : length path + 1 <= n - sizeof_proc_shared_ ->
  afs_open env fuel junk path flags (starting [fresh_node 0 c0 s0 rw0; fresh_node 1 c1 s1 rw1], mc 11 [7; 3]%Z) = Ret ((afs_ok, Some 2%Z),
    (starting [fresh_node 0 c0 s0 rw0; fresh_node 1 c1 s1 rw1;
       fresh_node 2 proc_cmd_open_ (with_open_flags flags shared_init_) (splice zeros 0 (path ++ [ch_nul]))], mc 15 [11; 7; 3]%Z)).
Proof.
  intros Hp. unfold afs_open. rewrite (open_like_run _ _ _ _ _ _ _ _ _ _ _ _ _ _ _ _ (alloc_2 _ _ _ _ _ _) eq_refl eq_refl); [done..|].
  change (length path + 1 <= length zeros). unfold zeros. by rewrite length_replicate.
Qed.
End start.

(** ** The demo program *)

Lemma check_run {W B} line stmt m (g : unit -> CM (afs_ctx * W) B) s s' : m s = Ret (afs_ok, s') -> (check_ line stmt m ≫= g) s = g tt s'.
Proof. intros H. apply bind_Ret. unfold check_. by rewrite (bind_Ret _ _ _ _ _ H). Qed.

Lemma check_out_run {W A B} line stmt m (g : A -> CM (afs_ctx * W) B) x s s' : m s = Ret ((afs_ok, Some x), s') ->
  (check_out_ line stmt m ≫= g) s = g x s'.
Proof. intros H. apply bind_Ret. unfold check_out_. by rewrite (bind_Ret _ _ _ _ _ H). Qed.

(** A machine on which both files are open, as [xa] and [xb], at the given offsets. *)
Inductive m_ready (Ds : list (list char)) (er xa xb : Z) (pa pb : list char) (f : list (list char * list char)) (i j : nat) (up : list Z) : mach -> Prop :=
| M_ready nx o cfd : (15 <= nx)%Z -> assoc xa o = Some (pa, i) -> assoc xb o = Some (pb, j) ->
    assoc 7%Z cfd = Some xa -> assoc 11%Z cfd = Some xb -> (forall y, y <> xa -> y <> xb -> assoc y o = None) ->
    m_ready Ds er xa xb pa pb f i j up {| m_next := nx; m_files := f; m_dirs := Ds; m_open := o; m_up := up; m_down := []; m_gone := [];
      m_cfd := cfd; m_errno := er |}.

(** The files once the destination is open. *)
Definition opened_files (pb : list char) (f : list (list char * list char)) : list (list char * list char) :=
  match assoc pb f with Some _ => f | None => assoc_set pb [] f end.

(** A file is opened for reading; one is opened for writing, and made if it is
    not there. *)
Lemma open_old_run ck p v flags m : assoc p (m_files m) = Some v -> (Z.land flags 3 =? 0)%Z = true ->
  os_open (mach_os ck) p flags m = (m_next m, m_set_files (m_files m) ((m_next m, (p, 0)) :: m_open m) (m_fresh m)).
Proof. intros Ha Hf. cbn [os_open mach_os]. unfold m_exists. rewrite Ha, Hf, orb_true_r. by destruct (bool_decide _). Qed.

Lemma open_new_run ck p flags m : p ∉ m_dirs m -> (Z.land flags O_CREAT =? 0)%Z = false ->
  os_open (mach_os ck) p flags m = (m_next m, m_set_files (opened_files p (m_files m)) ((m_next m, (p, 0)) :: m_open m) (m_fresh m)).
Proof.
  intros Hd Hf. cbn [os_open mach_os]. unfold m_exists, opened_files. rewrite (bool_decide_eq_false_2 _ Hd), Hf. cbn [orb].
  by destruct (assoc p (m_files m)).
Qed.

Lemma made_next_ge path Ds nx : (nx <= made_next path Ds nx)%Z.
Proof. unfold made_next. destruct (decide _); lia. Qed.

Lemma cstr_path n path : no_nul path -> cstr (splice (replicate n 0%Z) 0 (path ++ [ch_nul])) = Some path.
Proof. intros H. unfold splice. cbn. rewrite <- app_assoc. by apply cstr_app_nul. Qed.

Section demo.
Context (k pgs : nat) (ck : nat -> nat) (wf : nat) (strerror : Z -> list char).
Context (Hck : forall n, 0 < n -> 0 < ck n) (Hwf : mmap_len_ pgs < wf).
Let n := mmap_len_ pgs.
Abbreviation env := (mach_env pgs) (only parsing).
Abbreviation fuel := (S (S k)) (only parsing).
Abbreviation poll := (mach_poll ck wf every) (only parsing).
Abbreviation mach_of nx F Ds O U D C er := {| m_next := nx; m_files := F; m_dirs := Ds; m_open := O; m_up := U; m_down := D; m_gone := [];
  m_cfd := C; m_errno := er |} (only parsing).
Abbreviation wait := (wait_evs_ env fuel strerror poll) (only parsing).

Lemma wait_run line len evs es evs' c m c' m' : 0 < len -> update_ env fuel strerror poll fuel line (c, m) = Ret (Some es, (c', m')) ->
  foldl (match_ev_ len) (evs, Z.of_nat len) es = (evs', 0%Z) -> wait line evs len (c, m) = Ret (evs', (c', m')).
Proof.
  intros Hl Hu Hf. unfold wait_evs_. cbn [wait_loop_]. rewrite (proj2 (Z.ltb_lt _ _)) by lia.
  rewrite (bind_Ret _ _ _ _ _ Hu). cbv zeta. by rewrite Hf.
Qed.

(** A round after which three workers are left, and events are reported. *)
Lemma round_reports j line u0 u1 u2 v0 v1 v2 w0 w1 w2 es c m m1 m2 m3 m4 ps :
  sys3 n false u0 u1 u2 es c -> served ck wf 0 u0 m v0 m1 -> served ck wf 1 u1 m1 v1 m2 -> served ck wf 2 u2 m2 v2 m3 ->
  (forall es c, sys3 n false v0 v1 v2 es c -> exists c' es', afs_update env fuel (mark m3 fds3) (c, m3) = Ret (tt, (c', m4)) /\
    sys3 n false w0 w1 w2 es' c' /\ evs_are ps es') ->
  (forall es', evs_are ps es' -> es' <> [] /\ existsb afs_ev_is_fail es' = false) ->
  exists c' es', sys3 n false w0 w1 w2 es' c' /\ evs_are ps es' /\ update_ env fuel strerror poll (S j) line (c, m) = Ret (Some es', (c', m4)).
Proof.
  intros Hc H0 H1 H2 Hu HP.
  destruct (round_run n k pgs ck wf strerror j line _ _ _ _ _ _ _ _ _ _ _ _ _ m4 (fun c' es' => sys3 n false w0 w1 w2 es' c' /\ evs_are ps es') Hc H0 H1 H2)
    as (c' & es' & [Hs He] & Hr).
  { intros c1 es1 Hc1. destruct (Hu es1 c1 Hc1) as (c' & es' & Hr & Hs & He). exists c'. split; [done|]. by rewrite (sys3_evs _ _ _ _ _ _ _ Hs). }
  exists c', es'. split; [done|]. split; [done|]. destruct (HP es' He) as [Hne Hf]. rewrite Hr, Hf.
  by rewrite decide_True by (destruct es'; [done|cbn; lia]).
Qed.

(** *** The files are opened *)
Section opening.
Context (f jf : sob_fail) (j0 j1 j2 : afs_ev) (F : list (list char * list char)) (pa pb d : list char).
Context (Ha : no_nul pa) (Hb : no_nul pb) (HF : assoc pa F = Some d) (Ds : list (list char)) (Hdir : assoc demo_dir F = None)
  (HDb : pb ∉ made_dirs demo_dir Ds).
Abbreviation path_buf p := (splice (zeros pgs) 0 (p ++ [ch_nul])) (only parsing).
Abbreviation node3 := (fresh_node pgs jf j0 j1 j2) (only parsing).
Abbreviation at_pa := (with_open_flags (Z.lor O_RDONLY O_NOCTTY) shared_init_) (only parsing).
Abbreviation at_pb := (with_open_flags (Z.lor O_RDWR (Z.lor O_CREAT O_NOCTTY)) shared_init_) (only parsing).
Abbreviation mc nx F O U D C := (mach_of nx F Ds O U D C 0%Z) (only parsing).
Abbreviation md nx F O U D C := (mach_of nx F (made_dirs demo_dir Ds) O U D C (made_errno demo_dir Ds 0)) (only parsing).
Abbreviation nx0 := (made_next demo_dir Ds 15) (only parsing).
Abbreviation none3 := [(11, -1); (7, -1); (3, -1)]%Z (only parsing).

Lemma starting_shape s0 s1 s2 rw0 rw1 rw2 : sys3 n false (fresh 0 proc_cmd_mkdir_ s0 rw0) (fresh 1 proc_cmd_open_ s1 rw1)
    (fresh 2 proc_cmd_open_ s2 rw2) [] (starting f [node3 0 proc_cmd_mkdir_ s0 rw0; node3 1 proc_cmd_open_ s1 rw1; node3 2 proc_cmd_open_ s2 rw2]).
Proof. by econstructor. Qed.

(** The workers start and get their commands. *)
Lemma start_round line c rw0 rw1 rw2 : sys3 n false (fresh 0 proc_cmd_mkdir_ shared_init_ rw0) (fresh 1 proc_cmd_open_ at_pa rw1)
    (fresh 2 proc_cmd_open_ at_pb rw2) [] c ->
  exists c' es, sys3 n false (sent 0 proc_cmd_mkdir_ shared_init_ rw0) (sent 1 proc_cmd_open_ at_pa rw1) (sent 2 proc_cmd_open_ at_pb rw2) es c' /\
    update_ env fuel strerror poll fuel line (c, mc 15 F [] [11; 7; 3] [] [])%Z =
    update_ env fuel strerror poll (S k) line (c', mc 15 F [] [11; 7; 3] [] none3)%Z.
Proof.
  intros Hc.
  assert (served ck wf 0 (fresh 0 proc_cmd_mkdir_ shared_init_ rw0) (mc 15 F [] [11; 7; 3] [] [])%Z
    (fresh 0 proc_cmd_mkdir_ (sh_of proc_cmd_none_ shared_init_) rw0) (mc 15 F [] [11; 7] [3] [(3, -1)])%Z) as H0.
  { eapply served_run; [in_list|by apply exec_start|reflexivity..]. }
  assert (served ck wf 1 (fresh 1 proc_cmd_open_ at_pa rw1) (mc 15 F [] [11; 7] [3] [(3, -1)])%Z
    (fresh 1 proc_cmd_open_ (sh_of proc_cmd_none_ at_pa) rw1) (mc 15 F [] [11] [7; 3] [(7, -1); (3, -1)])%Z) as H1.
  { eapply served_run; [in_list|by apply exec_start|reflexivity..]. }
  assert (served ck wf 2 (fresh 2 proc_cmd_open_ at_pb rw2) (mc 15 F [] [11] [7; 3] [(7, -1); (3, -1)])%Z
    (fresh 2 proc_cmd_open_ (sh_of proc_cmd_none_ at_pb) rw2) (mc 15 F [] [] [11; 7; 3] none3)%Z) as H2.
  { eapply served_run; [in_list|by apply exec_start|reflexivity..]. }
  pose (P := fun c' es' => es' = [] /\
    sys3 n false (sent 0 proc_cmd_mkdir_ shared_init_ rw0) (sent 1 proc_cmd_open_ at_pa rw1) (sent 2 proc_cmd_open_ at_pb rw2) es' c').
  destruct (round_run n k pgs ck wf strerror (S k) line _ _ _ _ _ _ _ _ _ _ _ _ _ (mc 15 F [] [11; 7; 3] [] none3)%Z P Hc H0 H1 H2)
    as (c' & es' & [-> H] & Hr).
  { intros c1 es1 Hc1. destruct (update_started n k pgs Ds 0 15 F [] none3 shared_init_ at_pa at_pb rw0 rw1 rw2 es1 c1 Hc1) as (c' & es' & Hr & Hs & He).
    exists c'. split; [exact Hr|]. rewrite (sys3_evs _ _ _ _ _ _ _ Hs). each_ev He. by split. }
  exists c', []. split; [exact H|]. exact Hr.
Qed.

Lemma dir_served : served ck wf 0 (sent 0 proc_cmd_mkdir_ shared_init_ (path_buf demo_dir)) (mc 15 F [] [11; 7; 3] [] none3)%Z
  (sent 0 proc_cmd_mkdir_ shared_init_ (path_buf demo_dir)) (md nx0 F [] [11; 7] [3] [(3, -1); (11, -1); (7, -1)])%Z.
Proof.
  eapply served_run; [in_list|apply exec_mkdir; [done|apply cstr_path; by repeat constructor|exact Hdir]|reflexivity..].
Qed.

Lemma source_served : served ck wf 1 (sent 1 proc_cmd_open_ at_pa (path_buf pa)) (md nx0 F [] [11; 7] [3] [(3, -1); (11, -1); (7, -1)])%Z
  (sent 1 proc_cmd_open_ at_pa (path_buf pa)) (md (nx0 + 1) F [(nx0, (pa, 0%nat))] [11] [7; 3] [(7, nx0); (3, -1); (11, -1)])%Z.
Proof.
  pose proof (made_next_ge demo_dir Ds 15).
  eapply served_run; [in_list|eapply exec_open; [by apply cstr_path|by eapply (open_old_run ck pa d)|cbn [m_next]; lia]|reflexivity..].
Qed.

Lemma dest_served : served ck wf 2 (sent 2 proc_cmd_open_ at_pb (path_buf pb)) (md (nx0 + 1) F [(nx0, (pa, 0%nat))] [11] [7; 3] [(7, nx0); (3, -1); (11, -1)])%Z
  (sent 2 proc_cmd_open_ at_pb (path_buf pb))
  (md (nx0 + 1 + 1) (opened_files pb F) [(nx0 + 1, (pb, 0%nat)); (nx0, (pa, 0%nat))] [] [11; 7; 3] [(11, nx0 + 1); (7, nx0); (3, -1)])%Z.
Proof.
  pose proof (made_next_ge demo_dir Ds 15).
  eapply served_run; [in_list|eapply exec_open; [by apply cstr_path|by apply (open_new_run ck pb)|cbn [m_next]; lia]|reflexivity..].
Qed.

Lemma start_wait line c v0 v1 v2 vr : sys3 n false (fresh 0 proc_cmd_mkdir_ shared_init_ (path_buf demo_dir))
    (fresh 1 proc_cmd_open_ at_pa (path_buf pa)) (fresh 2 proc_cmd_open_ at_pb (path_buf pb)) [] c ->
  exists c' es w0 w1 w2, wait line (set_ty 2 afs_ev_mkdir (set_ty 1 afs_ev_open (set_ty 0 afs_ev_open (v0 :: v1 :: v2 :: vr)))) 3
      (c, mc 15 F [] [11; 7; 3] [] [])%Z =
    Ret (w0 :: w1 :: w2 :: vr, (c', md (nx0 + 1 + 1) (opened_files pb F) [(nx0 + 1, (pb, 0%nat)); (nx0, (pa, 0%nat))] [] [] [(11, nx0 + 1); (7, nx0); (3, -1)]))%Z /\
    sys3 n false (idle (-1) shared_init_ (path_buf demo_dir)) (idle 1 at_pa (path_buf pa)) (idle 2 at_pb (path_buf pb)) es c'.
Proof.
  intros Hc. destruct (start_round line _ _ _ _ Hc) as (c1 & es1 & Hc1 & Hr1).
  destruct (round_reports k line _ _ _ _ _ _ _ _ _ _ _ _ _ _ _ _ _ Hc1 dir_served source_served dest_served (update_opened n k pgs _ _ _ _ _ _ _ _ _ _ _ _))
    as (c2 & es2 & Hc2 & He & Hr2).
  { intros es' He. by each_ev He. }
  rewrite Hr2 in Hr1. each_ev He. eexists c2, _, _, _, _. split; [|exact Hc2]. eapply wait_run; [lia|exact Hr1|reflexivity].
Qed.
End opening.

Section open_.
Context (Ds : list (list char)) (er xa xb : Z) (Hxa : xa <> (-1)%Z) (Hxb : xb <> (-1)%Z) (Hx : xa <> xb).

(** *** One chunk *)
Section chunk.
Context (pa pb d old : list char) (F : list (list char * list char)) (s0 : proc_shared_) (rw0 : list char).
Context (Hab : pa <> pb) (Hpa : assoc pa F = Some d) (HN : 0 < n - sizeof_proc_shared_).
Abbreviation mc nx F O U D C := (mach_of nx F Ds O U D C er) (only parsing).
Implicit Types (f : list (list char * list char)) (o : list (Z * (list char * nat))).

(** [j] bytes are copied, and no other file has changed. *)
Definition files_ok (j : nat) f : Prop :=
  content pb f = copied d old j /\ forall p, p <> pb -> assoc p f = assoc p F.

(** The next chunk from offset [i] on. *)
Definition chunk (rw : list char) (i : nat) : list char := take (length rw) (drop i d).

Lemma source_content j f : files_ok j f -> content pa f = d.
Proof. intros [_ H]. by rewrite H, Hpa. Qed.

Lemma read_served U U' D s1 rw1 nx f o C i j ch : assoc xa o = Some (pa, i) -> assoc 7%Z C = Some xa -> files_ok j f -> 7%Z ∈ U ->
  filter (fun z => z <> 7%Z) U = U' -> ch = chunk rw1 i ->
  served ck wf 1 (sent 1 proc_cmd_readall_ s1 rw1) (mc nx f o U D C)
    (sent 1 proc_cmd_readall_ (with_read_len (length ch) s1) (splice rw1 0 ch))
    (mc nx f (assoc_set xa (pa, i + length ch) o) U' (7%Z :: D) (assoc_set 7%Z xa C)).
Proof.
  intros Ho HC Hf HU <- ->. pose proof (exec_readall ck wf s1 rw1 xa (mc nx f o U D C) _ _ Hxa Ho) as He.
  unfold m_content in He. cbn [m_files] in He. rewrite (source_content j f Hf) in He.
  eapply (served_run _ _ 1); [exact HU|unfold cfd_of; cbn [m_cfd]; change (3 + 4 * Z.of_nat 1)%Z with 7%Z; rewrite HC; exact He|reflexivity..].
Qed.

Lemma write_served s2 rw2 nx f o C i j : assoc xb o = Some (pb, j) -> assoc 11%Z C = Some xb -> files_ok j f ->
  length rw2 = n - sizeof_proc_shared_ ->
  write_len s2 <= length rw2 -> take (write_len s2) rw2 = take (write_len s2) (drop j d) -> i = j + write_len s2 -> i <= length d ->
  exists f', files_ok i f' /\ served ck wf 2 (sent 2 proc_cmd_write_ s2 rw2) (mc nx f o [11] [7] C)%Z
    (sent 2 proc_cmd_write_ (with_written (write_len s2) s2) rw2) (mc nx f' (assoc_set xb (pb, i) o) [] [11; 7] (assoc_set 11 xb C))%Z.
Proof.
  intros Ho HC [Hf1 Hf2] Hrw Hlen Hd -> Hi. exists (assoc_set pb (copied d old (j + write_len s2)) f). split.
  - split; [by rewrite assoc_set_eq|]. intros p Hp. by rewrite assoc_set_ne, Hf2.
  - pose proof (exec_write ck Hck wf s2 rw2 xb (mc nx f o [11] [7] C)%Z _ _ Hxb Ho Hlen ltac:(unfold n in Hrw; lia)) as He.
    unfold m_written, m_content in He. cbn [m_files m_open] in He. rewrite Hf1, Hd, put_copied, length_take, length_drop, Nat.min_l in He by lia.
    eapply (served_run _ _ 2); [in_list|unfold cfd_of; cbn [m_cfd]; change (3 + 4 * Z.of_nat 2)%Z with 11%Z; rewrite HC; exact He|reflexivity..].
Qed.

(** Both workers idle, [i] bytes read and [j] written. *)
Definition copying (i j : nat) (s1 s2 : proc_shared_) (rw1 rw2 : list char) (up : list Z) (es : list afs_ev) (u2 : slot) c m : Prop :=
  sys3 n false (idle (-1) s0 rw0) (idle 1 s1 rw1) u2 es c /\ (exists f, files_ok j f /\ m_ready Ds er xa xb pa pb f i j up m) /\
  length rw1 = n - sizeof_proc_shared_ /\ length rw2 = n - sizeof_proc_shared_.

Definition read_ev (len : nat) : afs_ev := {| ev_ty := afs_ev_readall; ev_fd := 1; ev_len := len; ev_data := addr 1 |}.

(** The wait for a chunk when nothing is being written. *)
Lemma read_wait line i s1 s2 rw1 rw2 es c m v0 vr : copying i i s1 s2 rw1 rw2 [] es (idle 2 s2 rw2) c m ->
  let ch := chunk rw1 i in
  exists c1 c' m' es', afs_readall env fuel 1 (c, m) = Ret (afs_ok, (c1, up_ 7 m)) /\
    wait line (set_ty 0 afs_ev_readall (v0 :: vr)) 1 (c1, up_ 7 m) = Ret (read_ev (length ch) :: vr, (c', m')) /\
    copying (i + length ch) i (with_read_len (length ch) s1) s2 (splice rw1 0 ch) rw2 [] es' (idle 2 s2 rw2) c' m'.
Proof.
  intros (Hc & (f & Hf & Hm) & Hl1 & Hl2) ch. assert (m_gone m = []) as Hg by (by destruct Hm).
  destruct (readall_sent n k pgs _ _ _ _ _ c m Hg Hc eq_refl) as (c1 & H1 & Hc1). exists c1.
  destruct Hm as [nx o C Hnx Ho1 Ho2 HC1 HC2 Ho3]. pose proof (read_served [7]%Z [] [] s1 rw1 nx f o C i i ch Ho1 HC1 Hf ltac:(in_list) eq_refl eq_refl) as Hr.
  assert (served ck wf 0 (idle (-1) s0 rw0) (mc nx f o [7] [] C)%Z (idle (-1) s0 rw0) (mc nx f o [7] [] C)%Z) as Hr0 by (apply served_quiet; in_list).
  set (o' := assoc_set xa _ o) in Hr. set (C' := assoc_set 7%Z _ C) in Hr.
  assert (served ck wf 2 (idle 2 s2 rw2) (mc nx f o' [] [7] C')%Z (idle 2 s2 rw2) (mc nx f o' [] [7] C')%Z) as Hr2 by (apply served_quiet; in_list).
  destruct (round_reports (S k) line _ _ _ _ _ _ _ _ _ _ _ _ _ _ _ _ _ Hc1 Hr0 Hr Hr2 (update_read n k pgs Ds er nx f o' C' _ _ _ _ _ _))
    as (c2 & es2 & Hc2 & He & Hw); [intros es' He; by each_ev He|].
  each_ev He. eexists c2, _, _. split; [exact H1|]. split; [eapply wait_run; [lia|exact Hw|reflexivity]|].
  split; [exact Hc2|]. assert (length ch <= length rw1) as Hch by (unfold ch, chunk; rewrite length_take; lia).
  split; [|by rewrite splice_length by lia]. exists f. split; [done|].
  subst o' C'. constructor; [done|apply assoc_set_eq|by rewrite assoc_set_ne|apply assoc_set_eq|by rewrite assoc_set_ne|].
  intros y H17 H18. rewrite assoc_set_ne; auto.
Qed.

(** The bytes from [j] to [i] are in the buffer of the writer, and are being written. *)
Definition pending (i j : nat) (s2 : proc_shared_) (rw2 : list char) : Prop :=
  write_len s2 <= length rw2 /\ take (write_len s2) rw2 = take (write_len s2) (drop j d) /\ i = j + write_len s2 /\ i <= length d.

(** The wait for a chunk while the one before is being written. *)
Lemma read_written_wait line i j s1 s2 rw1 rw2 es c m v0 v1 vr : copying i j s1 s2 rw1 rw2 [11]%Z es (sent 2 proc_cmd_write_ s2 rw2) c m ->
  pending i j s2 rw2 ->
  let ch := chunk rw1 i in
  exists c1 c' m' es' s2' w1, afs_readall env fuel 1 (c, m) = Ret (afs_ok, (c1, up_ 7 m)) /\
    wait line (set_ty 1 afs_ev_write (set_ty 0 afs_ev_readall (v0 :: v1 :: vr))) 2 (c1, up_ 7 m) = Ret (read_ev (length ch) :: w1 :: vr, (c', m')) /\
    copying (i + length ch) i (with_read_len (length ch) s1) s2' (splice rw1 0 ch) rw2 [] es' (idle 2 s2' rw2) c' m'.
Proof.
  intros (Hc & (f & Hf & Hm) & Hl1 & Hl2) (Hp1 & Hp2 & Hp3 & Hp4) ch.
  assert (m_gone m = []) as Hg by (by destruct Hm).
  destruct (readall_sent n k pgs _ _ _ _ _ c m Hg Hc eq_refl) as (c1 & H1 & Hc1). exists c1.
  destruct Hm as [nx o C Hnx Ho1 Ho2 HC1 HC2 Ho3].
  assert (served ck wf 0 (idle (-1) s0 rw0) (mc nx f o [7; 11] [] C)%Z (idle (-1) s0 rw0) (mc nx f o [7; 11] [] C)%Z) as Hr0 by (apply served_quiet; in_list).
  pose proof (read_served [7; 11]%Z [11]%Z [] s1 rw1 nx f o C i j ch Ho1 HC1 Hf ltac:(in_list) eq_refl eq_refl) as Hr.
  set (o' := assoc_set xa _ o) in Hr. set (C' := assoc_set 7%Z _ C) in Hr.
  destruct (write_served s2 rw2 nx f o' C' i j) as (f' & Hf' & Hr2); [by subst o'; rewrite assoc_set_ne|by subst C'; rewrite assoc_set_ne|done..|].
  destruct (round_reports (S k) line _ _ _ _ _ _ _ _ _ _ _ _ _ _ _ _ _ Hc1 Hr0 Hr Hr2 (update_read_written n k pgs Ds er nx f' _ _ _ _ _ _ _ _))
    as (c2 & es2 & Hc2 & He & Hw); [intros es' He; by each_ev He|].
  each_ev He. eexists c2, _, _, _, _. split; [exact H1|]. split; [eapply wait_run; [lia|exact Hw|reflexivity]|].
  split; [exact Hc2|]. assert (length ch <= length rw1) as Hch by (unfold ch, chunk; rewrite length_take; lia).
  split; [|by rewrite splice_length by lia]. exists f'. split; [done|].
  constructor; [done|by rewrite assoc_set_ne; [apply assoc_set_eq|]|apply assoc_set_eq|by rewrite assoc_set_ne; [apply assoc_set_eq|]|apply assoc_set_eq|].
  intros y H17 H18. subst o'. rewrite !assoc_set_ne; auto.
Qed.

(** The chunk that was read goes to the writer. *)
Lemma write_next i s1 s2 rw1 rw2 es c m ch : copying (i + length ch) i s1 s2 (splice rw1 0 ch) rw2 [] es (idle 2 s2 rw2) c m ->
  ch = chunk rw1 i -> i <= length d ->
  exists c1 c2 m2, load_ (addr 1) (length ch) (c, m) = Ret (ch, (c, m)) /\ store_ (addr 2) ch (c, m) = Ret (tt, (c1, m)) /\
    afs_write env fuel 2 (length ch) (c1, m) = Ret (afs_ok, (c2, m2)) /\
    copying (i + length ch) i s1 (with_write_len (length ch) s2) (splice rw1 0 ch) (splice rw2 0 ch) [11]%Z es
      (sent 2 proc_cmd_write_ (with_write_len (length ch) s2) (splice rw2 0 ch)) c2 m2 /\
    pending (i + length ch) i (with_write_len (length ch) s2) (splice rw2 0 ch).
Proof.
  intros (Hc & (f & Hf & Hm) & Hl1 & Hl2) Hch Hi.
  assert (length ch <= length rw1 /\ length ch <= length d - i) as [Hlen1 Hlen2] by (subst ch; unfold chunk; rewrite length_take, length_drop; lia).
  assert (forall rw, length ch <= length rw -> take (length ch) (splice rw 0 ch) = ch) as Htake.
  { intros rw H. unfold splice. by rewrite take_0, app_nil_l, take_app_length. }
  rewrite splice_length in Hl1 by lia.
  destruct (store_b_run n _ _ ch _ _ _ _ _ c m Hc) as (c1 & H1 & Hc1); [lia|].
  assert (m_gone m = []) as Hg by (by destruct Hm).
  destruct (write_sent n k pgs _ _ (length ch) _ _ _ _ _ c1 m Hg Hc1) as (c2 & H2 & Hc2); [lia|].
  exists c1, c2, (up_ 11 m). split; [rewrite (load_run n _ _ _ _ _ _ _ m Hc) by (rewrite splice_length by lia; lia); by rewrite Htake|].
  split; [exact H1|]. split; [exact H2|]. split.
  - split; [exact Hc2|]. split; [|by rewrite !splice_length by lia]. exists f. split; [done|]. by destruct Hm.
  - split; [by cbn; rewrite splice_length by lia; lia|]. cbn. rewrite Htake by lia. split; [|lia].
    subst ch. unfold chunk. rewrite length_take, length_drop. rewrite <- (take_ge (drop i d) (length d - i)) at 1 by (rewrite length_drop; lia).
    by rewrite take_take.
Qed.

(** *** The loop *)
Abbreviation copy := (copy_loop_ env fuel strerror poll) (only parsing).

(** A run of the loop that ends with the whole file copied. *)
Definition copies (r : outcome (list afs_ev * (afs_ctx * mach))) (vr : list afs_ev) : Prop :=
  exists s1 s2 rw1 rw2 es w0 w1 c m, r = Ret (w0 :: w1 :: vr, (c, m)) /\
    copying (length d) (length d) s1 s2 rw1 rw2 [] es (idle 2 s2 rw2) c m.

(** [t] turns are enough from offset [i] on when a chunk is written. *)
Definition copies_from (t : nat) : Prop := forall i j s1 s2 rw1 rw2 es c m v0 v1 vr,
  copying i j s1 s2 rw1 rw2 [11]%Z es (sent 2 proc_cmd_write_ s2 rw2) c m -> pending i j s2 rw2 ->
  length d - i + (n - sizeof_proc_shared_) <= t * (n - sizeof_proc_shared_) -> copies (copy t 1%Z 2%Z true (v0 :: v1 :: vr) (c, m)) vr.

(** What follows the wait. *)
Lemma copy_rest t i s1 s2 rw1 rw2 es c m w1 vr ch : copies_from t -> ch = chunk rw1 i -> i <= length d -> length rw1 = n - sizeof_proc_shared_ ->
  copying (i + length ch) i s1 s2 (splice rw1 0 ch) rw2 [] es (idle 2 s2 rw2) c m -> length d - i <= t * (n - sizeof_proc_shared_) ->
  copies ((if decide (length ch = 0) then mret (read_ev (length ch) :: w1 :: vr)
    else
      b ← check_out_ 1714 (lit "afs_get_rw_buf(c, fd_b, &b_rw_buf, &b_rw_buf_len)") (afs_get_rw_buf env 2);
      if decide ((b : Z * nat).2 < length ch) then sob_panic (lit "afs.c") 1716 (lit "buf too short")
      else
        d ← load_ (addr 1) (length ch);
        store_ b.1 d ;;
        check_ 1720 (lit "afs_write(c, fd_b, evs[0].d.readall.len)") (afs_write env fuel 2 (length ch)) ;;
        copy t 1%Z 2%Z true (read_ev (length ch) :: w1 :: vr)) (c, m)) vr.
Proof.
  intros IH Hch Hi Hrw Hcp Ht. assert (length ch = (n - sizeof_proc_shared_) `min` (length d - i)) as Hlen.
  { subst ch. unfold chunk. by rewrite length_take, length_drop, Hrw. }
  destruct (decide (length ch = 0)) as [Hz|Hz].
  - assert (i = length d) as -> by lia. rewrite Hz, Nat.add_0_r in Hcp. eexists _, _, _, _, _, _, _, _, _. by split; [|exact Hcp].
  - destruct (write_next i s1 s2 rw1 rw2 es c m ch Hcp Hch Hi) as (c1 & c2 & m2 & H1 & H2 & H3 & Hcp2 & Hp2). destruct Hcp as (Hc & _).
    rewrite (check_out_run _ _ _ _ _ _ _ (rw_buf_run n pgs 2 2 _ _ _ _ c m Hc ltac:(right; done))).
    rewrite decide_False by (cbn; lia). rewrite (bind_Ret _ _ _ _ _ H1), (bind_Ret _ _ _ _ _ H2).
    rewrite (check_run _ _ _ _ _ _ H3). eapply IH; [exact Hcp2|exact Hp2|]. destruct t; lia.
Qed.

Lemma copies_true t : copies_from t.
Proof.
  induction t as [|t IH]; intros i j s1 s2 rw1 rw2 es c m v0 v1 vr Hcp Hp Ht; [cbn in Ht; lia|].
  destruct (read_written_wait 1708 i j s1 s2 rw1 rw2 es c m v0 v1 vr Hcp Hp) as (c1 & c' & m' & es' & s2' & w1 & H1 & H2 & Hcp').
  cbn [copy_loop_]. rewrite (check_run _ _ _ _ _ _ H1). cbv zeta. rewrite (bind_Ret _ _ _ _ _ H2). eapply (copy_rest t i _ _ rw1); [exact IH|done|apply Hp|apply Hcp|exact Hcp'|lia].
Qed.

Lemma copies_all t s1 s2 rw1 rw2 es c m v0 v1 vr : copying 0 0 s1 s2 rw1 rw2 [] es (idle 2 s2 rw2) c m ->
  length d + (n - sizeof_proc_shared_) <= t * (n - sizeof_proc_shared_) -> copies (copy t 1%Z 2%Z false (v0 :: v1 :: vr) (c, m)) vr.
Proof.
  intros Hcp Ht. destruct t as [|t]; [cbn in Ht; lia|].
  destruct (read_wait 1708 0 s1 s2 rw1 rw2 es c m v0 (v1 :: vr) Hcp) as (c1 & c' & m' & es' & H1 & H2 & Hcp').
  cbn [copy_loop_]. rewrite (check_run _ _ _ _ _ _ H1). cbv zeta. rewrite (bind_Ret _ _ _ _ _ H2). eapply (copy_rest t 0 _ _ rw1); [apply copies_true|done|lia|apply Hcp|exact Hcp'|lia].
Qed.
End chunk.

(** *** The end *)
Section finish.
Context (s1 s2 : proc_shared_) (rw1 rw2 : list char).
Implicit Types (f : list (list char * list char)) (o : list (Z * (list char * nat))) (C : list (Z * Z)).
Abbreviation mc nx F O U D C := (mach_of nx F Ds O U D C er) (only parsing).

Lemma sync_wait line (s0 : proc_shared_) rw0 es c nx f o C v0 vr : sys3 n false (idle (-1) s0 rw0) (idle 1 s1 rw1) (idle 2 s2 rw2) es c -> assoc 11%Z C = Some xb ->
  (exists v, assoc xb o = Some v) ->
  exists c1 c' es' w0, afs_fsync env fuel 2 (c, mc nx f o [] [] C) = Ret (afs_ok, (c1, mc nx f o [11] [] C)%Z) /\
    wait line (set_ty 0 afs_ev_fsync (v0 :: vr)) 1 (c1, mc nx f o [11] [] C)%Z = Ret (w0 :: vr, (c', mc nx f o [] [] (assoc_set 11 xb C))%Z) /\
    sys3 n false (idle (-1) s0 rw0) (idle 1 s1 rw1) (idle 2 s2 rw2) es' c'.
Proof.
  intros Hc HC [v Hv]. destruct (fsync_sent n k pgs s0 rw0 s2 rw2 _ es c (mc nx f o [] [] C) eq_refl Hc eq_refl) as (c1 & H1 & Hc1). exists c1.
  assert (served ck wf 0 (idle (-1) s0 rw0) (mc nx f o [11] [] C)%Z (idle (-1) s0 rw0) (mc nx f o [11] [] C)%Z) as Hr0 by (apply served_quiet; in_list).
  assert (served ck wf 1 (idle 1 s1 rw1) (mc nx f o [11] [] C)%Z (idle 1 s1 rw1) (mc nx f o [11] [] C)%Z) as Hr1 by (apply served_quiet; in_list).
  assert (served ck wf 2 (sent 2 proc_cmd_fsync_ s2 rw2) (mc nx f o [11] [] C)%Z (sent 2 proc_cmd_fsync_ s2 rw2)
    (mc nx f o [] [11] (assoc_set 11 xb C))%Z) as Hr2.
  { eapply (served_run _ _ 2); [in_list|unfold cfd_of; cbn [m_cfd]; change (3 + 4 * Z.of_nat 2)%Z with 11%Z; rewrite HC; by eapply exec_fsync|reflexivity..]. }
  destruct (round_reports (S k) line _ _ _ _ _ _ _ _ _ _ _ _ _ _ _ _ _ Hc1 Hr0 Hr1 Hr2 (update_synced n k pgs Ds er nx f o _ _ _ _ _ _ _))
    as (c2 & es2 & Hc2 & He & Hw); [intros es' He; by each_ev He|].
  each_ev He. eexists c2, _, _. split; [exact H1|]. split; [eapply wait_run; [lia|exact Hw|reflexivity]|exact Hc2].
Qed.

(** Both files are closed; nothing else was open. *)
Lemma close_wait line (s0 : proc_shared_) rw0 es c nx f o C v0 v1 vr : sys3 n false (idle (-1) s0 rw0) (idle 1 s1 rw1) (idle 2 s2 rw2) es c ->
  assoc 7%Z C = Some xa -> assoc 11%Z C = Some xb -> (forall y, y <> xa -> y <> xb -> assoc y o = None) ->
  exists c1 c2 c' es' w0 w1 C', afs_close env fuel 1 (c, mc nx f o [] [] C) = Ret (afs_ok, (c1, mc nx f o [7] [] C)%Z) /\
    afs_close env fuel 2 (c1, mc nx f o [7] [] C)%Z = Ret (afs_ok, (c2, mc nx f o [11; 7] [] C)%Z) /\
    wait line (set_ty 1 afs_ev_close (set_ty 0 afs_ev_close (v0 :: v1 :: vr))) 2 (c2, mc nx f o [11; 7] [] C)%Z =
      Ret (w0 :: w1 :: vr, (c', mc nx f [] [] [] C')) /\
    sys3 n false (idle (-1) s0 rw0) (idle (-1) s1 rw1) (idle (-1) s2 rw2) es' c'.
Proof.
  intros Hc HC1 HC2 Ho. destruct (close_a_sent n k pgs s0 rw0 s1 rw1 _ es c (mc nx f o [] [] C) eq_refl Hc) as (c1 & H1 & Hc1).
  destruct (close_b_sent n k pgs s0 rw0 s1 rw1 s2 rw2 es c1 (mc nx f o [7] [] C)%Z eq_refl Hc1) as (c2 & H2 & Hc2). exists c1, c2.
  assert (served ck wf 0 (idle (-1) s0 rw0) (mc nx f o [11; 7] [] C)%Z (idle (-1) s0 rw0) (mc nx f o [11; 7] [] C)%Z) as Hr0 by (apply served_quiet; in_list).
  set (o1 := filter (fun e => e.1 <> xa) o). set (C1 := assoc_set 7%Z (-1)%Z C).
  assert (served ck wf 1 (sent 1 proc_cmd_close_ s1 rw1) (mc nx f o [11; 7] [] C)%Z (sent 1 proc_cmd_close_ s1 rw1) (mc nx f o1 [11] [7] C1)%Z) as Hr1.
  { eapply (served_run _ _ 1); [in_list|unfold cfd_of; cbn [m_cfd]; change (3 + 4 * Z.of_nat 1)%Z with 7%Z; rewrite HC1; by apply exec_close|reflexivity..]. }
  assert (served ck wf 2 (sent 2 proc_cmd_close_ s2 rw2) (mc nx f o1 [11] [7] C1)%Z (sent 2 proc_cmd_close_ s2 rw2)
    (mc nx f (filter (fun e => e.1 <> xb) o1) [] [11; 7] (assoc_set 11 (-1) C1))%Z) as Hr2.
  { eapply (served_run _ _ 2); [in_list|unfold cfd_of; cbn [m_cfd]; change (3 + 4 * Z.of_nat 2)%Z with 11%Z;
      unfold C1; rewrite assoc_set_ne, HC2 by done; by apply exec_close|reflexivity..]. }
  assert (filter (fun e => e.1 <> xb) o1 = []) as Hnil.
  { apply assoc_None_nil. intros y. destruct (decide (y = xb)) as [->|H18]; [apply assoc_filter_eq|].
    rewrite assoc_filter by done. subst o1. destruct (decide (y = xa)) as [->|H17]; [apply assoc_filter_eq|].
    rewrite assoc_filter by done. by apply Ho. }
  rewrite Hnil in Hr2.
  destruct (round_reports (S k) line _ _ _ _ _ _ _ _ _ _ _ _ _ _ _ _ _ Hc2 Hr0 Hr1 Hr2 (update_closed n k pgs Ds er nx f [] _ _ _ _ _ _ _))
    as (c3 & es3 & Hc3 & He & Hw); [intros es' He; by each_ev He|].
  each_ev He. eexists c3, _, _, _, _. split; [exact H1|]. split; [exact H2|]. split; [eapply wait_run; [lia|exact Hw|reflexivity]|exact Hc3].
Qed.

Abbreviation create := (Z.lor O_RDWR (Z.lor O_CREAT O_NOCTTY)) (only parsing).

(** The third file with the text of the program. *)
Definition saved_files f : list (list char * list char) :=
  assoc_set demo_file (put_at (content demo_file (opened_files demo_file f)) 0 write_str) (opened_files demo_file f).

Lemma saved_files_content f : content demo_file (saved_files f) = write_str ++ drop (length write_str) (content demo_file f).
Proof. unfold saved_files, opened_files. rewrite assoc_set_eq. cbn [default]. destruct (assoc demo_file f) eqn:H; [by rewrite H|by rewrite assoc_set_eq]. Qed.

Lemma saved_files_other f p : p <> demo_file -> assoc p (saved_files f) = assoc p f.
Proof. intros Hp. unfold saved_files, opened_files. rewrite assoc_set_ne by done. destruct (assoc demo_file f); [done|]. by rewrite assoc_set_ne. Qed.

Lemma save_served s0 rest nx f C : (15 <= nx)%Z -> length demo_file + 1 <= length rest -> demo_file ∉ Ds ->
  length (write_str ++ rest) < wf ->
  let u s := sent 0 proc_cmd_write_fsync_close_ s (splice (write_str ++ rest) (length write_str) (demo_file ++ [ch_nul])) in
  served ck wf 0 (u (wfc_sh create (length write_str) s0)) (mc nx f [] [3] [] C)%Z
    (u (with_written (length write_str) (wfc_sh create (length write_str) s0)))
    (mc (nx + 1) (saved_files f) [] [] [3] (assoc_set 3 (default (-1) (assoc 3 C)) C))%Z.
Proof.
  intros Hnx Hrest HD Hlt u. destruct (filled_buffer demo_file write_str rest) as (Hp & Hd & Hlen); [by repeat constructor|done|].
  set (rw := splice _ _ _) in *.
  pose proof (open_new_run ck demo_file create (mc nx f [] [3] [] C)%Z HD eq_refl) as Ho.
  pose proof (exec_wfc ck Hck wf (wfc_sh create (length write_str) s0) rw (cfd_of 3 (mc nx f [] [3] [] C)%Z) demo_file nx demo_file _ _ Hp
    ltac:(rewrite Hlen, length_app; cbn [wfc_sh with_write_len write_len]; lia) ltac:(by rewrite Hlen) Ho ltac:(lia)
    ltac:(cbn [m_open m_set_files m_next]; rewrite assoc_cons; by rewrite decide_True)) as He.
  change (write_len (wfc_sh create (length write_str) s0)) with (length write_str) in He. rewrite Hd in He.
  eapply (served_run _ _ 0); [in_list|exact He|reflexivity|]. cbn [os_close mach_os].
  unfold answered, m_written, m_set_files, m_set_cfd, m_set_bytes, m_fresh, m_content.
  cbn [m_next m_files m_dirs m_open m_up m_down m_gone m_cfd m_errno]. f_equal. symmetry. apply assoc_None_nil. intros y.
  destruct (decide (y = nx)) as [->|Hy]; [apply assoc_filter_eq|]. rewrite assoc_filter, assoc_set_ne, assoc_cons by done.
  by rewrite decide_False.
Qed.

(** The worker that made the directory saves the third file. *)
Lemma save_wait line s0 rw0 es c nx f C v0 vr junk : sys3 n false (idle (-1) s0 rw0) (idle (-1) s1 rw1) (idle (-1) s2 rw2) es c ->
  length rw0 = n - sizeof_proc_shared_ -> length write_str + length demo_file + 1 <= n - sizeof_proc_shared_ ->
  (Z.of_nat (n - sizeof_proc_shared_) < 2 ^ 64)%Z -> (15 <= nx)%Z -> demo_file ∉ Ds ->
  exists c1 c2 c3 c' es' w0 s0' rw0' C', let m := mc nx f [] [] [] C in
    afs_reserve env fuel junk (c, m) = Ret ((afs_ok, Some 0%Z), (c1, m)) /\
    afs_get_rw_buf env 0 (c1, m) = Ret ((afs_ok, Some (addr 0, n - sizeof_proc_shared_)), (c1, m)) /\
    store_ (addr 0) write_str (c1, m) = Ret (tt, (c2, m)) /\
    afs_write_fsync_close env fuel 0 demo_file create (Z.of_nat (length write_str)) (c2, m) = Ret (afs_ok, (c3, mc nx f [] [3] [] C)%Z) /\
    wait line (set_ty 0 afs_ev_write_fsync_close (v0 :: vr)) 1 (c3, mc nx f [] [3] [] C)%Z =
      Ret (w0 :: vr, (c', mc (nx + 1) (saved_files f) [] [] [] C')%Z) /\
    sys3 n false (idle (-1) s0' rw0') (idle (-1) s1 rw1) (idle (-1) s2 rw2) es' c'.
Proof.
  intros Hc Hrw Hroom Hbig Hnx HD. set (m := mc nx f [] [] [] C).
  destruct (reserved n k pgs s0 rw0 junk s1 rw1 s2 rw2 es c m Hc) as (c1 & H1 & Hc1).
  destruct (store_0_run n s0 rw0 write_str s1 rw1 s2 rw2 es c1 m Hc1) as (c2 & H2 & Hc2); [lia|].
  set (rest := drop (length write_str) rw0). change (splice rw0 0 write_str) with (write_str ++ rest) in Hc2.
  assert (length (write_str ++ rest) = n - sizeof_proc_shared_) as Hrest by (unfold rest; rewrite length_app, length_drop; lia).
  destruct (wfc_sent n k pgs demo_file create (length write_str) s0 (write_str ++ rest) s1 rw1 s2 rw2 es c2 m eq_refl Hc2) as (c3 & H3 & Hc3); [lia|done|done|].
  pose proof (save_served s0 rest nx f C Hnx ltac:(rewrite length_app in Hrest; lia) HD ltac:(unfold n in Hrest; lia)) as Hr0. set (C' := assoc_set 3%Z _ C) in Hr0. cbv zeta in Hr0.
  assert (served ck wf 1 (idle (-1) s1 rw1) (mc (nx + 1) (saved_files f) [] [] [3] C')%Z (idle (-1) s1 rw1) (mc (nx + 1) (saved_files f) [] [] [3] C')%Z)
    as Hr1 by (apply served_quiet; in_list).
  assert (served ck wf 2 (idle (-1) s2 rw2) (mc (nx + 1) (saved_files f) [] [] [3] C')%Z (idle (-1) s2 rw2) (mc (nx + 1) (saved_files f) [] [] [3] C')%Z)
    as Hr2 by (apply served_quiet; in_list).
  destruct (round_reports (S k) line _ _ _ _ _ _ _ _ _ _ _ _ _ _ _ _ _ Hc3 Hr0 Hr1 Hr2 (update_saved n k pgs Ds er _ _ _ _ _ _ _ _ _ _))
    as (c4 & es4 & Hc4 & He & Hw); [intros es' He; by each_ev He|].
  each_ev He. eexists c1, c2, c3, c4, _, _, _, _, C'. split; [exact H1|].
  split; [apply (rw_buf_run n pgs 0 0 _ _ _ _ c1 m Hc1); by left|]. split; [exact H2|]. split; [exact H3|].
  split; [eapply wait_run; [lia|exact Hw|reflexivity]|exact Hc4].
Qed.

(** All workers exit and hang up. *)
Lemma stop_wait line s0 rw0 es c nx f C v0 vr : sys3 n false (idle (-1) s0 rw0) (idle (-1) s1 rw1) (idle (-1) s2 rw2) es c ->
  exists c1 c' c'' w0 m', afs_stop_prep env fuel (c, mc nx f [] [] [] C) = Ret (afs_ok, (c1, mc nx f [] [11; 7; 3] [] C)%Z) /\
    wait line (set_ty 0 afs_ev_stop (v0 :: vr)) 1 (c1, mc nx f [] [11; 7; 3] [] C)%Z = Ret (w0 :: vr, (c', m')) /\
    afs_stop env (c', m') = Ret (afs_ok, (c'', m')) /\ a_ps c'' = [] /\
    m_files m' = f /\ m_dirs m' = Ds /\ m_open m' = [] /\ m_up m' = [] /\ m_gone m' = [11; 7; 3]%Z.
Proof.
  intros Hc. destruct (stop_sent n k pgs s0 rw0 s1 rw1 s2 rw2 es c (mc nx f [] [] [] C) eq_refl Hc) as (c1 & H1 & Hc1).
  set (m0 := (mc nx f [] [11; 7; 3] [] C)%Z). set (m1 := ended 3 (cfd_of 3 m0) m0). set (m2 := ended 7 (cfd_of 7 m1) m1).
  set (m3 := ended 11 (cfd_of 11 m2) m2).
  pose proof (served_exit ck wf 0 s0 rw0 m0 _ ltac:(in_list) eq_refl) as Hr0.
  pose proof (served_exit ck wf 1 s1 rw1 m1 _ ltac:(in_list) eq_refl) as Hr1.
  pose proof (served_exit ck wf 2 s2 rw2 m2 _ ltac:(in_list) eq_refl) as Hr2.
  pose (P := fun c' es' => a_ps c' = [] /\ evs_are [is_ev afs_ev_stop (-1)] es').
  destruct (round_run n k pgs ck wf strerror (S k) line _ _ _ _ _ _ _ _ _ _ _ _ _ m3 P Hc1 Hr0 Hr1 Hr2) as (c2 & es2 & [Hps He] & Hr).
  { intros c0 es0 Hc0. by apply (update_stopped n k pgs Ds er nx f [] (m_cfd m3) s0 s1 s2 rw0 rw1 rw2 es0). }
  each_ev He. cbn in Hr. eexists c1, c2, _, _, m3. split; [exact H1|]. split; [eapply wait_run; [lia|exact Hr|reflexivity]|].
  split; [unfold afs_stop; rewrite (bind_Ret _ _ _ _ _ eq_refl); cbn [fst]; rewrite Hps; reflexivity|done].
Qed.
End finish.

(** The end of the program: everything is closed, no worker is left. *)
Lemma finish_run junk pa pb d old F s0 s1 s2 rw0 rw1 rw2 es v0 v1 vr c m i j :
  copying pa pb d old F s0 rw0 i j s1 s2 rw1 rw2 [] es (idle 2 s2 rw2) c m -> length rw0 = n - sizeof_proc_shared_ ->
  length write_str + length demo_file + 1 <= n - sizeof_proc_shared_ -> (Z.of_nat (n - sizeof_proc_shared_) < 2 ^ 64)%Z -> demo_file ∉ Ds ->
  exists f c' m', demo_finish_ env fuel junk strerror poll 1 2 (v0 :: v1 :: vr) (c, m) = Ret (0%Z, (c', m')) /\ files_ok pb d old F j f /\
    a_ps c' = [] /\ m_files m' = saved_files f /\ m_dirs m' = Ds /\ m_open m' = [] /\ m_up m' = [] /\ m_gone m' = [11; 7; 3]%Z.
Proof.
  intros (Hc & (f & Hf & Hm) & _ & _) Hrw Hroom Hbig HD. destruct Hm as [nx o C Hnx _ Hob HC1 HC2 Ho].
  destruct (sync_wait s1 s2 rw1 rw2 1726 s0 rw0 es c nx f o C v0 (v1 :: vr) Hc HC2 (ex_intro _ _ Hob)) as (c1 & c2 & es2 & w2 & H1 & H2 & Hc2).
  destruct (close_wait s1 s2 rw1 rw2 1732 s0 rw0 es2 c2 nx f o (assoc_set 11%Z xb C) w2 v1 vr Hc2) as (c3 & c4 & c5 & es5 & w5 & w5' & C5 & H3 & H4 & H5 & Hc5);
    [by rewrite assoc_set_ne|by rewrite assoc_set_eq|done|].
  destruct (save_wait s1 s2 rw1 rw2 1744 s0 rw0 es5 c5 nx f C5 w5 (w5' :: vr) junk Hc5 Hrw Hroom Hbig Hnx HD)
    as (c6 & c7 & c8 & c9 & es9 & w9 & s9 & rw9 & C9 & H6 & H7 & H8 & H9 & H10 & Hc9).
  destruct (stop_wait s1 s2 rw1 rw2 1748 s9 rw9 es9 c9 (nx + 1)%Z (saved_files f) C9 w9 (w5' :: vr) Hc9)
    as (c10 & c11 & c12 & w12 & m12 & H11 & H12 & H13 & Hps & Hrest).
  exists f, c12, m12. split; [|split; [done|]; split; [done|exact Hrest]].
  unfold demo_finish_. rewrite (check_run _ _ _ _ _ _ H1), (bind_Ret _ _ _ _ _ H2), (check_run _ _ _ _ _ _ H3), (check_run _ _ _ _ _ _ H4),
    (bind_Ret _ _ _ _ _ H5), (check_out_run _ _ _ _ _ _ _ H6), (check_out_run _ _ _ _ _ _ _ H7), (bind_Ret _ _ _ _ _ H8),
    (check_run _ _ _ _ _ _ H9), (bind_Ret _ _ _ _ _ H10), (check_run _ _ _ _ _ _ H11), (bind_Ret _ _ _ _ _ H12), (check_run _ _ _ _ _ _ H13).
  reflexivity.
Qed.
End open_.
End demo.

(** *** The whole program *)
Lemma zeros_path_length pgs path : length path + 1 <= mmap_len_ pgs - sizeof_proc_shared_ ->
  length (splice (zeros pgs) 0 (path ++ [ch_nul])) = mmap_len_ pgs - sizeof_proc_shared_.
Proof. intros H. rewrite splice_length; unfold zeros; rewrite length_replicate; [done|]. rewrite length_app. cbn. lia. Qed.

Lemma opened_files_ok pa pb d F : assoc pa F = Some d -> pa <> pb ->
  assoc pa (opened_files pb F) = Some d /\ content pb (opened_files pb F) = content pb F /\
  forall p, p <> pb -> assoc p (opened_files pb F) = assoc p F.
Proof.
  intros Ha Hab. unfold opened_files. destruct (assoc pb F) eqn:Hb; [by rewrite Hb|].
  rewrite assoc_set_eq, assoc_set_ne by done. split; [done|]. split; [done|]. intros p Hp. by rewrite assoc_set_ne.
Qed.

Section program.
Context (k pgs : nat) (ck : nat -> nat) (wf : nat) (strerror : Z -> list char) (junk : proc_).
Context (Hck : forall n, 0 < n -> 0 < ck n) (Hwf : mmap_len_ pgs < wf).
Let n := mmap_len_ pgs.
Abbreviation env := (mach_env pgs) (only parsing).
Abbreviation fuel := (S (S k)) (only parsing).

Lemma init_run c F Ds : a_next c = 0 -> afs_init (c, mach0 F Ds) = Ret (tt, (starting (a_fail c) [], mach0 F Ds)).
Proof. intros H. destruct c; cbn in H; subst. reflexivity. Qed.

Lemma copy_demo_run prog pa pb F Ds d v0 v1 v2 vr c : length (p_evs junk) = proc_evs_maxlen_ -> a_next c = 0 ->
  no_nul pa -> no_nul pb -> length pa + 1 <= n - sizeof_proc_shared_ -> length pb + 1 <= n - sizeof_proc_shared_ ->
  length write_str + length demo_file + 1 <= n - sizeof_proc_shared_ -> (Z.of_nat (n - sizeof_proc_shared_) < 2 ^ 64)%Z ->
  assoc pa F = Some d -> pa <> pb -> assoc demo_dir F = None -> pb ∉ made_dirs demo_dir Ds -> demo_file ∉ made_dirs demo_dir Ds ->
  length d + (n - sizeof_proc_shared_) <= fuel * (n - sizeof_proc_shared_) ->
  exists f c' m', demo_main env fuel junk strerror (mach_poll ck wf every) [prog; pa; pb] (v0 :: v1 :: v2 :: vr) (c, mach0 F Ds) = Ret (0%Z, (c', m')) /\
    files_ok pb d (content pb F) (opened_files pb F) (length d) f /\
    a_ps c' = [] /\ m_files m' = saved_files f /\ m_dirs m' = made_dirs demo_dir Ds /\ m_open m' = [] /\ m_up m' = [] /\ m_gone m' = [11; 7; 3]%Z.
Proof.
  intros Hj Hc Ha Hb Hla Hlb Hroom Hbig HF Hab Hdir HDb HDf Hfuel.
  destruct (opened_files_ok pa pb d F HF Hab) as (Hpa & Hold & _). pose proof (made_next_ge demo_dir Ds 15) as Hge.
  destruct junk as [jf jr jst es jl jm jn js jml jp jx]. destruct es as [|j0 [|j1 [|j2 []]]]; try done. clear Hj.
  set (J := {| p_fail := jf |}). unfold demo_main. rewrite (bind_Ret _ _ _ _ _ (init_run c F Ds Hc)). unfold mach0.
  rewrite (check_out_run _ _ _ _ _ _ _ (mkdir_0 k pgs (a_fail c) F Ds jf jr jst j0 j1 j2 jl jm jn js jml jp jx demo_dir ltac:(cbn in Hroom |- *; lia))).
  rewrite (check_out_run _ _ _ _ _ _ _ (open_1 k pgs (a_fail c) F Ds jf jr jst j0 j1 j2 jl jm jn js jml jp jx pa _ _ _ _ Hla)).
  rewrite (check_out_run _ _ _ _ _ _ _ (open_2 k pgs (a_fail c) F Ds jf jr jst j0 j1 j2 jl jm jn js jml jp jx pb _ _ _ _ _ _ _ Hlb)).
  destruct (start_wait k pgs ck wf strerror Hwf F pa pb d Ha Hb HF Ds Hdir HDb 1700 _ v0 v1 v2 vr (starting_shape pgs (a_fail c) jf j0 j1 j2 _ _ _ _ _ _))
    as (c1 & es1 & w0 & w1 & w2 & H1 & Hc1).
  rewrite (bind_Ret _ _ _ _ _ H1). clear H1. set (x := made_next demo_dir Ds 15) in *. set (m1 := {| m_next := x + 1 + 1 |}).
  set (D' := made_dirs demo_dir Ds) in *. set (e' := made_errno demo_dir Ds 0) in *. clearbody x D' e'.
  assert (files_ok pb d (content pb F) (opened_files pb F) 0 (opened_files pb F) /\ m_ready D' e' x (x + 1) pa pb (opened_files pb F) 0 0 [] m1) as Hstart.
  { split; [split; [by rewrite Hold|done]|]. constructor; [lia| | |reflexivity|reflexivity|].
    - rewrite assoc_cons, decide_False by lia. by rewrite assoc_cons, decide_True.
    - by rewrite assoc_cons, decide_True.
    - intros y Hy1 Hy2. by rewrite !assoc_cons, !decide_False. }
  epose proof (conj Hc1 (conj (ex_intro (fun f => files_ok pb d (content pb F) (opened_files pb F) 0 f /\ m_ready D' e' x (x + 1) pa pb f 0 0 [] m1)
    (opened_files pb F) Hstart) (conj (zeros_path_length pgs pa Hla) (zeros_path_length pgs pb Hlb)))) as Hcp0.
  destruct (copies_all k pgs ck wf strerror Hck Hwf D' e' x (x + 1) ltac:(lia) ltac:(lia) ltac:(lia) pa pb d (content pb F) (opened_files pb F) _ _
    Hab Hpa ltac:(lia) fuel _ _ _ _ es1 c1 m1 w0 w1 (w2 :: vr) Hcp0 Hfuel)
    as (s1 & s2 & rw1 & rw2 & es2 & w0' & w1' & c2 & m2 & H2 & Hcp).
  rewrite (bind_Ret _ _ _ _ _ H2).
  eapply (finish_run k pgs ck wf strerror Hck Hwf D' e' x (x + 1) ltac:(lia) ltac:(lia) ltac:(lia) J _ _ _ _ _ _ _ _ _ _ _ _ _ _ _ _ _ _ _ Hcp);
    [|done|done|done]. apply zeros_path_length. cbn in Hroom |- *. lia.
Qed.
End program.

(** ** Claims *)

(** C14. The whole system copies files: the demo program with its workers on the
    machine of [AfsDemo], under the schedule in which every worker that was told
    something has run when [poll] returns - for any page size, however many bytes
    each write takes, whether the directory it makes is there or not, any paths
    that fit the buffers and are not those the program writes itself, any contents
    of the source and of the destination, and whatever is in the memory it starts
    with.  With one turn of its loop for each buffer of the source and one more it
    exits with 0; all three workers have exited and hung up and none is in its
    list, no file is open and no command is under way; the directory is there, the
    destination starts with the bytes of the source - followed by what was there
    before beyond their number - the third file starts with the text of the
    program, and no other file has changed.  (Under other schedules a worker may
    be left: [AfsDemo.afs_demo_schedules].) *)
Theorem afs_demo_copies pgs ck wfuel fuel junk strerror prog pa pb F Ds d evs c : 0 < pgs -> (Z.of_nat (mmap_len_ pgs) < 2 ^ 64)%Z ->
  (forall n, 0 < n -> 0 < ck n) -> mmap_len_ pgs < wfuel ->
  length (p_evs junk) = proc_evs_maxlen_ -> 3 <= length evs -> a_next c = 0 ->
  no_nul pa -> no_nul pb -> length pa < rw_buf_len_ -> length pb < rw_buf_len_ ->
  assoc pa F = Some d -> pa <> pb -> pa <> demo_file -> pb <> demo_file -> pb <> demo_dir ->
  assoc demo_dir F = None -> pb ∉ Ds -> demo_file ∉ Ds ->
  2 <= fuel -> length d <= (fuel - 1) * rw_buf_len_ ->
  exists c' m', demo_main (mach_env pgs) fuel junk strerror (mach_poll ck wfuel every) [prog; pa; pb] evs (c, mach0 F Ds) = Ret (0%Z, (c', m')) /\
    a_ps c' = [] /\ length (m_gone m') = 3 /\ m_up m' = [] /\ m_open m' = [] /\ demo_dir ∈ m_dirs m' /\
    m_content pb m' = d ++ drop (length d) (m_content pb (mach0 F Ds)) /\
    m_content demo_file m' = write_str ++ drop (length write_str) (m_content demo_file (mach0 F Ds)) /\
    forall p, p <> pb -> p <> demo_file -> assoc p (m_files m') = assoc p F.
Proof.
  intros Hpg Hbig Hck Hwf Hj Hev Hc Ha Hb Hla Hlb HF Hab Hfa Hfb Hdb Hdir HDb HDf Hfuel Hd. pose proof (mmap_len_spec pgs Hpg) as (_ & Hn & _).
  assert (length write_str + length demo_file + 1 <= rw_buf_len_) as Hroom by (apply Nat.leb_le; by vm_compute).
  set (N := rw_buf_len_) in *. clearbody N. destruct evs as [|v0 [|v1 [|v2 vr]]]; cbn [length] in Hev; [lia..|]. destruct fuel as [|[|k]]; [lia..|].
  assert (forall p, p ∉ Ds -> p <> demo_dir -> p ∉ made_dirs demo_dir Ds) as Hmade.
  { intros p H1 H2. unfold made_dirs. destruct (decide _); [done|]. by intros [?|?]%elem_of_cons. }
  destruct (copy_demo_run k pgs ck wfuel strerror junk Hck Hwf prog pa pb F Ds d v0 v1 v2 vr c Hj Hc Ha Hb ltac:(lia) ltac:(lia) ltac:(lia) ltac:(lia)
    HF Hab Hdir (Hmade _ HDb Hdb) (Hmade _ HDf ltac:(done))) as (f & c' & m' & Hr & [Hf1 Hf2] & Hps & Hfs & Hds & Ho & Hu & Hg).
  { replace (S (S k) - 1) with (S k) in Hd by lia. set (L := mmap_len_ pgs - sizeof_proc_shared_).
    assert (S k * N <= S k * L) by (apply Nat.mul_le_mono_l; subst L; lia). lia. }
  destruct (opened_files_ok pa pb d F HF Hab) as (_ & _ & Hother).
  exists c', m'. split; [exact Hr|]. split; [done|]. split; [by rewrite Hg|]. do 2 (split; [done|]).
  split; [rewrite Hds; unfold made_dirs; destruct (decide _); [done|by left]|]. unfold m_content, mach0. cbn [m_files]. rewrite Hfs.
  rewrite saved_files_content, (saved_files_other f pb), Hf1 by done. unfold copied. rewrite take_ge by lia.
  split; [done|]. split; [by rewrite Hf2, Hother|]. intros p H1 H2. by rewrite saved_files_other, Hf2, Hother.
Qed.

Ltac leb := apply Nat.leb_le; vm_compute; reflexivity.

(** A file copied over a longer one, four bytes at a time. *)
Lemma afs_demo_copies_witness : exists c' m',
  demo_main (mach_env PAGESIZE) 2 junk1 (fun _ => []) (mach_poll by_four (S (mmap_len_ PAGESIZE)) every) [lit "afs_demo"; lit "a"; lit "b"]
    (replicate 10 zero_ev) (ctx1, mach0 [(lit "a", lit "new"); (lit "b", lit "old text")] []) = Ret (0%Z, (c', m')) /\
  m_content (lit "b") m' = lit "new text" /\ a_ps c' = [].
Proof.
  destruct (afs_demo_copies PAGESIZE by_four (S (mmap_len_ PAGESIZE)) 2 junk1 (fun _ => []) (lit "afs_demo") (lit "a") (lit "b")
    [(lit "a", lit "new"); (lit "b", lit "old text")] [] (lit "new") (replicate 10 zero_ev) ctx1) as (c' & m' & H1 & H2 & _ & _ & _ & _ & H3 & _);
    [leb|apply Z.ltb_lt; vm_compute; reflexivity|intros n Hn; unfold by_four; lia|apply Nat.lt_succ_diag_r|reflexivity|leb|reflexivity
    |by repeat constructor|by repeat constructor|leb|leb|reflexivity|vm_compute; discriminate..|reflexivity|apply not_elem_of_nil|apply not_elem_of_nil|leb|leb|].
  exists c', m'. split; [exact H1|]. split; [rewrite H3; reflexivity|exact H2].
Defined.
