(* ===== verification/Bot.v ===== *)
(** * Events and the Telegram interface ([src/src/ev.c], [src/src/tg.c], [src/src/main.c])

    The event structure the modules of the bot are to report with and its two
    accessors; the Telegram module, whose three calls are stubs; and the main
    program.  Nothing calls them yet. *)

From Stdlib Require Import ZArith.
Local Open Scope Z_scope.

(** ** Events *)
Inductive sob_ev_types :=
| ev_tg_msg | ev_tg_btn | ev_tg_init | ev_tg_init_fail | ev_tg_stopped | ev_tg_sent
| ev_tg_send_fail | ev_tg_forwarded | ev_tg_fwd_fail | ev_tg_deleted | ev_tg_del_fail
| ev_tg_reacted | ev_tg_react_fail | ev_tg_msg_updated | ev_tg_msg_upd_fail | ev_tg_btn_deleted
| ev_tg_btn_del_fail
| ev_yk_init | ev_yk_init_fail | ev_yk_pay_wait_capture | ev_yk_pay_fail | ev_yk_pay_expired
| ev_yk_stopped | ev_yk_pay_started | ev_yk_pay_start_fail | ev_yk_pay_captured
| ev_yk_capture_fail | ev_yk_canceled | ev_yk_cancel_fail
| ev_les_init | ev_les_init_fail | ev_les_stopped | ev_les_write_fail | ev_les_disabled
| ev_les_added | ev_les_new_title | ev_les_new_desc | ev_les_new_price
| ev_acc_init | ev_acc_init_fail | ev_acc_stopped | ev_acc_new | ev_acc_new_fail
| ev_acc_les_unlocked | ev_acc_unlock_fail
| ev_str_init | ev_str_init_fail | ev_str_stopped
| ev_cred_init | ev_cred_init_fail | ev_cred_stopped
| ev_bot_init | ev_bot_init_fail | ev_bot_stopped.

(** [sob_ev_data_t] is a [uint64_t]. *)
Record sob_ev := { ev_ty_ : sob_ev_types; ev_data_ : Z }.

Definition sob_ev_type (ev : sob_ev) : sob_ev_types := ev_ty_ ev.
Definition sob_ev_data (ev : sob_ev) : Z := ev_data_ ev.

(** ** Telegram *)

(** The declared results of [tg_init]; the function returns an [int]. *)
Inductive tg_init_res := tg_init_res_err | tg_init_res_ok.

Definition tg_init_res_val (r : tg_init_res) : Z :=
  match r with tg_init_res_err => 2 | tg_init_res_ok => 1 end.

(** [struct tg_mod] has one field nothing uses. *)
Record tg_mod := { tg_a : Z }.

Definition tg_init (tg : tg_mod) : Z := 42.
Definition tg_stop_prep (tg : tg_mod) : Z := 42.
Definition tg_stop (tg : tg_mod) : Z := 42.

(** What [tg_init] returns is neither of its declared results. *)
Lemma tg_init_undeclared tg r : tg_init tg <> tg_init_res_val r.
Proof. destruct r; discriminate. Qed.

(** ** The main program *)
Definition main : Z := 0.
